(* ===== verification/_CoqProject ===== *)
-Q . S2P
Prelude.v
Crc.v
Cobs.v
Frame.v
Protocol.v
Queue.v
Float32.v
Pid.v
Metrics.v
ErrorLog.v
Storage.v
Decimal.v
Text.v
Telemetry.v
Sync.v
Kernel.v
Sched.v
Crunch.v
Run.v
Cores.v
Builder.v
Safety.v
Diagnostics.v
Tasks.v
Strto.v
Parser.v
Cli.v
Comms.v
Pipeline.v
DoubleBuffer.v
Formatter.v
Config.v
Device.v
KernelTasks.v
Session.v
Effects.v
Multicore.v
Turns.v
AllCores.v
CoreEffects.v
Progress.v
ExampleApp.v
ExampleCores.v
Heartbeat.v
Multirate.v
SensorPoll.v
PingPong.v
Lifecycle.v
CrunchLoop.v
TcpStream.v
Templates.v
