(* ===== verification/Prelude.v ===== *)
(** * SputterOS: a verification development

    SputterOS is a static, heap-free C++ kernel for multi-core microcontrollers: an
    application registers tasks with a builder, each core then runs a cooperative dispatch
    loop, and a host talks to the device over a serial line with COBS-framed messages. The
    header-only kernel is under src/include/sputteros/, its compiled part under src/src/;
    paths below are relative to the first unless they start with src/.

    ** Conventions

    An unsigned machine word is a [Z] with [wrap w], written out where the code computes; a
    [float] is the Standard Library's executable IEEE-754 single ([Float32]). A C array is a
    list, and [load], [store] and their block versions give [None] outside it, so "returns
    [Some]" in a theorem says that no buffer is overrun. [None] also stands for the source's
    other undefined behaviours (null dereference, failed platform assertion) and for used-up
    fuel where a loop has a bound, so that theorem says that the fuel is enough as well;
    loops that run until the application stops them answer with a flag instead.

    ** Parts

    The files, in dependency order:
    - [Prelude]: words, arrays, list lemmas and the hint database shared by all of them.
    - [Crc] (comms/protocol/Crc16.h), [Cobs] (CobsCodec.h), [Frame] (FrameEncoder.h,
      FrameDecoder.h, FrameConstants.h, MessageType.h): the wire. The encoder is a function
      on buffers; the decoder is a record and [feedByte], one received byte at a time.
    - [Protocol] (ProtocolRouter.h, IProtocolHandler.h, ResponseSerializer.h,
      utils/PerformanceSnapshot.h): dispatch of a decoded message to a handler, which is a
      class, and the layouts of the response payloads.
    - [Queue] (osal/sync/LockFreeQueue.h, IMessageQueue.h): the ring as sequential
      operations behind the queue interface, and again as the atomic accesses of one
      producer and one consumer under any interleaving.
    - [Float32], [Pid] (utils/PIDController.h and .cpp, MinMax.h): the controller.
    - [Metrics] (osal/SputterTime.h, kernel/metrics/, utils/QueueDepthMonitor.h,
      NonBlockingStopwatch, MemoryProfiler): timers, windows, deadlines, utilization.
    - [ErrorLog] (utils/logging/ErrorLogger.h and .cpp): the overwriting log ring; [Storage]
      (utils/InPlaceStorage.h): the static place of a kernel task.
    - [Sync] (osal/sync/MultiCoreSync.h): the per-core states and barriers, once as the
      calls of one core and once as a machine of all cores, one atomic access per step.
    - [Kernel] (kernel/System.h, KernelState.h, CoreDispatchMode.h, osal/sync/WatchdogSync.h,
      osal/tasks/): the static members of [System] as the record [System], with the part
      callbacks can reach in [Shared]; task lists; the lifecycle state machine. A task is a
      number; [Env] holds the configuration and the tasks' virtual functions, which are code
      of the application. [sy_trace] is a ghost: the calls the kernel made, in order.
    - [Sched] ([System::init], [System::tick]), [Crunch] (kernel/CrunchDispatcher.h), [Run]
      ([System::run], [snapshot], [reset]): what a core does. [Cores] is [System::run] on every
      core at once, one access to the kernel state or to the barriers' states per step; tasks
      and conditions are opaque there, and its barriers are the machine of [Sync].
    - [Builder] (builder/SystemBuilder.h): registration, kernel tasks, priority order,
      validation, and the configuration step of [build].
    - [Safety] (logic/InterlockManager.h and .cpp, kernel/tasks/ScheduledControlTask.h): the
      interlocks and the control task; the user application is a class.
    - [Diagnostics] (kernel/tasks/BackgroundDiagnosticsTask.h, src/kernel/
      BackgroundDiagnosticsTask.cpp): the diagnostics task on the timers of the tasks it
      watches, the error log and the telemetry ring, and its place in the environment.
    - [Tasks] (osal/tasks/): what a task inherits: default constants, the device registry.
    - [Decimal], [Text] (utils/logging/LightweightStringBuilder.h and .cpp), [Telemetry]
      (TelemetryLogger.h and .cpp), [Formatter] (utils/PerformanceFormatter.h and .cpp): text.
      Strings are lists of character codes.
    - [Strto] (the C library's strtol and strtof as far as the parser relies on them), [Parser]
      (logic/CommandParser.h), [Cli] (comms/CLI.h), [Comms] (kernel/tasks/ScheduledCommsTask.h):
      the line in both modes; the stream is a class, and so is the queue.
    - [Pipeline]: the communications and the control task on their common queue.
    - [DoubleBuffer] (osal/sync/AtomicDoubleBuffer.h): one context, and a writer and a reader
      interleaved word by word.
    - [Config] (ConfigTraits.h): every trait as a function of a configuration, and the
      environment it makes of an application.
    - [Device], [KernelTasks], [Session]: whole devices. [Device] is the life from registration
      to shutdown, [KernelTasks] what [build] makes of its dependencies, and [Session] puts the
      communications and the control task into the kernel, in front of a host.
    - [Effects]: a run of the kernel as the sequence of its calls, an abstract machine on the
      shared state, and invariants of that machine carried through a run; [Progress]: what one
      tick does to a session, read off that machine.
    - [Multicore]: [System::run] of every core on the one state of the kernel, with the tasks
      they run. A step ends at the next access to the kernel state or to a barrier's state, so
      the check and the assignment of a transition are two steps, and a barrier loads one core's
      state per step. [Turns]: what a step does; [AllCores]: the invariant of the machine and
      what follows for devices and sessions; [CoreEffects]: its runs as sequences of events.
    - [ExampleApp] (src/exampleProjects/common/ and what the [main] functions share): flags, user
      tasks that write to the telemetry ring, the kernel's tasks around them, and the life of
      core 0 from the builder's calls to shutdown. A user task is a function on the program's
      state, [Bench] the state of the whole program; a [diary] is what its ticks have logged
      between the drains, and [printed] what is then on stdout. [ExampleCores]: the same on all
      cores, also for tasks that ask for the kernel's state.
    - [Heartbeat], [Multirate], [SensorPoll] (the programs of these names in
      src/exampleProjects/): tasks, configuration and [main], as instances of [ExampleApp].
    - [Lifecycle], [PingPong], [CrunchLoop]: the programs with two cores, the first two as
      instances of [ExampleCores], the third, which has an application and a crunch task in place
      of user tasks and its own flags, on [CoreEffects]. The tasks by themselves are stepped in
      any order before, in [PingPong] access by access.
    - [TcpStream] (src/exampleProjects/common/hal/TcpStreamServer.h): the stream over a socket, an
      instance of the CLI's stream class; [Templates] (src/templates/): the empty project.

    They interact as in the code: the builder's operations are transitions of [System];
    [sys_run] calls the barriers of [Sync] through the class [SyncHost] and the loops of
    [Sched] and [Crunch]; every tick drives the timers of [Metrics], the watchdog and the
    log; [snapshot] reads the timers into the record that [Protocol] serializes and [Frame]
    puts on the wire; the CLI dispatches frames to the communications task through the
    class [IProtocolHandler], and the queue carries the commands to the control task.

    ** What is shown

    - The device: from power-on on, and for every order of the steps of its cores, nothing is
      undefined and every task is called behind its initialisation and, unless it is a crunch
      task, on its own core ([device_all_cores]; two CRUNCH cores share one dispatcher,
      [crunch_cores_share]), no acknowledged command is lost, repeated or reordered
      ([session_all_cores]; [session_exactly_once] for the run of one core), and once all cores
      are initialised a shutdown is final and brings every core back ([all_cores_wind_down]).
      Before that it need not be ([late_core_revives]). The run of one core with its peers behind
      the environment is the same machine ([run_is_alone]). A tick answers and delivers what
      waited ([session_progress]), and the kernel's tasks run where they should
      ([kernel_only_builds]).
    - Programs: what each logs and what its drain prints, from [main] to shutdown: exactly those
      of a reference played on the ticks in the trace ([heartbeat_pulses]; on two cores in any
      order of their steps [lifecycle_program], [pingpong_program]; the last line of ping and
      pong may not come out, [last_line_lost]), or what holds of it ([multirate_reports],
      [sensor_readings]); the steps of the crunch loop are those of the trace
      ([crunchloop_program]), and the game is safe for every order of what its tasks do
      ([ping_pong]); the stream loses, repeats and reorders nothing while there is room
      ([tcp_delivers]).
    - Wire: encoding and decoding are inverse ([frame_roundtrip], [cobs_roundtrip]) and the
      decoder stays inside its buffers ([decoder_safe]); the checksum detects bursts
      ([crc16_detects_bursts]) and a damaged frame is rejected ([damaged_frame_rejected]); the
      errors' effects are exact ([overflow_restarts], [length_mismatch_error],
      [dispatch_spec]); layouts ([metrics_layout], [response_payloads]).
    - Line: whatever a host sends, a tick returns ([comms_tick_safe]); commands, handshakes and
      requests are served in one tick ([framed_command_served], [text_command_served],
      [handshake_switches_mode], [requests_answered]); the parser implements a specification on
      lines ([parser_refines]) and inverts the printing of commands ([command_line_roundtrip]).
    - From line to application, for any order of the two tasks: [pipeline_exactly_once],
      [pipeline_drains].
    - Concurrency: the queue is a FIFO ([queue_refines_fifo]), also under interleaving
      ([spsc_fifo]), and without a data race ([spsc_no_race]); no core passes a barrier too
      early ([barriers_safe]), barriers return whatever the other cores do between any two of
      their loads ([barriers_return]), and the two cores can disagree on a start-up
      ([startup_disagreement]); no core dispatches before all are initialised, nor leaves unprompted unless a barrier has failed ([cores_in_step]), a
      shutdown reaches every core ([cores_wind_down]), but nothing keeps the kernel state from
      going back ([shut_down_twice], [late_core_revives], [unprompted_shutdown]); a reader of
      the double buffer gets whole values while at most one write overlaps its read
      ([double_buffer_whole]), and can get a mixture otherwise ([double_buffer_tears]).
    - Kernel: on all cores it acts on its tasks' state by its calls, the stop conditions and the
      watchdog callback alone ([all_cores_effects]); the lifecycle ([lifecycle_forward]),
      initialisation ([init_runs_all]), exactly the due tasks in a tick, with their times
      recorded, and managed periods between ticks
      ([tick_dispatches_due], [managed_period_respected]), the background ring
      ([background_turn], [background_starvation]), a core's life ([run_to_shutdown]), the
      crunch loop ([crunch_history], [crunch_abort_prompt]), snapshots ([snapshot_complete]).
    - Builder: [build] accepts exactly the valid topologies and leaves a configured system
      ([build_valid]); the sort is stable ([sort_stable]); a failed build cannot be repeated
      ([build_retry_fails]); a background core in CRUNCH mode runs no background task
      ([background_on_crunch_core]).
    - Safety: the control task's tick ([control_tick_spec]), the interlocks against a
      specification on flags ([interlocks_refine]).
    - Diagnostics: a call of the task in a kernel ([diagnostics_cycle]), and in every run of a
      built kernel the totals it should compute stay 0 ([health_totals_stay]).
    - Text: the string builder and both formats of the performance formatter equal the cut of a
      reference text ([builder_refines], [formats_refine]); the telemetry ring keeps its last
      messages ([telemetry_drains_last]).
    - Utilities: [pid_output_clamped], [pid_nan_latches], [task_timer_window],
      [advance_terminates], [error_log_keeps_last], [uptime_exact], [devices_registered],
      [storage_balanced].

    ** Bounds and fuel

    [flat_loop] and [crunch_loop] take the number of iterations as fuel and answer false
    when it is used up: their theorems hold for every number of iterations (below 2^32 where
    a 32-bit counter of the code counts them). The barriers poll at most as often as their
    timeout says, which is their fuel, and [barriers_return] shows that it is enough.
    [advance_terminates] gives the number of turns of the deadline tracker's catch-up loop.
    The communications task's command loop has one turn, and [comms_tick_safe] shows that it
    needs no more; the formatter's digit loop has twenty, the digits of a 64-bit number, and
    [formats_refine] shows that they are enough. All other loops run over array indices.
    [wind_down] is the number of steps after which a core has returned from a shutdown,
    [wind_down_steps] that number on the machine of [Multicore].
    The theorems on programs hold for every number of iterations; [ping_pong] and
    [pingpong_program] bound the number of steps and of lines by 2^32, below which no counter
    of the game wraps, and in the other programs wrapping is part of the statement
    ([lifecycle_program]) or excluded by the clock.

    ** What is not modelled

    The application's code: tasks, devices, stop conditions and the platform clock are parameters
    in [Env] with the hypothesis [env_ok], that they use the public interface only and keep
    the promise [env_inv] the application makes about its own state. For the run of one core
    the other cores are such a parameter too, [env_peers]. In [Multicore] they are there, and
    their steps come in any order; the tasks of one tick, or one iteration of the crunch
    loop, are one step there. The accesses inside are interleaved in [Queue], [DoubleBuffer] and
    [PingPong], each for its own object. In the example programs the tasks are given, and
    parameters are the clock, what arrives on the line, what the host's threads do
    ([surroundings]), and whether the socket of [main] finds a client. What is said of stdout is
    what the telemetry drain writes there: the banners and summaries that [main] and the socket
    print around the run are not modelled. The sockets'
    answers are arguments of the stream's steps. Not modelled: the platform layer (hal/) but
    for the stream's interface, which has no behaviour of its own; static storage, assertion
    and type-trait helpers, which are language glue; and tests. *)

From stdpp Require Export base list numbers option sets gmap.
From Stdlib Require Export ZArith Lia.

#[global] Arguments Nat.modulo : simpl never.
#[global] Arguments Nat.div : simpl never.

(** ** Machine words *)

Declare Scope word_scope.
Delimit Scope word_scope with word.

(** Conversion of an integer to an unsigned [w]-bit type (C++ [static_cast]). *)
Definition wrap (w x : Z) : Z := (x mod 2 ^ w)%Z.

Abbreviation u8 := (wrap 8) (only parsing).
Abbreviation u16 := (wrap 16) (only parsing).
Abbreviation u32 := (wrap 32) (only parsing).
Abbreviation u64 := (wrap 64) (only parsing).

(** [x] is a value of the unsigned [w]-bit type. *)
Definition in_word (w x : Z) : Prop := (0 <= x < 2 ^ w)%Z.

#[global] Instance in_word_dec w x : Decision (in_word w x).
Proof. unfold in_word. apply _. Defined.

(** Little-endian bytes of a word, as [memcpy] writes them on the targets. *)
Fixpoint le_bytes (n : nat) (x : Z) : list Z :=
  match n with
  | O => []
  | S n => Z.land x 255 :: le_bytes n (Z.shiftr x 8)
  end.

Fixpoint le_word (bs : list Z) : Z :=
  match bs with
  | [] => 0%Z
  | b :: bs => Z.lor b (Z.shiftl (le_word bs) 8)
  end.

(** ** C arrays

    A C array is a list; a load or store outside it is undefined behaviour and is
    the value [None] of the option monad, so that a theorem which says a function
    returns [Some] says that it stays inside its buffers. *)

Definition load {A} (a : list A) (i : nat) : option A := a !! i.

Definition store {A} (a : list A) (i : nat) (v : A) : option (list A) :=
  if decide (i < length a) then Some (<[i := v]> a) else None.

(** [load_all a i n] reads [n] elements from [a[i..]]: the source of a [memcpy]. *)
Definition load_all {A} (a : list A) (i n : nat) : option (list A) :=
  if decide (i + n <= length a) then Some (take n (drop i a)) else None.

(** [store_all a i vs] writes [vs] at [a[i..]]: a [memcpy] into [a]. *)
Fixpoint store_all {A} (a : list A) (i : nat) (vs : list A) : option (list A) :=
  match vs with
  | [] => Some a
  | v :: vs => mbind (fun a' => store_all a' (S i) vs) (store a i v)
  end.

(** ** Hints and tactics *)

Create HintDb sput discriminated.
Create Rewrite HintDb sput_arr.

#[export] Hint Rewrite @length_app @length_drop @length_take @length_insert
  @length_cons @length_replicate @length_fmap @length_reverse : sput_arr.

(** Normalise list lengths everywhere and call [lia]. *)
Ltac len := autorewrite with sput_arr in *; simpl length in *; try lia.

(** [lia] with division and modulo by constants. *)
Ltac nat_div_name a b :=
  let q := fresh "q" in
  pose proof (Nat.div_mod_eq a b);
  assert (a mod b < b) by (apply Nat.mod_upper_bound; lia);
  generalize dependent (a / b); intros q; intros.
Ltac divlia :=
  repeat match goal with
  | |- context [Nat.div ?a ?b] => nat_div_name a b
  | _ : context [Nat.div ?a ?b] |- _ => nat_div_name a b
  end; lia.

(** Split the conditionals of a branching definition. *)
Ltac branch :=
  repeat (case_match || case_decide || case_bool_decide); simplify_eq/=; try done.

(** ** Words: bounds *)

Section words.
Context (w : Z).
Hypothesis Hw : (0 <= w)%Z.

Lemma wrap_in_word x : in_word w (wrap w x).
Proof. apply Z.mod_pos_bound. lia. Qed.

Lemma wrap_id x : in_word w x -> wrap w x = x.
Proof. intros H. by apply Z.mod_small. Qed.

Lemma wrap_wrap x : wrap w (wrap w x) = wrap w x.
Proof. apply wrap_id, wrap_in_word. Qed.

Lemma wrap_land x : wrap w x = Z.land x (Z.ones w).
Proof. unfold wrap. by rewrite Z.land_ones. Qed.

Lemma wrap_testbit x i :
  (0 <= i)%Z -> Z.testbit (wrap w x) i = (i <? w)%Z && Z.testbit x i.
Proof.
  intros Hi. unfold wrap. destruct (Z.ltb_spec i w) as [Hlt|Hge]; simpl.
  - apply Z.mod_pow2_bits_low. lia.
  - apply Z.mod_pow2_bits_high. lia.
Qed.

Lemma in_word_testbit_high x i :
  in_word w x -> (w <= i)%Z -> Z.testbit x i = false.
Proof.
  intros Hx Hi. rewrite <- (wrap_id x Hx). unfold wrap. apply Z.mod_pow2_bits_high. lia.
Qed.

Lemma in_word_bits x :
  (0 <= x)%Z -> (forall i, (w <= i)%Z -> Z.testbit x i = false) -> in_word w x.
Proof.
  intros Hx Hb. rewrite <- (Z.mod_small x (2 ^ w)) at 1; [apply (wrap_in_word x)|].
  split; [done|]. destruct (decide (x = 0)%Z) as [->|Hne]; [lia|].
  destruct (Z.lt_ge_cases x (2 ^ w)) as [|Hge]; [done|exfalso].
  assert (Hlog : (w <= Z.log2 x)%Z) by (apply Z.log2_le_pow2; lia).
  specialize (Hb (Z.log2 x) Hlog). rewrite Z.bit_log2 in Hb; [done|lia].
Qed.

Lemma lxor_in_word x y : in_word w x -> in_word w y -> in_word w (Z.lxor x y).
Proof.
  intros Hx Hy. apply in_word_bits.
  - apply Z.lxor_nonneg. unfold in_word in *. lia.
  - intros i Hi. rewrite Z.lxor_spec, !in_word_testbit_high; done.
Qed.
End words.

#[export] Hint Resolve wrap_in_word wrap_id wrap_wrap lxor_in_word : sput.
#[export] Hint Extern 1 (_ <= _)%Z => lia : sput.

Lemma in_word_mono w w' x : (0 <= w <= w')%Z -> in_word w x -> in_word w' x.
Proof.
  unfold in_word. intros Hw Hx.
  assert (2 ^ w <= 2 ^ w')%Z by (apply Z.pow_le_mono_r; lia). lia.
Qed.

(** ** Arrays: loads and stores *)

Section arrays.
Context {A : Type}.
Implicit Types (l r : list A) (v x : A) (i : nat).

Lemma store_ok (a : list A) i v : i < length a -> store a i v = Some (<[i := v]> a).
Proof. intros H. unfold store. by rewrite decide_True. Qed.

Lemma store_oob (a : list A) i v : length a <= i -> store a i v = None.
Proof. intros H. unfold store. rewrite decide_False; [done|lia]. Qed.

Lemma store_0 (a : list A) x v : store (x :: a) 0 v = Some (v :: a).
Proof. apply store_ok. simpl. lia. Qed.

Lemma store_S (a : list A) x i v : store (x :: a) (S i) v = cons x <$> store a i v.
Proof. unfold store. simpl. repeat case_decide; try done; lia. Qed.

Lemma store_length (a : list A) i v (b : list A) : store a i v = Some b -> length b = length a.
Proof. unfold store. intros H. branch. apply length_insert. Qed.

Lemma load_middle_S l x y r : load (l ++ x :: y :: r) (S (length l)) = Some y.
Proof. unfold load. rewrite lookup_app_r by lia. by replace (S (length l) - length l) with 1 by lia. Qed.

Lemma load_all_ok (a : list A) i n : i + n <= length a -> load_all a i n = Some (take n (drop i a)).
Proof. intros H. unfold load_all. by rewrite decide_True. Qed.

Lemma load_all_middle l m r : load_all (l ++ m ++ r) (length l) (length m) = Some m.
Proof. rewrite load_all_ok by len. by rewrite drop_app_length, take_app_length. Qed.

Lemma load_ok (a : list A) i : i < length a -> exists v, load a i = Some v.
Proof. intros H. by apply lookup_lt_is_Some_2 in H as [v Hv]; exists v. Qed.

Lemma store_middle l x r v : store (l ++ x :: r) (length l) v = Some (l ++ v :: r).
Proof.
  rewrite store_ok by len. by rewrite insert_app_r_alt, Nat.sub_diag by lia.
Qed.

Lemma store_middle_S l a x r v :
  store (l ++ a :: x :: r) (S (length l)) v = Some (l ++ a :: v :: r).
Proof.
  pose proof (store_middle (l ++ [a]) x r v) as H.
  rewrite <- !app_assoc, length_app, Nat.add_1_r in H. exact H.
Qed.

Lemma load_middle l x r : load (l ++ x :: r) (length l) = Some x.
Proof. unfold load. by rewrite list_lookup_middle. Qed.

Lemma store_all_middle l m r vs :
  length m = length vs -> store_all (l ++ m ++ r) (length l) vs = Some (l ++ vs ++ r).
Proof.
  revert l m. induction vs as [|v vs IH]; intros l [|x m] Hl; simplify_eq/=; [done|].
  rewrite store_middle. simpl.
  specialize (IH (l ++ [v]) m).
  rewrite <- !app_assoc in IH. simpl in IH.
  replace (length (l ++ [v])) with (S (length l)) in IH by len.
  by apply IH.
Qed.

(** Writing a block that fits: the prefix and the tail of the array are kept. *)
Lemma store_all_ok (a : list A) i vs :
  i + length vs <= length a ->
  store_all a i vs = Some (take i a ++ vs ++ drop (i + length vs) a).
Proof.
  intros H.
  assert (Ha : a = take i a ++ take (length vs) (drop i a) ++ drop (i + length vs) a).
  { rewrite <- (drop_drop a), take_drop. by rewrite take_drop. }
  rewrite Ha at 1. rewrite <- (store_all_middle (take i a) (take (length vs) (drop i a))); len.
  f_equal. len.
Qed.

Lemma store_all_length (a : list A) i vs (b : list A) : store_all a i vs = Some b -> length b = length a.
Proof.
  revert a i. induction vs as [|v vs IH]; intros a i H; simplify_eq/=; [done|].
  destruct (store a i v) as [a'|] eqn:E; simplify_eq/=.
  rewrite (IH _ _ H). by eapply store_length.
Qed.
End arrays.

(** ** Little-endian words *)

(** Prove an equation between words bit by bit. *)
Ltac bitwise i Hi := apply Z.bits_inj'; intros i Hi.

(** The bytes of a word. *)
Abbreviation bytes_ok := (Forall (in_word 8)).

Lemma le_bytes_length n x : length (le_bytes n x) = n.
Proof. revert x. induction n; intros x; simpl; auto. Qed.

Lemma land_255_byte x : in_word 8 (Z.land x 255).
Proof. change 255%Z with (Z.ones 8). rewrite Z.land_ones by lia. by apply Z.mod_pos_bound. Qed.

Lemma le_bytes_ok n x : bytes_ok (le_bytes n x).
Proof. revert x. induction n; intros x; simpl; constructor; auto using land_255_byte. Qed.

Lemma le_word_nonneg bs : bytes_ok bs -> (0 <= le_word bs)%Z.
Proof.
  induction 1 as [|b bs Hb _ IH]; simpl; [done|].
  apply Z.lor_nonneg. unfold in_word in Hb. split; [lia|]. by apply Z.shiftl_nonneg.
Qed.

(** Bit [i] of an assembled word, read from its head byte and its tail. *)
Lemma le_word_testbit b bs i :
  in_word 8 b -> (0 <= i)%Z ->
  Z.testbit (le_word (b :: bs)) i =
    if (i <? 8)%Z then Z.testbit b i else Z.testbit (le_word bs) (i - 8).
Proof.
  intros Hb Hi. simpl. rewrite Z.lor_spec. destruct (Z.ltb_spec i 8).
  - rewrite Z.shiftl_spec_low by lia. by rewrite orb_false_r.
  - rewrite (in_word_testbit_high 8 ltac:(lia) b) by (done || lia). by rewrite Z.shiftl_spec by lia.
Qed.

Lemma le_word_in_word bs : bytes_ok bs -> in_word (8 * Z.of_nat (length bs)) (le_word bs).
Proof.
  intros Hbs. apply in_word_bits; [lia|by apply le_word_nonneg|].
  induction Hbs as [|b bs Hb Hbs IH]; intros i Hi.
  - by rewrite Z.bits_0.
  - simpl length in Hi. rewrite le_word_testbit by (done || lia).
    destruct (Z.ltb_spec i 8); [lia|]. apply IH. lia.
Qed.

Lemma land_255_testbit x i :
  (0 <= i)%Z -> Z.testbit (Z.land x 255) i = (i <? 8)%Z && Z.testbit x i.
Proof.
  intros Hi. change 255%Z with (Z.ones 8).
  rewrite Z.land_spec, Z.testbit_ones_nonneg by lia. apply andb_comm.
Qed.

Lemma le_word_le_bytes n x : le_word (le_bytes n x) = wrap (8 * Z.of_nat n) x.
Proof.
  revert x. induction n as [|n IH]; intros x.
  - simpl. unfold wrap. by rewrite Z.mod_1_r.
  - bitwise i Hi. cbn [le_bytes].
    rewrite le_word_testbit by (done || apply land_255_byte).
    rewrite wrap_testbit by lia. rewrite land_255_testbit by done.
    destruct (Z.ltb_spec i 8); simpl.
    + destruct (Z.ltb_spec i (8 * Z.of_nat (S n))); [done|lia].
    + rewrite IH, wrap_testbit by lia. rewrite Z.shiftr_spec by lia.
      replace (i - 8 + 8)%Z with i by lia.
      f_equal. apply eq_true_iff_eq. rewrite !Z.ltb_lt. lia.
Qed.

Lemma le_bytes_le_word bs : bytes_ok bs -> le_bytes (length bs) (le_word bs) = bs.
Proof.
  induction 1 as [|b bs Hb Hbs IH]; [done|]. cbn [length le_bytes]. f_equal.
  - bitwise i Hi. rewrite land_255_testbit, le_word_testbit by done.
    destruct (Z.ltb_spec i 8); simpl; [done|]. symmetry. by apply (in_word_testbit_high 8 ltac:(lia)).
  - etransitivity; [|exact IH]. f_equal. bitwise i Hi.
    rewrite Z.shiftr_spec by lia. rewrite le_word_testbit by (done || lia).
    destruct (Z.ltb_spec (i + 8) 8); [lia|]. f_equal. lia.
Qed.

#[export] Hint Resolve le_bytes_ok land_255_byte le_word_in_word : sput.

Lemma Exists_lookup {A} (P : A -> Prop) l : Exists P l <-> exists i x, l !! i = Some x /\ P x.
Proof.
  rewrite Exists_exists. split; [intros (x & (i & Hi)%list_elem_of_lookup & Hx); eauto|].
  intros (i & x & Hi & Hx). exists x. split; [by eapply list_elem_of_lookup_2|done].
Qed.

(** ** Histories that keep the last entries *)

Section last_n.
Context {A : Type}.
Implicit Types (x : A) (xs : list A).

(** The last [n] elements. *)
Definition last_n (n : nat) xs : list A := drop (length xs - n) xs.

(** Appending to a full history drops its oldest element. *)
Definition push_last (n : nat) x xs : list A := (if decide (length xs = n) then tail xs else xs) ++ [x].

Lemma last_n_length n xs : length (last_n n xs) = Nat.min (length xs) n.
Proof. unfold last_n. len. Qed.

Lemma push_last_last n x xs : 0 < n -> push_last n x (last_n n xs) = last_n n (xs ++ [x]).
Proof.
  intros Hn. unfold push_last, last_n. rewrite length_drop, length_app. simpl length.
  case_decide as Hl.
  - replace (length xs + 1 - n) with (S (length xs - n)) by lia.
    rewrite drop_app_le by lia. f_equal. rewrite <- Nat.add_1_r, <- drop_drop. by destruct (drop _ xs).
  - replace (length xs - n) with 0 by lia. by replace (length xs + 1 - n) with 0 by lia.
Qed.
End last_n.
