(* ===== verification/Crc.v ===== *)
(** * CRC16-CCITT ([comms/protocol/Crc16.h])

    The bit-shift implementation of the frame checksum on 16-bit words, and what
    it detects: the state update is a bijection for each byte, so an error
    confined to two consecutive bytes always changes the checksum. *)

From S2P Require Import Prelude.

#[local] Open Scope Z_scope.

(** One turn of the inner loop: shift out the top bit, reduce by 0x1021. *)
Definition crc_bit (crc : Z) : Z :=
  if Z.testbit crc 15 then u16 (Z.lxor (Z.shiftl crc 1) 0x1021) else u16 (Z.shiftl crc 1).

(** One turn of the outer loop, for the byte [b]. *)
Definition crc_byte (crc b : Z) : Z :=
  Nat.iter 8 crc_bit (u16 (Z.lxor crc (Z.shiftl b 8))).

Definition crc16 (data : list Z) (init : Z) : Z := fold_left crc_byte data init.

(** The default argument of [crc16]. *)
Definition crc_init : Z := 0xFFFF.

#[global] Arguments crc_bit : simpl never.
#[global] Arguments crc_byte : simpl never.

(** ** Bounds and composition *)

Lemma crc_bit_word crc : in_word 16 (crc_bit crc).
Proof. unfold crc_bit. case_match; auto with sput. Qed.

Lemma crc_bits_word n crc : in_word 16 crc -> in_word 16 (Nat.iter n crc_bit crc).
Proof. destruct n; simpl; auto using crc_bit_word. Qed.

Lemma crc_byte_word crc b : in_word 16 (crc_byte crc b).
Proof. apply crc_bits_word. auto with sput. Qed.

Lemma crc16_word data init : in_word 16 init -> in_word 16 (crc16 data init).
Proof. revert init. induction data; simpl; auto using crc_byte_word. Qed.

Lemma crc16_app a b init : crc16 (a ++ b) init = crc16 b (crc16 a init).
Proof. apply fold_left_app. Qed.

#[export] Hint Resolve crc_bit_word crc_byte_word crc16_word : sput.

(** ** The update as a linear shift register *)

Lemma poly_testbit i :
  0 <= i -> Z.testbit 0x1021 i = bool_decide (i = 0 \/ i = 5 \/ i = 12).
Proof.
  intros Hi. destruct (Z.le_gt_cases 13 i).
  - rewrite bool_decide_false by lia. apply (in_word_testbit_high 13); [lia| |lia].
    unfold in_word; lia.
  - assert (i = 0 \/ i = 1 \/ i = 2 \/ i = 3 \/ i = 4 \/ i = 5 \/ i = 6 \/ i = 7 \/ i = 8 \/
      i = 9 \/ i = 10 \/ i = 11 \/ i = 12) as Hc by lia.
    destruct_or! Hc; subst; reflexivity.
Qed.

Lemma crc_bit_testbit crc i :
  0 <= i < 16 ->
  Z.testbit (crc_bit crc) i =
    xorb ((0 <? i) && Z.testbit crc (i - 1)) (Z.testbit crc 15 && Z.testbit 0x1021 i).
Proof.
  intros Hi. unfold crc_bit.
  assert (Hs : Z.testbit (Z.shiftl crc 1) i = (0 <? i) && Z.testbit crc (i - 1)).
  { rewrite Z.shiftl_spec by lia. destruct (Z.ltb_spec 0 i); [done|].
    apply Z.testbit_neg_r. lia. }
  destruct (Z.testbit crc 15);
    rewrite wrap_testbit by lia; rewrite (proj2 (Z.ltb_lt i 16)) by lia; simpl.
  - by rewrite Z.lxor_spec, Hs.
  - by rewrite Hs, xorb_false_r.
Qed.

(** The register is linear: updates distribute over exclusive or. *)
Lemma crc_bit_lxor x y :
  crc_bit (Z.lxor x y) = Z.lxor (crc_bit x) (crc_bit y).
Proof.
  bitwise i Hi. rewrite Z.lxor_spec. destruct (Z.lt_ge_cases i 16).
  - rewrite !crc_bit_testbit by lia. rewrite !Z.lxor_spec.
    destruct (0 <? i), (Z.testbit x (i - 1)), (Z.testbit y (i - 1)),
      (Z.testbit x 15), (Z.testbit y 15), (Z.testbit 0x1021 i); reflexivity.
  - rewrite !(in_word_testbit_high 16) by (auto using crc_bit_word with sput). done.
Qed.

Lemma crc_bits_lxor n x y :
  Nat.iter n crc_bit (Z.lxor x y) = Z.lxor (Nat.iter n crc_bit x) (Nat.iter n crc_bit y).
Proof. induction n as [|n IH]; simpl; [done|]. by rewrite IH, crc_bit_lxor. Qed.

(** The kernel of one update is trivial: bit 0 of the result is the bit shifted out. *)
Lemma crc_bit_kernel x : in_word 16 x -> crc_bit x = 0 -> x = 0.
Proof.
  intros Hx Hz.
  assert (H15 : Z.testbit x 15 = false).
  { pose proof (crc_bit_testbit x 0 ltac:(lia)) as Hb.
    rewrite Hz, Z.bits_0 in Hb. by destruct (Z.testbit x 15). }
  bitwise i Hi. rewrite Z.bits_0. destruct (Z.lt_ge_cases i 15).
  - pose proof (crc_bit_testbit x (i + 1) ltac:(lia)) as Hb.
    rewrite Hz, Z.bits_0, H15, xorb_false_r in Hb.
    rewrite (proj2 (Z.ltb_lt 0 (i + 1))) in Hb by lia.
    replace (i + 1 - 1) with i in Hb by lia. by symmetry.
  - destruct (decide (i = 15)) as [->|]; [done|].
    apply (in_word_testbit_high 16); [lia|done|lia].
Qed.

Lemma crc_bits_kernel n x : in_word 16 x -> Nat.iter n crc_bit x = 0 -> x = 0.
Proof.
  intros Hx. induction n as [|n IH]; simpl; [done|]. intros Hz.
  apply IH, crc_bit_kernel; auto using crc_bits_word.
Qed.

Lemma crc_bits_inj n x y :
  in_word 16 x -> in_word 16 y -> Nat.iter n crc_bit x = Nat.iter n crc_bit y -> x = y.
Proof.
  intros Hx Hy He. apply Z.lxor_eq_0_iff. apply (crc_bits_kernel n); [auto with sput|].
  rewrite crc_bits_lxor, He. apply Z.lxor_nilpotent.
Qed.

(** ** Error detection *)

(** The register before the eight shifts of a byte. *)
Lemma crc_byte_eq crc b :
  in_word 16 crc -> in_word 8 b ->
  crc_byte crc b = Nat.iter 8 crc_bit (Z.lxor crc (Z.shiftl b 8)).
Proof.
  intros Hc Hb. unfold crc_byte. rewrite wrap_id; [done|].
  apply lxor_in_word; [lia|done|]. unfold in_word in *.
  rewrite Z.shiftl_mul_pow2 by lia. lia.
Qed.

Lemma shiftl8_word b : in_word 8 b -> in_word 16 (Z.shiftl b 8).
Proof. unfold in_word. intros. rewrite Z.shiftl_mul_pow2 by lia. lia. Qed.

#[export] Hint Resolve shiftl8_word : sput.

(** For a fixed byte the register update is injective. *)
Lemma crc_byte_inj_state c1 c2 b :
  in_word 16 c1 -> in_word 16 c2 -> in_word 8 b -> crc_byte c1 b = crc_byte c2 b -> c1 = c2.
Proof.
  intros H1 H2 Hb. rewrite !crc_byte_eq by done. intros He.
  apply crc_bits_inj in He; auto with sput.
  apply (f_equal (fun x => Z.lxor x (Z.shiftl b 8))) in He.
  by rewrite !Z.lxor_assoc, !Z.lxor_nilpotent, !Z.lxor_0_r in He.
Qed.

Lemma crc16_inj_state bs c1 c2 :
  in_word 16 c1 -> in_word 16 c2 -> bytes_ok bs -> crc16 bs c1 = crc16 bs c2 -> c1 = c2.
Proof.
  intros H1 H2 Hbs. revert c1 c2 H1 H2.
  induction Hbs as [|b bs Hb _ IH]; intros c1 c2 H1 H2 He; [done|]. simpl in He.
  apply IH in He; auto with sput. by apply crc_byte_inj_state in He.
Qed.

(** Two bytes fed to the register are one 16-bit word fed to it. *)
Lemma crc_two_bytes c b1 b2 :
  in_word 16 c -> in_word 8 b1 -> in_word 8 b2 ->
  crc_byte (crc_byte c b1) b2 =
    Nat.iter 16 crc_bit (Z.lxor c (Z.lxor (Z.shiftl b1 8) b2)).
Proof.
  intros Hc H1 H2. rewrite (crc_byte_eq _ b2) by auto with sput.
  rewrite crc_byte_eq by done.
  assert (Hb2 : Nat.iter 8 crc_bit b2 = Z.shiftl b2 8).
  { clear -H2. assert (Hs : forall n : nat, (n <= 8)%nat ->
      Nat.iter n crc_bit b2 = Z.shiftl b2 (Z.of_nat n)).
    { induction n as [|n IH]; intros Hn; [done|]. simpl Nat.iter. rewrite IH by lia.
      unfold crc_bit. rewrite Z.shiftl_spec by lia.
      rewrite (in_word_testbit_high 8 ltac:(lia)) by (done || lia).
      rewrite Z.shiftl_shiftl by lia. rewrite Nat2Z.inj_succ, <- Z.add_1_r.
      apply wrap_id. unfold in_word in *. rewrite Z.shiftl_mul_pow2 by lia.
      assert (2 ^ (Z.of_nat n + 1) <= 2 ^ 8) by (apply Z.pow_le_mono_r; lia). nia. }
    apply (Hs 8%nat). lia. }
  rewrite <- Hb2, <- crc_bits_lxor. change 16%nat with (8 + 8)%nat.
  rewrite Nat.iter_add. by rewrite Z.lxor_assoc.
Qed.

Lemma pair_word_inj a1 a2 b1 b2 :
  in_word 8 a1 -> in_word 8 a2 -> in_word 8 b1 -> in_word 8 b2 ->
  Z.lxor (Z.shiftl a1 8) a2 = Z.lxor (Z.shiftl b1 8) b2 -> a1 = b1 /\ a2 = b2.
Proof.
  intros Ha1 Ha2 Hb1 Hb2 He.
  assert (Hbit : forall x y i, in_word 8 x -> in_word 8 y -> 0 <= i < 8 ->
    Z.testbit (Z.lxor (Z.shiftl x 8) y) i = Z.testbit y i /\
    Z.testbit (Z.lxor (Z.shiftl x 8) y) (i + 8) = Z.testbit x i).
  { intros x y i Hx Hy Hi. rewrite !Z.lxor_spec, !Z.shiftl_spec by lia.
    rewrite (Z.testbit_neg_r _ (i - 8)) by lia. split; [done|].
    rewrite (in_word_testbit_high 8 ltac:(lia) y (i + 8)) by (done || lia).
    rewrite xorb_false_r. f_equal. lia. }
  assert (Hall : forall x y, in_word 8 x -> in_word 8 y ->
    (forall i, 0 <= i < 8 -> Z.testbit x i = Z.testbit y i) -> x = y).
  { intros x y Hx Hy H. bitwise i Hi. destruct (Z.lt_ge_cases i 8); [by apply H; lia|].
    rewrite !(in_word_testbit_high 8 ltac:(lia)) by done. done. }
  split; apply Hall; auto; intros i Hi;
    destruct (Hbit a1 a2 i) as [Hl Hh], (Hbit b1 b2 i) as [Hl' Hh']; auto; congruence.
Qed.

(** An error burst inside two consecutive bytes is injective on the register. *)
Lemma crc_two_bytes_inj c a1 a2 b1 b2 :
  in_word 16 c -> in_word 8 a1 -> in_word 8 a2 -> in_word 8 b1 -> in_word 8 b2 ->
  crc16 [a1; a2] c = crc16 [b1; b2] c -> a1 = b1 /\ a2 = b2.
Proof.
  unfold crc16. cbn [fold_left]. intros Hc Ha1 Ha2 Hb1 Hb2. rewrite !crc_two_bytes by done. intros He.
  assert (Hw : forall x y, in_word 8 x -> in_word 8 y -> in_word 16 (Z.lxor (Z.shiftl x 8) y)).
  { intros x y Hx Hy. apply lxor_in_word; [lia|by apply shiftl8_word|].
    apply (in_word_mono 8); [lia|done]. }
  apply crc_bits_inj in He; [|apply lxor_in_word; auto; lia..].
  apply pair_word_inj; [done..|].
  apply (f_equal (Z.lxor c)) in He.
  rewrite <- !(Z.lxor_assoc c c), Z.lxor_nilpotent, !Z.lxor_0_l in He. done.
Qed.

(** ** Properties *)

(** C33 CRC16 detects every error confined to two consecutive bytes: two messages that
    differ only in such a burst have different checksums, whatever surrounds it and
    whatever the initial value. *)
Theorem crc16_detects_bursts (pre post : list Z) (a1 a2 b1 b2 init : Z) :
  in_word 16 init -> bytes_ok post ->
  bytes_ok [a1; a2; b1; b2] ->
  (a1, a2) <> (b1, b2) ->
  crc16 (pre ++ [a1; a2] ++ post) init <> crc16 (pre ++ [b1; b2] ++ post) init.
Proof.
  intros Hi Hpost Hab Hne He.
  apply Forall_cons_1 in Hab as [Ha1 Hab]. apply Forall_cons_1 in Hab as [Ha2 Hab].
  apply Forall_cons_1 in Hab as [Hb1 Hab]. apply Forall_cons_1 in Hab as [Hb2 _].
  rewrite !crc16_app in He. apply crc16_inj_state in He; [|auto with sput..|done].
  assert (a1 = b1 /\ a2 = b2) as [-> ->]; [|congruence].
  apply (crc_two_bytes_inj (crc16 pre init)); [auto with sput..|exact He].
Qed.

Lemma crc16_detects_bursts_witness :
  crc16 ([1; 2] ++ [3; 4] ++ [5]) 0xFFFF <> crc16 ([1; 2] ++ [3; 6] ++ [5]) 0xFFFF.
Proof.
  apply (crc16_detects_bursts [1; 2] [5] 3 4 3 6 0xFFFF).
  - unfold in_word. lia.
  - repeat constructor; unfold in_word; lia.
  - repeat constructor; unfold in_word; lia.
  - congruence.
Defined.

(** The check value of CRC-16/CCITT-FALSE on the ASCII digits 1 to 9. *)
Example crc16_check_value : crc16 [49; 50; 51; 52; 53; 54; 55; 56; 57] crc_init = 0x29B1.
Proof. reflexivity. Qed.
