(* ===== verification/Cobs.v ===== *)
(** * Consistent Overhead Byte Stuffing ([comms/protocol/CobsCodec.h])

    [Cobs.encode] and [Cobs.decode] as the code runs them: index loops over
    caller-provided buffers, with the code byte of a block patched in when the
    block ends. [stuff] and [unstuff] are the block-by-block reference functions
    the loops are proved to compute. *)

From S2P Require Import Prelude.

(** ** Buffer sizing *)

Definition cobsMaxEncodedLen (srcLen : nat) : nat := srcLen + srcLen / 254 + 1.

(** ** The encoder *)

(** The locals of [encode]'s loop; [enc_code] is a [uint8_t]. *)
Record enc_state := EncState {
  enc_writeIdx : nat;
  enc_codeIdx : nat;
  enc_code : Z;
  enc_dst : list Z;
}.

(** One iteration, for the source byte [b]. *)
Definition encode_step (st : enc_state) (b : Z) : option enc_state :=
  let '(EncState writeIdx codeIdx code dst) := st in
  if decide (b = 0)%Z then
    dst ← store dst codeIdx code;
    Some (EncState (S writeIdx) writeIdx 1 dst)
  else
    dst ← store dst writeIdx b;
    let writeIdx := S writeIdx in
    let code := u8 (code + 1) in
    if decide (code = 255)%Z then
      dst ← store dst codeIdx code;
      Some (EncState (S writeIdx) writeIdx 1 dst)
    else Some (EncState writeIdx codeIdx code dst).

Fixpoint encode_loop (src : list Z) (st : enc_state) : option enc_state :=
  match src with
  | [] => Some st
  | b :: src => st ← encode_step st b; encode_loop src st
  end.

(** [encode src dst] returns the number of bytes written and the new contents of
    the destination; 0 is the error value. [dstCap] is [length dst]. *)
Definition encode (src dst : list Z) : option (nat * list Z) :=
  if decide (length dst < cobsMaxEncodedLen (length src)) then Some (0, dst)
  else
    st ← encode_loop src (EncState 1 0 1 dst);
    dst ← store (enc_dst st) (enc_codeIdx st) (enc_code st);
    Some (enc_writeIdx st, dst).

(** ** The decoder *)

(** The inner copy loop either returns 0 from [decode] or goes on. *)
Inductive flow (A : Type) :=
  | Fail (dst : list Z)
  | Next (a : A).
#[global] Arguments Fail {A}.
#[global] Arguments Next {A}.

Fixpoint copy_block (src : list Z) (n readIdx writeIdx : nat) (dst : list Z)
    : option (flow (nat * nat * list Z)) :=
  match n with
  | O => Some (Next (readIdx, writeIdx, dst))
  | S n =>
      b ← load src readIdx;
      if decide (b = 0)%Z then Some (Fail dst)
      else
        dst ← store dst writeIdx b;
        copy_block src n (S readIdx) (S writeIdx) dst
  end.

(** One iteration of the outer loop, entered with [readIdx < srcLen]. *)
Definition decode_step (src : list Z) (readIdx writeIdx : nat) (dst : list Z)
    : option (flow (nat * nat * list Z)) :=
  code ← load src readIdx;
  let readIdx := S readIdx in
  if decide (code = 0)%Z then Some (Fail dst)
  else
    let dataBytes := Z.to_nat (code - 1) in
    if decide (length src < readIdx + dataBytes) then Some (Fail dst)
    else if decide (length dst < writeIdx + dataBytes) then Some (Fail dst)
    else
      r ← copy_block src dataBytes readIdx writeIdx dst;
      match r with
      | Fail dst => Some (Fail dst)
      | Next (readIdx, writeIdx, dst) =>
          if decide ((code < 255)%Z /\ readIdx < length src) then
            if decide (length dst <= writeIdx) then Some (Fail dst)
            else
              dst ← store dst writeIdx 0%Z;
              Some (Next (readIdx, S writeIdx, dst))
          else Some (Next (readIdx, writeIdx, dst))
      end.

Fixpoint decode_loop (fuel : nat) (src : list Z) (readIdx writeIdx : nat) (dst : list Z)
    : option (nat * list Z) :=
  if decide (readIdx < length src) then
    match fuel with
    | O => None
    | S fuel =>
        r ← decode_step src readIdx writeIdx dst;
        match r with
        | Fail dst => Some (0, dst)
        | Next (readIdx, writeIdx, dst) => decode_loop fuel src readIdx writeIdx dst
        end
    end
  else Some (writeIdx, dst).

(** Each iteration consumes at least the code byte, so [srcLen] turns are enough. *)
Definition decode (src dst : list Z) : option (nat * list Z) :=
  if decide (length src = 0) then Some (0, dst)
  else decode_loop (length src) src 0 0 dst.

(** ** Reference functions *)

(** [stuff acc src]: the encoding of [src] when the block under construction
    already holds the non-zero bytes [acc]. *)
Fixpoint stuff (acc src : list Z) : list Z :=
  match src with
  | [] => Z.of_nat (S (length acc)) :: acc
  | b :: src =>
      if decide (b = 0)%Z then Z.of_nat (S (length acc)) :: acc ++ stuff [] src
      else if decide (length acc = 253) then 255%Z :: acc ++ b :: stuff [] src
      else stuff (acc ++ [b]) src
  end.

(** [unstuff]: [None] is a decoding error. *)
Fixpoint unstuff (fuel : nat) (src : list Z) : option (list Z) :=
  match src, fuel with
  | [], _ => Some []
  | _, O => None
  | code :: src, S fuel =>
      let n := Z.to_nat (code - 1) in
      if decide (code = 0 \/ 0%Z ∈ take n src)%Z then None
      else if decide (length src < n) then None
      else
        let rest := drop n src in
        let zero := if decide ((code < 255)%Z /\ rest <> []) then [0%Z] else [] in
        (fun out => take n src ++ zero ++ out) <$> unstuff fuel rest
  end.

(** ** The encoder computes [stuff] *)

Lemma stuff_length_pos acc src : length acc < length (stuff acc src).
Proof.
  revert acc. induction src as [|b src IH]; intros acc; simpl; [lia|].
  pose proof (IH (acc ++ [b])). repeat case_decide; len.
Qed.

(** Overhead bound: one byte per started block of 254. *)
Lemma stuff_length acc src :
  length acc <= 253 ->
  length (stuff acc src) <= cobsMaxEncodedLen (length acc + length src).
Proof.
  unfold cobsMaxEncodedLen. revert acc.
  induction src as [|b src IH]; intros acc Hacc; cbn [stuff].
  - len.
  - repeat case_decide; autorewrite with sput_arr; cbn [length].
    + specialize (IH [] ltac:(simpl; lia)). cbn [length Nat.add] in IH. divlia.
    + specialize (IH [] ltac:(simpl; lia)). cbn [length Nat.add] in IH. divlia.
    + specialize (IH (acc ++ [b])). rewrite length_app in IH. cbn [length] in IH.
      replace (length acc + S (length src)) with (length acc + 1 + length src) by lia.
      apply IH. lia.
Qed.

(** The state of the loop when the block under construction is [acc]: the code
    byte of the block is still the stale [x]. *)
Definition enc_at (out : list Z) (x : Z) (acc rest : list Z) : enc_state :=
  EncState (S (length out + length acc)) (length out) (Z.of_nat (S (length acc)))
    (out ++ x :: acc ++ rest).

(** What [encode] does with the loop's final state. *)
Definition enc_finish (st : enc_state) : option (nat * list Z) :=
  dst ← store (enc_dst st) (enc_codeIdx st) (enc_code st); Some (enc_writeIdx st, dst).

(** A byte stored behind the current block extends it. *)
Lemma enc_store_next (out : list Z) x acc y rest b :
  store (out ++ x :: acc ++ y :: rest) (S (length out + length acc)) b =
    Some (out ++ x :: (acc ++ [b]) ++ rest).
Proof.
  assert (out ++ x :: acc ++ y :: rest = (out ++ x :: acc) ++ y :: rest) as ->
    by (rewrite <- app_assoc; done).
  replace (S (length out + length acc)) with (length (out ++ x :: acc)) by len.
  rewrite store_middle. by rewrite <- !app_assoc.
Qed.

Lemma enc_close out x acc y rest :
  enc_at (out ++ x :: acc) y [] rest =
    EncState (S (S (length out + length acc))) (S (length out + length acc)) 1
      (out ++ x :: acc ++ y :: rest).
Proof. unfold enc_at. f_equal; len. by rewrite <- app_assoc. Qed.

Lemma enc_grow out x acc b rest :
  enc_at out x (acc ++ [b]) rest =
    EncState (S (S (length out + length acc))) (length out) (Z.of_nat (S (length acc)) + 1)
      (out ++ x :: (acc ++ [b]) ++ rest).
Proof. unfold enc_at. rewrite length_app. simpl length. f_equal; lia. Qed.

Lemma encode_loop_spec src out x acc rest :
  length acc <= 253 ->
  length (stuff acc src) <= S (length acc) + length rest ->
  encode_loop src (enc_at out x acc rest) ≫= enc_finish =
    Some (length out + length (stuff acc src),
          out ++ stuff acc src ++ drop (length (stuff acc src) - S (length acc)) rest).
Proof.
  revert out x acc rest. induction src as [|b src IH]; intros out x acc rest Hacc Hlen.
  - simpl. unfold enc_finish. simpl. rewrite store_middle. simpl.
    f_equal. f_equal; [lia|]. by rewrite Nat.sub_diag.
  - cbn [stuff encode_loop] in *. unfold encode_step, enc_at at 1.
    destruct (decide (b = 0)%Z) as [Hb|Hb].
    + destruct rest as [|y rest]; len; [pose proof (stuff_length_pos [] src); simpl in *; lia|].
      rewrite store_middle. simpl. rewrite <- enc_close. rewrite IH by (simpl; lia).
      f_equal. f_equal; len. rewrite <- !app_assoc. simpl. do 4 f_equal.
      pose proof (stuff_length_pos [] src).
      replace (length acc + length (stuff [] src) - length acc) with
        (S (length (stuff [] src) - 1)) by (simpl in *; lia). done.
    + destruct rest as [|y rest]; [case_decide; len|].
      { pose proof (stuff_length_pos (acc ++ [b]) src). len. }
      rewrite enc_store_next. simpl.
      rewrite (wrap_id 8) by (unfold in_word; lia).
      destruct (decide (length acc = 253)) as [Hf|Hf].
      * rewrite decide_True by lia. rewrite store_middle. simpl.
        destruct rest as [|z rest]; len; [pose proof (stuff_length_pos [] src); simpl in *; lia|].
        replace (S (S (S (length out + length acc)))) with
          (S (S (length out + length (acc ++ [b])))) by len.
        replace (S (S (length out + length acc))) with
          (S (length out + length (acc ++ [b]))) by len.
        rewrite <- enc_close. rewrite IH by (simpl; lia).
        f_equal. f_equal; len. rewrite <- !app_assoc. simpl.
        rewrite <- !app_assoc. simpl. do 5 f_equal; [lia|].
        pose proof (stuff_length_pos [] src).
        replace (length acc + S (length (stuff [] src)) - length acc) with
          (S (S (length (stuff [] src) - 1))) by (simpl in *; lia). done.
      * rewrite decide_False by lia. cbn [mbind option_bind].
        rewrite <- enc_grow. rewrite IH by len. do 4 f_equal.
        pose proof (stuff_length_pos (acc ++ [b]) src). rewrite length_app in *. simpl length in *.
        replace (length (stuff (acc ++ [b]) src) - S (length acc)) with
          (S (length (stuff (acc ++ [b]) src) - S (length acc + 1))) by lia.
        done.
Qed.

Lemma encode_stuff (src dst : list Z) :
  cobsMaxEncodedLen (length src) <= length dst ->
  encode src dst =
    Some (length (stuff [] src), stuff [] src ++ drop (length (stuff [] src)) dst).
Proof.
  intros Hcap. unfold encode. rewrite decide_False by lia.
  pose proof (stuff_length [] src ltac:(simpl; lia)) as Hlen. simpl in Hlen.
  pose proof (stuff_length_pos [] src) as Hpos. simpl in Hpos.
  destruct dst as [|x dst]; simpl in Hcap; [unfold cobsMaxEncodedLen in *; lia|].
  pose proof (encode_loop_spec src [] x [] dst ltac:(simpl; lia)) as H.
  unfold enc_at in H. simpl in H. unfold enc_finish in H.
  change (Z.of_nat 1) with 1%Z in H. rewrite H by lia. f_equal. f_equal. f_equal.
  destruct (length (stuff [] src)); [lia|]. simpl. by rewrite Nat.sub_0_r.
Qed.

(** A non-zero byte, the alphabet of the wire format. *)
Definition nz_byte (b : Z) : Prop := (0 < b < 256)%Z.

(** The encoding is made of non-zero bytes. *)
Lemma stuff_nz acc src :
  length acc <= 253 -> Forall nz_byte acc -> bytes_ok src -> Forall nz_byte (stuff acc src).
Proof.
  intros Hlen Hacc Hsrc. revert acc Hlen Hacc.
  induction Hsrc as [|b src Hb Hsrc IH]; intros acc Hlen Hacc; cbn [stuff];
    assert (Hhd : nz_byte (Z.of_nat (S (length acc)))) by (unfold nz_byte; lia).
  - by constructor.
  - assert (Hnil : Forall nz_byte (stuff [] src)) by (apply IH; [simpl; lia|constructor]).
    repeat case_decide.
    + constructor; [done|]. by apply Forall_app_2.
    + assert (nz_byte b) by (unfold nz_byte, in_word in *; lia).
      constructor; [unfold nz_byte; lia|]. apply Forall_app_2; [done|]. by constructor.
    + apply IH; [len|]. apply Forall_app_2; [done|].
      repeat constructor; unfold nz_byte, in_word in *; lia.
Qed.

Lemma nz_not_zero l : Forall nz_byte l -> 0%Z ∉ l.
Proof. rewrite Forall_forall. intros H Hz. apply H in Hz. unfold nz_byte in Hz. lia. Qed.

Lemma nz_bytes_ok l : Forall nz_byte l -> bytes_ok l.
Proof. intros H. eapply Forall_impl; [exact H|]. unfold nz_byte, in_word. simpl. lia. Qed.

(** ** The decoder computes [unstuff] *)

Lemma copy_block_spec data pre post (out slack : list Z) :
  length data <= length slack ->
  exists r, copy_block (pre ++ data ++ post) (length data) (length pre) (length out) (out ++ slack)
    = Some r /\
    if decide (0%Z ∈ data)
    then exists d, r = Fail d /\ length d = length (out ++ slack)
    else r = Next (length (pre ++ data), length (out ++ data), out ++ data ++ drop (length data) slack).
Proof.
  revert pre out slack. induction data as [|b data IH]; intros pre out slack Hlen.
  - eexists. split; [done|]. rewrite decide_False by set_solver. by rewrite !app_nil_r.
  - destruct slack as [|x slack]; simpl in Hlen; [lia|]. cbn [length copy_block].
    simpl app. rewrite load_middle. cbn [mbind option_bind]. destruct (decide (b = 0%Z)) as [->|Hb].
    + eexists. split; [done|]. rewrite decide_True by (by left). eauto.
    + rewrite store_middle. cbn [mbind option_bind].
      destruct (IH (pre ++ [b]) (out ++ [b]) slack ltac:(lia)) as (r & Hr & Hcase).
      rewrite <- !app_assoc in Hr. simpl in Hr. rewrite !length_app in Hr. simpl in Hr.
      rewrite !Nat.add_1_r in Hr. exists r. split; [done|].
      destruct (decide (0%Z ∈ data)) as [Hz|Hz].
      * rewrite decide_True by (by right). destruct Hcase as (d & -> & Hd).
        exists d. split; [done|]. len.
      * rewrite decide_False by (by rewrite elem_of_cons; intros [?|?]). rewrite Hcase. rewrite <- !app_assoc. done.
Qed.

(** The verdict on the bytes decoded so far, against the room left. *)
Definition dec_verdict (out slack : list Z) (o : option (list Z)) (n : nat) (d : list Z) : Prop :=
  length d = length (out ++ slack) /\
  match o with
  | Some o =>
      if decide (length o <= length slack)
      then n = length (out ++ o) /\ d = out ++ o ++ drop (length o) slack
      else n = 0
  | None => n = 0
  end.

(** The implicit zero after a block that is not full and not the last. *)
Definition block_zero (code : Z) (rest : list Z) : list Z :=
  if decide ((code < 255)%Z /\ rest <> []) then [0%Z] else [].

Lemma decode_step_spec pre code s (out slack : list Z) :
  let n := Z.to_nat (code - 1) in
  let zero := block_zero code (drop n s) in
  exists r, decode_step (pre ++ code :: s) (length pre) (length out) (out ++ slack) = Some r /\
  if decide (code = 0%Z \/ 0%Z ∈ take n s \/ length s < n \/ length slack < n + length zero)
  then exists d, r = Fail d /\ length d = length (out ++ slack)
  else r = Next (length (pre ++ code :: take n s), length (out ++ take n s ++ zero),
                 (out ++ take n s ++ zero) ++ drop (n + length zero) slack).
Proof.
  intros n zero. unfold decode_step. rewrite load_middle. cbn [mbind option_bind].
  destruct (decide (code = 0%Z)) as [->|Hc].
  { eexists. split; [done|]. rewrite decide_True by auto. eauto. }
  fold n. rewrite !length_app. cbn [length].
  destruct (decide (length pre + S (length s) < S (length pre) + n)).
  { eexists. split; [done|]. rewrite decide_True by lia. rewrite <- length_app. eauto. }
  destruct (decide (length out + length slack < length out + n)).
  { eexists. split; [done|]. rewrite decide_True by lia. rewrite <- length_app. eauto. }
  assert (Hn : n = length (take n s)) by (rewrite length_take; lia).
  destruct (copy_block_spec (take n s) (pre ++ [code]) (drop n s) out slack) as (r & Hr & Hcase);
    [lia|].
  rewrite <- Hn, take_drop, <- app_assoc, length_app, Nat.add_1_r in Hr. simpl app in Hr.
  rewrite Hr. cbn [mbind option_bind].
  destruct (decide (0%Z ∈ take n s)) as [Hz|Hz].
  { destruct Hcase as (d & -> & Hd). eexists. split; [done|].
    rewrite decide_True by auto. rewrite length_app in Hd. eauto. }
  rewrite Hcase. clear Hr Hcase r.
  assert (Hiff : (code < 255)%Z /\ length ((pre ++ [code]) ++ take n s) < length pre + S (length s)
    <-> (code < 255)%Z /\ drop n s <> []).
  { rewrite !length_app, <- Hn. simpl. rewrite <- (length_zero_iff_nil (drop n s)), length_drop. lia. }
  subst zero. unfold block_zero.
  destruct (decide ((code < 255)%Z /\ drop n s <> [])) as [Hz1|Hz1].
  - rewrite decide_True by (by apply Hiff). rewrite !length_app, length_drop, <- Hn.
    destruct (decide (length out + (n + (length slack - n)) <= length out + n)).
    { eexists. split; [done|]. rewrite decide_True by (simpl; lia). eexists. split; [done|]. len. }
    destruct (drop n slack) as [|y sl] eqn:Hsl.
    { apply (f_equal length) in Hsl. rewrite length_drop in Hsl. simpl in Hsl. lia. }
    assert (Hst : store (out ++ take n s ++ y :: sl) (length out + n) 0%Z =
      Some (out ++ take n s ++ 0%Z :: sl)).
    { pose proof (store_middle (out ++ take n s) y sl 0%Z) as Hst.
      by rewrite length_app, <- Hn, <- !app_assoc in Hst. }
    rewrite Hst. cbn [mbind option_bind]. eexists. split; [done|].
    rewrite decide_False by (simpl; intuition lia). f_equal. f_equal; [f_equal|].
    + simpl. lia.
    + simpl. lia.
    + rewrite <- !app_assoc. do 3 f_equal.
      rewrite <- drop_drop, Hsl. done.
  - rewrite decide_False by (by rewrite Hiff). eexists. split; [done|].
    rewrite decide_False by (simpl; intuition lia). f_equal. f_equal; [f_equal|].
    + rewrite ?length_app. simpl. lia.
    + rewrite ?length_app. simpl. lia.
    + simpl. by rewrite app_nil_r, Nat.add_0_r, <- Hn, <- app_assoc.
Qed.

Lemma decode_loop_spec fuel pre s (out slack : list Z) :
  length s <= fuel ->
  exists n d, decode_loop fuel (pre ++ s) (length pre) (length out) (out ++ slack) = Some (n, d) /\
    dec_verdict out slack (unstuff fuel s) n d.
Proof.
  assert (Hend : forall pre' out' slack' : list Z, exists n d,
    Some (length out', out' ++ slack') = Some (n, d) /\
    dec_verdict out' slack' (Some []) n d).
  { intros. do 2 eexists. split; [done|]. split; [done|]. simpl. by rewrite app_nil_r. }
  revert pre s out slack. induction fuel as [|fuel IH]; intros pre s out slack Hf.
  - destruct s; simpl in Hf; [|lia]. simpl. rewrite app_nil_r, decide_False by lia. eauto.
  - destruct s as [|code s]; cbn [decode_loop unstuff].
    { rewrite app_nil_r, decide_False by lia. eauto. }
    rewrite decide_True by len.
    destruct (decode_step_spec pre code s out slack) as (r & Hr & Hcase).
    rewrite Hr. cbn [mbind option_bind]. fold (block_zero code (drop (Z.to_nat (code - 1)) s)).
    set (n := Z.to_nat (code - 1)) in *. set (zero := block_zero code (drop n s)) in *. clearbody zero n.
    destruct (decide (code = 0%Z \/ 0%Z ∈ take n s \/ _)) as [Hbad|Hok].
    + destruct Hcase as (d & -> & Hd). do 2 eexists. split; [done|]. split; [done|].
      destruct Hbad as [Hb|[Hb|[Hb|Hb]]].
      * by rewrite decide_True by auto.
      * by rewrite decide_True by auto.
      * destruct (decide (code = 0%Z \/ _)); [done|]. by rewrite decide_True.
      * repeat case_decide; try done. destruct (unstuff fuel (drop n s)) as [o|]; [|done].
        simpl. rewrite decide_False; [done|].
        rewrite !length_app, length_take. lia.
    + rewrite Hcase. clear Hr Hcase r.
      destruct (IH (pre ++ code :: take n s) (drop n s) (out ++ take n s ++ zero)
        (drop (n + length zero) slack)) as (m & d & Hm & Hlen & Hv); [len|].
      rewrite <- (app_assoc pre) in Hm. simpl app in Hm. rewrite take_drop in Hm.
      exists m, d. split; [done|]. rewrite (decide_False (P := code = 0%Z \/ _)) by intuition.
      rewrite (decide_False (P := length s < n)) by intuition lia.
      assert (Ht : length (take n s) = n) by (rewrite length_take; intuition lia).
      split; [rewrite Hlen; len|].
      destruct (unstuff fuel (drop n s)) as [o|]; [|done]. simpl.
      rewrite length_drop in Hv. rewrite !length_app, Ht.
      destruct (decide (length o <= length slack - (n + length zero))) as [Ho|Ho].
      * rewrite decide_True by intuition lia. destruct Hv as [-> ->].
        split; [rewrite !length_app, Ht; lia|].
        rewrite <- !app_assoc, drop_drop. do 5 f_equal. lia.
      * by rewrite decide_False by intuition lia.
Qed.

Lemma decode_unstuff (src dst : list Z) :
  exists n d, decode src dst = Some (n, d) /\
    dec_verdict [] dst (unstuff (length src) src) n d.
Proof.
  unfold decode. destruct (decide (length src = 0)) as [He|He].
  - destruct src; [|done]. do 2 eexists. split; [done|]. split; [done|]. done.
  - apply (decode_loop_spec (length src) [] src [] dst). lia.
Qed.

(** ** [unstuff] inverts [stuff] *)

Lemma unstuff_mono f1 f2 s : length s <= f1 -> length s <= f2 -> unstuff f1 s = unstuff f2 s.
Proof.
  revert f2 s. induction f1 as [|f1 IH]; intros [|f2] [|c s] H1 H2; simpl in *; try lia; try done.
  repeat case_decide; try done; f_equal; apply IH; rewrite length_drop; lia.
Qed.

(** One block of the wire format: the code byte and its non-zero data. *)
Lemma unstuff_block fuel (acc rest : list Z) :
  length acc <= 254 -> Forall nz_byte acc -> length acc + length rest <= fuel ->
  unstuff (S fuel) (Z.of_nat (S (length acc)) :: acc ++ rest) =
    (fun out => acc ++ block_zero (Z.of_nat (S (length acc))) rest ++ out)
      <$> unstuff (length rest) rest.
Proof.
  intros Hlen Hacc Hf. cbn [unstuff].
  replace (Z.to_nat (Z.of_nat (S (length acc)) - 1)) with (length acc) by lia.
  rewrite take_app_length, drop_app_length.
  rewrite decide_False by (intros [?|?]; [lia|by eapply nz_not_zero]).
  rewrite decide_False by len. fold (block_zero (Z.of_nat (S (length acc))) rest).
  f_equal. apply unstuff_mono; lia.
Qed.

Lemma stuff_nonempty acc src : stuff acc src <> [].
Proof. pose proof (stuff_length_pos acc src) as H. intros E. rewrite E in H. simpl in H. lia. Qed.

Lemma unstuff_stuff acc src :
  length acc <= 253 -> Forall nz_byte acc -> bytes_ok src ->
  unstuff (length (stuff acc src)) (stuff acc src) = Some (acc ++ src).
Proof.
  intros Hlen Hacc Hsrc. revert acc Hlen Hacc.
  induction Hsrc as [|b src Hb Hsrc IH]; intros acc Hlen Hacc; cbn [stuff].
  - pose proof (unstuff_block (length acc) acc [] ltac:(lia) Hacc ltac:(simpl; lia)) as H.
    rewrite app_nil_r in H. cbn [length]. rewrite H. simpl. unfold block_zero.
    by rewrite decide_False by (intros [_ Hne]; by apply Hne).
  - assert (Hnil : unstuff (length (stuff [] src)) (stuff [] src) = Some src)
      by (apply IH; [simpl; lia|constructor]).
    repeat case_decide; subst.
    + cbn [length]. rewrite unstuff_block by (done || lia || len).
      rewrite Hnil. simpl. unfold block_zero.
      rewrite decide_True; [done|]. split; [lia|apply stuff_nonempty].
    + assert (Hb' : nz_byte b) by (unfold nz_byte, in_word in *; lia).
      change (acc ++ b :: stuff [] src) with (acc ++ [b] ++ stuff [] src). rewrite app_assoc.
      replace 255%Z with (Z.of_nat (S (length (acc ++ [b])))) by len.
      cbn [length]. rewrite unstuff_block.
      * rewrite Hnil. simpl. unfold block_zero. rewrite decide_False by len.
        by rewrite <- app_assoc.
      * len.
      * apply Forall_app_2; [done|by constructor].
      * rewrite !length_app. lia.
    + rewrite IH.
      * by rewrite <- app_assoc.
      * len.
      * apply Forall_app_2; [done|]. constructor; [|constructor]. unfold nz_byte, in_word in *. lia.
Qed.

(** Decoding what was encoded, inside buffers that are large enough. *)
Lemma decode_encode (src dst : list Z) :
  bytes_ok src -> length src <= length dst ->
  decode (stuff [] src) dst = Some (length src, src ++ drop (length src) dst).
Proof.
  intros Hsrc Hlen. destruct (decode_unstuff (stuff [] src) dst) as (n & d & Hd & _ & Hv).
  rewrite unstuff_stuff in Hv by (done || simpl; lia). simpl in Hv.
  rewrite decide_True in Hv by done. destruct Hv as [-> ->]. done.
Qed.

Lemma decode_total (src dst : list Z) :
  exists n d, decode src dst = Some (n, d) /\ length d = length dst /\ n <= length dst.
Proof.
  destruct (decode_unstuff src dst) as (n & d & Hd & Hl & Hv). exists n, d.
  split; [done|]. split; [done|].
  destruct (unstuff _ _) as [o|]; [|lia]. case_decide; [|lia]. destruct Hv as [-> _]. done.
Qed.

(** ** Properties *)

(** Round trip: whatever bytes [encode] is given, decoding the bytes it wrote
    gives them back, in any destination that can hold them. *)
Theorem cobs_roundtrip (src wire dst : list Z) (n : nat) (out : list Z) :
  bytes_ok src ->
  cobsMaxEncodedLen (length src) <= length wire -> length src <= length dst ->
  encode src wire = Some (n, out) ->
  decode (take n out) dst = Some (length src, src ++ drop (length src) dst).
Proof.
  intros Hsrc Hw Hd He. rewrite encode_stuff in He by done. simplify_eq.
  rewrite take_app_length. by apply decode_encode.
Qed.

Lemma cobs_roundtrip_witness :
  decode (take 5 [3; 1; 2; 2; 7; 9; 9]%Z) [0; 0; 0; 0; 0]%Z = Some (4, [1; 2; 0; 7; 0]%Z).
Proof.
  apply (cobs_roundtrip [1; 2; 0; 7]%Z (replicate 7 9%Z) [0; 0; 0; 0; 0]%Z 5).
  - repeat constructor; unfold in_word; lia.
  - vm_compute. lia.
  - simpl. lia.
  - vm_compute. reflexivity.
Defined.

(** Given the documented capacity, [encode] succeeds without an access outside
    its buffers; what it writes is at least one byte, at most [cobsMaxEncodedLen]
    bytes, and none of them is the frame delimiter 0x00; the rest of the
    destination is untouched. *)
Theorem encode_safe (src dst : list Z) :
  bytes_ok src -> cobsMaxEncodedLen (length src) <= length dst ->
  exists w, encode src dst = Some (length w, w ++ drop (length w) dst) /\
    1 <= length w <= cobsMaxEncodedLen (length src) /\ Forall nz_byte w.
Proof.
  intros Hsrc Hcap. exists (stuff [] src). split; [by apply encode_stuff|].
  pose proof (stuff_length [] src ltac:(simpl; lia)).
  pose proof (stuff_length_pos [] src). simpl in *.
  split; [lia|]. apply stuff_nz; [simpl; lia|constructor|done].
Qed.

Lemma encode_safe_witness :
  exists w, encode [0; 5]%Z (replicate 4 0%Z) = Some (length w, w ++ drop (length w) (replicate 4 0%Z)) /\
    1 <= length w <= cobsMaxEncodedLen 2 /\ Forall nz_byte w.
Proof.
  apply (encode_safe [0; 5]%Z (replicate 4 0%Z)).
  - repeat constructor; unfold in_word; lia.
  - vm_compute. lia.
Defined.

(** [decode] is safe on arbitrary, possibly malicious input: it terminates, never
    accesses memory outside the source or destination, and never reports more bytes
    than the destination holds. *)
Theorem decode_safe (src dst : list Z) :
  exists n d, decode src dst = Some (n, d) /\ length d = length dst /\ n <= length dst.
Proof. apply decode_total. Qed.
