(* ===== verification/Frame.v ===== *)
(** * Framed protocol: wire format, encoder, decoder

    [comms/protocol/FrameConstants.h], [MessageType.h], [FrameEncoder.h] and
    [FrameDecoder.h]. A frame is [type seq len:2 payload crc:2], COBS-encoded and
    terminated by 0x00; the decoder takes the wire one byte at a time. *)

From S2P Require Import Prelude Crc Cobs.

(** ** Message types ([MessageType.h]) *)

(** The enumerators, and the other values a [uint8_t] cast can give. *)
Inductive MessageType :=
  | COMMAND | HANDSHAKE_REQ | METRICS_REQ | EXIT_HANDSHAKE
  | ACK | NACK | HANDSHAKE_RESP | TELEMETRY | METRICS_RESP | LOG | DATA | PERF_DATA
  | HEARTBEAT
  | UnnamedType (v : Z).

#[global] Instance MessageType_eq_dec : EqDecision MessageType.
Proof. solve_decision. Defined.

(** [static_cast<uint8_t>(type)] *)
Definition type_byte (t : MessageType) : Z :=
  match t with
  | COMMAND => 0x01 | HANDSHAKE_REQ => 0x02 | METRICS_REQ => 0x03 | EXIT_HANDSHAKE => 0x04
  | ACK => 0x81 | NACK => 0x82 | HANDSHAKE_RESP => 0x83 | TELEMETRY => 0x84
  | METRICS_RESP => 0x85 | LOG => 0x86 | DATA => 0x87 | PERF_DATA => 0x88
  | HEARTBEAT => 0xF0
  | UnnamedType v => v
  end.

Definition named_types : list MessageType :=
  [COMMAND; HANDSHAKE_REQ; METRICS_REQ; EXIT_HANDSHAKE; ACK; NACK; HANDSHAKE_RESP;
   TELEMETRY; METRICS_RESP; LOG; DATA; PERF_DATA; HEARTBEAT].

(** [static_cast<MessageType>(byte)] *)
Definition byte_type (v : Z) : MessageType :=
  default (UnnamedType v) (list_find (fun t => type_byte t = v) named_types ≫= fun p => Some p.2).

Definition isHostMessage (t : MessageType) : bool :=
  let v := type_byte t in (1 <=? v)%Z && (v <=? 0x7F)%Z.

Definition isDeviceMessage (t : MessageType) : bool :=
  let v := type_byte t in (0x81 <=? v)%Z && (v <=? 0xBF)%Z.

Definition isBidirectionalMessage (t : MessageType) : bool := (0xF0 <=? type_byte t)%Z.

(** ** Wire-format constants ([FrameConstants.h]) *)

Definition kFrameHeaderSize : nat := 4.
Definition kFrameTrailerSize : nat := 2.
Definition kFrameOverhead : nat := kFrameHeaderSize + kFrameTrailerSize.
Definition kFrameDelimiter : Z := 0.
Definition kProtocolVersion : Z := 1.
Definition kHandshakeMagic : Z := 0x53504F53.
Definition rawFrameSize (payloadLen : nat) : nat := kFrameOverhead + payloadLen.
Definition maxWireSize (payloadLen : nat) : nat := cobsMaxEncodedLen (rawFrameSize payloadLen) + 1.

Section frame.
(** The template parameter of encoder and decoder. *)
Context (MaxPayload : nat).

Definition kMaxRawSize : nat := kFrameOverhead + MaxPayload.
Definition kMaxCobsSize : nat := cobsMaxEncodedLen kMaxRawSize.

(** ** Encoder ([FrameEncoder.h]) *)

(** The staging buffer after the header, the payload and the CRC trailer have been
    written, with the final [pos]. A null payload pointer is [None]. *)
Definition build_raw (type : MessageType) (seqNum : Z) (payload : option (list Z))
    (payloadLen : nat) : option (nat * list Z) :=
  let raw := replicate kMaxRawSize 0%Z in
  raw ← store raw 0 (type_byte type);
  raw ← store raw 1 seqNum;
  raw ← store raw 2 (u8 (Z.land (Z.of_nat payloadLen) 0xFF));
  raw ← store raw 3 (u8 (Z.land (Z.shiftr (Z.of_nat payloadLen) 8) 0xFF));
  '(pos, raw) ←
    match payload with
    | Some p =>
        if decide (0 < payloadLen) then
          (* memcpy(&raw[pos], payload, payloadLen) *)
          p ← load_all p 0 payloadLen;
          raw ← store_all raw 4 p;
          Some (4 + payloadLen, raw)
        else Some (4, raw)
    | None => Some (4, raw)
    end;
  let crc := crc16 (take pos raw) crc_init in
  raw ← store raw pos (u8 (Z.land crc 0xFF));
  raw ← store raw (S pos) (u8 (Z.land (Z.shiftr crc 8) 0xFF));
  Some (S (S pos), raw).

(** [FrameEncoder::encode]: bytes written (0 on error) and the new [outBuf]. *)
Definition encode_frame (type : MessageType) (seqNum : Z) (payload : option (list Z))
    (payloadLen : nat) (outBuf : list Z) : option (nat * list Z) :=
  if decide (MaxPayload < payloadLen) then Some (0, outBuf)
  else
    let rawLen := kFrameOverhead + payloadLen in
    if decide (length outBuf < cobsMaxEncodedLen rawLen + 1) then Some (0, outBuf)
    else
      '(pos, raw) ← build_raw type seqNum payload payloadLen;
      let cap := length outBuf - 1 in
      '(cobsLen, enc) ← encode (take pos raw) (take cap outBuf);
      let outBuf := enc ++ drop cap outBuf in
      if decide (cobsLen = 0) then Some (0, outBuf)
      else
        outBuf ← store outBuf cobsLen kFrameDelimiter;
        Some (S cobsLen, outBuf).

(** ** Decoder ([FrameDecoder.h]) *)

Inductive DecoderResult := INCOMPLETE | FRAME_READY | ERROR.

#[global] Instance DecoderResult_eq_dec : EqDecision DecoderResult.
Proof. solve_decision. Defined.

Record FrameDecoder := Decoder {
  m_cobsBuf : list Z;
  m_cobsLen : nat;
  m_msgType : MessageType;
  m_seqNum : Z;
  m_payload : list Z;
  m_payloadLen : nat;
}.

Definition dec_reset (d : FrameDecoder) : FrameDecoder :=
  Decoder (m_cobsBuf d) 0 HEARTBEAT 0 (m_payload d) 0.

(** The constructor; the arrays are not initialised by the code. *)
Definition new_decoder : FrameDecoder :=
  dec_reset (Decoder (replicate kMaxCobsSize 0%Z) 0 HEARTBEAT 0 (replicate MaxPayload 0%Z) 0).

Definition set_cobsLen (n : nat) (d : FrameDecoder) : FrameDecoder :=
  Decoder (m_cobsBuf d) n (m_msgType d) (m_seqNum d) (m_payload d) (m_payloadLen d).

Definition processFrame (d : FrameDecoder) : option (DecoderResult * FrameDecoder) :=
  '(rawLen, rawBuf) ← decode (take (m_cobsLen d) (m_cobsBuf d)) (replicate kMaxRawSize 0%Z);
  let d := set_cobsLen 0 d in
  if decide (rawLen < kFrameOverhead) then Some (ERROR, d)
  else
    let crcOffset := rawLen - kFrameTrailerSize in
    lo ← load rawBuf crcOffset;
    hi ← load rawBuf (S crcOffset);
    let crcExpect := u16 (Z.lor (u16 lo) (Z.shiftl (u16 hi) 8)) in
    let crcComputed := crc16 (take crcOffset rawBuf) crc_init in
    if decide (crcComputed <> crcExpect) then Some (ERROR, d)
    else
      ty ← load rawBuf 0;
      seq ← load rawBuf 1;
      let d := Decoder (m_cobsBuf d) (m_cobsLen d) (byte_type ty) seq (m_payload d) (m_payloadLen d) in
      l0 ← load rawBuf 2;
      l1 ← load rawBuf 3;
      let pl := Z.to_nat (u16 (Z.lor (u16 l0) (Z.shiftl (u16 l1) 8))) in
      if decide (pl <> crcOffset - kFrameHeaderSize) then Some (ERROR, d)
      else if decide (MaxPayload < pl) then Some (ERROR, d)
      else
        src ← load_all rawBuf kFrameHeaderSize pl;
        payload ← store_all (m_payload d) 0 src;
        Some (FRAME_READY,
          Decoder (m_cobsBuf d) (m_cobsLen d) (m_msgType d) (m_seqNum d) payload pl).

Definition feedByte (d : FrameDecoder) (b : Z) : option (DecoderResult * FrameDecoder) :=
  if decide (b = kFrameDelimiter) then
    if decide (m_cobsLen d = 0) then Some (INCOMPLETE, d) else processFrame d
  else if decide (m_cobsLen d < kMaxCobsSize) then
    buf ← store (m_cobsBuf d) (m_cobsLen d) b;
    Some (INCOMPLETE,
      Decoder buf (S (m_cobsLen d)) (m_msgType d) (m_seqNum d) (m_payload d) (m_payloadLen d))
  else Some (ERROR, set_cobsLen 0 d).

(** The payload the accessors [getPayload] and [getPayloadLen] expose. *)
Definition getPayload (d : FrameDecoder) : list Z := take (m_payloadLen d) (m_payload d).

(** Feeding a run of wire bytes; the results in order. *)
Fixpoint feed_bytes (d : FrameDecoder) (bs : list Z) : option (list DecoderResult * FrameDecoder) :=
  match bs with
  | [] => Some ([], d)
  | b :: bs =>
      '(r, d) ← feedByte d b;
      '(rs, d) ← feed_bytes d bs;
      Some (r :: rs, d)
  end.
End frame.
#[global] Arguments processFrame : simpl never.
#[global] Arguments build_raw : simpl never.
#[global] Arguments kMaxCobsSize : simpl never.
#[global] Arguments kMaxRawSize : simpl never.

(** ** Enumerators *)

Definition is_named (t : MessageType) : bool :=
  match t with UnnamedType _ => false | _ => true end.

Lemma type_byte_word t : is_named t = true -> in_word 8 (type_byte t).
Proof. unfold in_word. destruct t; simpl; (discriminate || lia). Qed.

Lemma byte_type_type_byte t : is_named t = true -> byte_type (type_byte t) = t.
Proof. by destruct t. Qed.

Lemma type_byte_byte_type v : type_byte (byte_type v) = v.
Proof.
  unfold byte_type. destruct (list_find _ _) as [[i t]|] eqn:E; simpl; [|done].
  by apply list_find_Some in E as (_ & -> & _).
Qed.

(** ** The raw frame *)

(** Header and payload: what the CRC covers. *)
Definition frame_body (t : MessageType) (seq : Z) (p : list Z) : list Z :=
  type_byte t :: seq :: le_bytes 2 (Z.of_nat (length p)) ++ p.

Definition raw_frame (t : MessageType) (seq : Z) (p : list Z) : list Z :=
  frame_body t seq p ++ le_bytes 2 (crc16 (frame_body t seq p) crc_init).

(** The bytes on the wire. *)
Definition wire_frame (t : MessageType) (seq : Z) (p : list Z) : list Z :=
  stuff [] (raw_frame t seq p) ++ [kFrameDelimiter].

Lemma frame_body_length t seq p : length (frame_body t seq p) = 4 + length p.
Proof. unfold frame_body. cbn [length]. rewrite length_app, le_bytes_length. lia. Qed.

Lemma raw_frame_length t seq p : length (raw_frame t seq p) = kFrameOverhead + length p.
Proof.
  unfold raw_frame. rewrite length_app, le_bytes_length, frame_body_length.
  unfold kFrameOverhead, kFrameHeaderSize, kFrameTrailerSize. lia.
Qed.

Lemma raw_frame_bytes t seq p :
  in_word 8 (type_byte t) -> in_word 8 seq -> bytes_ok p -> bytes_ok (raw_frame t seq p).
Proof.
  intros Ht Hs Hp. unfold raw_frame, frame_body.
  apply Forall_app_2; [|apply le_bytes_ok].
  apply Forall_cons_2; [done|]. apply Forall_cons_2; [done|].
  apply Forall_app_2; [apply le_bytes_ok|done].
Qed.

(** The payload a pointer and a length denote, when the pointer may be read. *)
Definition payload_arg (payload : option (list Z)) (len : nat) (p : list Z) : Prop :=
  length p = len /\
  match payload with
  | Some buf => exists rest, buf = p ++ rest
  | None => len = 0
  end.

Lemma land_low x : u8 (Z.land x 0xFF) = Z.land x 255.
Proof. apply wrap_id, land_255_byte. Qed.

(** The payload copy, behind a header of four bytes. *)
Lemma copy_payload MaxPayload payload len p h0 h1 h2 h3 :
  payload_arg payload len p -> len <= MaxPayload ->
  match payload with
  | Some p =>
      if decide (0 < len) then
        p ← load_all p 0 len;
        raw ← store_all (h0 :: h1 :: h2 :: h3 :: replicate (2 + MaxPayload) 0%Z) 4 p;
        Some (4 + len, raw)
      else Some (4, h0 :: h1 :: h2 :: h3 :: replicate (2 + MaxPayload) 0%Z)
  | None => Some (4, h0 :: h1 :: h2 :: h3 :: replicate (2 + MaxPayload) 0%Z)
  end = Some (4 + len, [h0; h1; h2; h3] ++ p ++ 0%Z :: 0%Z :: replicate (MaxPayload - len) 0%Z).
Proof.
  intros [Hlen Hp] Hmax.
  assert (Hrep : replicate (2 + MaxPayload) 0%Z =
    replicate len 0%Z ++ 0%Z :: 0%Z :: replicate (MaxPayload - len) 0%Z).
  { replace (2 + MaxPayload) with (len + S (S (MaxPayload - len))) by lia.
    by rewrite replicate_add. }
  assert (H0 : len = 0 -> p = []) by (intros ->; by apply length_zero_iff_nil).
  destruct payload as [buf|].
  - case_decide as Hpos.
    + destruct Hp as [rest ->]. subst len.
      pose proof (load_all_middle [] p rest) as Hl. simpl in Hl. rewrite Hl. cbn [mbind option_bind].
      rewrite Hrep.
      pose proof (store_all_middle [h0; h1; h2; h3] (replicate (length p) 0%Z)
        (0%Z :: 0%Z :: replicate (MaxPayload - length p) 0%Z) p ltac:(len)) as Hst.
      simpl app in Hst. simpl length in Hst. by rewrite Hst.
    + assert (len = 0) as Hz by lia. rewrite (H0 Hz). rewrite Hz, Nat.sub_0_r. done.
  - rewrite (H0 Hp). rewrite Hp, Nat.sub_0_r. done.
Qed.

Lemma build_raw_spec MaxPayload t seq payload len p :
  payload_arg payload len p -> len <= MaxPayload ->
  exists raw, build_raw MaxPayload t seq payload len = Some (kFrameOverhead + len, raw) /\
    take (kFrameOverhead + len) raw = raw_frame t seq p.
Proof.
  intros Harg Hmax. unfold build_raw.
  change (replicate (kMaxRawSize MaxPayload) 0%Z) with
    (0%Z :: 0%Z :: 0%Z :: 0%Z :: replicate (2 + MaxPayload) 0%Z).
  rewrite store_0. cbn [mbind option_bind].
  rewrite store_S, store_0. cbn [mbind option_bind fmap option_fmap option_map].
  rewrite !store_S, store_0. cbn [mbind option_bind fmap option_fmap option_map].
  rewrite !store_S, store_0. cbn [mbind option_bind fmap option_fmap option_map].
  rewrite !land_low, (copy_payload MaxPayload payload len p) by done. cbn [mbind option_bind].
  set (h := [_; _; _; _]). set (tl := replicate (MaxPayload - len) 0%Z).
  assert (Hb : h ++ p = frame_body t seq p).
  { destruct Harg as [<- _]. done. }
  rewrite (app_assoc h), Hb.
  assert (Hbl : 4 + len = length (frame_body t seq p)).
  { rewrite frame_body_length. by destruct Harg as [-> _]. }
  rewrite Hbl, take_app_length, store_middle. cbn [mbind option_bind].
  set (c := crc16 _ _). rewrite !land_low.
  rewrite store_middle_S. cbn [mbind option_bind]. eexists. split.
  - by rewrite <- Hbl.
  - replace (kFrameOverhead + len) with (length (raw_frame t seq p)).
    + change (frame_body t seq p ++ _ :: _ :: tl) with (frame_body t seq p ++ le_bytes 2 c ++ tl).
      rewrite app_assoc. apply (take_app_length (raw_frame t seq p)).
    + rewrite raw_frame_length. by destruct Harg as [-> _].
Qed.

(** ** The encoder *)

Lemma raw_frame_capacity t seq p :
  length (stuff [] (raw_frame t seq p)) <= cobsMaxEncodedLen (kFrameOverhead + length p).
Proof.
  pose proof (stuff_length [] (raw_frame t seq p) ltac:(simpl; lia)) as H.
  by rewrite raw_frame_length in H.
Qed.

Lemma encode_frame_spec MaxPayload t seq payload len p outBuf :
  payload_arg payload len p -> len <= MaxPayload ->
  cobsMaxEncodedLen (kFrameOverhead + len) + 1 <= length outBuf ->
  encode_frame MaxPayload t seq payload len outBuf =
    Some (length (wire_frame t seq p),
          wire_frame t seq p ++ drop (length (wire_frame t seq p)) outBuf).
Proof.
  intros Harg Hmax Hcap. unfold encode_frame.
  rewrite decide_False by lia. rewrite decide_False by lia.
  destruct (build_raw_spec MaxPayload t seq payload len p Harg Hmax) as (raw & Hraw & Htake).
  rewrite Hraw. cbn [mbind option_bind]. rewrite Htake.
  pose proof (raw_frame_capacity t seq p) as Hw. pose proof (raw_frame_length t seq p) as Hrl.
  destruct Harg as [Hp _]. rewrite Hp in Hw, Hrl.
  rewrite encode_stuff by (rewrite Hrl, length_take; lia). cbn [mbind option_bind].
  pose proof (stuff_nonempty [] (raw_frame t seq p)) as Hne.
  rewrite decide_False by (by rewrite length_zero_iff_nil).
  set (w := stuff [] _) in *. set (cap := length outBuf - 1) in *.
  assert (Hd : drop (length w) (take cap outBuf) ++ drop cap outBuf = drop (length w) outBuf).
  { rewrite <- (take_drop cap outBuf) at 3.
    rewrite drop_app_le; [done|]. rewrite length_take. lia. }
  rewrite <- app_assoc, Hd.
  destruct (drop (length w) outBuf) as [|x tl] eqn:Htl.
  { apply (f_equal length) in Htl. rewrite length_drop in Htl. simpl in Htl. lia. }
  rewrite store_middle. cbn [mbind option_bind]. unfold wire_frame. fold w.
  rewrite length_app, Nat.add_1_r. f_equal. f_equal. rewrite <- app_assoc. simpl.
  rewrite <- (Nat.add_1_r (length w)), <- drop_drop, Htl. done.
Qed.

(** ** The decoder *)

(** The buffers have the sizes the class declares and the counters stay inside. *)
Record dec_wf (MaxPayload : nat) (d : FrameDecoder) : Prop := {
  wf_buf : length (m_cobsBuf d) = kMaxCobsSize MaxPayload;
  wf_len : m_cobsLen d <= kMaxCobsSize MaxPayload;
  wf_payload : length (m_payload d) = MaxPayload;
  wf_plen : m_payloadLen d <= MaxPayload;
}.

#[export] Hint Resolve wf_buf wf_len wf_payload wf_plen : sput.

Lemma new_decoder_wf MaxPayload : dec_wf MaxPayload (new_decoder MaxPayload).
Proof. split; simpl; rewrite ?length_replicate; (done || lia). Qed.

Lemma dec_reset_wf MaxPayload d : dec_wf MaxPayload d -> dec_wf MaxPayload (dec_reset d).
Proof. intros [H1 H2 H3 H4]. split; simpl; auto; lia. Qed.

Lemma set_cobsLen_wf MaxPayload d : dec_wf MaxPayload d -> dec_wf MaxPayload (set_cobsLen 0 d).
Proof. intros [H1 H2 H3 H4]. split; simpl; auto; lia. Qed.

Lemma word_of_bytes a b : in_word 8 a -> in_word 8 b ->
  u16 (Z.lor (u16 a) (Z.shiftl (u16 b) 8)) = le_word [a; b].
Proof.
  intros Ha Hb. rewrite !(wrap_id 16) with (x := a), !(wrap_id 16) with (x := b)
    by (apply (in_word_mono 8); [lia|done]).
  assert (E : Z.lor a (Z.shiftl b 8) = le_word [a; b])
    by (cbn [le_word]; by rewrite Z.shiftl_0_l, Z.lor_0_r).
  rewrite E. apply wrap_id, (le_word_in_word [a; b]). by rewrite !Forall_cons, Forall_nil.
Qed.

Lemma processFrame_total MaxPayload d :
  dec_wf MaxPayload d ->
  exists r d', processFrame MaxPayload d = Some (r, d') /\ dec_wf MaxPayload d'.
Proof.
  intros Hwf. pose proof (set_cobsLen_wf _ _ Hwf) as Hwf0. unfold processFrame.
  destruct (decode_total (take (m_cobsLen d) (m_cobsBuf d)) (replicate (kMaxRawSize MaxPayload) 0%Z))
    as (n & raw & Hd & Hl & Hn).
  rewrite Hd. cbn [mbind option_bind]. rewrite length_replicate in Hl, Hn.
  unfold kFrameTrailerSize, kFrameHeaderSize.
  case_decide as Hshort; [eauto|].
  unfold kFrameOverhead, kFrameTrailerSize, kFrameHeaderSize in Hshort.
  destruct (load_ok raw (n - 2)) as [lo Hlo]; [lia|].
  destruct (load_ok raw (S (n - 2))) as [hi Hhi]; [lia|].
  destruct (load_ok raw 0) as [ty Hty]; [lia|].
  destruct (load_ok raw 1) as [sq Hsq]; [lia|].
  destruct (load_ok raw 2) as [l0 Hl0]; [lia|].
  destruct (load_ok raw 3) as [l1 Hl1]; [lia|].
  rewrite Hlo, Hhi. cbn [mbind option_bind]. case_decide; [eauto|].
  rewrite Hty, Hsq, Hl0, Hl1. cbn [mbind option_bind].
  destruct Hwf as [H1 H2 H3 H4].
  case_decide as Hpl; [do 2 eexists; split; [done|]; split; simpl; auto; lia|].
  case_decide; [do 2 eexists; split; [done|]; split; simpl; auto; lia|].
  rewrite load_all_ok by lia. cbn [mbind option_bind].
  set (src := take _ _). assert (Hsrc : length src = n - 2 - 4).
  { unfold src. rewrite length_take, length_drop. lia. }
  rewrite store_all_ok by (simpl; lia). cbn [mbind option_bind].
  do 2 eexists. split; [done|]. split; simpl; auto; try lia.
  rewrite length_app, length_drop. lia.
Qed.

Lemma feedByte_total MaxPayload d b :
  dec_wf MaxPayload d ->
  exists r d', feedByte MaxPayload d b = Some (r, d') /\ dec_wf MaxPayload d'.
Proof.
  intros Hwf. unfold feedByte. repeat case_decide; try (by apply processFrame_total).
  - eauto.
  - pose proof Hwf as [H1 H2 H3 H4]. rewrite store_ok by lia. cbn [mbind option_bind].
    do 2 eexists. split; [done|]. split; simpl; rewrite ?length_insert; lia.
  - do 2 eexists. split; [done|]. by apply set_cobsLen_wf.
Qed.

Lemma feed_bytes_total MaxPayload d bs :
  dec_wf MaxPayload d ->
  exists rs d', feed_bytes MaxPayload d bs = Some (rs, d') /\ length rs = length bs /\
    dec_wf MaxPayload d'.
Proof.
  revert d. induction bs as [|b bs IH]; intros d Hwf; simpl; [eauto 6|].
  destruct (feedByte_total _ _ b Hwf) as (r & d1 & -> & Hwf1). cbn [mbind option_bind].
  destruct (IH _ Hwf1) as (rs & d2 & -> & Hl & Hwf2). cbn [mbind option_bind].
  do 2 eexists. split; [done|]. simpl. auto.
Qed.

Lemma feed_bytes_app MaxPayload d as_ bs rs d1 :
  feed_bytes MaxPayload d as_ = Some (rs, d1) ->
  feed_bytes MaxPayload d (as_ ++ bs) =
    ('(rs', d2) ← feed_bytes MaxPayload d1 bs; Some (rs ++ rs', d2)).
Proof.
  revert d rs. induction as_ as [|a as_ IH]; intros d rs H; simpl in *; simplify_eq/=.
  { destruct (feed_bytes _ _ bs) as [[? ?]|]; done. }
  destruct (feedByte MaxPayload d a) as [[r d0]|]; simplify_eq/=.
  destruct (feed_bytes MaxPayload d0 as_) as [[rs0 d0']|] eqn:E; simplify_eq/=.
  rewrite (IH _ _ E). destruct (feed_bytes MaxPayload d1 bs) as [[? ?]|]; done.
Qed.

Lemma feed_bytes_snoc MaxPayload d bs b rs r d' :
  feed_bytes MaxPayload d (bs ++ [b]) = Some (rs ++ [r], d') ->
  exists d1, feed_bytes MaxPayload d bs = Some (rs, d1) /\ feedByte MaxPayload d1 b = Some (r, d').
Proof.
  revert d rs. induction bs as [|c bs IH]; intros d rs Hf; cbn [app feed_bytes] in *.
  - destruct (feedByte MaxPayload d b) as [[r0 d0]|] eqn:E; [|done]. cbn [mbind option_bind] in Hf.
    exists d. destruct rs as [|r1 [|? ?]]; simplify_eq/=. done.
  - destruct (feedByte MaxPayload d c) as [[r0 d0]|]; [|done]. cbn [mbind option_bind] in Hf |- *.
    destruct (feed_bytes MaxPayload d0 (bs ++ [b])) as [[rs0 d2]|] eqn:E; [|done]. cbn [mbind option_bind] in Hf.
    destruct rs as [|r1 rs].
    { injection Hf as -> -> ->. destruct bs as [|c' bs]; cbn [app feed_bytes] in E;
        destruct (feedByte _ _ _) as [[? ?]|]; simplify_eq/=; try done.
      destruct (feed_bytes _ _ _) as [[? ?]|]; done. }
    injection Hf as -> -> ->. destruct (IH d0 rs E) as (d1 & -> & Hb). exists d1. done.
Qed.

(** Bytes other than the delimiter accumulate. *)
Lemma feed_accumulates MaxPayload d w :
  dec_wf MaxPayload d -> Forall nz_byte w ->
  m_cobsLen d + length w <= kMaxCobsSize MaxPayload ->
  exists d', feed_bytes MaxPayload d w = Some (replicate (length w) INCOMPLETE, d') /\
    dec_wf MaxPayload d' /\ m_cobsLen d' = m_cobsLen d + length w /\
    take (m_cobsLen d') (m_cobsBuf d') = take (m_cobsLen d) (m_cobsBuf d) ++ w /\
    m_payload d' = m_payload d /\ m_payloadLen d' = m_payloadLen d /\
    m_msgType d' = m_msgType d /\ m_seqNum d' = m_seqNum d.
Proof.
  intros Hwf Hw. revert d Hwf.
  induction Hw as [|b w Hb Hw IH]; intros d Hwf Hlen; simpl in Hlen |- *.
  { exists d. rewrite Nat.add_0_r, app_nil_r. done. }
  unfold feedByte. rewrite decide_False by (unfold nz_byte, kFrameDelimiter in *; lia).
  rewrite decide_True by lia. pose proof Hwf as [H1 H2 H3 H4].
  rewrite store_ok by lia. cbn [mbind option_bind].
  edestruct IH as (d' & Hf & Hwf' & Hl' & Ht' & Hrest);
    [| |rewrite Hf; cbn [mbind option_bind]; exists d'; split; [done|]].
  - split; simpl; rewrite ?length_insert; lia.
  - simpl. lia.
  - simpl in Hl', Ht', Hrest. repeat (split; [done || lia|]); split; [|done].
    rewrite Ht'. rewrite (take_S_r _ _ b) by (apply list_lookup_insert_eq; lia).
    rewrite take_insert_ge by lia. by rewrite <- app_assoc.
Qed.

(** ** Valid frames are accepted *)

(** The two checksum bytes and the length bytes are the words the encoder wrote. *)
Lemma word_of_le_bytes x :
  u16 (Z.lor (u16 (Z.land x 255)) (Z.shiftl (u16 (Z.land (Z.shiftr x 8) 255)) 8)) = wrap 16 x.
Proof.
  rewrite word_of_bytes by apply land_255_byte.
  apply (le_word_le_bytes 2 x).
Qed.

(** Reads of the decoded buffer, whatever follows the frame in it. *)
Lemma raw_frame_reads t seq p slack :
  let B := raw_frame t seq p ++ slack in
  let n := length (frame_body t seq p) in
  let c := crc16 (frame_body t seq p) crc_init in
  take n B = frame_body t seq p /\
  load B n = Some (Z.land c 255) /\ load B (S n) = Some (Z.land (Z.shiftr c 8) 255) /\
  load B 0 = Some (type_byte t) /\ load B 1 = Some seq /\
  load B 2 = Some (Z.land (Z.of_nat (length p)) 255) /\
  load B 3 = Some (Z.land (Z.shiftr (Z.of_nat (length p)) 8) 255) /\
  load_all B 4 (length p) = Some p.
Proof.
  intros B n c. subst B n. unfold raw_frame. fold c. rewrite <- app_assoc.
  change (le_bytes 2 c ++ slack) with (Z.land c 255 :: Z.land (Z.shiftr c 8) 255 :: slack).
  rewrite take_app_length, load_middle, load_middle_S. repeat (split; [done|]).
  unfold frame_body. cbn [app le_bytes].
  apply (load_all_middle [type_byte t; seq; Z.land (Z.of_nat (length p)) 255;
    Z.land (Z.shiftr (Z.of_nat (length p)) 8) 255] p).
Qed.

(** The decoder after it accepted the frame ([t], [seq], [p]). *)
Definition accepted (t : MessageType) (seq : Z) (p : list Z) (d' : FrameDecoder) : Prop :=
  m_msgType d' = t /\ m_seqNum d' = seq /\ getPayload d' = p /\ m_payloadLen d' = length p /\
  m_cobsLen d' = 0.

Lemma process_valid MaxPayload d t seq p :
  (Z.of_nat MaxPayload < 65536)%Z -> dec_wf MaxPayload d ->
  is_named t = true -> in_word 8 seq -> bytes_ok p -> length p <= MaxPayload ->
  take (m_cobsLen d) (m_cobsBuf d) = stuff [] (raw_frame t seq p) ->
  exists d', processFrame MaxPayload d = Some (FRAME_READY, d') /\ accepted t seq p d'.
Proof.
  intros Hmax Hwf Ht Hs Hp Hlen Hbuf.
  assert (Hraw : bytes_ok (raw_frame t seq p)) by auto using raw_frame_bytes, type_byte_word.
  pose proof (raw_frame_length t seq p) as Hrl.
  pose proof (frame_body_length t seq p) as Hbl.
  unfold processFrame. rewrite Hbuf.
  rewrite decode_encode by (done || (rewrite length_replicate, Hrl; unfold kMaxRawSize; lia)).
  cbn [mbind option_bind]. rewrite Hrl. rewrite decide_False by lia.
  replace (kFrameOverhead + length p - kFrameTrailerSize) with (length (frame_body t seq p))
    by (rewrite Hbl; unfold kFrameOverhead, kFrameHeaderSize, kFrameTrailerSize; lia).
  pose proof (raw_frame_reads t seq p
    (drop (kFrameOverhead + length p) (replicate (kMaxRawSize MaxPayload) 0%Z))) as Hreads.
  cbv zeta in Hreads. destruct Hreads as (Htake & Hlo & Hhi & Hty & Hsq & Hl0 & Hl1 & Hpay).
  rewrite Hlo, Hhi. cbn [mbind option_bind]. rewrite Htake, word_of_le_bytes.
  rewrite (wrap_id 16) by (apply crc16_word; unfold in_word, crc_init; lia).
  rewrite decide_False by auto.
  rewrite Hty, Hsq, Hl0, Hl1. cbn [mbind option_bind]. rewrite word_of_le_bytes.
  rewrite (wrap_id 16) by (unfold in_word; lia). rewrite Nat2Z.id.
  rewrite Hbl. unfold kFrameHeaderSize.
  rewrite decide_False by lia. rewrite decide_False by lia.
  rewrite Hpay. cbn [mbind option_bind].
  rewrite store_all_ok by (simpl; rewrite (wf_payload _ _ Hwf); lia). cbn [mbind option_bind].
  eexists. split; [done|]. repeat split; simpl; [by apply byte_type_type_byte|].
  unfold getPayload. simpl. by rewrite take_app_length.
Qed.

Lemma feed_delimiter MaxPayload d :
  m_cobsLen d <> 0 -> feedByte MaxPayload d kFrameDelimiter = processFrame MaxPayload d.
Proof. intros H. unfold feedByte. rewrite decide_True by done. by rewrite decide_False. Qed.

(** The wire form: bytes that are not zero, and the delimiter. *)
Lemma wire_frame_split t seq p :
  is_named t = true -> in_word 8 seq -> bytes_ok p ->
  exists w, wire_frame t seq p = w ++ [kFrameDelimiter] /\ Forall nz_byte w /\ 0 < length w.
Proof.
  intros Ht Hs Hp. exists (stuff [] (raw_frame t seq p)). split; [done|].
  assert (Hraw : bytes_ok (raw_frame t seq p)) by auto using raw_frame_bytes, type_byte_word.
  split; [apply stuff_nz; [simpl; lia|constructor|done]|].
  pose proof (stuff_nonempty [] (raw_frame t seq p)) as Hne. destruct (stuff _ _); [done|simpl; lia].
Qed.

(** Feeding the wire form of a frame to a decoder that holds no partial frame. *)
Lemma feed_wire MaxPayload d t seq p :
  (Z.of_nat MaxPayload < 65536)%Z -> dec_wf MaxPayload d -> m_cobsLen d = 0 ->
  is_named t = true -> in_word 8 seq -> bytes_ok p -> length p <= MaxPayload ->
  exists d', feed_bytes MaxPayload d (wire_frame t seq p) =
      Some (replicate (length (wire_frame t seq p) - 1) INCOMPLETE ++ [FRAME_READY], d') /\
    accepted t seq p d' /\ dec_wf MaxPayload d'.
Proof.
  intros Hmax Hwf H0 Ht Hs Hp Hlen. set (w := stuff [] (raw_frame t seq p)).
  assert (Hraw : bytes_ok (raw_frame t seq p)) by auto using raw_frame_bytes, type_byte_word.
  assert (Hw : Forall nz_byte w) by (apply stuff_nz; [simpl; lia|constructor|done]).
  assert (Hcap : length w <= kMaxCobsSize MaxPayload).
  { pose proof (raw_frame_capacity t seq p) as Hc. fold w in Hc.
    etransitivity; [exact Hc|]. unfold kMaxCobsSize, kMaxRawSize, cobsMaxEncodedLen. divlia. }
  destruct (feed_accumulates MaxPayload d w) as (d1 & Hf & Hwf1 & Hl1 & Ht1 & _); [done..|lia|].
  rewrite H0 in Hl1, Ht1. simpl in Hl1, Ht1.
  destruct (process_valid MaxPayload d1 t seq p) as (d2 & Hproc & Hacc); [done..|].
  destruct (processFrame_total MaxPayload d1 Hwf1) as (r & d2' & Hproc' & Hwf2).
  rewrite Hproc in Hproc'. injection Hproc' as <- <-.
  exists d2. split; [|done]. unfold wire_frame. fold w. rewrite (feed_bytes_app _ _ _ _ _ _ Hf).
  assert (Hne : length w <> 0) by (rewrite length_zero_iff_nil; apply stuff_nonempty).
  simpl. rewrite feed_delimiter by lia. rewrite Hproc. cbn [mbind option_bind].
  rewrite length_app. simpl. by rewrite Nat.add_sub.
Qed.

(** ** Damaged frames are rejected *)

(** [body'] and [trailer'] are a damaged copy of [body] and [trailer]: the damage is
    confined to two consecutive bytes of the body, or to the trailer. *)
Definition damaged (body trailer body' trailer' : list Z) : Prop :=
  (trailer' = trailer /\ exists pre post a1 a2 b1 b2,
     body = pre ++ [a1; a2] ++ post /\ body' = pre ++ [b1; b2] ++ post /\ (a1, a2) <> (b1, b2)) \/
  (body' = body /\ trailer' <> trailer).

(** A checksum mismatch: [processFrame] only empties its accumulation buffer. *)
Lemma process_crc_error MaxPayload d body lo hi :
  bytes_ok (body ++ [lo; hi]) -> length body + 2 <= kMaxRawSize MaxPayload ->
  4 <= length body -> crc16 body crc_init <> le_word [lo; hi] ->
  take (m_cobsLen d) (m_cobsBuf d) = stuff [] (body ++ [lo; hi]) ->
  processFrame MaxPayload d = Some (ERROR, set_cobsLen 0 d).
Proof.
  intros Hok Hmax Hmin Hne Hbuf. unfold processFrame. rewrite Hbuf.
  assert (Hl : length (body ++ [lo; hi]) = length body + 2) by len.
  rewrite decode_encode by (done || (rewrite length_replicate; lia)). cbn [mbind option_bind].
  rewrite Hl. unfold kFrameOverhead, kFrameHeaderSize, kFrameTrailerSize.
  rewrite decide_False by lia. rewrite Nat.add_sub, <- app_assoc. simpl app.
  rewrite load_middle, load_middle_S. cbn [mbind option_bind]. rewrite take_app_length.
  apply Forall_app in Hok as [_ Hok]. rewrite !Forall_cons in Hok. destruct Hok as (Hlo & Hhi & _).
  rewrite word_of_bytes by done. by rewrite decide_True.
Qed.

Lemma burst_changes_crc pre post a1 a2 b1 b2 :
  bytes_ok (pre ++ [a1; a2] ++ post) -> bytes_ok (pre ++ [b1; b2] ++ post) ->
  (a1, a2) <> (b1, b2) ->
  crc16 (pre ++ [a1; a2] ++ post) crc_init <> crc16 (pre ++ [b1; b2] ++ post) crc_init.
Proof.
  rewrite !Forall_app, !Forall_cons. intros (_ & (Ha1 & Ha2 & _) & Hpost) (_ & (Hb1 & Hb2 & _) & _) Hne He.
  assert (Hi : in_word 16 crc_init) by (unfold in_word, crc_init; lia).
  rewrite !crc16_app in He. apply crc16_inj_state in He; [|auto with sput..|done].
  assert (a1 = b1 /\ a2 = b2) as [-> ->]; [|congruence].
  apply (crc_two_bytes_inj (crc16 pre crc_init)); [auto with sput..|exact He].
Qed.

Lemma le_word_inj2 a b c d :
  bytes_ok [a; b] -> bytes_ok [c; d] -> le_word [a; b] = le_word [c; d] -> [a; b] = [c; d].
Proof.
  intros H1 H2 He. rewrite <- (le_bytes_le_word [a; b]), <- (le_bytes_le_word [c; d]) by done.
  cbn [length]. by rewrite He.
Qed.

Lemma damaged_crc body lo hi body' lo' hi' :
  bytes_ok (body ++ [lo; hi]) -> bytes_ok (body' ++ [lo'; hi']) ->
  crc16 body crc_init = le_word [lo; hi] -> damaged body [lo; hi] body' [lo'; hi'] ->
  length body' = length body /\ crc16 body' crc_init <> le_word [lo'; hi'].
Proof.
  rewrite !Forall_app. intros [Hb Ht] [Hb' Ht'] Hcrc [(Het & pre & post & a1 & a2 & b1 & b2 & -> & -> & Hne)|[-> Hne]].
  - split; [len|]. rewrite Het, <- Hcrc. intros He. symmetry in He. revert He.
    by apply burst_changes_crc.
  - split; [done|]. rewrite Hcrc. intros He. by apply le_word_inj2 in He.
Qed.

(** A frame fed whole to a decoder that holds nothing: [processFrame] sees its stuffing. *)
Lemma feed_raw MaxPayload d raw :
  dec_wf MaxPayload d -> m_cobsLen d = 0 -> bytes_ok raw -> length raw <= kMaxRawSize MaxPayload ->
  exists d1, dec_wf MaxPayload d1 /\
    take (m_cobsLen d1) (m_cobsBuf d1) = stuff [] raw /\
    m_payload d1 = m_payload d /\ m_payloadLen d1 = m_payloadLen d /\
    m_msgType d1 = m_msgType d /\ m_seqNum d1 = m_seqNum d /\
    feed_bytes MaxPayload d (stuff [] raw ++ [kFrameDelimiter]) =
      ('(r, d2) ← processFrame MaxPayload d1;
       Some (replicate (length (stuff [] raw)) INCOMPLETE ++ [r], d2)).
Proof.
  intros Hwf H0 Hraw Hlen.
  assert (Hw : Forall nz_byte (stuff [] raw)) by (apply stuff_nz; [simpl; lia|constructor|done]).
  assert (Hcap : length (stuff [] raw) <= kMaxCobsSize MaxPayload).
  { pose proof (stuff_length [] raw ltac:(simpl; lia)) as Hc. simpl in Hc.
    unfold kMaxCobsSize, cobsMaxEncodedLen in *. divlia. }
  destruct (feed_accumulates MaxPayload d (stuff [] raw)) as (d1 & Hf & Hwf1 & Hl1 & Ht1 & Hrest);
    [done..|lia|].
  rewrite H0 in Hl1, Ht1. simpl in Hl1, Ht1.
  exists d1. destruct Hrest as (H1 & H2 & H3 & H4). repeat (split; [done|]).
  rewrite (feed_bytes_app _ _ _ _ _ _ Hf). simpl.
  rewrite feed_delimiter by (rewrite Hl1, length_zero_iff_nil; apply stuff_nonempty).
  destruct (processFrame MaxPayload d1) as [[r d2]|]; done.
Qed.

(** Reads of a decoded buffer that starts with [body] and its checksum. *)
Lemma sealed_reads body slack :
  let c := crc16 body crc_init in
  let B := (body ++ le_bytes 2 c) ++ slack in
  take (length body) B = body /\
  load B (length body) = Some (Z.land c 255) /\
  load B (S (length body)) = Some (Z.land (Z.shiftr c 8) 255) /\
  (forall i, i < length body -> load B i = load body i).
Proof.
  intros c B. unfold B. rewrite <- app_assoc.
  change (le_bytes 2 c ++ slack) with (Z.land c 255 :: Z.land (Z.shiftr c 8) 255 :: slack).
  rewrite take_app_length, load_middle, load_middle_S. repeat (split; [done|]).
  intros i Hi. unfold load. by apply lookup_app_l.
Qed.

(** ** Properties *)

(** C5 Round trip of the framed protocol: what [FrameEncoder::encode] puts on the wire
    makes a [FrameDecoder] that holds no partial frame report INCOMPLETE for every byte
    but the last, and FRAME_READY on the delimiter, with the same type, sequence number
    and payload. *)
Theorem frame_roundtrip (MaxPayload : nat) (d : FrameDecoder) (t : MessageType) (seq : Z)
    (p outBuf out : list Z) (n : nat) :
  (Z.of_nat MaxPayload < 65536)%Z -> dec_wf MaxPayload d -> m_cobsLen d = 0 ->
  is_named t = true -> in_word 8 seq -> bytes_ok p -> length p <= MaxPayload ->
  maxWireSize (length p) <= length outBuf ->
  encode_frame MaxPayload t seq (Some p) (length p) outBuf = Some (n, out) ->
  n <= maxWireSize (length p) /\
  exists d', feed_bytes MaxPayload d (take n out) =
      Some (replicate (n - 1) INCOMPLETE ++ [FRAME_READY], d') /\ accepted t seq p d'.
Proof.
  intros Hmax Hwf H0 Ht Hs Hp Hlen Hcap He.
  unfold maxWireSize, rawFrameSize in *.
  assert (Harg : payload_arg (Some p) (length p) p) by (split; [done|exists []; by rewrite app_nil_r]).
  rewrite (encode_frame_spec MaxPayload t seq (Some p) (length p) p outBuf Harg Hlen Hcap) in He.
  injection He as <- <-. rewrite take_app_length. split.
  - pose proof (raw_frame_capacity t seq p). unfold wire_frame. rewrite length_app. cbn [length]. lia.
  - destruct (feed_wire MaxPayload d t seq p) as (d' & Hf & Hacc & _); [done..|]. eauto.
Qed.

Lemma frame_roundtrip_witness :
  exists d', feed_bytes 4 (new_decoder 4) [4; 1; 7; 2; 1; 4; 9; 37; 80; 0]%Z =
      Some (replicate 9 INCOMPLETE ++ [FRAME_READY], d') /\ accepted COMMAND 7 [0; 9]%Z d'.
Proof.
  refine (proj2 (frame_roundtrip 4 (new_decoder 4) COMMAND 7 [0; 9]%Z (replicate 12 0%Z)
    [4; 1; 7; 2; 1; 4; 9; 37; 80; 0; 0; 0]%Z 10 _ _ _ _ _ _ _ _ _)).
  - lia.
  - apply new_decoder_wf.
  - reflexivity.
  - reflexivity.
  - unfold in_word; lia.
  - repeat apply Forall_cons_2; [unfold in_word; lia..|constructor].
  - simpl; lia.
  - vm_compute. lia.
  - vm_compute. reflexivity.
Defined.

(** C24 Every byte the decoder is fed, in any state the class can be in, stays inside the
    buffers: [feedByte] never reads or writes out of bounds, keeps the counters within the
    declared sizes, and keeps them so over any sequence of bytes. *)
Theorem decoder_safe (MaxPayload : nat) (d : FrameDecoder) (bs : list Z) :
  dec_wf MaxPayload d ->
  exists rs d', feed_bytes MaxPayload d bs = Some (rs, d') /\ length rs = length bs /\
    dec_wf MaxPayload d' /\ length (getPayload d') <= MaxPayload.
Proof.
  intros Hwf. destruct (feed_bytes_total MaxPayload d bs Hwf) as (rs & d' & Hf & Hl & Hwf').
  exists rs, d'. repeat (split; [done|]). unfold getPayload. rewrite length_take.
  pose proof (wf_plen _ _ Hwf'). lia.
Qed.

Lemma decoder_safe_witness :
  exists rs d', feed_bytes 4 (new_decoder 4) [3; 255; 0; 0; 7; 0]%Z = Some (rs, d') /\
    length rs = 6 /\ dec_wf 4 d' /\ length (getPayload d') <= 4.
Proof. apply (decoder_safe 4 (new_decoder 4) [3; 255; 0; 0; 7; 0]%Z), new_decoder_wf. Defined.

(** C34 A frame damaged in two consecutive bytes of header or payload, or in its
    checksum, is never accepted: the delimiter gives ERROR, the payload of the last good
    frame is kept, and the decoder holds no partial frame, so that the next frame on the
    wire is decoded afresh. *)
Theorem damaged_frame_rejected (MaxPayload : nat) (d : FrameDecoder) (t : MessageType) (seq : Z)
    (p body' : list Z) (lo' hi' : Z) :
  dec_wf MaxPayload d -> m_cobsLen d = 0 ->
  is_named t = true -> in_word 8 seq -> bytes_ok p -> length p <= MaxPayload ->
  bytes_ok (body' ++ [lo'; hi']) ->
  damaged (frame_body t seq p) (le_bytes 2 (crc16 (frame_body t seq p) crc_init)) body' [lo'; hi'] ->
  exists d', feed_bytes MaxPayload d (stuff [] (body' ++ [lo'; hi']) ++ [kFrameDelimiter]) =
      Some (replicate (length (stuff [] (body' ++ [lo'; hi']))) INCOMPLETE ++ [ERROR], d') /\
    getPayload d' = getPayload d /\ m_cobsLen d' = 0 /\ dec_wf MaxPayload d'.
Proof.
  intros Hwf H0 Ht Hs Hp Hlen Hok Hdam.
  set (c := crc16 (frame_body t seq p) crc_init) in *.
  assert (Hc : le_word (le_bytes 2 c) = c).
  { rewrite le_word_le_bytes. apply (wrap_id 16), crc16_word. unfold in_word, crc_init; lia. }
  destruct (damaged_crc (frame_body t seq p) (Z.land c 255) (Z.land (Z.shiftr c 8) 255)
    body' lo' hi') as [Hbl Hne]; [|done|exact (eq_sym Hc)|done|].
  { apply (raw_frame_bytes t seq p); auto using type_byte_word. }
  rewrite frame_body_length in Hbl.
  destruct (feed_raw MaxPayload d (body' ++ [lo'; hi'])) as
    (d1 & Hwf1 & Hbuf & Hp1 & Hpl1 & _ & _ & Hf); [done..| |].
  { rewrite length_app, Hbl. unfold kMaxRawSize, kFrameOverhead, kFrameHeaderSize, kFrameTrailerSize.
    simpl. lia. }
  rewrite Hf, (process_crc_error MaxPayload d1 body' lo' hi'); [|done|..|done|done];
    [|unfold kMaxRawSize, kFrameOverhead, kFrameHeaderSize, kFrameTrailerSize; lia|lia].
  cbn [mbind option_bind]. eexists. split; [done|]. unfold getPayload. simpl.
  rewrite Hp1, Hpl1. split; [done|]. split; [done|]. by apply set_cobsLen_wf.
Qed.

Lemma damaged_frame_rejected_witness :
  exists d', feed_bytes 4 (new_decoder 4)
      (stuff [] ([1; 7; 2; 0; 6; 9] ++ [37; 80])%Z ++ [kFrameDelimiter]) =
      Some (replicate 9 INCOMPLETE ++ [ERROR], d') /\
    getPayload d' = [] /\ m_cobsLen d' = 0 /\ dec_wf 4 d'.
Proof.
  refine (damaged_frame_rejected 4 (new_decoder 4) COMMAND 7 [0; 9]%Z [1; 7; 2; 0; 6; 9]%Z 37%Z 80%Z
    _ _ _ _ _ _ _ _).
  - apply new_decoder_wf.
  - reflexivity.
  - reflexivity.
  - unfold in_word; lia.
  - repeat apply Forall_cons_2; [unfold in_word; lia..|constructor].
  - simpl; lia.
  - repeat apply Forall_cons_2; [unfold in_word; lia..|constructor].
  - left. split; [vm_compute; reflexivity|].
    exists [1; 7; 2]%Z, [9]%Z, 0%Z, 0%Z, 0%Z, 6%Z. repeat split; try reflexivity. congruence.
Defined.

(** The guarantee of [damaged_frame_rejected] stops at the seam between payload and
    checksum, because the checksum travels low byte first: this damage of the last
    payload byte and the first checksum byte, a burst of sixteen bits, is accepted. *)
Example seam_burst_accepted :
  exists d', feed_bytes 4 (new_decoder 4)
      (stuff [] [1; 7; 2; 0; 0; Z.lxor 9 0x89; Z.lxor 37 0xA1; 80]%Z ++ [kFrameDelimiter]) =
    Some (replicate 9 INCOMPLETE ++ [FRAME_READY], d').
Proof. eexists. vm_compute. reflexivity. Qed.

(** A frame with a good checksum whose length field disagrees with the bytes received
    is an ERROR and keeps the last payload, but [getMsgType] and [getSeqNum] then answer
    with the header of the rejected frame. *)
Theorem length_mismatch_error (MaxPayload : nat) (d : FrameDecoder) (ty seq l0 l1 : Z) (p : list Z) :
  let body := ty :: seq :: l0 :: l1 :: p in
  let raw := body ++ le_bytes 2 (crc16 body crc_init) in
  dec_wf MaxPayload d -> m_cobsLen d = 0 -> bytes_ok body -> length p <= MaxPayload ->
  Z.of_nat (length p) <> le_word [l0; l1] ->
  exists d', feed_bytes MaxPayload d (stuff [] raw ++ [kFrameDelimiter]) =
      Some (replicate (length (stuff [] raw)) INCOMPLETE ++ [ERROR], d') /\
    getPayload d' = getPayload d /\ m_cobsLen d' = 0 /\
    type_byte (m_msgType d') = ty /\ m_seqNum d' = seq.
Proof.
  intros body raw Hwf H0 Hok Hlen Hne.
  assert (Hraw : bytes_ok raw) by (apply Forall_app_2; auto with sput).
  set (c := crc16 body crc_init) in *.
  assert (Hrl : length raw = length body + 2) by (unfold raw; rewrite length_app; done).
  assert (Hbl : length body = 4 + length p) by done.
  destruct (feed_raw MaxPayload d raw) as (d1 & Hwf1 & Hbuf & Hp1 & Hpl1 & _ & _ & Hf); [done..| |].
  { rewrite Hrl, Hbl. unfold kMaxRawSize, kFrameOverhead, kFrameHeaderSize, kFrameTrailerSize. lia. }
  rewrite Hf. unfold processFrame. rewrite Hbuf.
  rewrite decode_encode by (done || (rewrite length_replicate, Hrl, Hbl; unfold kMaxRawSize,
    kFrameOverhead, kFrameHeaderSize, kFrameTrailerSize; lia)).
  cbn [mbind option_bind]. rewrite Hrl.
  unfold kFrameOverhead, kFrameHeaderSize, kFrameTrailerSize.
  rewrite decide_False by lia. rewrite Nat.add_sub.
  destruct (sealed_reads body (drop (length body + 2) (replicate (kMaxRawSize MaxPayload) 0%Z)))
    as (Htake & Hlo & Hhi & Hhead).
  fold c in Htake, Hlo, Hhi, Hhead. fold raw in Htake, Hlo, Hhi, Hhead.
  rewrite Hlo, Hhi. cbn [mbind option_bind]. rewrite Htake, word_of_le_bytes.
  rewrite (wrap_id 16) by (apply crc16_word; unfold in_word, crc_init; lia).
  rewrite decide_False by auto.
  rewrite !Hhead by (rewrite Hbl; lia). unfold load, body. cbn [lookup list_lookup mbind option_bind].
  unfold body in Hok. rewrite !Forall_cons in Hok. destruct Hok as (_ & _ & Hl0 & Hl1 & _).
  rewrite word_of_bytes by done. cbn [length] in *.
  assert (Hlw : (0 <= le_word [l0; l1])%Z) by (apply le_word_nonneg; auto).
  rewrite decide_True by lia. cbn [mbind option_bind].
  eexists. split; [done|]. unfold getPayload. simpl. rewrite Hp1, Hpl1, type_byte_byte_type. done.
Qed.

Lemma length_mismatch_error_witness :
  exists d', feed_bytes 4 (new_decoder 4)
      (stuff [] ([0x87; 7; 9; 0; 5] ++ le_bytes 2 (crc16 [0x87; 7; 9; 0; 5] crc_init))%Z ++ [kFrameDelimiter]) =
      Some (replicate 8 INCOMPLETE ++ [ERROR], d') /\
    getPayload d' = [] /\ m_cobsLen d' = 0 /\
    type_byte (m_msgType d') = 0x87%Z /\ m_seqNum d' = 7%Z.
Proof.
  refine (length_mismatch_error 4 (new_decoder 4) 0x87 7 9 0 [5]%Z _ _ _ _ _).
  - apply new_decoder_wf.
  - reflexivity.
  - repeat apply Forall_cons_2; [unfold in_word; lia..|constructor].
  - simpl; lia.
  - vm_compute. discriminate.
Defined.

(** A run of non-zero bytes longer than the accumulation buffer gives one ERROR, on the
    first byte that does not fit, and accumulation starts again with the very next byte:
    no delimiter is awaited. Whatever complete frame follows the overflowing byte is
    decoded and accepted. *)
Theorem overflow_restarts (MaxPayload : nat) (d : FrameDecoder) (w : list Z) (b : Z)
    (t : MessageType) (seq : Z) (p : list Z) :
  (Z.of_nat MaxPayload < 65536)%Z -> dec_wf MaxPayload d -> m_cobsLen d = 0 ->
  Forall nz_byte (w ++ [b]) -> length w = kMaxCobsSize MaxPayload ->
  is_named t = true -> in_word 8 seq -> bytes_ok p -> length p <= MaxPayload ->
  exists d', feed_bytes MaxPayload d (w ++ b :: wire_frame t seq p) =
      Some (replicate (length w) INCOMPLETE ++ ERROR ::
            replicate (length (wire_frame t seq p) - 1) INCOMPLETE ++ [FRAME_READY], d') /\
    accepted t seq p d'.
Proof.
  intros Hmax Hwf H0 Hnz Hlen Ht Hs Hp Hplen.
  rewrite Forall_app, Forall_cons in Hnz. destruct Hnz as (Hw & Hb & _).
  destruct (feed_accumulates MaxPayload d w) as (d1 & Hf & Hwf1 & Hl1 & _); [done..|lia|].
  rewrite (feed_bytes_app _ _ _ _ _ _ Hf). cbn [feed_bytes].
  unfold feedByte at 1. rewrite decide_False by (unfold nz_byte, kFrameDelimiter in *; lia).
  rewrite decide_False by lia. cbn [mbind option_bind].
  destruct (feed_wire MaxPayload (set_cobsLen 0 d1) t seq p) as (d2 & Hf2 & Hacc & _);
    [try done..|]; [by apply set_cobsLen_wf|].
  rewrite Hf2. cbn [mbind option_bind]. eauto.
Qed.

Lemma overflow_restarts_witness :
  exists d', feed_bytes 1 (new_decoder 1) (replicate 8 7%Z ++ 7%Z :: wire_frame ACK 3 [])%Z =
      Some (replicate 8 INCOMPLETE ++ ERROR ::
            replicate (length (wire_frame ACK 3 []) - 1) INCOMPLETE ++ [FRAME_READY], d') /\
    accepted ACK 3 [] d'.
Proof.
  apply (overflow_restarts 1 (new_decoder 1) (replicate 8 7%Z) 7 ACK 3 []).
  - lia.
  - apply new_decoder_wf.
  - reflexivity.
  - repeat apply Forall_cons_2; [unfold nz_byte; lia..|constructor].
  - reflexivity.
  - reflexivity.
  - unfold in_word; lia.
  - constructor.
  - simpl; lia.
Defined.
