(* ===== verification/Protocol.v ===== *)
(** * Framed protocol: message dispatch and response payloads

    [comms/protocol/IProtocolHandler.h], [ProtocolRouter.h] and [ResponseSerializer.h].
    The handler interface is a class over the type of the handler's state, so that the
    router is verified against any handler, the comms task being one. Floats are their 32-bit patterns, which is what the code copies. *)

From S2P Require Import Prelude Crc Cobs Frame.

(** ** The handler interface ([IProtocolHandler.h]) *)

(** [Cfg::Command]: the fields the framework uses. *)
Record Command := Cmd {
  cmd_id : Z;
  cmd_targetDevice : Z;
  cmd_value : Z;
}.

#[global] Instance Command_eq_dec : EqDecision Command.
Proof. solve_decision. Defined.

(** A callback changes the handler's state; [None] is undefined behaviour in it. *)
Class IProtocolHandler (S : Type) := {
  onCommand : Command -> Z -> S -> option S;
  onHandshakeRequest : Z -> Z -> S -> option S;
  onExitHandshake : Z -> S -> option S;
  onMetricsRequest : Z -> S -> option S;
  onHeartbeat : Z -> S -> option S;
}.

(** ** The router ([ProtocolRouter.h]) *)

Definition kCommandPayloadSize : nat := 6.
Definition kHandshakePayloadSize : nat := 6.

Section router.
Context {S : Type} `{!IProtocolHandler S}.

Definition dispatchCommand (seqNum : Z) (payload : list Z) (payloadLen : nat) (s : S)
    : option (bool * S) :=
  if decide (payloadLen <> kCommandPayloadSize) then Some (false, s)
  else
    id ← load payload 0;
    dev ← load payload 1;
    val ← load_all payload 2 4;
    s ← onCommand (Cmd id dev (le_word val)) seqNum s;
    Some (true, s).

Definition dispatchHandshake (seqNum : Z) (payload : list Z) (payloadLen : nat) (s : S)
    : option (bool * S) :=
  if decide (payloadLen <> kHandshakePayloadSize) then Some (false, s)
  else
    v0 ← load payload 0;
    v1 ← load payload 1;
    let version := u16 (Z.lor (u16 v0) (Z.shiftl (u16 v1) 8)) in
    m0 ← load payload 2;
    m1 ← load payload 3;
    m2 ← load payload 4;
    m3 ← load payload 5;
    let magic := Z.lor (Z.lor (Z.lor (u32 m0) (u32 (Z.shiftl (u32 m1) 8)))
                              (u32 (Z.shiftl (u32 m2) 16))) (u32 (Z.shiftl (u32 m3) 24)) in
    if decide (magic <> kHandshakeMagic) then Some (false, s)
    else
      s ← onHandshakeRequest version seqNum s;
      Some (true, s).

(** [handler] tells whether [m_handler] is set. *)
Definition dispatch (handler : bool) (type : MessageType) (seqNum : Z) (payload : list Z)
    (payloadLen : nat) (s : S) : option (bool * S) :=
  if negb handler then Some (false, s)
  else
    match type with
    | COMMAND => dispatchCommand seqNum payload payloadLen s
    | HANDSHAKE_REQ => dispatchHandshake seqNum payload payloadLen s
    | EXIT_HANDSHAKE => s ← onExitHandshake seqNum s; Some (true, s)
    | METRICS_REQ => s ← onMetricsRequest seqNum s; Some (true, s)
    | HEARTBEAT => s ← onHeartbeat seqNum s; Some (true, s)
    | _ => Some (false, s)
    end.
End router.

(** ** Response payloads ([ResponseSerializer.h]) *)

Definition serializeAck (cmdId : Z) (outBuf : list Z) : option (nat * list Z) :=
  if decide (length outBuf < 1) then Some (0, outBuf)
  else outBuf ← store outBuf 0 cmdId; Some (1, outBuf).

Definition serializeCommand (cmdId targetDevice value : Z) (outBuf : list Z)
    : option (nat * list Z) :=
  if decide (length outBuf < 6) then Some (0, outBuf)
  else
    outBuf ← store outBuf 0 cmdId;
    outBuf ← store outBuf 1 targetDevice;
    outBuf ← store_all outBuf 2 (le_bytes 4 value);
    Some (6, outBuf).

Definition serializeNack (cmdId targetDevice value : Z) (outBuf : list Z)
    : option (nat * list Z) :=
  if decide (length outBuf < 6) then Some (0, outBuf)
  else
    outBuf ← store outBuf 0 cmdId;
    outBuf ← store outBuf 1 targetDevice;
    outBuf ← store_all outBuf 2 (le_bytes 4 value);
    Some (6, outBuf).

Definition serializeHandshakeResp (outBuf : list Z) : option (nat * list Z) :=
  if decide (length outBuf < 6) then Some (0, outBuf)
  else
    outBuf ← store outBuf 0 (u8 (Z.land kProtocolVersion 0xFF));
    outBuf ← store outBuf 1 (u8 (Z.land (Z.shiftr kProtocolVersion 8) 0xFF));
    outBuf ← store outBuf 2 (u8 (Z.land kHandshakeMagic 0xFF));
    outBuf ← store outBuf 3 (u8 (Z.land (Z.shiftr kHandshakeMagic 8) 0xFF));
    outBuf ← store outBuf 4 (u8 (Z.land (Z.shiftr kHandshakeMagic 16) 0xFF));
    outBuf ← store outBuf 5 (u8 (Z.land (Z.shiftr kHandshakeMagic 24) 0xFF));
    Some (6, outBuf).

(** A null pointer is [None]. *)
Definition serializeData (data : option (list Z)) (dataLen : nat) (outBuf : list Z)
    : option (nat * list Z) :=
  if decide (length outBuf < dataLen \/ (0 < dataLen /\ data = None)) then Some (0, outBuf)
  else
    match data with
    | None => Some (dataLen, outBuf)
    | Some p =>
        p ← load_all p 0 dataLen;
        outBuf ← store_all outBuf 0 p;
        Some (dataLen, outBuf)
    end.

(** [text] is the string without its terminator. *)
Definition serializeLog (level : Z) (text : option (list Z)) (outBuf : list Z)
    : option (nat * list Z) :=
  match text with
  | None => Some (0, outBuf)
  | Some text =>
      let textLen := length text in
      let total := 1 + textLen in
      if decide (length outBuf < total) then Some (0, outBuf)
      else
        outBuf ← store outBuf 0 level;
        outBuf ← store_all outBuf 1 text;
        Some (total, outBuf)
  end.

(** ** Performance snapshots ([utils/PerformanceSnapshot.h]) *)

Record TaskSnapshot := TaskSnap {
  ts_taskIndex : Z; ts_coreId : Z; ts_lastUs : Z; ts_minUs : Z; ts_maxUs : Z; ts_avgUs : Z;
  ts_samples : Z; ts_overruns : Z; ts_misses : Z; ts_histogram : list Z;
}.

Definition kMaxSnapshotTasks : nat := 16.
Definition kMaxSnapshotCores : nat := 4.

Record PerformanceSnapshot := Snapshot {
  ps_timestamp : Z;
  ps_coreCount : Z;
  ps_coreUtilization : list Z;
  ps_queueDepth : Z; ps_queueMaxDepth : Z; ps_queueAvgDepth : Z;
  ps_peakHeapUsed : Z; ps_freeHeap : Z; ps_stackHighWater : Z;
  ps_totalGapUs : Z; ps_maxGapUs : Z; ps_avgGapUs : Z; ps_schedulerTickCount : Z;
  ps_totalOverruns : Z; ps_totalDeadlineMisses : Z;
  ps_taskCount : nat;
  ps_tasks : list TaskSnapshot;
}.

Definition kMetricsHeaderSize : nat := 66.
Definition kMetricsTaskSize : nat := 26.

(** The write cursor: the position and the buffer. *)
Abbreviation cursor := (nat * list Z)%type.

Definition write_le (w : nat) (v : Z) (c : cursor) : option cursor :=
  let '(p, buf) := c in
  buf ← store_all buf p (le_bytes w v);
  Some (p + w, buf).

Definition writeU8 (v : Z) (c : cursor) : option cursor :=
  let '(p, buf) := c in
  buf ← store buf p v;
  Some (S p, buf).
Definition writeU16 : Z -> cursor -> option cursor := write_le 2.
Definition writeU32 : Z -> cursor -> option cursor := write_le 4.
Definition writeU64 : Z -> cursor -> option cursor := write_le 8.
Definition writeF32 : Z -> cursor -> option cursor := write_le 4.

(** The loop over the fixed array [coreUtilization]. *)
Fixpoint write_utilization (us : list Z) (i n : nat) (c : cursor) : option cursor :=
  match n with
  | O => Some c
  | S n => u ← load us i; c ← writeF32 u c; write_utilization us (S i) n c
  end.

Definition write_header (snap : PerformanceSnapshot) (c : cursor) : option cursor :=
  c ← writeU64 (ps_timestamp snap) c;
  c ← writeU8 (u8 (ps_coreCount snap)) c;
  c ← write_utilization (ps_coreUtilization snap) 0 4 c;
  c ← writeU16 (u16 (ps_queueDepth snap)) c;
  c ← writeU16 (u16 (ps_queueMaxDepth snap)) c;
  c ← writeF32 (ps_queueAvgDepth snap) c;
  c ← writeU32 (u32 (ps_peakHeapUsed snap)) c;
  c ← writeU32 (u32 (ps_freeHeap snap)) c;
  c ← writeU32 (u32 (ps_stackHighWater snap)) c;
  c ← writeU32 (u32 (ps_totalGapUs snap)) c;
  c ← writeU32 (u32 (ps_maxGapUs snap)) c;
  c ← writeF32 (ps_avgGapUs snap) c;
  c ← writeU32 (ps_schedulerTickCount snap) c;
  c ← writeU16 (u16 (ps_totalOverruns snap)) c;
  c ← writeU16 (u16 (ps_totalDeadlineMisses snap)) c;
  writeU8 (u8 (Z.of_nat (ps_taskCount snap))) c.

Definition write_task (ts : TaskSnapshot) (c : cursor) : option cursor :=
  c ← writeU8 (u8 (ts_taskIndex ts)) c;
  c ← writeU8 (u8 (ts_coreId ts)) c;
  c ← writeU32 (u32 (ts_lastUs ts)) c;
  c ← writeU32 (u32 (ts_minUs ts)) c;
  c ← writeU32 (u32 (ts_maxUs ts)) c;
  c ← writeF32 (ts_avgUs ts) c;
  c ← writeU32 (ts_samples ts) c;
  c ← writeU16 (u16 (ts_overruns ts)) c;
  writeU16 (u16 (ts_misses ts)) c.

Fixpoint write_tasks (tasks : list TaskSnapshot) (t n : nat) (c : cursor) : option cursor :=
  match n with
  | O => Some c
  | S n => ts ← load tasks t; c ← write_task ts c; write_tasks tasks (S t) n c
  end.

Definition serializeMetrics (snap : PerformanceSnapshot) (outBuf : list Z)
    : option (nat * list Z) :=
  let needed := kMetricsHeaderSize + ps_taskCount snap * kMetricsTaskSize in
  if decide (length outBuf < needed) then Some (0, outBuf)
  else
    c ← write_header snap (0, outBuf);
    write_tasks (ps_tasks snap) 0 (ps_taskCount snap) c.

(** ** The router, against a parser of payloads *)

(** A well-formed request. *)
Inductive Request :=
  | ReqCommand (c : Command)
  | ReqHandshake (version : Z)
  | ReqExit
  | ReqMetrics
  | ReqHeartbeat.

(** The payload schemas of the file comment. *)
Definition parse_request (type : MessageType) (payload : list Z) : option Request :=
  match type, payload with
  | COMMAND, [id; dev; a; b; c; d] => Some (ReqCommand (Cmd id dev (le_word [a; b; c; d])))
  | HANDSHAKE_REQ, [v0; v1; m0; m1; m2; m3] =>
      if decide (le_word [m0; m1; m2; m3] = kHandshakeMagic) then Some (ReqHandshake (le_word [v0; v1]))
      else None
  | EXIT_HANDSHAKE, _ => Some ReqExit
  | METRICS_REQ, _ => Some ReqMetrics
  | HEARTBEAT, _ => Some ReqHeartbeat
  | _, _ => None
  end.

Definition handle {S} `{!IProtocolHandler S} (r : Request) (seqNum : Z) : S -> option S :=
  match r with
  | ReqCommand c => onCommand c seqNum
  | ReqHandshake v => onHandshakeRequest v seqNum
  | ReqExit => onExitHandshake seqNum
  | ReqMetrics => onMetricsRequest seqNum
  | ReqHeartbeat => onHeartbeat seqNum
  end.

Lemma word_of_4_bytes a b c d :
  bytes_ok [a; b; c; d] ->
  Z.lor (Z.lor (Z.lor (u32 a) (u32 (Z.shiftl (u32 b) 8))) (u32 (Z.shiftl (u32 c) 16)))
    (u32 (Z.shiftl (u32 d) 24)) = le_word [a; b; c; d].
Proof.
  rewrite !Forall_cons. intros (Ha & Hb & Hc & Hd & _). unfold in_word in *.
  assert (Hw : forall x k, (0 <= x < 2 ^ 8)%Z -> (0 <= k <= 24)%Z ->
    u32 (Z.shiftl (u32 x) k) = Z.shiftl x k).
  { intros x k Hx Hk. unfold wrap. rewrite (Z.mod_small x) by lia.
    rewrite Z.shiftl_mul_pow2 by lia.
    assert (2 ^ k <= 2 ^ 24)%Z by (apply Z.pow_le_mono_r; lia).
    assert (0 < 2 ^ k)%Z by (apply Z.pow_pos_nonneg; lia).
    apply Z.mod_small. nia. }
  rewrite (Hw b), (Hw c), (Hw d) by lia. unfold wrap. rewrite (Z.mod_small a) by lia.
  cbn [le_word]. rewrite Z.shiftl_0_l, Z.lor_0_r.
  rewrite !Z.shiftl_lor, !Z.shiftl_shiftl by lia. rewrite <- !Z.lor_assoc. done.
Qed.

(** The router is its specification: [dispatch] answers true exactly on the requests
    the payload schemas admit, makes the one callback the request names with its decoded
    arguments, and on everything else (unknown or device-to-host types, wrong lengths, a
    wrong handshake magic, no handler) answers false and leaves the handler alone. *)
Theorem dispatch_spec {S : Type} `{!IProtocolHandler S} (type : MessageType) (seqNum : Z)
    (payload : list Z) (s : S) :
  bytes_ok payload ->
  dispatch false type seqNum payload (length payload) s = Some (false, s) /\
  dispatch true type seqNum payload (length payload) s =
    match parse_request type payload with
    | Some r => s' ← handle r seqNum s; Some (true, s')
    | None => Some (false, s)
    end.
Proof.
  intros Hok. split; [done|]. destruct type; try done; unfold dispatch; cbn [negb].
  - unfold dispatchCommand, kCommandPayloadSize.
    destruct payload as [|a [|b [|c [|d [|e [|f [|g p]]]]]]]; done.
  - unfold dispatchHandshake, kHandshakePayloadSize.
    destruct payload as [|a [|b [|c [|d [|e [|f [|g p]]]]]]]; try done.
    rewrite !Forall_cons in Hok. destruct Hok as (Ha & Hb & Hc & Hd & He & Hf & _).
    cbn [length]. rewrite decide_False by tauto. unfold load. cbn [lookup list_lookup mbind option_bind].
    rewrite word_of_4_bytes by (rewrite !Forall_cons; auto). rewrite word_of_bytes by done.
    unfold parse_request. repeat case_decide; try done; tauto.
Qed.

(** A handler that records its calls. *)
Inductive Call := CommandCall (c : Command) (seq : Z) | OtherCall (seq : Z).

#[local] Instance recorder : IProtocolHandler (list Call) := {
  onCommand c n s := Some (CommandCall c n :: s);
  onHandshakeRequest _ n s := Some (OtherCall n :: s);
  onExitHandshake n s := Some (OtherCall n :: s);
  onMetricsRequest n s := Some (OtherCall n :: s);
  onHeartbeat n s := Some (OtherCall n :: s);
}.

Lemma dispatch_spec_witness :
  dispatch false COMMAND 9 [1; 2; 0; 0; 128; 63]%Z 6 ([] : list Call) = Some (false, []) /\
  dispatch true COMMAND 9 [1; 2; 0; 0; 128; 63]%Z 6 [] =
    Some (true, [CommandCall (Cmd 1 2 0x3F800000) 9]).
Proof.
  refine (dispatch_spec COMMAND 9 [1; 2; 0; 0; 128; 63]%Z [] _).
  repeat apply Forall_cons_2; [unfold in_word; lia..|constructor].
Defined.

(** ** A command, from the host's serializer to the handler *)

Lemma serializeCommand_ok id dev v (outBuf : list Z) :
  6 <= length outBuf ->
  serializeCommand id dev v outBuf = Some (6, id :: dev :: le_bytes 4 v ++ drop 6 outBuf).
Proof.
  intros H. destruct outBuf as [|b0 [|b1 rest]]; [len..|]. unfold serializeCommand.
  rewrite decide_False by lia. rewrite store_0. cbn [mbind option_bind].
  rewrite store_S, store_0. cbn [mbind option_bind fmap option_fmap option_map].
  rewrite store_all_ok by (rewrite le_bytes_length; len).
  cbn [mbind option_bind]. rewrite le_bytes_length. done.
Qed.

(** A COMMAND travels unchanged: the payload [serializeCommand] writes, framed by
    [FrameEncoder::encode], fed byte by byte to a decoder that holds no partial frame and
    dispatched when it reports FRAME_READY, reaches [onCommand] with the same identifier,
    device, value bits and sequence number. *)
Theorem command_end_to_end {S : Type} `{!IProtocolHandler S} (MaxPayload : nat) (d : FrameDecoder)
    (id dev v seq : Z) (payload outBuf wire out : list Z) (n m : nat) (s : S) :
  (Z.of_nat MaxPayload < 65536)%Z -> 6 <= MaxPayload -> dec_wf MaxPayload d -> m_cobsLen d = 0 ->
  in_word 8 id -> in_word 8 dev -> in_word 32 v -> in_word 8 seq ->
  6 <= length outBuf -> maxWireSize 6 <= length wire ->
  serializeCommand id dev v outBuf = Some (n, payload) ->
  encode_frame MaxPayload COMMAND seq (Some payload) n wire = Some (m, out) ->
  exists d', feed_bytes MaxPayload d (take m out) =
      Some (replicate (m - 1) INCOMPLETE ++ [FRAME_READY], d') /\
    dispatch true (m_msgType d') (m_seqNum d') (getPayload d') (m_payloadLen d') s =
      (s' ← onCommand (Cmd id dev v) seq s; Some (true, s')).
Proof.
  intros Hmax H6 Hwf H0 Hid Hdev Hv Hseq Hcap Hwire Hser Henc.
  rewrite serializeCommand_ok in Hser by done.
  set (p := id :: dev :: le_bytes 4 v).
  change (id :: dev :: le_bytes 4 v ++ drop 6 outBuf) with (p ++ drop 6 outBuf) in Hser.
  assert (Hn : n = 6) by congruence. assert (Hpay : payload = p ++ drop 6 outBuf) by congruence.
  assert (Hp : bytes_ok p) by (apply Forall_cons_2; [done|]; apply Forall_cons_2; [done|]; apply le_bytes_ok).
  assert (Harg : payload_arg (Some payload) n p) by (rewrite Hn, Hpay; split; eauto).
  rewrite <- Hn in H6, Hwire.
  rewrite (encode_frame_spec MaxPayload COMMAND seq _ n p wire Harg H6 Hwire) in Henc.
  injection Henc as <- <-. rewrite take_app_length.
  destruct (feed_wire MaxPayload d COMMAND seq p) as (d' & Hf & (Ht & Hs & Hpl & Hl & _) & _);
    [try done..|]; [by rewrite Hn in H6|].
  exists d'. split; [done|]. rewrite Ht, Hs, Hpl, Hl.
  unfold dispatch, dispatchCommand, kCommandPayloadSize, p. cbn [negb].
  change (load_all _ 2 4) with (Some (le_bytes 4 v)). cbn [length mbind option_bind].
  rewrite le_word_le_bytes. by rewrite (wrap_id (8 * Z.of_nat 4)).
Qed.

Lemma command_end_to_end_witness :
  exists d', feed_bytes 8 (new_decoder 8) [4; 1; 5; 6; 3; 3; 1; 1; 5; 128; 63; 238; 193; 0]%Z =
      Some (replicate 13 INCOMPLETE ++ [FRAME_READY], d') /\
    dispatch true (m_msgType d') (m_seqNum d') (getPayload d') (m_payloadLen d') [] =
      Some (true, [CommandCall (Cmd 3 1 0x3F800000) 5]).
Proof.
  refine (command_end_to_end 8 (new_decoder 8) 3 1 0x3F800000 5 [3; 1; 0; 0; 128; 63]%Z
    (replicate 6 0%Z) (replicate 14 0%Z) [4; 1; 5; 6; 3; 3; 1; 1; 5; 128; 63; 238; 193; 0]%Z
    6 14 [] _ _ _ _ _ _ _ _ _ _ _ _).
  all: try (unfold in_word; lia).
  - apply new_decoder_wf.
  - reflexivity.
  - simpl; lia.
  - vm_compute; lia.
  - reflexivity.
  - vm_compute. reflexivity.
Defined.

(** ** Response payloads *)

(** What a serializer does with a payload [p]: all of it or nothing. *)
Definition emits (p outBuf : list Z) : option (nat * list Z) :=
  if decide (length p <= length outBuf) then Some (length p, p ++ drop (length p) outBuf)
  else Some (0, outBuf).

Lemma store_all_emits (p outBuf : list Z) :
  length p <= length outBuf -> store_all outBuf 0 p = Some (p ++ drop (length p) outBuf).
Proof. intros H. by rewrite store_all_ok by (simpl; lia). Qed.

(** The responses carry the documented payloads: ACK is the command id, NACK the id,
    device and little-endian value, HANDSHAKE_RESP version 1 and the magic "SPOS", DATA the
    caller's bytes and LOG the level followed by the text; a buffer that is too small gets
    nothing and the answer 0, and a null pointer is refused. *)
Theorem response_payloads (id dev v level : Z) (data text outBuf : list Z) (len : nat) :
  len <= length data ->
  serializeAck id outBuf = emits [id] outBuf /\
  serializeNack id dev v outBuf = emits (id :: dev :: le_bytes 4 v) outBuf /\
  serializeHandshakeResp outBuf =
    emits (le_bytes 2 kProtocolVersion ++ [0x53; 0x4F; 0x50; 0x53]%Z) outBuf /\
  serializeData (Some data) len outBuf = emits (take len data) outBuf /\
  serializeData None (S len) outBuf = Some (0, outBuf) /\
  serializeLog level (Some text) outBuf = emits (level :: text) outBuf /\
  serializeLog level None outBuf = Some (0, outBuf).
Proof.
  intros Hlen. unfold emits. repeat split.
  - unfold serializeAck. repeat case_decide; simpl in *; try lia; [done|].
    destruct outBuf; [simpl in *; lia|done].
  - unfold serializeNack. cbn [length]. rewrite le_bytes_length.
    repeat case_decide; try lia; [done|].
    pose proof (serializeCommand_ok id dev v outBuf ltac:(lia)) as Hc.
    unfold serializeCommand in Hc. by rewrite decide_False in Hc by lia.
  - unfold serializeHandshakeResp. cbn [length].
    repeat case_decide; simpl in *; try lia; [done|].
    do 6 (destruct outBuf as [|? outBuf]; [simpl in *; lia|]).
    done.
  - unfold serializeData. rewrite length_take, Nat.min_l by done.
    case_decide as Hc; case_decide as Hd; try done; try lia.
    + exfalso. destruct Hc as [Hc|[_ Hc]]; [lia|done].
    + rewrite load_all_ok by done. cbn [mbind option_bind]. rewrite drop_0.
      rewrite store_all_emits by (rewrite length_take; lia). cbn [mbind option_bind].
      by rewrite length_take, Nat.min_l by done.
  - unfold serializeData. rewrite decide_True; [done|]. right. split; [lia|done].
  - unfold serializeLog. cbn [length]. repeat case_decide; try lia; [done|].
    destruct outBuf as [|b outBuf]; [simpl in *; lia|]. rewrite store_0. cbn [mbind option_bind].
    rewrite store_all_ok by (simpl in *; lia). done.
Qed.

Lemma response_payloads_witness :
  serializeNack 3 1 0x3F800000 (replicate 8 0%Z) = Some (6, [3; 1; 0; 0; 128; 63; 0; 0]%Z).
Proof.
  exact (proj1 (proj2 (response_payloads 3 1 0x3F800000 0 [] [] (replicate 8 0%Z) 0 ltac:(simpl; lia)))).
Defined.

(** ** Metrics *)

(** A field is a width in bytes and a value. *)
Fixpoint fields_bytes (fs : list (nat * Z)) : list Z :=
  match fs with
  | [] => []
  | (w, v) :: fs => le_bytes w v ++ fields_bytes fs
  end.

Fixpoint fields_size (fs : list (nat * Z)) : nat :=
  match fs with
  | [] => 0
  | (w, _) :: fs => w + fields_size fs
  end.

Lemma fields_bytes_length fs : length (fields_bytes fs) = fields_size fs.
Proof. induction fs as [|[w v] fs IH]; simpl; [done|]. by rewrite length_app, le_bytes_length, IH. Qed.

Lemma fields_bytes_app fs gs : fields_bytes (fs ++ gs) = fields_bytes fs ++ fields_bytes gs.
Proof. induction fs as [|[w v] fs IH]; simpl; [done|]. by rewrite IH, app_assoc. Qed.

Lemma fields_size_app fs gs : fields_size (fs ++ gs) = fields_size fs + fields_size gs.
Proof. induction fs as [|[w v] fs IH]; simpl; [done|]. by rewrite IH, Nat.add_assoc. Qed.

(** Reading back the field behind [fs]. *)
Lemma field_at fs w v gs tl :
  le_word (take w (drop (fields_size fs) (fields_bytes (fs ++ (w, v) :: gs) ++ tl))) =
    wrap (8 * Z.of_nat w) v.
Proof.
  rewrite fields_bytes_app. change (fields_bytes ((w, v) :: gs)) with (le_bytes w v ++ fields_bytes gs).
  rewrite <- fields_bytes_length, <- !app_assoc, drop_app_length.
  rewrite <- (le_bytes_length w v) at 1. rewrite take_app_length. apply le_word_le_bytes.
Qed.

(** The fields in the order they are written. *)
Definition header_fields (s : PerformanceSnapshot) : list (nat * Z) :=
  [(8, ps_timestamp s); (1, ps_coreCount s)] ++ (pair 4 <$> ps_coreUtilization s) ++
  [(2, ps_queueDepth s); (2, ps_queueMaxDepth s); (4, ps_queueAvgDepth s);
   (4, ps_peakHeapUsed s); (4, ps_freeHeap s); (4, ps_stackHighWater s);
   (4, ps_totalGapUs s); (4, ps_maxGapUs s); (4, ps_avgGapUs s); (4, ps_schedulerTickCount s);
   (2, ps_totalOverruns s); (2, ps_totalDeadlineMisses s); (1, Z.of_nat (ps_taskCount s))].

Definition task_fields (ts : TaskSnapshot) : list (nat * Z) :=
  [(1, ts_taskIndex ts); (1, ts_coreId ts); (4, ts_lastUs ts); (4, ts_minUs ts);
   (4, ts_maxUs ts); (4, ts_avgUs ts); (4, ts_samples ts); (2, ts_overruns ts); (2, ts_misses ts)].

Definition snapshot_fields (s : PerformanceSnapshot) : list (nat * Z) :=
  header_fields s ++ mjoin (task_fields <$> take (ps_taskCount s) (ps_tasks s)).

(** The arrays have their declared sizes. *)
Record snapshot_ok (s : PerformanceSnapshot) : Prop := {
  so_cores : length (ps_coreUtilization s) = kMaxSnapshotCores;
  so_tasks : length (ps_tasks s) = kMaxSnapshotTasks;
  so_count : ps_taskCount s <= kMaxSnapshotTasks;
}.

(** *** The cursor *)

(** Bytes written at the cursor. *)
Definition put (bs : list Z) (c : cursor) : option cursor :=
  let '(p, buf) := c in
  buf ← store_all buf p bs;
  Some (p + length bs, buf).

Lemma store_all_app (a : list Z) i xs ys :
  store_all a i (xs ++ ys) = (a' ← store_all a i xs; store_all a' (i + length xs) ys).
Proof.
  revert a i. induction xs as [|x xs IH]; intros a i; simpl; [by rewrite Nat.add_0_r|].
  destruct (store a i x) as [a'|]; [|done]. simpl. by rewrite IH, Nat.add_succ_r.
Qed.

Lemma put_app xs ys c : put (xs ++ ys) c = (c' ← put xs c; put ys c').
Proof.
  destruct c as [p buf]. simpl. rewrite store_all_app.
  destruct (store_all buf p xs) as [buf'|]; [|done]. simpl. by rewrite length_app, Nat.add_assoc.
Qed.

Lemma put_fields_cons w v fs c :
  put (fields_bytes ((w, v) :: fs)) c = (c' ← put (le_bytes w v) c; put (fields_bytes fs) c').
Proof. apply put_app. Qed.

Lemma put_fields_nil c : put (fields_bytes []) c = Some c.
Proof. destruct c as [p buf]. simpl. by rewrite Nat.add_0_r. Qed.

Lemma le_bytes_wrap n x : le_bytes n (wrap (8 * Z.of_nat n) x) = le_bytes n x.
Proof.
  rewrite <- le_word_le_bytes.
  rewrite <- (le_bytes_length n x) at 1. apply le_bytes_le_word, le_bytes_ok.
Qed.

Lemma write_le_put w v c : write_le w v c = put (le_bytes w v) c.
Proof. destruct c as [p buf]. simpl. by rewrite le_bytes_length. Qed.

Lemma write_le_wrap w v c : write_le w (wrap (8 * Z.of_nat w) v) c = put (le_bytes w v) c.
Proof. by rewrite write_le_put, le_bytes_wrap. Qed.

Lemma writeU8_put v c : writeU8 (u8 v) c = put (le_bytes 1 v) c.
Proof.
  destruct c as [p buf]. simpl. rewrite wrap_land by lia. change (Z.ones 8) with 255%Z.
  destruct (store buf p _); simpl; [|done]. by rewrite Nat.add_1_r.
Qed.

Lemma write_utilization_put us c :
  write_utilization us 0 (length us) c = put (fields_bytes (pair 4 <$> us)) c.
Proof.
  enough (H : forall pre us c, write_utilization (pre ++ us) (length pre) (length us) c =
    put (fields_bytes (pair 4 <$> us)) c) by apply (H []).
  clear. intros pre us. revert pre. induction us as [|u us IH]; intros pre c.
  { by rewrite fmap_nil, put_fields_nil. }
  cbn [length write_utilization]. rewrite load_middle. cbn [mbind option_bind].
  rewrite fmap_cons, put_fields_cons. unfold writeF32. rewrite write_le_put.
  destruct (put (le_bytes 4 u) c) as [c'|]; [|done]. cbn [mbind option_bind].
  rewrite <- IH with (pre := pre ++ [u]). rewrite <- app_assoc. f_equal. len.
Qed.

Lemma writeU16_put v c : writeU16 (u16 v) c = put (le_bytes 2 v) c.
Proof. apply (write_le_wrap 2). Qed.

Lemma writeU32_put v c : writeU32 (u32 v) c = put (le_bytes 4 v) c.
Proof. apply (write_le_wrap 4). Qed.

Lemma writeU32_put_raw v c : writeU32 v c = put (le_bytes 4 v) c.
Proof. apply write_le_put. Qed.

Lemma writeU64_put v c : writeU64 v c = put (le_bytes 8 v) c.
Proof. apply write_le_put. Qed.

Lemma writeF32_put v c : writeF32 v c = put (le_bytes 4 v) c.
Proof. apply write_le_put. Qed.

(** One write of the code against one field of the reference. *)
Ltac put_step :=
  rewrite ?put_fields_cons;
  first [rewrite writeU8_put | rewrite writeU16_put | rewrite writeU32_put
        | rewrite writeU64_put | rewrite writeF32_put | rewrite writeU32_put_raw];
  match goal with
  | |- context [mbind _ (put (le_bytes ?w ?v) ?c)] =>
      destruct (put (le_bytes w v) c); cbn [mbind option_bind]; [|done]
  | _ => idtac
  end.

Lemma bind_ret_put bs c : (c' ← put bs c; Some c') = put bs c.
Proof. by destruct (put bs c). Qed.

Lemma put_fields_app fs gs c :
  put (fields_bytes (fs ++ gs)) c = (c' ← put (fields_bytes fs) c; put (fields_bytes gs) c').
Proof. rewrite fields_bytes_app. apply put_app. Qed.

Lemma put_fields_last w v c : put (fields_bytes [(w, v)]) c = put (le_bytes w v) c.
Proof. simpl fields_bytes. by rewrite app_nil_r. Qed.

Lemma write_header_put s c :
  length (ps_coreUtilization s) = 4 -> write_header s c = put (fields_bytes (header_fields s)) c.
Proof.
  intros Hc. unfold write_header, header_fields. cbn [app].
  do 2 put_step. rewrite put_fields_app, <- write_utilization_put, Hc.
  destruct (write_utilization _ _ _ _) as [c1|]; [|done]. cbn [mbind option_bind].
  do 12 put_step. by rewrite put_fields_last, writeU8_put.
Qed.

Lemma write_task_put ts c : write_task ts c = put (fields_bytes (task_fields ts)) c.
Proof.
  unfold write_task, task_fields. do 8 put_step. by rewrite put_fields_last, writeU16_put.
Qed.

Lemma write_tasks_put tasks n c :
  n <= length tasks ->
  write_tasks tasks 0 n c = put (fields_bytes (mjoin (task_fields <$> take n tasks))) c.
Proof.
  intros Hn. rewrite <- (take_drop n tasks) in Hn |- * at 1.
  assert (Hl : length (take n tasks) = n) by (rewrite length_take, take_drop in *; lia).
  clear Hn. revert Hl. generalize (take n tasks) (drop n tasks). intros ts rest <-.
  enough (H : forall pre c, write_tasks (pre ++ ts ++ rest) (length pre) (length ts) c =
    put (fields_bytes (mjoin (task_fields <$> ts))) c) by apply (H []).
  clear. induction ts as [|t ts IH]; intros pre c; [symmetry; apply put_fields_nil|].
  cbn [length write_tasks app]. rewrite load_middle. cbn [mbind option_bind].
  change (mjoin (task_fields <$> t :: ts)) with (task_fields t ++ mjoin (task_fields <$> ts)).
  rewrite put_fields_app, write_task_put.
  destruct (put (fields_bytes (task_fields t)) c) as [c'|]; [|done]. cbn [mbind option_bind].
  rewrite <- IH with (pre := pre ++ [t]). rewrite <- app_assoc. f_equal. len.
Qed.

(** The wire layout of the doc comment: offset, width and value of every field. *)
Definition header_layout (s : PerformanceSnapshot) (u0 u1 u2 u3 : Z) : list (nat * nat * Z) :=
  [(0, 8, ps_timestamp s); (8, 1, ps_coreCount s);
   (9, 4, u0); (13, 4, u1); (17, 4, u2); (21, 4, u3);
   (25, 2, ps_queueDepth s); (27, 2, ps_queueMaxDepth s); (29, 4, ps_queueAvgDepth s);
   (33, 4, ps_peakHeapUsed s); (37, 4, ps_freeHeap s); (41, 4, ps_stackHighWater s);
   (45, 4, ps_totalGapUs s); (49, 4, ps_maxGapUs s); (53, 4, ps_avgGapUs s);
   (57, 4, ps_schedulerTickCount s); (61, 2, ps_totalOverruns s);
   (63, 2, ps_totalDeadlineMisses s); (65, 1, Z.of_nat (ps_taskCount s))].

Definition task_layout (ts : TaskSnapshot) (base : nat) : list (nat * nat * Z) :=
  [(base, 1, ts_taskIndex ts); (base + 1, 1, ts_coreId ts); (base + 2, 4, ts_lastUs ts);
   (base + 6, 4, ts_minUs ts); (base + 10, 4, ts_maxUs ts); (base + 14, 4, ts_avgUs ts);
   (base + 18, 4, ts_samples ts); (base + 22, 2, ts_overruns ts); (base + 24, 2, ts_misses ts)].

(** The bytes at an entry are the little-endian value, cut to the entry's width. *)
Definition reads_back (buf : list Z) (e : nat * nat * Z) : Prop :=
  let '(off, w, v) := e in le_word (take w (drop off buf)) = wrap (8 * Z.of_nat w) v.

(** Every field of a list reads back at its prefix sum. *)
Fixpoint layout_at (base : nat) (fs : list (nat * Z)) : list (nat * nat * Z) :=
  match fs with
  | [] => []
  | (w, v) :: fs => (base, w, v) :: layout_at (base + w) fs
  end.

Lemma layout_reads fs gs tl :
  Forall (reads_back (fields_bytes (fs ++ gs) ++ tl)) (layout_at (fields_size fs) gs).
Proof.
  revert fs. induction gs as [|[w v] gs IH]; intros fs; simpl; constructor.
  - apply field_at.
  - specialize (IH (fs ++ [(w, v)])). rewrite <- app_assoc, fields_size_app in IH. simpl in IH.
    by rewrite Nat.add_0_r in IH.
Qed.

Lemma task_layout_at ts base : layout_at base (task_fields ts) = task_layout ts base.
Proof. unfold task_layout. simpl. rewrite <- !Nat.add_assoc. done. Qed.

Lemma tasks_size (ts : list TaskSnapshot) :
  fields_size (mjoin (task_fields <$> ts)) = length ts * kMetricsTaskSize.
Proof.
  induction ts as [|t ts IH]; [done|].
  change (mjoin (task_fields <$> t :: ts)) with (task_fields t ++ mjoin (task_fields <$> ts)).
  rewrite fields_size_app, IH. done.
Qed.

Lemma header_size s : length (ps_coreUtilization s) = 4 -> fields_size (header_fields s) = kMetricsHeaderSize.
Proof. intros H. destruct (ps_coreUtilization s) as [|? [|? [|? [|? [|]]]]] eqn:E; try done. unfold header_fields. by rewrite E. Qed.

Lemma write_snapshot_put s c :
  snapshot_ok s ->
  (c ← write_header s c; write_tasks (ps_tasks s) 0 (ps_taskCount s) c) =
    put (fields_bytes (snapshot_fields s)) c.
Proof.
  intros [Hc Hl Hn]. unfold snapshot_fields. rewrite put_fields_app, write_header_put by done.
  destruct (put _ c) as [c'|]; [|done]. cbn [mbind option_bind]. apply write_tasks_put. lia.
Qed.

Lemma snapshot_bytes_length s : snapshot_ok s -> length (fields_bytes (snapshot_fields s)) = 66 + 26 * ps_taskCount s.
Proof.
  intros [Hc Ht Hn]. unfold snapshot_fields.
  rewrite fields_bytes_length, fields_size_app, header_size, tasks_size by done.
  rewrite length_take. unfold kMetricsHeaderSize, kMetricsTaskSize, kMaxSnapshotTasks in *. lia.
Qed.

Lemma serializeMetrics_ok s outBuf :
  snapshot_ok s -> 66 + 26 * ps_taskCount s <= length outBuf ->
  serializeMetrics s outBuf = Some (66 + 26 * ps_taskCount s,
    fields_bytes (snapshot_fields s) ++ drop (66 + 26 * ps_taskCount s) outBuf).
Proof.
  intros Hok Hlen. pose proof (snapshot_bytes_length s Hok) as Hsz. unfold serializeMetrics, kMetricsHeaderSize, kMetricsTaskSize.
  rewrite (Nat.mul_comm (ps_taskCount s)), decide_False by lia. rewrite write_snapshot_put by done.
  unfold put. rewrite store_all_emits by (rewrite Hsz; lia). cbn [mbind option_bind]. by rewrite Hsz, Nat.add_0_l.
Qed.

Lemma snapshot_fields_task s t ts :
  snapshot_ok s -> t < ps_taskCount s -> ps_tasks s !! t = Some ts ->
  exists pre post, snapshot_fields s = pre ++ task_fields ts ++ post /\
    fields_size pre = 66 + 26 * t.
Proof.
  intros [Hc Hl Hn] Ht Hts. unfold snapshot_fields.
  assert (Htk : take (ps_taskCount s) (ps_tasks s) !! t = Some ts) by (by rewrite lookup_take_lt).
  exists (header_fields s ++ mjoin (task_fields <$> take t (ps_tasks s))).
  exists (mjoin (task_fields <$> drop (S t) (take (ps_taskCount s) (ps_tasks s)))). split.
  - rewrite <- (take_drop_middle _ _ _ Htk) at 1.
    rewrite fmap_app, join_app, <- app_assoc.
    by rewrite take_take, Nat.min_l by lia.
  - rewrite fields_size_app, header_size, tasks_size by done.
    rewrite length_take. unfold kMetricsHeaderSize, kMetricsTaskSize, kMaxSnapshotTasks in *. lia.
Qed.

(** A METRICS_RESP payload has the documented layout: 66 bytes of header and 26 per
    task, every field of the snapshot at its documented offset, little-endian and cut to
    its documented width; nothing is written when the buffer is too small, and never
    anything behind the announced length. *)
Theorem metrics_layout (s : PerformanceSnapshot) (u0 u1 u2 u3 : Z) (outBuf : list Z) :
  snapshot_ok s -> ps_coreUtilization s = [u0; u1; u2; u3] ->
  let needed := 66 + 26 * ps_taskCount s in
  if decide (length outBuf < needed) then serializeMetrics s outBuf = Some (0, outBuf)
  else exists out, serializeMetrics s outBuf = Some (needed, out) /\
    length out = length outBuf /\ drop needed out = drop needed outBuf /\
    Forall (reads_back out) (header_layout s u0 u1 u2 u3) /\
    forall t ts, t < ps_taskCount s -> ps_tasks s !! t = Some ts ->
      Forall (reads_back out) (task_layout ts (66 + 26 * t)).
Proof.
  intros Hok Hu. pose proof Hok as [Hc Ht Hn]. cbv zeta. case_decide as Hlen.
  { unfold serializeMetrics, kMetricsHeaderSize, kMetricsTaskSize. by rewrite (Nat.mul_comm (ps_taskCount s)), decide_True. }
  pose proof (snapshot_bytes_length s Hok) as Hsz. rewrite serializeMetrics_ok by (done || lia).
  eexists. split; [done|]. split; [|split; [|split]].
  - rewrite length_app, Hsz, length_drop. lia.
  - rewrite <- Hsz at 1. apply drop_app_length.
  - unfold snapshot_fields. rewrite fields_bytes_app, <- app_assoc.
    replace (header_layout s u0 u1 u2 u3) with (layout_at 0 (header_fields s))
      by (unfold header_fields; by rewrite Hu).
    apply (layout_reads [] (header_fields s)).
  - intros t ts Htn Hts.
    destruct (snapshot_fields_task s t ts) as (pre & post & -> & <-); [done..|].
    rewrite app_assoc, fields_bytes_app, <- app_assoc, <- task_layout_at.
    apply (layout_reads pre (task_fields ts)).
Qed.

Definition sample_task : TaskSnapshot := TaskSnap 1 0 40 30 900 0x42480000 12 1 0 [].

Definition sample_snapshot : PerformanceSnapshot :=
  Snapshot 123456 2 [0; 0; 0; 0]%Z 1 5 0 0 0 0 10 20 0 7 0 3 1 (replicate 16 sample_task).

Lemma metrics_layout_witness :
  exists out, serializeMetrics sample_snapshot (replicate 92 0%Z) = Some (92, out) /\
    Forall (reads_back out) (task_layout sample_task 66).
Proof.
  pose proof (metrics_layout sample_snapshot 0 0 0 0 (replicate 92 0%Z)
    ltac:(split; vm_compute; lia) eq_refl) as H.
  cbv zeta in H. rewrite decide_False in H by (simpl; lia).
  destruct H as (out & H1 & _ & _ & _ & H2). exists out. split; [exact H1|].
  apply (H2 0 sample_task); [simpl; lia|reflexivity].
Defined.
