(* ===== verification/Queue.v ===== *)
(** * The command queue ([osal/sync/LockFreeQueue.h], [osal/sync/IMessageQueue.h])

    A ring of [Capacity + 1] slots with a write index and a read index. First the ring on
    its own, related to the list it holds; then the sequential operations and the queue
    interface they implement; then the producer and the consumer running concurrently, one
    atomic access or one buffer access at a time, with every interleaving allowed. *)

From S2P Require Import Prelude.

(** ** Rings *)

Record ring (A : Type) := Ring {
  m_buf : list A;
  m_head : nat;
  m_tail : nat;
}.
#[global] Arguments Ring {A}.
#[global] Arguments m_buf {A}.
#[global] Arguments m_head {A}.
#[global] Arguments m_tail {A}.

(** The ring holds [l]; [p] counts the elements ever removed. *)
Record ring_rep {A} (cap p : nat) (q : ring A) (l : list A) : Prop := {
  rr_buf : length (m_buf q) = S cap;
  rr_len : length l <= cap;
  rr_tail : m_tail q = p mod S cap;
  rr_head : m_head q = (p + length l) mod S cap;
  rr_elems : forall i x, l !! i = Some x -> m_buf q !! ((p + i) mod S cap) = Some x;
}.

Lemma mod_near k a b : a <= b -> b - a < k -> a mod k = b mod k -> a = b.
Proof.
  intros Hab Hd He. pose proof (Nat.div_mod_eq a k). pose proof (Nat.div_mod_eq b k).
  assert (a / k <= b / k) by (apply Nat.Div0.div_le_mono; lia).
  destruct (decide (a / k = b / k)) as [Hq|Hq]; [lia|].
  assert (S (a / k) <= b / k) by lia. nia.
Qed.

Lemma succ_mod k a : (a mod S k + 1) mod S k = S a mod S k.
Proof. rewrite Nat.Div0.add_mod_idemp_l. by rewrite Nat.add_1_r. Qed.

Section ring.
Context {A : Type} (cap : nat).
Implicit Types (q : ring A) (l : list A).

Lemma ring_head_lt p q l : ring_rep cap p q l -> m_head q < S cap.
Proof. intros [_ _ _ -> _]. apply Nat.mod_upper_bound. lia. Qed.

Lemma ring_tail_lt p q l : ring_rep cap p q l -> m_tail q < S cap.
Proof. intros [_ _ -> _ _]. apply Nat.mod_upper_bound. lia. Qed.

Lemma ring_empty p q l : ring_rep cap p q l -> (m_tail q = m_head q <-> l = []).
Proof.
  intros [_ Hl -> -> _]. split.
  - intros He. apply mod_near in He; [|lia..]. apply length_zero_iff_nil. lia.
  - intros ->. simpl. by rewrite Nat.add_0_r.
Qed.

Lemma ring_full p q l :
  ring_rep cap p q l -> ((m_head q + 1) mod S cap = m_tail q <-> length l = cap).
Proof.
  intros [_ Hl -> -> _]. rewrite succ_mod. split.
  - intros He. destruct (decide (length l = cap)) as [|Hne]; [done|].
    symmetry in He. apply mod_near in He; lia.
  - intros ->. replace (S (p + cap)) with (p + 1 * S cap) by lia. apply Nat.Div0.mod_add.
Qed.

Lemma ring_count p q l :
  ring_rep cap p q l ->
  (if decide (m_tail q <= m_head q) then m_head q - m_tail q
   else S cap - m_tail q + m_head q) = length l.
Proof.
  intros [_ Hl -> -> _].
  pose proof (Nat.div_mod_eq p (S cap)). pose proof (Nat.div_mod_eq (p + length l) (S cap)).
  pose proof (Nat.mod_upper_bound p (S cap) ltac:(lia)).
  pose proof (Nat.mod_upper_bound (p + length l) (S cap) ltac:(lia)).
  assert (p / S cap <= (p + length l) / S cap) by (apply Nat.Div0.div_le_mono; lia).
  assert ((p + length l) / S cap <= S (p / S cap)).
  { replace (S (p / S cap)) with ((p + 1 * S cap) / S cap) by (rewrite Nat.div_add; lia).
    apply Nat.Div0.div_le_mono. lia. }
  destruct (decide ((p + length l) / S cap = p / S cap)) as [He|Hne].
  - rewrite He in *. rewrite decide_True; lia.
  - assert (Hs : (p + length l) / S cap = S (p / S cap)) by lia. rewrite Hs in *.
    rewrite decide_False; nia.
Qed.

(** Writing the slot at the head is invisible while there is room. *)
Lemma ring_write p q l x :
  ring_rep cap p q l -> length l < cap ->
  ring_rep cap p (Ring (<[m_head q := x]> (m_buf q)) (m_head q) (m_tail q)) l.
Proof.
  intros Hq Hroom. pose proof Hq as [Hb Hl Ht Hh He]. split; simpl; auto.
  - by rewrite length_insert.
  - intros i y Hi. pose proof (lookup_lt_Some _ _ _ Hi).
    rewrite list_lookup_insert_ne; [auto|]. rewrite Hh. intros Hc. symmetry in Hc.
    apply mod_near in Hc; lia.
Qed.

(** Publishing it appends the element. *)
Lemma ring_publish p q l x :
  ring_rep cap p q l -> length l < cap -> m_buf q !! m_head q = Some x ->
  ring_rep cap p (Ring (m_buf q) ((m_head q + 1) mod S cap) (m_tail q)) (l ++ [x]).
Proof.
  intros [Hb Hl Ht Hh He] Hroom Hx. split; simpl; auto.
  - len.
  - rewrite Hh, succ_mod. f_equal. len.
  - intros i y Hi. apply lookup_app_Some in Hi as [Hi|[Hge Hi]]; [auto|].
    apply list_lookup_singleton_Some in Hi as [Hz ->].
    replace (p + i) with (p + length l) by lia. by rewrite Hh in Hx.
Qed.

(** The slot at the tail holds the oldest element. *)
Lemma ring_front p q x l : ring_rep cap p q (x :: l) -> m_buf q !! m_tail q = Some x.
Proof. intros [_ _ -> _ He]. rewrite <- (He 0 x); [|done]. by rewrite Nat.add_0_r. Qed.

Lemma ring_drop p q x l :
  ring_rep cap p q (x :: l) ->
  ring_rep cap (S p) (Ring (m_buf q) (m_head q) ((m_tail q + 1) mod S cap)) l.
Proof.
  intros [Hb Hl Ht Hh He]. simpl in Hl. split; simpl; auto; [lia|..].
  - by rewrite Ht, succ_mod.
  - rewrite Hh. f_equal. simpl. lia.
  - intros i y Hi. rewrite <- (He (S i) y Hi). f_equal. f_equal. lia.
Qed.

Lemma ring_clear p q l :
  ring_rep cap p q l -> ring_rep cap (p + length l) (Ring (m_buf q) (m_head q) (m_head q)) [].
Proof.
  intros [Hb Hl Ht Hh He]. split; simpl; auto; [lia|by rewrite Nat.add_0_r|].
  intros i x Hi. by rewrite lookup_nil in Hi.
Qed.
End ring.

(** ** The queue interface ([IMessageQueue.h], [ICommandProducer.h], [ICommandConsumer.h]) *)

Class MessageQueue (Q A : Type) := {
  mq_try_push : A -> Q -> option (bool * Q);
  mq_try_pop : Q -> option (option A * Q);
  mq_size : Q -> nat;
  mq_capacity : nat;
  mq_clear : Q -> Q;
}.

(** What it promises: a bounded first-in-first-out queue. [mq_holds q l] says that [q]
    is well formed and holds [l], oldest first. *)
Class MessageQueueSpec (Q A : Type) `{!MessageQueue Q A} := {
  mq_holds : Q -> list A -> Prop;
  mq_holds_bound q l : mq_holds q l -> length l <= mq_capacity;
  mq_push_spec q l x : mq_holds q l ->
    exists q', mq_try_push x q = Some (bool_decide (length l < mq_capacity), q') /\
      mq_holds q' (if decide (length l < mq_capacity) then l ++ [x] else l);
  mq_pop_spec q l : mq_holds q l ->
    exists q', mq_try_pop q = Some (head l, q') /\ mq_holds q' (tail l);
  mq_size_spec q l : mq_holds q l -> mq_size q = length l;
  mq_clear_spec q l : mq_holds q l -> mq_holds (mq_clear q) [];
}.

(** ** The sequential operations ([LockFreeQueue.h]) *)

Section queue.
Context {A : Type} (Capacity : nat).

Definition kSlots : nat := S Capacity.

(** The constructor; [junk] is what the unset slots hold. *)
Definition new_queue (junk : A) : ring A := Ring (replicate kSlots junk) 0 0.

Definition try_push (cmd : A) (q : ring A) : option (bool * ring A) :=
  let head := m_head q in
  let next := (head + 1) mod kSlots in
  if decide (next = m_tail q) then Some (false, q)
  else
    buf ← store (m_buf q) head cmd;
    Some (true, Ring buf next (m_tail q)).

Definition try_pop (q : ring A) : option (option A * ring A) :=
  let tail := m_tail q in
  if decide (tail = m_head q) then Some (None, q)
  else
    cmd ← load (m_buf q) tail;
    Some (Some cmd, Ring (m_buf q) (m_head q) ((tail + 1) mod kSlots)).

Definition push (cmd : A) (timeoutMs : Z) (q : ring A) : option (bool * ring A) := try_push cmd q.
Definition pop (timeoutMs : Z) (q : ring A) : option (option A * ring A) := try_pop q.

Definition size (q : ring A) : nat :=
  let head := m_head q in
  let tail := m_tail q in
  if decide (tail <= head) then head - tail else kSlots - tail + head.

Definition capacity : nat := Capacity.

Definition clear (q : ring A) : ring A := Ring (m_buf q) (m_head q) (m_head q).

Definition holds (q : ring A) (l : list A) : Prop := exists p, ring_rep Capacity p q l.

Lemma new_queue_rep junk : ring_rep Capacity 0 (new_queue junk) [].
Proof.
  split; simpl; rewrite ?length_replicate, ?Nat.add_0_r, ?Nat.Div0.mod_0_l; auto; try lia.
  intros i x Hi. by rewrite lookup_nil in Hi.
Qed.

Lemma new_queue_holds junk : holds (new_queue junk) [].
Proof. exists 0. apply new_queue_rep. Qed.

Lemma try_push_ok q l x :
  holds q l ->
  exists q', try_push x q = Some (bool_decide (length l < Capacity), q') /\
    holds q' (if decide (length l < Capacity) then l ++ [x] else l).
Proof.
  intros [p Hq]. unfold try_push, kSlots. pose proof (ring_full _ _ _ _ Hq) as Hfull.
  pose proof (rr_len _ _ _ _ Hq). case_decide as Hc.
  - apply Hfull in Hc. rewrite bool_decide_false by lia. exists q. split; [done|].
    rewrite decide_False by lia. by exists p.
  - assert (Hroom : length l < Capacity) by (destruct (decide (length l = Capacity)); [tauto|lia]).
    pose proof (ring_head_lt _ _ _ _ Hq) as Hlt. rewrite <- (rr_buf _ _ _ _ Hq) in Hlt.
    rewrite store_ok by done. cbn [mbind option_bind].
    rewrite bool_decide_true by done. eexists. split; [done|]. rewrite decide_True by done.
    exists p. apply (ring_publish Capacity p _ l x (ring_write Capacity p q l x Hq Hroom) Hroom).
    simpl. by apply list_lookup_insert_eq.
Qed.

Lemma try_pop_ok q l :
  holds q l -> exists q', try_pop q = Some (head l, q') /\ holds q' (tail l).
Proof.
  intros [p Hq]. unfold try_pop, kSlots. pose proof (ring_empty _ _ _ _ Hq) as Hempty.
  case_decide as Hc.
  - apply Hempty in Hc as ->. exists q. split; [done|]. by exists p.
  - destruct l as [|x l]; [tauto|]. unfold load. rewrite (ring_front _ _ _ _ _ Hq).
    cbn [mbind option_bind]. eexists. split; [done|]. exists (S p). by eapply ring_drop.
Qed.

(** The contents are determined by the ring. *)
Lemma holds_unique q l l' : holds q l -> holds q l' -> l = l'.
Proof.
  revert q l'. induction l as [|x l IH]; intros q l' H H';
    destruct (try_pop_ok _ _ H) as (q1 & E & H1), (try_pop_ok _ _ H') as (q2 & E' & H2);
    rewrite E in E'; injection E' as Hhead <-; destruct l' as [|y l']; try done.
  injection Hhead as <-. f_equal. by eapply IH.
Qed.

Lemma size_ok q l : holds q l -> size q = length l.
Proof. intros [p Hq]. by eapply ring_count. Qed.

Lemma clear_ok q l : holds q l -> holds (clear q) [].
Proof. intros [p Hq]. eexists. by eapply ring_clear. Qed.

Definition LockFreeQueue : MessageQueue (ring A) A :=
  {| mq_try_push := try_push; mq_try_pop := try_pop; mq_size := size;
     mq_capacity := capacity; mq_clear := clear |}.

Lemma holds_bound q l : holds q l -> length l <= Capacity.
Proof. intros [p Hq]. apply Hq. Qed.

Definition LockFreeQueue_spec : @MessageQueueSpec (ring A) A LockFreeQueue :=
  @Build_MessageQueueSpec (ring A) A LockFreeQueue holds holds_bound
    (fun q l x => try_push_ok q l x) try_pop_ok size_ok clear_ok.
End queue.

(** ** Producer and consumer on two cores

    One side calls [try_push], the other [try_pop]. A step is one access to shared memory:
    a load or store of an index, or the copy into or out of a slot. The accesses
    interleave in any order; the code's acquire and release orders make the slot accesses
    appear in this order to the other side. *)

Section spsc.
Context {A : Type} (Capacity : nat).
Abbreviation slots := (kSlots Capacity).

(** Where the producer stands in [try_push], with its locals. *)
Inductive producer :=
  | PIdle
  | PLoadTail (cmd : A) (head next : nat)
  | PWrite (cmd : A) (head next : nat)
  | PStore (cmd : A) (head next : nat).

(** Where the consumer stands in [try_pop]. *)
Inductive consumer :=
  | CIdle
  | CLoadHead (tail : nat)
  | CRead (tail : nat)
  | CStore (cmd : A) (tail : nat).

(** The shared ring, both program counters, and the history: the commands whose push has
    been published and those whose pop has been. *)
Record spsc := Spsc {
  s_ring : ring A;
  s_prod : producer;
  s_cons : consumer;
  s_pushed : list A;
  s_popped : list A;
}.

Inductive event :=
  | Internal
  | PushReturns (cmd : A) (ok : bool)
  | PopReturns (cmd : option A).

(** A step; [None] as the new ring is undefined behaviour. *)
Inductive spsc_step : spsc -> event -> option spsc -> Prop :=
  | push_load_head q cs pu po cmd :
      spsc_step (Spsc q PIdle cs pu po) Internal
        (Some (Spsc q (PLoadTail cmd (m_head q) ((m_head q + 1) mod slots)) cs pu po))
  | push_full q cs pu po cmd head next :
      next = m_tail q ->
      spsc_step (Spsc q (PLoadTail cmd head next) cs pu po) (PushReturns cmd false)
        (Some (Spsc q PIdle cs pu po))
  | push_room q cs pu po cmd head next :
      next <> m_tail q ->
      spsc_step (Spsc q (PLoadTail cmd head next) cs pu po) Internal
        (Some (Spsc q (PWrite cmd head next) cs pu po))
  | push_write q cs pu po cmd head next :
      spsc_step (Spsc q (PWrite cmd head next) cs pu po) Internal
        (buf ← store (m_buf q) head cmd;
         Some (Spsc (Ring buf (m_head q) (m_tail q)) (PStore cmd head next) cs pu po))
  | push_publish q cs pu po cmd head next :
      spsc_step (Spsc q (PStore cmd head next) cs pu po) (PushReturns cmd true)
        (Some (Spsc (Ring (m_buf q) next (m_tail q)) PIdle cs (pu ++ [cmd]) po))
  | pop_load_tail q ps pu po :
      spsc_step (Spsc q ps CIdle pu po) Internal
        (Some (Spsc q ps (CLoadHead (m_tail q)) pu po))
  | pop_empty q ps pu po tail :
      tail = m_head q ->
      spsc_step (Spsc q ps (CLoadHead tail) pu po) (PopReturns None)
        (Some (Spsc q ps CIdle pu po))
  | pop_some q ps pu po tail :
      tail <> m_head q ->
      spsc_step (Spsc q ps (CLoadHead tail) pu po) Internal
        (Some (Spsc q ps (CRead tail) pu po))
  | pop_read q ps pu po tail :
      spsc_step (Spsc q ps (CRead tail) pu po) Internal
        (cmd ← load (m_buf q) tail;
         Some (Spsc q ps (CStore cmd tail) pu po))
  | pop_publish q ps pu po cmd tail :
      spsc_step (Spsc q ps (CStore cmd tail) pu po) (PopReturns (Some cmd))
        (Some (Spsc (Ring (m_buf q) (m_head q) ((tail + 1) mod slots)) ps CIdle pu (po ++ [cmd]))).

Inductive spsc_steps : spsc -> list event -> option spsc -> Prop :=
  | spsc_refl s : spsc_steps s [] (Some s)
  | spsc_trans s e s' es r :
      spsc_step s e (Some s') -> spsc_steps s' es r -> spsc_steps s (e :: es) r
  | spsc_undefined s e : spsc_step s e None -> spsc_steps s [e] None.

Definition spsc_init (junk : A) : spsc := Spsc (new_queue Capacity junk) PIdle CIdle [] [].

(** The invariant: the ring holds what was pushed and not yet popped, and each side's
    locals agree with the indices only it writes. *)
Definition prod_ok (q : ring A) (n : nat) (ps : producer) : Prop :=
  match ps with
  | PIdle => True
  | PLoadTail _ h nx => h = m_head q /\ nx = (m_head q + 1) mod slots
  | PWrite _ h nx => h = m_head q /\ nx = (m_head q + 1) mod slots /\ n < Capacity
  | PStore c h nx =>
      h = m_head q /\ nx = (m_head q + 1) mod slots /\ n < Capacity /\ m_buf q !! h = Some c
  end.

Definition cons_ok (q : ring A) (l : list A) (cs : consumer) : Prop :=
  match cs with
  | CIdle => True
  | CLoadHead t => t = m_tail q
  | CRead t => t = m_tail q /\ l <> []
  | CStore c t => t = m_tail q /\ head l = Some c
  end.

Record spsc_inv (s : spsc) (l : list A) : Prop := {
  si_history : s_pushed s = s_popped s ++ l;
  si_rep : ring_rep Capacity (length (s_popped s)) (s_ring s) l;
  si_prod : prod_ok (s_ring s) (length l) (s_prod s);
  si_cons : cons_ok (s_ring s) l (s_cons s);
}.

Lemma spsc_init_inv junk : spsc_inv (spsc_init junk) [].
Proof. split; simpl; auto using new_queue_rep. Qed.

Lemma spsc_step_inv s l e r :
  spsc_inv s l -> spsc_step s e r -> exists s' l', r = Some s' /\ spsc_inv s' l'.
Proof.
  intros [Hh Hr Hp Hc] Hs.
  destruct Hs; simpl in *.
  - do 2 eexists. split; [done|]. split; simpl; eauto.
  - do 2 eexists. split; [done|]. split; simpl; eauto.
  - destruct Hp as [-> ->]. do 2 eexists. split; [done|]. split; simpl; eauto.
    split; [done|]. split; [done|]. pose proof (rr_len _ _ _ _ Hr).
    pose proof (ring_full _ _ _ _ Hr). destruct (decide (length l = Capacity)); [tauto|lia].
  - destruct Hp as (-> & -> & Hn). pose proof (ring_head_lt _ _ _ _ Hr) as Hlt.
    rewrite <- (rr_buf _ _ _ _ Hr) in Hlt. rewrite store_ok by done. cbn [mbind option_bind].
    do 2 eexists. split; [done|]. split; simpl; eauto.
    + by apply ring_write.
    + repeat (split; [done|]). by apply list_lookup_insert_eq.
  - destruct Hp as (-> & -> & Hn & Hb). do 2 eexists. split; [done|]. split; simpl; auto.
    + by rewrite Hh, <- app_assoc.
    + by apply ring_publish.
    + destruct cs; simpl in *; auto.
      * destruct Hc as [? Hne]. split; [done|]. by destruct l.
      * destruct Hc as [? Hhd]. split; [done|]. by destruct l.
  - do 2 eexists. split; [done|]. split; simpl; eauto.
  - do 2 eexists. split; [done|]. split; simpl; eauto.
  - do 2 eexists. split; [done|]. split; simpl; eauto. split; [done|]. subst tail.
    intros ->. apply H. by apply (ring_empty _ _ _ _ Hr).
  - destruct Hc as [-> Hne]. destruct l as [|x l]; [done|].
    unfold load. rewrite (ring_front _ _ _ _ _ Hr). cbn [mbind option_bind].
    do 2 eexists. split; [done|]. split; simpl; eauto.
  - destruct Hc as [-> Hhd]. destruct l as [|x l]; simpl in Hhd; simplify_eq.
    do 2 eexists. split; [done|]. split; simpl.
    + by rewrite <- app_assoc.
    + rewrite length_app, Nat.add_1_r. by eapply ring_drop.
    + destruct ps; simpl in *; auto; intuition lia.
    + done.
Qed.

Lemma spsc_steps_inv s l es r :
  spsc_inv s l -> spsc_steps s es r -> exists s' l', r = Some s' /\ spsc_inv s' l'.
Proof.
  intros Hi Hs. revert l Hi. induction Hs as [s|s e s' es r Hst _ IH|s e Hst]; intros l Hi.
  - eauto.
  - destruct (spsc_step_inv _ _ _ _ Hi Hst) as (s1 & l1 & [= <-] & Hi1). eauto.
  - destruct (spsc_step_inv _ _ _ _ Hi Hst) as (s1 & l1 & He & _). discriminate.
Qed.
End spsc.

(** ** Properties *)

(** The abstract queue: operations on a list. *)
Inductive queue_op (A : Type) := OpPush (x : A) | OpPop | OpClear.
#[global] Arguments OpPush {A}.
#[global] Arguments OpPop {A}.
#[global] Arguments OpClear {A}.

Definition queue_op_spec {A} (cap : nat) (op : queue_op A) (l : list A)
    : (bool * option A) * list A :=
  match op with
  | OpPush x => if decide (length l < cap) then ((true, None), l ++ [x]) else ((false, None), l)
  | OpPop => ((bool_decide (l <> []), head l), tail l)
  | OpClear => ((true, None), [])
  end.

Definition run_op {Q A} `{!MessageQueue Q A} (op : queue_op A) (q : Q)
    : option ((bool * option A) * Q) :=
  match op with
  | OpPush x => '(ok, q) ← mq_try_push x q; Some ((ok, None), q)
  | OpPop => '(r, q) ← mq_try_pop q; Some ((bool_decide (is_Some r), r), q)
  | OpClear => Some ((true, None), mq_clear q)
  end.

Fixpoint run_ops {Q A} `{!MessageQueue Q A} (ops : list (queue_op A)) (q : Q)
    : option (list (bool * option A) * Q) :=
  match ops with
  | [] => Some ([], q)
  | op :: ops => '(r, q) ← run_op op q; '(rs, q) ← run_ops ops q; Some (r :: rs, q)
  end.

Fixpoint ops_spec {A} (cap : nat) (ops : list (queue_op A)) (l : list A)
    : list (bool * option A) * list A :=
  match ops with
  | [] => ([], l)
  | op :: ops =>
      let '(r, l) := queue_op_spec cap op l in
      let '(rs, l) := ops_spec cap ops l in (r :: rs, l)
  end.

(** Proved once against the interface, for any queue that meets it. *)
Lemma run_ops_spec {Q A} `{MessageQueueSpec Q A} (ops : list (queue_op A)) (q : Q) (l : list A) :
  mq_holds q l ->
  exists q', run_ops ops q = Some ((ops_spec mq_capacity ops l).1, q') /\
    mq_holds q' (ops_spec mq_capacity ops l).2.
Proof.
  revert q l. induction ops as [|op ops IH]; intros q l Hq; [by exists q|].
  assert (Hop : exists q', run_op op q = Some ((queue_op_spec mq_capacity op l).1, q') /\
    mq_holds q' (queue_op_spec mq_capacity op l).2).
  { destruct op as [x| |]; simpl.
    - destruct (mq_push_spec q l x Hq) as (q' & -> & Hq'). exists q'. simpl.
      destruct (decide (length l < mq_capacity)) as [Hlt|Hge];
        [rewrite bool_decide_true by exact Hlt|rewrite bool_decide_false by exact Hge]; done.
    - destruct (mq_pop_spec q l Hq) as (q' & -> & Hq'). exists q'. split; [|done]. simpl.
      by destruct l.
    - eexists. split; [done|]. by eapply mq_clear_spec. }
  destruct Hop as (q1 & Hr & Hq1). simpl. rewrite Hr. cbn [mbind option_bind].
  destruct (queue_op_spec mq_capacity op l) as [r l1]. simpl in *.
  destruct (IH _ _ Hq1) as (q2 & -> & Hq2). cbn [mbind option_bind].
  exists q2. by destruct (ops_spec mq_capacity ops l1) as [rs l2].
Qed.

(** The ring is a bounded FIFO: over any sequence of pushes, pops and clears a new
    [LockFreeQueue] answers exactly as a list of capacity [Capacity] does, a push being
    refused only when the list is full, and [size] is the length of that list; no access
    leaves the slot array. *)
Theorem queue_refines_fifo {A : Type} (Capacity : nat) (junk : A) (ops : list (queue_op A)) :
  exists q, @run_ops _ _ (LockFreeQueue Capacity) ops (new_queue Capacity junk) =
      Some ((ops_spec Capacity ops []).1, q) /\
    size Capacity q = length (ops_spec Capacity ops []).2 /\
    length (ops_spec Capacity ops []).2 <= Capacity.
Proof.
  destruct (@run_ops_spec _ _ _ (LockFreeQueue_spec Capacity) ops (new_queue Capacity junk) []
    (new_queue_holds Capacity junk)) as (q & Hr & Hq).
  exists q. split; [exact Hr|]. split; [by apply size_ok|exact (holds_bound _ _ _ Hq)].
Qed.

(** C7 With the producer and the consumer on different cores and their accesses
    interleaved in any order, the queue neither loses, duplicates nor reorders a command:
    no access is out of bounds, what has been popped is a prefix of what has been pushed,
    and at most [Capacity] commands are in between. *)
Theorem spsc_fifo {A : Type} (Capacity : nat) (junk : A) (es : list event) (r : option spsc) :
  spsc_steps Capacity (spsc_init Capacity junk) es r ->
  exists s, r = Some s /\ exists inflight, s_pushed s = s_popped s ++ inflight /\
    length inflight <= Capacity /\ size Capacity (s_ring s) = length inflight.
Proof.
  intros Hs. destruct (spsc_steps_inv Capacity _ _ _ _ (spsc_init_inv Capacity junk) Hs)
    as (s & l & -> & Hi).
  exists s. split; [done|]. exists l. destruct Hi as [Hh Hr _ _]. split; [done|].
  split; [apply Hr|]. by eapply ring_count.
Qed.

(** The slot a side is about to touch, or has claimed. *)
Definition producer_slot {A} (ps : @producer A) : option nat :=
  match ps with PWrite _ h _ => Some h | _ => None end.

Definition consumer_slot {A} (cs : @consumer A) : option nat :=
  match cs with CRead t => Some t | _ => None end.

(** There is no data race on a slot: whenever the producer is about to write a slot
    and the consumer is about to read one, the slots differ. *)
Theorem spsc_no_race {A : Type} (Capacity : nat) (junk : A) (es : list event) (s : spsc)
    (i j : nat) :
  spsc_steps Capacity (spsc_init Capacity junk) es (Some s) ->
  producer_slot (s_prod s) = Some i -> consumer_slot (s_cons s) = Some j -> i <> j.
Proof.
  intros Hs Hi Hj. destruct (spsc_steps_inv Capacity _ _ _ _ (spsc_init_inv Capacity junk) Hs)
    as (s' & l & [= <-] & [_ Hr Hp Hc]).
  destruct (s_prod s); simpl in Hi; simplify_eq. destruct (s_cons s); simpl in Hj; simplify_eq.
  simpl in *. destruct Hp as (-> & _ & Hn). destruct Hc as (-> & Hne).
  intros He. symmetry in He. by apply (ring_empty _ _ _ _ Hr) in He.
Qed.

Lemma spsc_next {A} (cap : nat) (s : @spsc A) e s' s1 es r :
  spsc_step cap s e s' -> s' = Some s1 -> spsc_steps cap s1 es r -> spsc_steps cap s (e :: es) r.
Proof. intros Hs ->. by eapply spsc_trans. Defined.

(** A run in which a push and a pop overlap. *)
Lemma sample_run :
  spsc_steps 1 (spsc_init 1 0) [Internal; Internal; Internal; PushReturns 7 true;
      Internal; Internal; Internal; Internal; PushReturns 9 false; PopReturns (Some 7);
      Internal; Internal]
    (Some (Spsc (Ring [7; 0] 1 1) (PWrite 8 1 0) CIdle [7] [7])).
Proof.
  unfold spsc_init, new_queue. simpl.
  eapply spsc_next; [eapply (push_load_head 1 _ _ _ _ 7)|reflexivity|].
  eapply spsc_next; [eapply push_room; simpl; discriminate|reflexivity|].
  eapply spsc_next; [eapply push_write|reflexivity|].
  eapply spsc_next; [eapply push_publish|reflexivity|].
  eapply spsc_next; [eapply (push_load_head 1 _ _ _ _ 9)|reflexivity|].
  eapply spsc_next; [eapply pop_load_tail|reflexivity|].
  eapply spsc_next; [eapply pop_some; simpl; discriminate|reflexivity|].
  eapply spsc_next; [eapply pop_read|reflexivity|].
  eapply spsc_next; [eapply push_full; reflexivity|reflexivity|].
  eapply spsc_next; [eapply pop_publish|reflexivity|].
  eapply spsc_next; [eapply (push_load_head 1 _ _ _ _ 8)|reflexivity|].
  eapply spsc_next; [eapply push_room; simpl; discriminate|reflexivity|].
  apply spsc_refl.
Defined.

Lemma spsc_fifo_witness :
  exists s, Some (Spsc (Ring [7; 0] 1 1) (PWrite 8 1 0) CIdle [7] [7]) = Some s /\
    exists inflight, s_pushed s = s_popped s ++ inflight /\
    length inflight <= 1 /\ size 1 (s_ring s) = length inflight.
Proof. exact (spsc_fifo 1 0 _ _ sample_run). Defined.

(** A run that leaves both sides in front of their slot. *)
Lemma racing_run :
  spsc_steps 2 (spsc_init 2 0) [Internal; Internal; Internal; PushReturns 7 true;
      Internal; Internal; Internal; Internal]
    (Some (Spsc (Ring [7; 0; 0] 1 0) (PWrite 9 1 2) (CRead 0) [7] [])).
Proof.
  unfold spsc_init, new_queue. simpl.
  eapply spsc_next; [eapply (push_load_head 2 _ _ _ _ 7)|reflexivity|].
  eapply spsc_next; [eapply push_room; simpl; discriminate|reflexivity|].
  eapply spsc_next; [eapply push_write|reflexivity|].
  eapply spsc_next; [eapply push_publish|reflexivity|].
  eapply spsc_next; [eapply (push_load_head 2 _ _ _ _ 9)|reflexivity|].
  eapply spsc_next; [eapply pop_load_tail|reflexivity|].
  eapply spsc_next; [eapply pop_some; simpl; discriminate|reflexivity|].
  eapply spsc_next; [eapply push_room; simpl; discriminate|reflexivity|].
  apply spsc_refl.
Defined.

Lemma spsc_no_race_witness : 1 <> 0.
Proof. exact (spsc_no_race 2 0 _ _ 1 0 racing_run eq_refl eq_refl). Defined.
