(* ===== verification/Float32.v ===== *)
(** * Floating-point arithmetic

    The C++ [float] of the sources, as the Standard Library's executable IEEE-754
    specification at precision 24 and maximal exponent 128, rounding to nearest even,
    without contraction into fused operations. One NaN stands for all of them. A [double] is
    the same at precision 53 and maximal exponent 1024. *)

From S2P Require Import Prelude.
From Stdlib Require Export SpecFloat.

Abbreviation float := spec_float.

Definition f_add : float -> float -> float := SFadd 24 128.
Definition f_sub : float -> float -> float := SFsub 24 128.
Definition f_mul : float -> float -> float := SFmul 24 128.
Definition f_div : float -> float -> float := SFdiv 24 128.

(** The comparison operators; false when an operand is NaN. *)
Definition f_lt (a b : float) : bool := SFltb a b.
Definition f_gt (a b : float) : bool := SFltb b a.
Definition f_le (a b : float) : bool := SFleb a b.
Definition f_ge (a b : float) : bool := SFleb b a.

(** [static_cast<float>] of an integer. *)
Definition f_of_Z (n : Z) : float := binary_normalize 24 128 n 0 false.

(** The same for [double]. *)
Definition d_div : float -> float -> float := SFdiv 53 1024.
Definition d_of_Z (n : Z) : float := binary_normalize 53 1024 n 0 false.

(** [0.0f] and [1.0f] *)
Definition f_zero : float := S754_zero false.
Definition f_one : float := S754_finite false 8388608 (-23).

Definition f_half : float := S754_finite false 8388608 (-24).
Definition f_neg : float -> float := SFopp.

(** The integral part, towards zero: the cast to an integer type. The cast of a NaN, an
    infinity or a value out of the type's range is undefined behaviour. *)
Definition f_trunc (f : float) : option Z :=
  match f with
  | S754_zero _ => Some 0%Z
  | S754_finite s m e =>
      let a := (if (0 <=? e)%Z then Z.pos m * 2 ^ e else Z.shiftr (Z.pos m) (- e))%Z in
      Some (if s then - a else a)%Z
  | _ => None
  end.

Definition f_to_u64 (f : float) : option Z :=
  n ← f_trunc f;
  if decide (in_word 64 n) then Some n else None.

Definition f_to_u32 (f : float) : option Z :=
  n ← f_trunc f;
  if decide (in_word 32 n) then Some n else None.

Lemma f_to_u32_word f n : f_to_u32 f = Some n -> in_word 32 n.
Proof. unfold f_to_u32. destruct (f_trunc f); simpl; [|done]. case_decide; [|done]. by intros [= <-]. Qed.

(** ** Bit patterns, as [memcpy] moves them *)

Definition bits_of_float (f : float) : Z :=
  match f with
  | S754_zero s => if s then 0x80000000 else 0
  | S754_infinity s => if s then 0xFF800000 else 0x7F800000
  | S754_nan => 0x7FC00000
  | S754_finite s m e =>
      (if s then 0x80000000 else 0) +
      (if decide (Z.pos m < 2 ^ 23) then Z.pos m else (e + 150) * 2 ^ 23 + (Z.pos m - 2 ^ 23))
  end%Z.

Definition float_of_bits (b : Z) : float :=
  let s := Z.testbit b 31 in
  let e := Z.land (Z.shiftr b 23) 255 in
  let m := Z.land b 0x7FFFFF in
  if decide (e = 255%Z) then (if decide (m = 0%Z) then S754_infinity s else S754_nan)
  else
    let '(m, e) := if decide (e = 0%Z) then (m, (-149)%Z) else ((m + 0x800000)%Z, (e - 150)%Z) in
    match m with
    | Z.pos m => S754_finite s m e
    | _ => S754_zero s
    end.

Example bits_of_one : bits_of_float f_one = 0x3F800000%Z /\ float_of_bits 0x3F800000 = f_one.
Proof. split; reflexivity. Qed.

Example cast_rounds : f_trunc (f_of_Z 16777217) = Some 16777216%Z.
Proof. reflexivity. Qed.

(** ** Conversions without rounding *)

Lemma digits2_pos_bounds m : (2 ^ (Z.pos (digits2_pos m) - 1) <= Z.pos m < 2 ^ Z.pos (digits2_pos m))%Z.
Proof.
  induction m as [m IH|m IH|]; cbn [digits2_pos]; [| |done];
    rewrite Pos2Z.inj_succ;
    replace (Z.succ (Z.pos (digits2_pos m)) - 1)%Z with (Z.succ (Z.pos (digits2_pos m) - 1)) by lia;
    rewrite !Z.pow_succ_r by lia; lia.
Qed.

Lemma iter_xO m d : Z.pos (Pos.iter xO m d) = (Z.pos m * 2 ^ Z.pos d)%Z.
Proof.
  induction d as [|d IH] using Pos.peano_ind; [cbn; lia|].
  rewrite Pos.iter_succ, Pos2Z.inj_xO, IH, Pos2Z.inj_succ, Z.pow_succ_r by lia. lia.
Qed.

Lemma digits2_pos_iter m d : digits2_pos (Pos.iter xO m d) = (digits2_pos m + d)%positive.
Proof. induction d as [|d IH] using Pos.peano_ind; [cbn; lia|]. rewrite Pos.iter_succ. cbn [digits2_pos]. rewrite IH. lia. Qed.

Section exact.
Context (prec emax : Z).
Hypothesis Hprec : (0 < prec)%Z.
Hypothesis Hemax : (prec <= emax /\ 2 <= emax)%Z.

(** A mantissa of full width at an exponent in range is not rounded. *)
Lemma binary_round_aux_full s m e :
  Z.pos (digits2_pos m) = prec -> (emin prec emax <= e <= emax - prec)%Z ->
  binary_round_aux prec emax s (Z.pos m) e loc_Exact = S754_finite s m e.
Proof.
  intros Hd He. assert (Hs : shr_fexp prec emax (Z.pos m) e loc_Exact = (Build_shr_record (Z.pos m) false false, e)).
  { unfold shr_fexp, fexp, Zdigits2. rewrite Hd. by replace (_ - e)%Z with 0%Z by lia. }
  unfold binary_round_aux. rewrite Hs. cbn [shr_m loc_of_shr_record round_nearest_even]. rewrite Hs. cbn [shr_m].
  destruct (Z.leb_spec e (emax - prec)); [done|lia].
Qed.

(** The conversion of an integer of at most [prec] digits is exact. *)
Lemma binary_normalize_exact n :
  (0 < n < 2 ^ prec)%Z -> exists m e, binary_normalize prec emax n 0 false = S754_finite false m e /\
    (e <= 0)%Z /\ Z.pos m = (n * 2 ^ (- e))%Z.
Proof.
  intros Hn. destruct n as [|p|p]; [lia| |lia]. cbn [binary_normalize]. unfold binary_round.
  pose proof (digits2_pos_bounds p) as Hp.
  assert (Hd : (Z.pos (digits2_pos p) <= prec)%Z).
  { enough (Z.pos (digits2_pos p) - 1 < prec)%Z by lia. apply (Z.pow_lt_mono_r_iff 2); lia. }
  assert (Hf : fexp prec emax (Z.pos (digits2_pos p) + 0) = (Z.pos (digits2_pos p) - prec)%Z) by (unfold fexp, emin; lia).
  rewrite Hf. unfold shl_align. destruct (Z.pos (digits2_pos p) - prec - 0)%Z as [|q|q] eqn:Eq; [|lia|].
  - rewrite binary_round_aux_full by (unfold emin; lia). exists p, 0%Z. split; [done|]. lia.
  - rewrite binary_round_aux_full by (rewrite ?digits2_pos_iter; unfold emin; lia).
    eexists _, _. split; [done|]. split; [lia|]. rewrite iter_xO. do 2 f_equal. lia.
Qed.
End exact.

(** Such a value converts back. *)
Lemma f_trunc_exact prec emax n :
  (0 < prec)%Z -> (prec <= emax /\ 2 <= emax)%Z -> (0 <= n < 2 ^ prec)%Z ->
  f_trunc (binary_normalize prec emax n 0 false) = Some n.
Proof.
  intros Hp He Hn. destruct (decide (n = 0%Z)) as [->|Hne]; [done|].
  destruct (binary_normalize_exact prec emax Hp He n) as (m & e & -> & Hle & Hm); [lia|]. cbn [f_trunc].
  f_equal. rewrite Hm. destruct (Z.leb_spec 0 e).
  - assert (e = 0%Z) as -> by lia. cbn. lia.
  - rewrite Z.shiftr_div_pow2 by lia. apply Z.div_mul. lia.
Qed.

Lemma f_of_Z_exact n : (0 <= n < 2 ^ 24)%Z -> f_trunc (f_of_Z n) = Some n.
Proof. by apply f_trunc_exact. Qed.

Lemma d_of_Z_exact n : (0 <= n < 2 ^ 53)%Z -> f_trunc (d_of_Z n) = Some n.
Proof. by apply f_trunc_exact. Qed.

(** ** Comparison and NaN lemmas *)

Lemma f_lt_le a b : f_lt a b = true -> f_le a b = true.
Proof. unfold f_lt, f_le, SFltb, SFleb. destruct (SFcompare a b) as [[]|]; done. Qed.

Lemma SFcompare_refl a : a <> S754_nan -> SFcompare a a = Some Eq.
Proof.
  destruct a as [s|s| |s m e]; simpl; try done; [by destruct s|].
  intros _. rewrite Z.compare_refl. by destruct s; rewrite Pos.compare_cont_refl.
Qed.

Lemma f_le_refl a : a <> S754_nan -> f_le a a = true.
Proof. intros H. unfold f_le, SFleb. by rewrite SFcompare_refl. Qed.

Lemma f_le_not_nan a b : f_le a b = true -> a <> S754_nan /\ b <> S754_nan.
Proof. by destruct a, b. Qed.

Lemma SFcompare_nan_r a : SFcompare a S754_nan = None.
Proof. by destruct a. Qed.

Lemma f_add_nan_l b : f_add S754_nan b = S754_nan.
Proof. by destruct b. Qed.
Lemma f_add_nan_r a : f_add a S754_nan = S754_nan.
Proof. by destruct a. Qed.
Lemma f_mul_nan_l b : f_mul S754_nan b = S754_nan.
Proof. by destruct b. Qed.
Lemma f_mul_nan_r a : f_mul a S754_nan = S754_nan.
Proof. by destruct a. Qed.
Lemma f_sub_nan_r a : f_sub a S754_nan = S754_nan.
Proof. by destruct a. Qed.
Lemma f_div_nan_l b : f_div S754_nan b = S754_nan.
Proof. by destruct b. Qed.

Create Rewrite HintDb sput_nan.
#[export] Hint Rewrite f_add_nan_l f_add_nan_r f_mul_nan_l f_mul_nan_r f_sub_nan_r f_div_nan_l
  SFcompare_nan_r : sput_nan.
