(* ===== verification/Pid.v ===== *)
(** * The PID controller ([utils/PIDController.h], [src/utils/PIDController.cpp])

    Also [sput_min] and [sput_max] of [utils/MinMax.h]. *)

From S2P Require Import Prelude Float32.

(** ** [MinMax.h] at [float] *)

Definition sput_min (a b : float) : float := if f_lt b a then b else a.
Definition sput_max (a b : float) : float := if f_lt a b then b else a.

Record PIDController := Pid {
  m_kp : float; m_ki : float; m_kd : float;
  m_outputMin : float; m_outputMax : float;
  m_integral : float; m_prevError : float; m_lastOutput : float;
  m_lastTimestamp : Z; m_firstSample : bool;
}.

Definition new_pid (kp ki kd outputMin outputMax : float) : PIDController :=
  Pid kp ki kd outputMin outputMax f_zero f_zero f_zero 0 true.

(** [0.000001f] *)
Definition kMicrosToSeconds : float := S754_finite false 8796093 (-43).

Definition pid_compute (setpoint measured : float) (timestamp : Z) (c : PIDController)
    : float * PIDController :=
  if m_firstSample c then
    (f_zero, Pid (m_kp c) (m_ki c) (m_kd c) (m_outputMin c) (m_outputMax c)
               (m_integral c) (m_prevError c) (m_lastOutput c) timestamp false)
  else
    let dtUs := u64 (timestamp - m_lastTimestamp c) in
    if decide (dtUs = 0%Z) then (m_lastOutput c, c)
    else
      let dt := f_mul (f_of_Z dtUs) kMicrosToSeconds in
      let error := f_sub setpoint measured in
      let derivative := f_div (f_sub error (m_prevError c)) dt in
      let rawIntegral := f_add (m_integral c) (f_mul error dt) in
      let rawOutput := f_add (f_add (f_mul (m_kp c) error) (f_mul (m_ki c) rawIntegral))
                             (f_mul (m_kd c) derivative) in
      let saturated := f_ge rawOutput (m_outputMax c) || f_le rawOutput (m_outputMin c) in
      let sameSign := f_gt (f_mul error (m_integral c)) f_zero in
      let integral := if negb saturated || negb sameSign then rawIntegral else m_integral c in
      let output :=
        sput_max (m_outputMin c)
          (sput_min (m_outputMax c)
            (f_add (f_add (f_mul (m_kp c) error) (f_mul (m_ki c) integral))
                   (f_mul (m_kd c) derivative))) in
      (output, Pid (m_kp c) (m_ki c) (m_kd c) (m_outputMin c) (m_outputMax c)
                 integral error output timestamp (m_firstSample c)).

Definition setGains (kp ki kd : float) (c : PIDController) : PIDController :=
  Pid kp ki kd (m_outputMin c) (m_outputMax c) (m_integral c) (m_prevError c) (m_lastOutput c)
    (m_lastTimestamp c) (m_firstSample c).

Definition setOutputLimits (outputMin outputMax : float) (c : PIDController) : PIDController :=
  Pid (m_kp c) (m_ki c) (m_kd c) outputMin outputMax (m_integral c) (m_prevError c)
    (m_lastOutput c) (m_lastTimestamp c) (m_firstSample c).

Definition getLastOutput (c : PIDController) : float := m_lastOutput c.

Definition pid_reset (c : PIDController) : PIDController :=
  Pid (m_kp c) (m_ki c) (m_kd c) (m_outputMin c) (m_outputMax c) f_zero f_zero f_zero 0 true.

(** ** The clamp *)

Definition within (lo hi x : float) : Prop := f_le lo x = true /\ f_le x hi = true.

Lemma clamp_within lo hi x : f_le lo hi = true -> within lo hi (sput_max lo (sput_min hi x)).
Proof.
  intros H. destruct (f_le_not_nan _ _ H) as [Hlo Hhi]. unfold sput_max, sput_min, within.
  destruct (f_lt x hi) eqn:Hx.
  - destruct (f_lt lo x) eqn:Hl; auto using f_lt_le, f_le_refl.
  - destruct (f_lt lo hi) eqn:Hl; auto using f_lt_le, f_le_refl.
Qed.

(** A NaN is not below the upper limit, so the clamp answers with that limit. *)
Lemma clamp_nan lo hi : sput_max lo (sput_min hi S754_nan) = sput_max lo hi.
Proof. done. Qed.

(** The samples a controller is fed between resets. *)
Fixpoint pid_run (samples : list (float * float * Z)) (c : PIDController)
    : list float * PIDController :=
  match samples with
  | [] => ([], c)
  | (sp, pv, t) :: samples =>
      let '(out, c) := pid_compute sp pv t c in
      let '(outs, c) := pid_run samples c in (out :: outs, c)
  end.

(** The controller has been primed and its last output is inside its limits. *)
Record pid_inv (lo hi : float) (c : PIDController) : Prop := {
  pi_min : m_outputMin c = lo;
  pi_max : m_outputMax c = hi;
  pi_last : m_lastOutput c = f_zero \/ within lo hi (m_lastOutput c);
}.

Lemma pid_compute_inv lo hi sp pv t c :
  f_le lo hi = true -> pid_inv lo hi c ->
  let '(out, c') := pid_compute sp pv t c in
  pid_inv lo hi c' /\ (out = f_zero \/ within lo hi out).
Proof.
  intros Hle [<- <- Hl]. unfold pid_compute.
  destruct (m_firstSample c); [by split; [split|left]|].
  case_decide; [by split; [split|]|].
  match goal with |- context [sput_max ?a (sput_min ?b ?x)] => pose proof (clamp_within a b x Hle) end.
  split; [split; auto|auto].
Qed.

(** ** Properties *)

(** Whatever it is fed (any floats, NaN and infinities included, any timestamps), the
    controller only ever answers 0 or a value inside its output limits. *)
Theorem pid_output_clamped (lo hi kp ki kd : float) (samples : list (float * float * Z)) :
  f_le lo hi = true ->
  Forall (fun out => out = f_zero \/ within lo hi out) (pid_run samples (new_pid kp ki kd lo hi)).1.
Proof.
  intros Hle. assert (Hi : pid_inv lo hi (new_pid kp ki kd lo hi)) by (split; auto).
  revert Hi. generalize (new_pid kp ki kd lo hi). induction samples as [|[[sp pv] t] ss IH]; intros c Hi.
  { constructor. }
  simpl. pose proof (pid_compute_inv lo hi sp pv t c Hle Hi) as H.
  destruct (pid_compute sp pv t c) as [out c1]. destruct H as [Hi1 Hout].
  specialize (IH c1 Hi1). destruct (pid_run ss c1) as [outs c2]. by constructor.
Qed.

Lemma pid_output_clamped_witness :
  Forall (fun out => out = f_zero \/ within (f_of_Z (-1)) (f_of_Z 1) out)
    (pid_run [(f_one, f_zero, 5%Z); (f_of_Z 9, f_zero, 1000005%Z)]
      (new_pid f_one f_one f_zero (f_of_Z (-1)) (f_of_Z 1))).1.
Proof. apply pid_output_clamped. reflexivity. Defined.

(** The controller has taken a NaN into its integral. *)
Definition poisoned (c : PIDController) : Prop := m_firstSample c = false /\ m_integral c = S754_nan.

Lemma pid_nan_measurement sp t c :
  m_firstSample c = false -> u64 (t - m_lastTimestamp c) <> 0%Z ->
  let '(out, c') := pid_compute sp S754_nan t c in
  out = sput_max (m_outputMin c) (m_outputMax c) /\ poisoned c' /\
  m_outputMin c' = m_outputMin c /\ m_outputMax c' = m_outputMax c.
Proof.
  intros Hf Ht. unfold pid_compute. rewrite Hf, decide_False by done.
  autorewrite with sput_nan. unfold f_ge, f_le, SFleb. autorewrite with sput_nan. simpl.
  autorewrite with sput_nan. by rewrite clamp_nan.
Qed.

Lemma pid_poisoned sp pv t c :
  poisoned c -> u64 (t - m_lastTimestamp c) <> 0%Z ->
  let '(out, c') := pid_compute sp pv t c in
  out = sput_max (m_outputMin c) (m_outputMax c) /\ poisoned c' /\
  m_outputMin c' = m_outputMin c /\ m_outputMax c' = m_outputMax c /\ m_lastTimestamp c' = t.
Proof.
  intros [Hf Hn] Ht. unfold pid_compute. rewrite Hf, Hn, decide_False by done.
  autorewrite with sput_nan. unfold f_ge, f_le, SFleb. autorewrite with sput_nan. simpl.
  autorewrite with sput_nan. rewrite clamp_nan. done.
Qed.

(** One NaN measurement drives the output to its upper limit and keeps it there: the
    integral is NaN from then on, so that every later sample with a new timestamp, however
    valid, also answers the upper limit, until [reset] is called. *)
Theorem pid_nan_latches (c : PIDController) (sp : float) (t : Z) (later : list (float * float * Z)) :
  m_firstSample c = false -> u64 (t - m_lastTimestamp c) <> 0%Z ->
  f_lt (m_outputMin c) (m_outputMax c) = true ->
  (forall i a b s, later !! i = Some s -> (t :: later.*2) !! i = Some a -> s.2 = b ->
    u64 (b - a) <> 0%Z) ->
  (pid_run ((sp, S754_nan, t) :: later) c).1 = replicate (S (length later)) (m_outputMax c).
Proof.
  intros Hf Ht Hlt Hlater. simpl.
  pose proof (pid_nan_measurement sp t c Hf Ht) as H.
  assert (Hts : m_lastTimestamp (pid_compute sp S754_nan t c).2 = t).
  { unfold pid_compute. by rewrite Hf, decide_False by done. }
  destruct (pid_compute sp S754_nan t c) as [out c1]. destruct H as (-> & Hp & Hlo & Hhi).
  simpl in Hts. assert (Hmax : sput_max (m_outputMin c) (m_outputMax c) = m_outputMax c)
    by (unfold sput_max; by rewrite Hlt).
  enough (Hrest : (pid_run later c1).1 = replicate (length later) (m_outputMax c)).
  { destruct (pid_run later c1) as [outs c2]. simpl in *. by rewrite Hmax, Hrest. }
  clear Ht Hf. revert c1 t Hts Hp Hlo Hhi Hlater.
  induction later as [|[[sp' pv'] t'] later IH]; intros c1 t Hts Hp Hlo Hhi Hlater; [done|].
  assert (Ht' : u64 (t' - m_lastTimestamp c1) <> 0%Z) by (rewrite Hts; by apply (Hlater 0 _ _ _ eq_refl)).
  pose proof (pid_poisoned sp' pv' t' c1 Hp Ht') as H. simpl.
  destruct (pid_compute sp' pv' t' c1) as [out c2]. destruct H as (-> & Hp2 & Hlo2 & Hhi2 & Hts2).
  specialize (IH c2 t' Hts2 Hp2 ltac:(congruence) ltac:(congruence)).
  destruct (pid_run later c2) as [outs c3]. simpl in *. rewrite Hlo, Hhi, Hmax. f_equal. apply IH.
  intros i a b s Hi Ha Hb. by apply (Hlater (S i) a b s).
Qed.

Lemma pid_nan_latches_witness :
  (pid_run [(f_one, S754_nan, 20); (f_one, f_one, 30)]%Z
    (Pid f_one f_one f_zero f_zero f_one f_zero f_zero f_zero 10 false)).1 = [f_one; f_one].
Proof.
  apply (pid_nan_latches (Pid f_one f_one f_zero f_zero f_one f_zero f_zero f_zero 10 false)
    f_one 20 [(f_one, f_one, 30%Z)]).
  - reflexivity.
  - vm_compute. discriminate.
  - reflexivity.
  - intros [|i] a b s Hi Ha Hb; simpl in *; simplify_eq; vm_compute; discriminate.
Defined.
