(* ===== verification/Metrics.v ===== *)
(** * Time and metrics

    [osal/SputterTime.h], [kernel/metrics/TaskTimer.h], [DeadlineTracker.h],
    [CoreUtilizationTracker.h], [SchedulerHealthMetrics.h], [utils/QueueDepthMonitor.h],
    [utils/NonBlockingStopwatch.h] and [utils/MemoryProfiler.h]. Timestamps are 64-bit
    words; counters wrap at the width of their type. A clock read is an argument: the
    value the platform's [MicrosecondSource] answers. *)

From S2P Require Import Prelude Float32.
#[local] Open Scope Z_scope.

(** [std::numeric_limits<SputterMicros>::max()] *)
Definition kMaxMicros : Z := 2 ^ 64 - 1.
Definition kDefaultWindowUs : Z := 60000000.

(** ** The system timer ([SputterTime.h]) *)

(** [m_source] is kept as whether it is set. *)
Record SystemTimer := SysTimer {
  st_source : bool;
  st_epoch : Z;
}.

Definition new_system_timer : SystemTimer := SysTimer false 0.

(** [clock] is what [src()] answers. *)
Definition st_setClockSource (src : bool) (clock : Z) : SystemTimer :=
  SysTimer src (if src then clock else 0).

Definition hasClockSource (t : SystemTimer) : bool := st_source t.

Definition nowMicros (t : SystemTimer) (clock : Z) : Z :=
  if st_source t then u64 (clock - st_epoch t) else 0.

Definition toMicroseconds (us : Z) : float := d_of_Z us.
Definition toMilliseconds (us : Z) : float := d_div (d_of_Z us) (d_of_Z 1000).
Definition toSeconds (us : Z) : float := d_div (d_of_Z us) (d_of_Z 1000000).

Definition microseconds (t : SystemTimer) (clock : Z) : float := toMicroseconds (nowMicros t clock).
Definition milliseconds (t : SystemTimer) (clock : Z) : float := toMilliseconds (nowMicros t clock).
Definition seconds (t : SystemTimer) (clock : Z) : float := toSeconds (nowMicros t clock).

Example half_a_second : toSeconds 500000 = S754_finite false 4503599627370496 (-53).
Proof. vm_compute. reflexivity. Qed.

(** ** Task timers ([TaskTimer.h]) *)

Definition kHistogramBuckets : nat := 8.
Definition kHistogramBucketWidthUs : Z := 512.

(** The accumulators of the window in progress. *)
Record window := Window {
  w_min : Z; w_max : Z; w_sum : Z; w_samples : Z; w_overruns : Z; w_misses : Z;
  w_hist : list Z;
}.

(** The figures of the last complete window. *)
Record report := Report {
  r_samples : Z; r_min : Z; r_max : Z; r_avg : float; r_overruns : Z; r_misses : Z;
  r_hist : list Z;
}.

Record TaskTimer := Timer {
  tt_clocked : bool;
  tt_last : Z;
  tt_start : Z;
  tt_win : window;
  tt_windowUs : Z;
  tt_windowStart : Z;
  tt_rep : report;
}.

Definition empty_window : window := Window kMaxMicros 0 0 0 0 0 (replicate kHistogramBuckets 0).
Definition empty_report : report := Report 0 kMaxMicros 0 f_zero 0 0 (replicate kHistogramBuckets 0).
Definition new_timer : TaskTimer := Timer false 0 0 empty_window kDefaultWindowUs 0 empty_report.

Definition set_window (w : window) (t : TaskTimer) : TaskTimer :=
  Timer (tt_clocked t) (tt_last t) (tt_start t) w (tt_windowUs t) (tt_windowStart t) (tt_rep t).

Definition setClockSource (src : bool) (t : TaskTimer) : TaskTimer :=
  Timer src (tt_last t) (tt_start t) (tt_win t) (tt_windowUs t) (tt_windowStart t) (tt_rep t).

Definition setMetricsWindowUs (windowUs : Z) (t : TaskTimer) : TaskTimer :=
  Timer (tt_clocked t) (tt_last t) (tt_start t) (tt_win t) windowUs (tt_windowStart t) (tt_rep t).

Definition start (clock : Z) (t : TaskTimer) : TaskTimer :=
  Timer (tt_clocked t) (tt_last t) (if tt_clocked t then clock else 0) (tt_win t)
    (tt_windowUs t) (tt_windowStart t) (tt_rep t).

Definition average (sum count : Z) : float :=
  if decide (0 < count) then f_div (f_of_Z sum) (f_of_Z count) else f_zero.

Definition rotateWindow (now : Z) (t : TaskTimer) : TaskTimer :=
  let w := tt_win t in
  Timer (tt_clocked t) (tt_last t) (tt_start t) empty_window (tt_windowUs t) now
    (Report (w_samples w) (w_min w) (w_max w) (average (w_sum w) (w_samples w))
       (w_overruns w) (w_misses w) (w_hist w)).

(** The bucket a duration falls into. *)
Definition bucket_of (elapsed : Z) : nat :=
  let bucket := Z.to_nat (elapsed / kHistogramBucketWidthUs) in
  if decide (kHistogramBuckets <= bucket)%nat then (kHistogramBuckets - 1)%nat else bucket.

Definition incr_at (i : nat) (h : list Z) : option (list Z) :=
  v ← load h i; store h i (u32 (v + 1)).

(** The statistics half of [stop]: one more sample in the window. *)
Definition add_sample (elapsed : Z) (w : window) : option window :=
  h ← incr_at (bucket_of elapsed) (w_hist w);
  Some (Window (if decide (elapsed < w_min w) then elapsed else w_min w)
               (if decide (w_max w < elapsed) then elapsed else w_max w)
               (u64 (w_sum w + elapsed)) (u32 (w_samples w + 1))
               (w_overruns w) (w_misses w) h).

Definition stop (clock : Z) (t : TaskTimer) : option TaskTimer :=
  let now := if tt_clocked t then clock else 0 in
  let elapsed := if decide (tt_start t <= now) then now - tt_start t else 0 in
  w ← add_sample elapsed (tt_win t);
  let t := Timer (tt_clocked t) elapsed (tt_start t) w (tt_windowUs t) (tt_windowStart t) (tt_rep t) in
  Some (if decide (0 < tt_windowUs t /\ tt_windowStart t <= now /\
                   tt_windowUs t <= now - tt_windowStart t)
        then rotateWindow now t else t).

Definition lastDuration (t : TaskTimer) : Z := tt_last t.

(** The getters answer from the last complete window once there is one. *)
Definition reported (t : TaskTimer) : bool := bool_decide (0 < r_samples (tt_rep t)).

Definition minDuration (t : TaskTimer) : Z :=
  if reported t then r_min (tt_rep t) else w_min (tt_win t).
Definition maxDuration (t : TaskTimer) : Z :=
  if reported t then r_max (tt_rep t) else w_max (tt_win t).
Definition getAverageDurationUs (t : TaskTimer) : float :=
  if reported t then r_avg (tt_rep t)
  else if decide (w_samples (tt_win t) = 0) then f_zero
  else f_div (f_of_Z (w_sum (tt_win t))) (f_of_Z (w_samples (tt_win t))).
Definition sampleCount (t : TaskTimer) : Z :=
  if reported t then r_samples (tt_rep t) else w_samples (tt_win t).
Definition overrunCount (t : TaskTimer) : Z :=
  if reported t then r_overruns (tt_rep t) else w_overruns (tt_win t).
Definition deadlineMissCount (t : TaskTimer) : Z :=
  if reported t then r_misses (tt_rep t) else w_misses (tt_win t).
Definition histogram (t : TaskTimer) : list Z :=
  if reported t then r_hist (tt_rep t) else w_hist (tt_win t).

Definition isOverBudget (budgetUs : Z) (t : TaskTimer) : bool := bool_decide (budgetUs < tt_last t).

Definition recordOverrun (t : TaskTimer) : TaskTimer :=
  let w := tt_win t in
  set_window (Window (w_min w) (w_max w) (w_sum w) (w_samples w) (u32 (w_overruns w + 1))
                (w_misses w) (w_hist w)) t.

Definition recordDeadlineMiss (t : TaskTimer) : TaskTimer :=
  let w := tt_win t in
  set_window (Window (w_min w) (w_max w) (w_sum w) (w_samples w) (w_overruns w)
                (u32 (w_misses w + 1)) (w_hist w)) t.

Definition timer_reset (t : TaskTimer) : TaskTimer :=
  Timer (tt_clocked t) 0 (tt_start t) empty_window (tt_windowUs t) 0 empty_report.

(** The bucket walk of [percentileUs]; [i] is the bucket index. *)
Fixpoint percentile_walk (hist : list Z) (i : nat) (cumulative : Z) (targetRank : float) (maxDur : Z)
    : option Z :=
  match hist with
  | [] => Some maxDur
  | h :: hist =>
      let cumulative := u32 (cumulative + h) in
      if f_ge (f_of_Z cumulative) targetRank then
        let prevCumulative := u32 (cumulative - h) in
        let fraction := if decide (0 < h)
          then f_div (f_sub targetRank (f_of_Z prevCumulative)) (f_of_Z h) else f_zero in
        let bucketLow := Z.of_nat i * kHistogramBucketWidthUs in
        let bucketHigh := if decide (i < kHistogramBuckets - 1)%nat
          then (Z.of_nat i + 1) * kHistogramBucketWidthUs else maxDur in
        let bucketHigh := if decide (bucketHigh < bucketLow) then bucketLow else bucketHigh in
        off ← f_to_u64 (f_mul fraction (f_of_Z (bucketHigh - bucketLow)));
        Some (u64 (bucketLow + off))
      else percentile_walk hist (S i) cumulative targetRank maxDur
  end.

Definition percentileUs (p : float) (t : TaskTimer) : option Z :=
  let samples := sampleCount t in
  let maxDur := maxDuration t in
  if decide (samples = 0) then Some 0
  else if f_le p f_zero then Some 0
  else if f_ge p f_one then Some maxDur
  else percentile_walk (histogram t) 0 0 (f_mul p (f_of_Z samples)) maxDur.

(** ** Deadlines ([DeadlineTracker.h]) *)

Record DeadlineTracker := Deadline {
  nextActivation : Z;
  dl_periodUs : Z;
  phaseOffsetUs : Z;
}.

Definition dl_init (startTime : Z) (d : DeadlineTracker) : DeadlineTracker :=
  Deadline (u64 (startTime + phaseOffsetUs d)) (dl_periodUs d) (phaseOffsetUs d).

Definition isDue (now : Z) (d : DeadlineTracker) : bool := bool_decide (nextActivation d <= now).

(** The loop of [advance]; [None] when the fuel runs out. *)
Fixpoint advance_loop (fuel : nat) (next period now : Z) : option Z :=
  match fuel with
  | O => None
  | S fuel => if decide (next <= now) then advance_loop fuel (u64 (next + period)) period now
              else Some next
  end.

Definition advance (fuel : nat) (now : Z) (d : DeadlineTracker) : option DeadlineTracker :=
  next ← advance_loop fuel (u64 (nextActivation d + dl_periodUs d)) (dl_periodUs d) now;
  Some (Deadline next (dl_periodUs d) (phaseOffsetUs d)).

Definition timeUntilNext (now : Z) (d : DeadlineTracker) : Z :=
  if decide (now < nextActivation d) then nextActivation d - now else 0.

(** ** Core utilization ([CoreUtilizationTracker.h]) *)

Definition kWindowTicks : Z := 1000.

Record CoreUtilizationTracker := CoreUtil {
  cu_tickStart : Z;
  cu_busyUs : Z; cu_totalUs : Z; cu_tickCount : Z;
  cu_reportedBusyUs : Z; cu_reportedTotalUs : Z; cu_reportedTicks : Z;
}.

Definition cu_reset : CoreUtilizationTracker := CoreUtil 0 0 0 0 0 0 0.

Definition recordTickStart (now : Z) (u : CoreUtilizationTracker) : CoreUtilizationTracker :=
  CoreUtil now (cu_busyUs u) (cu_totalUs u) (cu_tickCount u)
    (cu_reportedBusyUs u) (cu_reportedTotalUs u) (cu_reportedTicks u).

Definition recordTickEnd (now busyDuration : Z) (u : CoreUtilizationTracker) : CoreUtilizationTracker :=
  let wallTime := if decide (cu_tickStart u <= now) then now - cu_tickStart u else 0 in
  let busy := u64 (cu_busyUs u + busyDuration) in
  let total := u64 (cu_totalUs u + wallTime) in
  let ticks := u32 (cu_tickCount u + 1) in
  if decide (kWindowTicks <= ticks) then CoreUtil (cu_tickStart u) 0 0 0 busy total ticks
  else CoreUtil (cu_tickStart u) busy total ticks
         (cu_reportedBusyUs u) (cu_reportedTotalUs u) (cu_reportedTicks u).

Definition cu_reported (u : CoreUtilizationTracker) : bool := bool_decide (0 < cu_reportedTotalUs u).
Definition getBusyUs (u : CoreUtilizationTracker) : Z :=
  if cu_reported u then cu_reportedBusyUs u else cu_busyUs u.
Definition getWindowUs (u : CoreUtilizationTracker) : Z :=
  if cu_reported u then cu_reportedTotalUs u else cu_totalUs u.
Definition getTickCount (u : CoreUtilizationTracker) : Z :=
  if cu_reported u then cu_reportedTicks u else cu_tickCount u.
Definition getUtilization (u : CoreUtilizationTracker) : float :=
  if decide (getWindowUs u = 0) then f_zero
  else f_div (f_of_Z (getBusyUs u)) (f_of_Z (getWindowUs u)).

(** ** Scheduler health ([SchedulerHealthMetrics.h]) *)

Record SchedulerHealthMetrics := Health {
  sh_totalGapUs : Z; sh_maxGapUs : Z; sh_tickCount : Z;
  sh_totalOverruns : Z; sh_totalDeadlineMisses : Z;
  sh_windowUs : Z; sh_windowStartUs : Z;
  sh_reportedTotalGapUs : Z; sh_reportedMaxGapUs : Z; sh_reportedAvgGapUs : float;
  sh_reportedTickCount : Z;
}.

Definition new_health : SchedulerHealthMetrics := Health 0 0 0 0 0 kDefaultWindowUs 0 0 0 f_zero 0.

Definition sh_setMetricsWindowUs (windowUs : Z) (h : SchedulerHealthMetrics) : SchedulerHealthMetrics :=
  Health (sh_totalGapUs h) (sh_maxGapUs h) (sh_tickCount h) (sh_totalOverruns h)
    (sh_totalDeadlineMisses h) windowUs (sh_windowStartUs h) (sh_reportedTotalGapUs h)
    (sh_reportedMaxGapUs h) (sh_reportedAvgGapUs h) (sh_reportedTickCount h).

Definition sh_rotateWindow (nowUs : Z) (h : SchedulerHealthMetrics) : SchedulerHealthMetrics :=
  Health 0 0 0 (sh_totalOverruns h) (sh_totalDeadlineMisses h) (sh_windowUs h) nowUs
    (sh_totalGapUs h) (sh_maxGapUs h) (average (sh_totalGapUs h) (sh_tickCount h)) (sh_tickCount h).

Definition recordGap (gapUs nowUs : Z) (h : SchedulerHealthMetrics) : SchedulerHealthMetrics :=
  let h := Health (u64 (sh_totalGapUs h + gapUs))
    (if decide (sh_maxGapUs h < gapUs) then gapUs else sh_maxGapUs h)
    (u32 (sh_tickCount h + 1)) (sh_totalOverruns h) (sh_totalDeadlineMisses h)
    (sh_windowUs h) (sh_windowStartUs h) (sh_reportedTotalGapUs h) (sh_reportedMaxGapUs h)
    (sh_reportedAvgGapUs h) (sh_reportedTickCount h) in
  if decide (0 < sh_windowUs h /\ sh_windowStartUs h <= nowUs /\
             sh_windowUs h <= nowUs - sh_windowStartUs h)
  then sh_rotateWindow nowUs h else h.

Definition setAggregates (overruns misses : Z) (h : SchedulerHealthMetrics) : SchedulerHealthMetrics :=
  Health (sh_totalGapUs h) (sh_maxGapUs h) (sh_tickCount h) overruns misses (sh_windowUs h)
    (sh_windowStartUs h) (sh_reportedTotalGapUs h) (sh_reportedMaxGapUs h)
    (sh_reportedAvgGapUs h) (sh_reportedTickCount h).

Definition sh_reported (h : SchedulerHealthMetrics) : bool := bool_decide (0 < sh_reportedTickCount h).
Definition totalGapUs (h : SchedulerHealthMetrics) : Z :=
  if sh_reported h then sh_reportedTotalGapUs h else sh_totalGapUs h.
Definition maxGapUs (h : SchedulerHealthMetrics) : Z :=
  if sh_reported h then sh_reportedMaxGapUs h else sh_maxGapUs h.
Definition averageGapUs (h : SchedulerHealthMetrics) : float :=
  if sh_reported h then sh_reportedAvgGapUs h
  else if decide (sh_tickCount h = 0) then f_zero
  else f_div (f_of_Z (sh_totalGapUs h)) (f_of_Z (sh_tickCount h)).
Definition sh_tickCountReported (h : SchedulerHealthMetrics) : Z :=
  if sh_reported h then sh_reportedTickCount h else sh_tickCount h.

Definition sh_reset (h : SchedulerHealthMetrics) : SchedulerHealthMetrics :=
  Health 0 0 0 0 0 (sh_windowUs h) 0 0 0 f_zero 0.

(** ** Queue depth ([QueueDepthMonitor.h]) *)

Record QueueDepthMonitor := Depth {
  qd_lastDepth : Z; qd_maxDepth : Z; qd_sumDepth : Z; qd_sampleCount : Z;
  qd_windowUs : Z; qd_windowStartUs : Z;
  qd_reportedMaxDepth : Z; qd_reportedAvgDepth : float; qd_reportedSampleCount : Z;
}.

Definition new_depth : QueueDepthMonitor := Depth 0 0 0 0 kDefaultWindowUs 0 0 f_zero 0.

Definition qd_setMetricsWindowUs (windowUs : Z) (m : QueueDepthMonitor) : QueueDepthMonitor :=
  Depth (qd_lastDepth m) (qd_maxDepth m) (qd_sumDepth m) (qd_sampleCount m) windowUs
    (qd_windowStartUs m) (qd_reportedMaxDepth m) (qd_reportedAvgDepth m) (qd_reportedSampleCount m).

Definition qd_rotateWindow (nowUs : Z) (m : QueueDepthMonitor) : QueueDepthMonitor :=
  Depth (qd_lastDepth m) 0 0 0 (qd_windowUs m) nowUs
    (qd_maxDepth m) (average (qd_sumDepth m) (qd_sampleCount m)) (qd_sampleCount m).

Definition sample (currentDepth nowUs : Z) (m : QueueDepthMonitor) : QueueDepthMonitor :=
  let m := Depth currentDepth
    (if decide (qd_maxDepth m < currentDepth) then currentDepth else qd_maxDepth m)
    (u64 (qd_sumDepth m + currentDepth)) (u32 (qd_sampleCount m + 1))
    (qd_windowUs m) (qd_windowStartUs m) (qd_reportedMaxDepth m) (qd_reportedAvgDepth m)
    (qd_reportedSampleCount m) in
  if decide (0 < qd_windowUs m /\ qd_windowStartUs m <= nowUs /\
             qd_windowUs m <= nowUs - qd_windowStartUs m)
  then qd_rotateWindow nowUs m else m.

Definition qd_reported (m : QueueDepthMonitor) : bool := bool_decide (0 < qd_reportedSampleCount m).
Definition lastDepth (m : QueueDepthMonitor) : Z := qd_lastDepth m.
Definition maxDepth (m : QueueDepthMonitor) : Z :=
  if qd_reported m then qd_reportedMaxDepth m else qd_maxDepth m.
Definition averageDepth (m : QueueDepthMonitor) : float :=
  if qd_reported m then qd_reportedAvgDepth m
  else if decide (qd_sampleCount m = 0) then f_zero
  else f_div (f_of_Z (qd_sumDepth m)) (f_of_Z (qd_sampleCount m)).
Definition qd_sampleCountReported (m : QueueDepthMonitor) : Z :=
  if qd_reported m then qd_reportedSampleCount m else qd_sampleCount m.

Definition qd_reset (m : QueueDepthMonitor) : QueueDepthMonitor :=
  Depth 0 0 0 0 (qd_windowUs m) 0 0 f_zero 0.

(** ** The stopwatch ([NonBlockingStopwatch.h], [.cpp]) *)

Record NonBlockingStopwatch := Stopwatch {
  sw_startTime : Z;
  sw_running : bool;
}.

Definition sw_start (currentTime : Z) : NonBlockingStopwatch := Stopwatch currentTime true.
Definition sw_stop (s : NonBlockingStopwatch) : NonBlockingStopwatch := Stopwatch (sw_startTime s) false.
Definition sw_reset : NonBlockingStopwatch := Stopwatch 0 false.
Definition elapsed (currentTime : Z) (s : NonBlockingStopwatch) : Z :=
  if sw_running s then u64 (currentTime - sw_startTime s) else 0.
Definition hasExpired (currentTime duration : Z) (s : NonBlockingStopwatch) : bool :=
  sw_running s && bool_decide (duration <= elapsed currentTime s).

(** ** The memory profiler ([MemoryProfiler.h], [.cpp]) *)

Record MemoryProfiler := MemProf {
  mp_baselineFreeBytes : Z;
  mp_peakUsedBytes : Z;
}.

(** The portable core answers 0 to both queries. *)
Definition getFreeHeapBytes : Z := 0.
Definition getStackHighWaterMark : Z := 0.

Definition new_profiler : MemoryProfiler := MemProf getFreeHeapBytes 0.
Definition mp_update (m : MemoryProfiler) : MemoryProfiler :=
  let freeNow := getFreeHeapBytes in
  let usedNow := if decide (freeNow <= mp_baselineFreeBytes m)
    then mp_baselineFreeBytes m - freeNow else 0 in
  MemProf (mp_baselineFreeBytes m)
    (if decide (mp_peakUsedBytes m < usedNow) then usedNow else mp_peakUsedBytes m).
Definition getPeakHeapUsedBytes (m : MemoryProfiler) : Z := mp_peakUsedBytes m.
#[global] Arguments bucket_of : simpl never.
#[global] Arguments empty_window : simpl never.
#[global] Arguments empty_report : simpl never.

(** ** The uptime *)

(** Up to 2^53 microseconds (285 years) the uptime is exact as a [double], also when the
    platform's clock has wrapped since it was given. *)
Lemma uptime_exact c0 us :
  in_word 64 c0 -> 0 <= us < 2 ^ 53 ->
  f_trunc (microseconds (st_setClockSource true c0) (u64 (c0 + us))) = Some us.
Proof.
  intros Hc Hus. unfold microseconds, toMicroseconds, nowMicros. cbn [st_source st_epoch st_setClockSource].
  replace (u64 (u64 (c0 + us) - c0)) with us; [by apply d_of_Z_exact|].
  unfold wrap. rewrite Zminus_mod_idemp_l, Z.add_simpl_l. symmetry. apply Z.mod_small. lia.
Qed.

(** ** What a timer accumulates *)

Lemma bucket_of_lt d : (bucket_of d < kHistogramBuckets)%nat.
Proof. unfold bucket_of, kHistogramBuckets. case_decide; lia. Qed.

(** Bucket [i] is the range [512 * i, 512 * (i + 1)), the last one open above. *)
Lemma bucket_of_range d :
  0 <= d ->
  let i := Z.of_nat (bucket_of d) in
  512 * i <= d /\ (d < 512 * (i + 1) \/ i = 7).
Proof.
  intros Hd. unfold bucket_of, kHistogramBuckets, kHistogramBucketWidthUs. cbv zeta.
  assert (0 <= d / 512) by (apply Z.div_pos; lia).
  pose proof (Z.div_mod d 512 ltac:(lia)). pose proof (Z.mod_pos_bound d 512 ltac:(lia)).
  case_decide; lia.
Qed.

Definition in_bucket (i : nat) (ds : list Z) : Z :=
  Z.of_nat (length (filter (fun d => bucket_of d = i) ds)).

Definition sum_durations : list Z -> Z := foldr Z.add 0.

(** The window that durations [ds] (newest first), [ov] overruns and [mi] misses make. *)
Definition summary (ds : list Z) (ov mi : Z) : window :=
  Window (foldr Z.min kMaxMicros ds) (foldr Z.max 0 ds) (sum_durations ds)
    (Z.of_nat (length ds)) ov mi ((fun i => in_bucket i ds) <$> seq 0 kHistogramBuckets).

Lemma in_bucket_cons d ds i :
  in_bucket i (d :: ds) = if decide (bucket_of d = i) then in_bucket i ds + 1 else in_bucket i ds.
Proof. unfold in_bucket. rewrite filter_cons. case_decide; simpl length; lia. Qed.

Lemma in_bucket_bound i ds : 0 <= in_bucket i ds <= Z.of_nat (length ds).
Proof. unfold in_bucket. pose proof (length_filter (fun d => bucket_of d = i) ds). lia. Qed.

Lemma histogram_lookup ds i :
  (i < kHistogramBuckets)%nat ->
  ((fun i => in_bucket i ds) <$> seq 0 kHistogramBuckets) !! i = Some (in_bucket i ds).
Proof. intros Hi. by rewrite list_lookup_fmap, lookup_seq_lt. Qed.

Lemma incr_histogram d ds :
  Z.of_nat (length ds) + 1 < 2 ^ 32 ->
  incr_at (bucket_of d) ((fun i => in_bucket i ds) <$> seq 0 kHistogramBuckets) =
    Some ((fun i => in_bucket i (d :: ds)) <$> seq 0 kHistogramBuckets).
Proof.
  intros Hlen. pose proof (bucket_of_lt d) as Hb. unfold incr_at, load.
  pose proof (histogram_lookup ds) as Hlk. pose proof (histogram_lookup (d :: ds)) as Hlk'.
  assert (Hl : forall ds, length ((fun i => in_bucket i ds) <$> seq 0 kHistogramBuckets) = kHistogramBuckets)
    by (intros; by rewrite length_fmap, length_seq).
  pose proof (Hl ds) as Hl0. pose proof (Hl (d :: ds)) as Hl1. clear Hl.
  generalize dependent ((fun i => in_bucket i ds) <$> seq 0 kHistogramBuckets). intros h0 Hlk Hl0.
  generalize dependent ((fun i => in_bucket i (d :: ds)) <$> seq 0 kHistogramBuckets). intros h1 Hlk' Hl1.
  rewrite Hlk by done. cbn [mbind option_bind]. rewrite store_ok by lia.
  f_equal. apply list_eq. intros i. pose proof (in_bucket_bound (bucket_of d) ds).
  destruct (decide (i < kHistogramBuckets)%nat) as [Hi|Hi].
  - rewrite Hlk', in_bucket_cons by done. case_decide as He.
    + subst i. rewrite list_lookup_insert_eq by lia.
      f_equal. apply wrap_id. unfold in_word. lia.
    + rewrite list_lookup_insert_ne by done. by apply Hlk.
  - rewrite !lookup_ge_None_2; rewrite ?length_insert; (done || lia).
Qed.

Lemma add_sample_summary d ds ov mi :
  Z.of_nat (length ds) + 1 < 2 ^ 32 -> 0 <= d -> 0 <= sum_durations ds ->
  sum_durations ds + d < 2 ^ 64 ->
  add_sample d (summary ds ov mi) = Some (summary (d :: ds) ov mi).
Proof.
  intros Hn Hd Hs Hsum. unfold add_sample. cbn [summary w_hist w_min w_max w_sum w_samples w_overruns w_misses].
  rewrite incr_histogram by done. cbn [mbind option_bind]. unfold summary. f_equal.
  cbn [foldr length sum_durations]. f_equal.
  - case_decide; lia.
  - case_decide; lia.
  - unfold wrap. rewrite Z.mod_small by lia. unfold sum_durations. cbn [foldr]. lia.
  - unfold wrap. rewrite Z.mod_small by lia. lia.
Qed.

(** What happens to a timer between two of its getters being called. *)
Inductive timer_event :=
  | Sampled (t0 t1 : Z)
  | Overran
  | Missed.

Definition timer_step (e : timer_event) (t : TaskTimer) : option TaskTimer :=
  match e with
  | Sampled t0 t1 => stop t1 (start t0 t)
  | Overran => Some (recordOverrun t)
  | Missed => Some (recordDeadlineMiss t)
  end.

Fixpoint timer_steps (es : list timer_event) (t : TaskTimer) : option TaskTimer :=
  match es with
  | [] => Some t
  | e :: es => t ← timer_step e t; timer_steps es t
  end.

(** The reference: the durations of the current window and of the last complete one. *)
Record history := Hist {
  h_cur : list Z * Z * Z;
  h_start : Z;
  h_rep : option (list Z * Z * Z);
  h_last : Z;
}.

Definition history_step (windowUs : Z) (e : timer_event) (h : history) : history :=
  let '(ds, ov, mi) := h_cur h in
  match e with
  | Overran => Hist (ds, ov + 1, mi) (h_start h) (h_rep h) (h_last h)
  | Missed => Hist (ds, ov, mi + 1) (h_start h) (h_rep h) (h_last h)
  | Sampled t0 t1 =>
      let d := Z.max 0 (t1 - t0) in
      if decide (0 < windowUs /\ h_start h <= t1 /\ windowUs <= t1 - h_start h)
      then Hist ([], 0, 0) t1 (Some (d :: ds, ov, mi)) d
      else Hist (d :: ds, ov, mi) (h_start h) (h_rep h) d
  end.

Definition report_of (r : list Z * Z * Z) : report :=
  let '(ds, ov, mi) := r in
  let w := summary ds ov mi in
  Report (w_samples w) (w_min w) (w_max w) (average (w_sum w) (w_samples w)) ov mi (w_hist w).

(** The timer shows the history, whose figures are in the range [n] steps allow. *)
Record timer_rep (n : Z) (windowUs : Z) (h : history) (t : TaskTimer) : Prop := {
  tr_clocked : tt_clocked t = true;
  tr_windowUs : tt_windowUs t = windowUs;
  tr_start : tt_windowStart t = h_start h;
  tr_last : tt_last t = h_last h;
  tr_win : tt_win t = summary (h_cur h).1.1 (h_cur h).1.2 (h_cur h).2;
  tr_rep : tt_rep t = match h_rep h with Some r => report_of r | None => empty_report end;
  tr_range : Z.of_nat (length (h_cur h).1.1) <= n /\ 0 <= (h_cur h).1.2 <= n /\ 0 <= (h_cur h).2 <= n;
  tr_sum : 0 <= sum_durations (h_cur h).1.1 <= n * 2 ^ 32;
}.

(** No event of a run lasts 2^32 microseconds (71 minutes) or more. *)
Definition event_ok (e : timer_event) : Prop :=
  match e with Sampled t0 t1 => t1 - t0 < 2 ^ 32 | _ => True end.

Lemma summary_nil : summary [] 0 0 = empty_window.
Proof. reflexivity. Qed.

Lemma new_timer_rep windowUs :
  timer_rep 0 windowUs (Hist ([], 0, 0) 0 None 0) (setMetricsWindowUs windowUs (setClockSource true new_timer)).
Proof. split; simpl; try done; lia. Qed.

Lemma timer_step_rep n windowUs h t e :
  timer_rep n windowUs h t -> event_ok e -> 0 <= n -> n + 1 < 2 ^ 32 ->
  exists t', timer_step e t = Some t' /\ timer_rep (n + 1) windowUs (history_step windowUs e h) t'.
Proof.
  intros [Hc Hw Hst Hl Hwin Hrep Hr Hs] He Hn0 Hn. destruct h as [[[ds ov] mi] hs hr hl].
  simpl in *. destruct e as [t0 t1| |]; simpl.
  - unfold stop, start. cbn [tt_clocked tt_start tt_win tt_windowUs tt_windowStart tt_rep]. rewrite Hc.
    assert (Hd : (if decide (t0 <= t1) then t1 - t0 else 0) = Z.max 0 (t1 - t0)) by (case_decide; lia).
    unfold event_ok in He. rewrite Hd, Hwin, add_sample_summary by lia. cbn [mbind option_bind].
    rewrite Hw, Hst. clear Hd. unfold history_step. cbn [h_cur h_start].
    case_decide as Hrot; eexists; (split; [done|]); split; simpl; auto; try lia.
  - eexists. split; [done|]. split; simpl; auto; try lia. rewrite Hwin. unfold summary. simpl.
    unfold wrap. by rewrite Z.mod_small by lia.
  - eexists. split; [done|]. split; simpl; auto; try lia. rewrite Hwin. unfold summary. simpl.
    unfold wrap. by rewrite Z.mod_small by lia.
Qed.

Lemma timer_steps_rep n windowUs h t es :
  timer_rep n windowUs h t -> Forall event_ok es -> 0 <= n -> n + Z.of_nat (length es) < 2 ^ 32 ->
  exists t', timer_steps es t = Some t' /\
    timer_rep (n + Z.of_nat (length es)) windowUs (foldl (fun h e => history_step windowUs e h) h es) t'.
Proof.
  intros Ht Hes. revert n h t Ht. induction Hes as [|e es He Hes IH]; intros n h t Ht Hn0 Hn; simpl in *.
  { rewrite Z.add_0_r. eauto. }
  destruct (timer_step_rep n windowUs h t e) as (t1 & -> & Ht1); [done..|lia|].
  cbn [mbind option_bind]. destruct (IH _ _ _ Ht1) as (t2 & -> & Ht2); [lia..|].
  exists t2. split; [done|]. by replace (n + Z.of_nat (S (length es))) with (n + 1 + Z.of_nat (length es)) by lia.
Qed.

(** A complete window has at least one sample: the one that completed it. *)
Lemma reported_nonempty windowUs es h :
  (forall r, h_rep h = Some r -> exists d ds, r.1.1 = d :: ds) ->
  forall r, h_rep (foldl (fun h e => history_step windowUs e h) h es) = Some r ->
    exists d ds, r.1.1 = d :: ds.
Proof.
  revert h. induction es as [|e es IH]; intros h Hh; [done|]. apply IH.
  intros r. unfold history_step. destruct (h_cur h) as [[ds ov] mi]. destruct e; simpl; auto.
  case_decide; simpl; auto. intros [= <-]. simpl. eauto.
Qed.

(** The getters of a task timer describe exactly the durations of the last complete
    window, or of the window in progress when none is complete: count, minimum, maximum,
    average, overruns, misses and the eight histogram buckets, over any sequence of ticks,
    overruns and misses; [lastDuration] is the last tick's length, 0 when the clock went
    backwards. *)
Theorem task_timer_window (windowUs : Z) (es : list timer_event) :
  Forall event_ok es -> Z.of_nat (length es) < 2 ^ 32 ->
  let h := foldl (fun h e => history_step windowUs e h) (Hist ([], 0, 0) 0 None 0) es in
  let '(ds, ov, mi) := default (h_cur h) (h_rep h) in
  exists t, timer_steps es (setMetricsWindowUs windowUs (setClockSource true new_timer)) = Some t /\
    lastDuration t = h_last h /\
    sampleCount t = Z.of_nat (length ds) /\
    minDuration t = foldr Z.min kMaxMicros ds /\
    maxDuration t = foldr Z.max 0 ds /\
    getAverageDurationUs t = average (sum_durations ds) (Z.of_nat (length ds)) /\
    overrunCount t = ov /\ deadlineMissCount t = mi /\
    histogram t = (fun i => in_bucket i ds) <$> seq 0 kHistogramBuckets.
Proof.
  intros Hes Hn h.
  destruct (timer_steps_rep 0 windowUs _ _ es (new_timer_rep windowUs) Hes) as (t & Ht & Hrep); [lia..|].
  fold h in Hrep. destruct Hrep as [_ _ _ Hl Hwin Hr _ _].
  assert (Hpos : forall r, h_rep h = Some r -> exists d ds, r.1.1 = d :: ds).
  { unfold h. apply reported_nonempty. done. }
  unfold lastDuration, sampleCount, minDuration, maxDuration, getAverageDurationUs, overrunCount,
    deadlineMissCount, histogram, reported, average.
  destruct (h_rep h) as [[[ds ov] mi]|] eqn:E; cbn [default id from_option].
  - destruct (Hpos _ eq_refl) as (d & ds' & Hds). simpl in Hds. subst ds.
    exists t. rewrite Hr. cbn [report_of r_samples r_min r_max r_avg r_overruns r_misses r_hist summary
      w_samples w_min w_max w_sum w_hist].
    rewrite bool_decide_true by (cbn [length]; lia). repeat (split; [done|]). done.
  - destruct (h_cur h) as [[ds ov] mi]. exists t. rewrite Hr, Hwin.
    cbn [fst snd summary w_samples w_min w_max w_sum w_hist w_overruns w_misses].
    rewrite bool_decide_false by (unfold empty_report; simpl; lia). repeat (split; [done|]).
    split; [|done]. repeat case_decide; try done; lia.
Qed.

Lemma task_timer_window_witness :
  exists t, timer_steps [Sampled 10 40; Sampled 50 650; Missed; Sampled 900 1000]
      (setMetricsWindowUs 600 (setClockSource true new_timer)) = Some t /\
    lastDuration t = 100 /\ sampleCount t = 2 /\ minDuration t = 30 /\ maxDuration t = 600 /\
    getAverageDurationUs t = f_div (f_of_Z 630) (f_of_Z 2) /\
    overrunCount t = 0 /\ deadlineMissCount t = 0 /\
    histogram t = [1; 1; 0; 0; 0; 0; 0; 0].
Proof.
  refine (task_timer_window 600 [Sampled 10 40; Sampled 50 650; Missed; Sampled 900 1000] _ _).
  - repeat constructor.
  - reflexivity.
Defined.

(** ** Deadlines *)

Lemma advance_loop_spec fuel next period now :
  0 < period -> 0 <= now -> now + period < 2 ^ 64 -> 0 <= next < 2 ^ 64 ->
  now - next < Z.of_nat fuel * period ->
  exists k, 0 <= k /\ advance_loop (S fuel) next period now = Some (next + k * period) /\
    now < next + k * period /\ (k = 0 \/ next + (k - 1) * period <= now).
Proof.
  intros Hp Hn Hov. revert next. induction fuel as [|fuel IH]; intros next Hnext Hf; cbn [advance_loop].
  - rewrite decide_False by lia. exists 0. rewrite Z.mul_0_l, Z.add_0_r. repeat split; (lia || auto).
  - case_decide as Hle.
    + unfold wrap. rewrite Z.mod_small by lia.
      destruct (IH (next + period)) as (k & Hk & He & Hlt & Hprev); [lia|lia|].
      exists (k + 1). split; [lia|]. cbn [advance_loop] in He. unfold wrap in He. rewrite He.
      split; [f_equal; lia|]. split; [lia|]. right. destruct Hprev; [subst k|]; lia.
    + exists 0. rewrite Z.mul_0_l, Z.add_0_r. repeat split; (lia || auto).
Qed.

(** [advance] terminates for a positive period and moves the activation by whole
    periods to the first one after [now], at least one period on; with period 0 and an
    activation that is not in the future it never returns, whatever the fuel. *)
Theorem advance_terminates (d : DeadlineTracker) (now : Z) (fuel : nat) :
  0 <= nextActivation d -> 0 <= dl_periodUs d -> 0 <= now ->
  nextActivation d + dl_periodUs d < 2 ^ 64 -> now + dl_periodUs d < 2 ^ 64 ->
  (0 < dl_periodUs d -> now - nextActivation d < Z.of_nat fuel * dl_periodUs d ->
    exists k, 1 <= k /\
      advance (S fuel) now d =
        Some (Deadline (nextActivation d + k * dl_periodUs d) (dl_periodUs d) (phaseOffsetUs d)) /\
      now < nextActivation d + k * dl_periodUs d /\
      (k = 1 \/ nextActivation d + (k - 1) * dl_periodUs d <= now)) /\
  (dl_periodUs d = 0 -> nextActivation d <= now -> advance fuel now d = None).
Proof.
  intros Hn Hp Hnow Hov Hov'. unfold advance. rewrite (wrap_id 64 (_ + _)) by (unfold in_word; lia).
  split.
  - intros Hpos Hf. destruct (advance_loop_spec fuel (nextActivation d + dl_periodUs d)
      (dl_periodUs d) now) as (k & Hk & -> & Hlt & Hprev); [lia..|].
    exists (k + 1). split; [lia|]. cbn [mbind option_bind].
    split; [do 2 f_equal; lia|]. split; [lia|]. destruct Hprev; [left; lia|right; lia].
  - intros Hz Hle. rewrite Hz, Z.add_0_r. assert (H : advance_loop fuel (nextActivation d) 0 now = None).
    { induction fuel as [|fuel IH]; [done|]. cbn [advance_loop]. rewrite decide_True by done.
      rewrite Z.add_0_r, (wrap_id 64) by (unfold in_word; lia). exact IH. }
    by rewrite H.
Qed.

Lemma advance_terminates_witness :
  (exists k, 1 <= k /\ advance 4 95 (Deadline 40 20 0) = Some (Deadline (40 + k * 20) 20 0) /\
    95 < 40 + k * 20 /\ (k = 1 \/ 40 + (k - 1) * 20 <= 95)) /\
  advance 100 95 (Deadline 40 0 0) = None.
Proof.
  split.
  - refine (proj1 (advance_terminates (Deadline 40 20 0) 95 3 _ _ _ _ _) _ _); simpl; lia.
  - refine (proj2 (advance_terminates (Deadline 40 0 0) 95 100 _ _ _ _ _) _ _); simpl; lia.
Defined.
