(* ===== verification/ErrorLog.v ===== *)
(** * The error log ([utils/logging/ErrorLogger.h], [src/utils/logging/ErrorLogger.cpp])

    A ring of 33 slots that keeps the 32 most recent entries: writing to a full ring moves
    the read index first. *)

From S2P Require Import Prelude Float32 Queue.

Inductive ErrorCode :=
  | STATE_TRANSITION | INTERLOCK_TRIP | SOFT_ABORT | HARD_FAULT | ARC_DETECTED | SENSOR_ERROR
  | WATCHDOG_KICK | TIMER_ROLLOVER | INVALID_STATE | CRUNCH_OVERRUN | DEADLINE_MISS.

#[global] Instance ErrorCode_eq_dec : EqDecision ErrorCode.
Proof. solve_decision. Defined.

Record Entry := LogEntry {
  e_code : ErrorCode;
  e_timestamp : Z;
  e_value : float;
}.

Definition kLogCapacity : nat := 32.
Definition kLogSlots : nat := S kLogCapacity.

Abbreviation ErrorLogger := (ring Entry).

(** The constructor does not set the entries. *)
Definition new_logger : ErrorLogger :=
  Ring (replicate kLogSlots (LogEntry STATE_TRANSITION 0 f_zero)) 0 0.

Definition log (code : ErrorCode) (timestamp : Z) (value : float) (l : ErrorLogger)
    : option ErrorLogger :=
  let head := m_head l in
  let next := (head + 1) mod kLogSlots in
  let tail :=
    if decide (next = m_tail l) then
      let expected := m_tail l in
      let desired := (expected + 1) mod kLogSlots in
      (* compare_exchange_strong(expected, desired) *)
      if decide (m_tail l = expected) then desired else m_tail l
    else m_tail l in
  buf ← store (m_buf l) head (LogEntry code timestamp value);
  Some (Ring buf next tail).

Definition log_read (l : ErrorLogger) : option (option Entry * ErrorLogger) :=
  let tail := m_tail l in
  if decide (tail = m_head l) then Some (None, l)
  else
    entry ← load (m_buf l) tail;
    Some (Some entry, Ring (m_buf l) (m_head l) ((tail + 1) mod kLogSlots)).

Definition log_count (l : ErrorLogger) : nat :=
  let head := m_head l in
  let tail := m_tail l in
  if decide (tail <= head) then head - tail else kLogSlots - tail + head.

Definition log_clear (l : ErrorLogger) : ErrorLogger := Ring (m_buf l) (m_head l) (m_head l).

(** ** What the ring holds *)

Definition logger_holds (l : ErrorLogger) (es : list Entry) : Prop :=
  exists p, ring_rep kLogCapacity p l es.

Definition push_entry (e : Entry) (es : list Entry) : list Entry := push_last kLogCapacity e es.

Lemma new_logger_holds : logger_holds new_logger [].
Proof. exists 0. apply (new_queue_rep kLogCapacity). Qed.

Lemma log_ok l es code t v :
  logger_holds l es ->
  exists l', log code t v l = Some l' /\ logger_holds l' (push_entry (LogEntry code t v) es).
Proof.
  intros [p Hl]. unfold log, push_entry, push_last, kLogSlots.
  pose proof (ring_full _ _ _ _ Hl) as Hfull. pose proof (rr_len _ _ _ _ Hl) as Hlen.
  pose proof (ring_head_lt _ _ _ _ Hl) as Hlt. rewrite <- (rr_buf _ _ _ _ Hl) in Hlt.
  rewrite store_ok by done. cbn [mbind option_bind]. eexists. split; [done|].
  set (e := LogEntry code t v).
  (* Dropping the oldest entry first gives the same ring. *)
  assert (Hroom : exists q p0 es0, ring_rep kLogCapacity p0 q es0 /\ length es0 < kLogCapacity /\
    m_buf q = m_buf l /\ m_head q = m_head l /\
    es0 = (if decide (length es = kLogCapacity) then tail es else es) /\
    m_tail q = (if decide ((m_head l + 1) mod S kLogCapacity = m_tail l)
      then (m_tail l + 1) mod S kLogCapacity else m_tail l)).
  { destruct (decide (length es = kLogCapacity)) as [Hf|Hf].
    - rewrite decide_True by (by apply Hfull).
      destruct es as [|x es]; [discriminate Hf|]. do 3 eexists. split; [by eapply ring_drop|].
      simpl in Hf. split; [lia|]. done.
    - rewrite decide_False by (rewrite Hfull; done).
      exists l, p, es. split; [done|]. split; [lia|]. done. }
  destruct Hroom as (q & p0 & es0 & Hq & Hn & Hb & Hh & Hes & Ht).
  rewrite (decide_True (P := m_tail l = m_tail l)) by done. rewrite <- Hes, <- Ht, <- Hb, <- Hh. exists p0.
  apply (ring_publish kLogCapacity p0 _ es0 e (ring_write kLogCapacity p0 q es0 e Hq Hn) Hn).
  simpl. apply list_lookup_insert_eq. by rewrite Hb, Hh.
Qed.

Lemma log_read_ok l es :
  logger_holds l es -> exists l', log_read l = Some (head es, l') /\ logger_holds l' (tail es).
Proof. apply (try_pop_ok kLogCapacity). Qed.

Lemma log_count_ok l es : logger_holds l es -> log_count l = length es.
Proof. apply (size_ok kLogCapacity). Qed.

Lemma log_clear_ok l es : logger_holds l es -> logger_holds (log_clear l) [].
Proof. apply (clear_ok kLogCapacity). Qed.

(** ** Properties *)

Fixpoint log_all (es : list Entry) (l : ErrorLogger) : option ErrorLogger :=
  match es with
  | [] => Some l
  | e :: es => l ← log (e_code e) (e_timestamp e) (e_value e) l; log_all es l
  end.

Lemma log_all_ok es es0 l :
  logger_holds l (last_n kLogCapacity es0) ->
  exists l', log_all es l = Some l' /\ logger_holds l' (last_n kLogCapacity (es0 ++ es)).
Proof.
  revert es0 l. induction es as [|e es IH]; intros es0 l Hl; simpl.
  { rewrite app_nil_r. eauto. }
  destruct (log_ok l _ (e_code e) (e_timestamp e) (e_value e) Hl) as (l1 & -> & Hl1).
  cbn [mbind option_bind]. destruct e as [c t v]. simpl in Hl1.
  unfold push_entry in Hl1. rewrite push_last_last in Hl1 by (unfold kLogCapacity; lia). destruct (IH _ _ Hl1) as (l2 & Hlog & Hl2).
  exists l2. rewrite <- app_assoc in Hl2. done.
Qed.

(** Reading until the log is empty. *)
Fixpoint read_all (n : nat) (l : ErrorLogger) : option (list Entry) :=
  match n with
  | O => Some []
  | S n =>
      '(e, l) ← log_read l;
      match e with
      | Some e => es ← read_all n l; Some (e :: es)
      | None => Some []
      end
  end.

Lemma read_all_ok l es n : logger_holds l es -> length es <= n -> read_all n l = Some es.
Proof.
  revert l es. induction n as [|n IH]; intros l es Hl Hn.
  { by rewrite (nil_length_inv es) by lia. }
  simpl. destruct (log_read_ok l es Hl) as (l1 & -> & Hl1). cbn [mbind option_bind].
  destruct es as [|e es]; [done|]. simpl in *. by rewrite (IH l1 es Hl1 ltac:(lia)).
Qed.

(** The error log never loses a recent entry: after any sequence of [log] calls it
    counts and reads back, oldest first, exactly the last 32 entries (all of them when
    there are fewer), and no write leaves the slot array. *)
Theorem error_log_keeps_last (es : list Entry) :
  exists l, log_all es new_logger = Some l /\
    log_count l = Nat.min (length es) 32 /\
    read_all 33 l = Some (drop (length es - 32) es).
Proof.
  destruct (log_all_ok es [] new_logger new_logger_holds) as (l & Hlog & Hl).
  exists l. split; [done|]. rewrite (log_count_ok _ _ Hl). rewrite (read_all_ok _ _ 33 Hl);
    unfold last_n, kLogCapacity in *; rewrite ?app_nil_l, ?length_drop; [|lia].
  split; [lia|done].
Qed.
