(* ===== verification/Storage.v ===== *)
(** * Placement storage ([utils/InPlaceStorage.h])

    The static place of a kernel task: bytes that hold an object or none, and a flag. What is
    constructed and destroyed is noted in order. *)

From S2P Require Import Prelude.

Section storage.
Context {T : Type}.

Record InPlaceStorage := Storage { m_storage : option T; m_alive : bool }.

Inductive lifetime := Constructed (x : T) | Destroyed (x : T).

Definition new_storage : InPlaceStorage := Storage None false.

(** [ptr()] of bytes that hold no object is undefined. *)
Definition deref (s : InPlaceStorage) : option T := m_storage s.

Definition has_value (s : InPlaceStorage) : bool := m_alive s.

Definition reset (s : InPlaceStorage) : option (list lifetime * InPlaceStorage) :=
  if m_alive s then x ← deref s; Some ([Destroyed x], Storage None false) else Some ([], s).

Definition emplace (x : T) (s : InPlaceStorage) : option (list lifetime * InPlaceStorage) :=
  '(es, _) ← reset s; Some (es ++ [Constructed x], Storage (Some x) true).

(** A use: [None] is a reset. *)
Fixpoint storage_run (ops : list (option T)) (s : InPlaceStorage) : option (list lifetime * InPlaceStorage) :=
  match ops with
  | [] => Some ([], s)
  | op :: ops =>
      '(es, s) ← match op with Some x => emplace x s | None => reset s end;
      '(es', s) ← storage_run ops s;
      Some (es ++ es', s)
  end.

Definition constructed (es : list lifetime) : list T := omap (fun e => match e with Constructed x => Some x | _ => None end) es.

Definition destroyed (es : list lifetime) : list T := omap (fun e => match e with Destroyed x => Some x | _ => None end) es.

(** The object a use leaves alive. *)
Definition kept (ops : list (option T)) (x : option T) : option T := default x (last ops).

Definition storage_ok (s : InPlaceStorage) (x : option T) : Prop := deref s = x /\ has_value s = bool_decide (is_Some x).

Lemma storage_step_ok op s x : storage_ok s x ->
  exists es s', match op with Some y => emplace y s | None => reset s end = Some (es, s') /\ storage_ok s' op /\
    constructed es = option_list op /\ destroyed es = option_list x.
Proof.
  destruct s as [o a]. unfold storage_ok, emplace, reset, deref, has_value. cbn. intros [-> ->].
  destruct x, op; cbn; eauto 10.
Qed.

(** The destructor of the storage is a last reset. However it has been used, it destroys each
    object it has constructed once, in the same order, and never reaches for one that is not
    there. *)
Theorem storage_balanced (ops : list (option T)) :
  exists es s, storage_run ops new_storage = Some (es, s) /\ deref s = kept ops None /\ has_value s = bool_decide (is_Some (kept ops None)) /\
    exists es' s', reset s = Some (es', s') /\ constructed (es ++ es') = omap id ops /\ destroyed (es ++ es') = omap id ops.
Proof.
  assert (H : forall ops s x, storage_ok s x -> exists es s', storage_run ops s = Some (es, s') /\ storage_ok s' (kept ops x) /\
    constructed es = omap id ops /\ destroyed es ++ option_list (kept ops x) = option_list x ++ omap id ops).
  { clear ops. induction ops as [|op ops IH]; intros s x Hs; cbn [storage_run].
    - exists [], s. do 3 (split; [done|]). by rewrite app_nil_r.
    - destruct (storage_step_ok op s x Hs) as (es & s1 & -> & H1 & Hc & Hd). cbn [mbind option_bind].
      destruct (IH s1 op H1) as (es' & s2 & -> & H2 & Hc' & Hd'). exists (es ++ es'), s2. split; [done|].
      assert (E : kept (op :: ops) x = kept ops op) by (unfold kept; by rewrite last_cons; destruct (last ops)). rewrite E.
      split; [done|]. unfold constructed, destroyed in *. rewrite !omap_app, Hc, Hc', Hd, <- app_assoc, Hd'. by destruct op. }
  destruct (H ops new_storage None) as (es & s & E & Hs & Hc & Hd); [done|].
  exists es, s. split; [done|]. do 2 (split; [apply Hs|]).
  destruct (storage_step_ok None s _ Hs) as (es' & s' & E' & _ & Hc' & Hd'). exists es', s'. split; [exact E'|].
  unfold constructed, destroyed in *. rewrite !omap_app, Hc, Hc', Hd'. split; [apply app_nil_r|exact Hd].
Qed.
End storage.
