(* ===== verification/Decimal.v ===== *)
(** * Characters and decimal numbers

    What the text components share: string literals as bytes, the decimal digits of a
    number as the reference the conversion loops are compared with, and the value of a
    string of digits. *)

From Stdlib Require Import String Ascii.
From S2P Require Import Prelude.

(** ** Characters *)

(** The bytes of a string literal, without the terminating NUL. *)
Fixpoint text (s : String.string) : list Z :=
  match s with
  | EmptyString => []
  | String c s => Z.of_N (N_of_ascii c) :: text s
  end.

#[global] Arguments text s%_string_scope.

Definition chr_zero : Z := 48.
Definition chr_minus : Z := 45.
Definition chr_dot : Z := 46.
Definition chr_comma : Z := 44.
Definition chr_newline : Z := 10.
Definition chr_space : Z := 32.

(** The C string in an array: the characters up to the first NUL. *)
Fixpoint c_string (a : list Z) : option (list Z) :=
  match a with
  | [] => None
  | c :: a => if decide (c = 0)%Z then Some [] else s ← c_string a; Some (c :: s)
  end.

Definition no_nul (s : list Z) : Prop := Forall (fun c => c <> 0%Z) s.

Lemma c_string_app s rest : no_nul s -> c_string (s ++ 0%Z :: rest) = Some s.
Proof. induction 1 as [|c s Hc _ IH]; simpl; [done|]. by rewrite decide_False, IH by done. Qed.

Lemma no_nul_app s1 s2 : no_nul s1 -> no_nul s2 -> no_nul (s1 ++ s2).
Proof. apply Forall_app_2. Qed.

Lemma no_nul_take n s : no_nul s -> no_nul (take n s).
Proof. apply Forall_take. Qed.

Lemma text_no_nul_dec (s : list Z) : bool_decide (Forall (fun c => c <> 0%Z) s) = true -> no_nul s.
Proof. apply bool_decide_eq_true_1. Qed.

(** Closed texts have no NUL. *)
Ltac closed_text := apply text_no_nul_dec; vm_compute; reflexivity.

(** ** Decimal digits *)

(** The digits of [val], least significant first, at most [n]. *)
Fixpoint low_digits (n : nat) (val : Z) : list Z :=
  match n with
  | O => []
  | S n => if decide (0 < val)%Z then (chr_zero + val mod 10)%Z :: low_digits n (val / 10)%Z else []
  end.

Lemma low_digits_step n val :
  low_digits (S n) val = if decide (0 < val)%Z then (chr_zero + val mod 10)%Z :: low_digits n (val / 10)%Z else [].
Proof. done. Qed.

#[global] Arguments low_digits : simpl never.

(** Twenty digits are enough for 64 bits. *)
Definition digits (val : Z) : list Z := if decide (val = 0)%Z then [chr_zero] else reverse (low_digits 20 val).

Definition int_text (v : Z) : list Z := (if decide (v < 0)%Z then [chr_minus] else []) ++ digits (Z.abs v).

Definition is_digit (c : Z) : Prop := (48 <= c <= 57)%Z.

#[global] Instance is_digit_dec c : Decision (is_digit c).
Proof. unfold is_digit. apply _. Defined.

(** The value of a string of digits, read after a prefix of value [acc]. *)
Definition dec_step (acc c : Z) : Z := (10 * acc + (c - 48))%Z.
Definition dec_value (acc : Z) (ds : list Z) : Z := foldl dec_step acc ds.

Lemma low_digits_is_digit n val : Forall is_digit (low_digits n val).
Proof.
  revert val. induction n as [|n IH]; intros val; [constructor|].
  rewrite low_digits_step. case_decide; constructor; [|apply IH]. unfold is_digit, chr_zero.
  pose proof (Z.mod_pos_bound val 10). lia.
Qed.

Lemma digits_is_digit val : Forall is_digit (digits val).
Proof.
  unfold digits. case_decide; [by repeat constructor|]. rewrite Forall_reverse. apply low_digits_is_digit.
Qed.

Lemma digits_no_nul val : no_nul (digits val).
Proof. eapply Forall_impl; [apply digits_is_digit|]. unfold is_digit. intros. lia. Qed.

(** The number of digits. *)
Lemma low_digits_length n val e :
  (0 <= val < 10 ^ Z.of_nat n)%Z ->
  (length (low_digits n val) <= e <-> (val < 10 ^ Z.of_nat e)%Z).
Proof.
  revert val e. induction n as [|n IH]; intros val e Hv.
  { assert (val = 0)%Z as -> by (simpl in Hv; lia). simpl. split; [|lia]. intros _. apply Z.pow_pos_nonneg; lia. }
  rewrite Nat2Z.inj_succ, Z.pow_succ_r in Hv by lia. rewrite low_digits_step. case_decide as Hpos.
  - cbn [length]. destruct e as [|e]; [split; [lia|simpl; lia]|].
    rewrite Nat2Z.inj_succ, Z.pow_succ_r by lia.
    assert (Hd : (0 <= val / 10 < 10 ^ Z.of_nat n)%Z).
    { split; [apply Z.div_pos; lia|]. apply Z.div_lt_upper_bound; lia. }
    specialize (IH (val / 10)%Z e Hd). split.
    + intros Hl. apply Z.nle_gt. intros Hge. apply (Z.div_le_lower_bound val 10) in Hge; [|lia].
      destruct IH as [IH _]. specialize (IH ltac:(lia)). lia.
    + intros Hlt. destruct IH as [_ IH]. apply le_n_S, IH. apply Z.div_lt_upper_bound; lia.
  - assert (val = 0)%Z as -> by lia. simpl. split; [|lia]. intros _. apply Z.pow_pos_nonneg; lia.
Qed.

Definition twenty_digits (val : Z) : Prop := (0 <= val < 10 ^ Z.of_nat 20)%Z.

Lemma u64_twenty_digits val : in_word 64 val -> twenty_digits val.
Proof.
  unfold in_word, twenty_digits. change (10 ^ Z.of_nat 20)%Z with 100000000000000000000%Z. lia.
Qed.

Lemma u32_twenty_digits val : in_word 32 val -> twenty_digits val.
Proof.
  unfold in_word, twenty_digits. change (10 ^ Z.of_nat 20)%Z with 100000000000000000000%Z. lia.
Qed.

Lemma digits_length val e :
  twenty_digits val -> 0 < e -> (length (digits val) <= e <-> (val < 10 ^ Z.of_nat e)%Z).
Proof.
  intros Hv He. unfold digits. case_decide as H0.
  - subst. simpl. split; [|lia]. intros _. apply Z.pow_pos_nonneg; lia.
  - rewrite length_reverse. by apply low_digits_length.
Qed.

Lemma digits_length_pos val : twenty_digits val -> 0 < length (digits val).
Proof.
  intros Hv. unfold digits. case_decide; [simpl; lia|]. rewrite length_reverse.
  unfold twenty_digits in Hv. rewrite low_digits_step, decide_True by lia. simpl. lia.
Qed.

Lemma digits_length_u32 val : in_word 32 val -> length (digits val) <= 10.
Proof.
  intros Hv. apply digits_length; [by apply u32_twenty_digits|lia|]. unfold in_word in Hv.
  change (10 ^ Z.of_nat 10)%Z with 10000000000%Z. lia.
Qed.

Lemma digits_length_u64 val : in_word 64 val -> length (digits val) <= 20.
Proof.
  intros Hv. apply digits_length; [by apply u64_twenty_digits|lia|]. by apply u64_twenty_digits.
Qed.

(** Digits and value are inverse. *)
Lemma dec_value_app acc xs ys : dec_value acc (xs ++ ys) = dec_value (dec_value acc xs) ys.
Proof. apply foldl_app. Qed.

Lemma dec_value_acc acc ds : dec_value acc ds = (acc * 10 ^ Z.of_nat (length ds) + dec_value 0 ds)%Z.
Proof.
  revert acc. induction ds as [|d ds IH] using rev_ind; intros acc; [cbn; lia|].
  rewrite !dec_value_app, (IH acc), length_app, Nat.add_1_r, Nat2Z.inj_succ, Z.pow_succ_r by lia.
  cbn [dec_value foldl]. unfold dec_value, dec_step. cbn [foldl]. lia.
Qed.

Lemma dec_value_low n val :
  (0 <= val < 10 ^ Z.of_nat n)%Z -> dec_value 0 (reverse (low_digits n val)) = val.
Proof.
  revert val. induction n as [|n IH]; intros val Hv; [simpl in *; change (0 = val)%Z; lia|].
  rewrite Nat2Z.inj_succ, Z.pow_succ_r in Hv by lia. rewrite low_digits_step. case_decide.
  - rewrite reverse_cons, dec_value_app, IH.
    + unfold dec_value, dec_step, chr_zero. simpl. pose proof (Z.div_mod val 10). lia.
    + split; [apply Z.div_pos; lia|]. apply Z.div_lt_upper_bound; lia.
  - change (0 = val)%Z. lia.
Qed.

Lemma dec_value_digits val : twenty_digits val -> dec_value 0 (digits val) = val.
Proof.
  intros Hv. unfold digits. case_decide; [by subst|]. by apply dec_value_low.
Qed.

Lemma digits_inj x y : twenty_digits x -> twenty_digits y -> digits x = digits y -> x = y.
Proof. intros Hx Hy H. rewrite <- (dec_value_digits x Hx), H. by apply dec_value_digits. Qed.

(** A digit string cut into a head of [k] zeros and the digits proper. *)
Definition padded (k : nat) (val : Z) : list Z := replicate (k - length (digits val)) chr_zero ++ digits val.

Lemma padded_length k val : length (digits val) <= k -> length (padded k val) = k.
Proof. intros H. unfold padded. rewrite length_app, length_replicate. lia. Qed.

Lemma dec_value_padded k val : twenty_digits val -> dec_value 0 (padded k val) = val.
Proof.
  intros Hv. unfold padded. rewrite dec_value_app.
  assert (Hz : forall n, dec_value 0 (replicate n chr_zero) = 0%Z) by (intros n; by induction n).
  rewrite Hz. by apply dec_value_digits.
Qed.

(** More room than digits changes nothing. *)
Lemma low_digits_room n m val :
  (0 <= val < 10 ^ Z.of_nat n)%Z -> n <= m -> low_digits m val = low_digits n val.
Proof.
  revert m val. induction n as [|n IH]; intros m val Hv Hm.
  - assert (val = 0)%Z as -> by (simpl in Hv; lia). by destruct m.
  - rewrite Nat2Z.inj_succ, Z.pow_succ_r in Hv by lia. destruct m as [|m]; [lia|].
    rewrite !low_digits_step. case_decide; [|done]. f_equal. apply IH; [|lia].
    split; [apply Z.div_pos; lia|]. apply Z.div_lt_upper_bound; lia.
Qed.

(** ** Reversal in place *)

(** The loop that swaps from both ends; [n] bounds the turns. *)
Fixpoint swap_loop (n i j : nat) (tmp : list Z) : option (list Z) :=
  if decide (i < j) then
    match n with
    | O => None
    | S n =>
        c ← load tmp i;
        d ← load tmp j;
        tmp ← store tmp i d;
        tmp ← store tmp j c;
        swap_loop n (S i) (j - 1) tmp
    end
  else Some tmp.

Lemma swap_loop_ok n pre m post :
  length m <= n ->
  swap_loop n (length pre) (length pre + length m - 1) (pre ++ m ++ post) = Some (pre ++ reverse m ++ post).
Proof.
  revert pre m post. induction n as [|n IH]; intros pre m post Hn.
  { destruct m; [|simpl in Hn; lia]. simpl. by rewrite decide_False by lia. }
  destruct m as [|x m]; [simpl; by rewrite decide_False by lia|].
  destruct m as [|y m _] using rev_ind; [simpl; by rewrite decide_False by lia|].
  cbn [swap_loop]. rewrite decide_True by len.
  replace (length pre + length (x :: m ++ [y]) - 1) with (length (pre ++ x :: m)) by len.
  replace (pre ++ (x :: m ++ [y]) ++ post) with ((pre ++ x :: m) ++ y :: post)
    by (rewrite <- app_assoc; simpl; by rewrite <- app_assoc).
  assert (E : (pre ++ x :: m) ++ y :: post = pre ++ x :: m ++ y :: post) by (by rewrite <- app_assoc).
  rewrite E, load_middle. cbn [mbind option_bind]. rewrite <- E, load_middle. cbn [mbind option_bind].
  rewrite E, store_middle. cbn [mbind option_bind].
  assert (E' : pre ++ y :: m ++ y :: post = (pre ++ y :: m) ++ y :: post) by (by rewrite <- app_assoc).
  rewrite E'. replace (length (pre ++ x :: m)) with (length (pre ++ y :: m)) at 1 by len.
  rewrite store_middle. cbn [mbind option_bind].
  specialize (IH (pre ++ [y]) m (x :: post)). rewrite !length_app in IH. simpl in IH.
  rewrite !length_app. cbn [length]. rewrite <- !app_assoc in *. simpl in *.
  replace (length pre + S (length m) - 1) with (length pre + 1 + length m - 1) by lia.
  replace (S (length pre)) with (length pre + 1) by lia.
  rewrite reverse_cons, reverse_app. simpl. rewrite <- app_assoc. apply IH. len.
Qed.
