(* ===== verification/Text.v ===== *)
(** * The string builder ([utils/logging/LightweightStringBuilder.h] and [.cpp])

    A buffer of 128 characters that is NUL-terminated at all times and drops what does not
    fit. The conversions of numbers are the loops of the code, digit by digit into a
    temporary array that is then reversed and copied. *)

From Stdlib Require String.
From S2P Require Import Prelude Float32 Decimal.
Import String.StringSyntax.

Definition kCapacity : nat := 128.
#[global] Arguments kCapacity : simpl never.

Record LightweightStringBuilder := Builder {
  sb_buf : list Z;
  sb_len : nat;
}.

(** The constructor writes the terminator only. *)
Definition new_builder : LightweightStringBuilder := Builder (replicate kCapacity 0%Z) 0.

(** ** Rendering of digits *)

(** The digit loop of [renderU32]; [n] places of [tmp] are left. *)
Fixpoint render_digits (n idx : nat) (val : Z) (tmp : list Z) : option (nat * list Z) :=
  match n with
  | O => Some (idx, tmp)
  | S n =>
      if decide (0 < val)%Z then
        tmp ← store tmp idx (chr_zero + val mod 10)%Z;
        render_digits n (S idx) (val / 10)%Z tmp
      else Some (idx, tmp)
  end.

Definition renderU32 (tmp : list Z) (val : Z) : option (nat * list Z) :=
  if decide (val = 0)%Z then
    tmp ← store tmp 0 chr_zero;
    Some (1, tmp)
  else
    '(idx, tmp) ← render_digits (length tmp) 0 val tmp;
    tmp ← swap_loop idx 0 (idx - 1) tmp;
    Some (idx, tmp).

(** The array [tmp] of sixteen characters, which the code leaves unset. *)
Definition tmp16 : list Z := replicate 16 0%Z.

(** ** The appends *)

(** [m_buf[m_len] = '\0'] *)
Definition terminate (b : LightweightStringBuilder) : option LightweightStringBuilder :=
  buf ← store (sb_buf b) (sb_len b) 0%Z;
  Some (Builder buf (sb_len b)).

Definition append_char (c : Z) (b : LightweightStringBuilder) : option LightweightStringBuilder :=
  if decide (sb_len b < kCapacity - 1) then
    buf ← store (sb_buf b) (sb_len b) c;
    terminate (Builder buf (S (sb_len b)))
  else Some b.

(** The copying loop, over the characters of a C string. *)
Fixpoint copy_chars (str : list Z) (b : LightweightStringBuilder) : option LightweightStringBuilder :=
  match str with
  | [] => Some b
  | c :: str =>
      if decide (sb_len b < kCapacity - 1) then
        buf ← store (sb_buf b) (sb_len b) c;
        copy_chars str (Builder buf (S (sb_len b)))
      else Some b
  end.

(** [None] is the null pointer. *)
Definition append_str (str : option (list Z)) (b : LightweightStringBuilder) : option LightweightStringBuilder :=
  match str with
  | None => Some b
  | Some str => b ← copy_chars str b; terminate b
  end.

(** The first [n] characters of [tmp] from [i], and the terminator. *)
Fixpoint copy_tmp (i n : nat) (tmp : list Z) (b : LightweightStringBuilder) : option LightweightStringBuilder :=
  match n with
  | O => Some b
  | S n =>
      if decide (sb_len b < kCapacity - 1) then
        c ← load tmp i;
        buf ← store (sb_buf b) (sb_len b) c;
        copy_tmp (S i) n tmp (Builder buf (S (sb_len b)))
      else Some b
  end.

Definition append_u32 (value : Z) (b : LightweightStringBuilder) : option LightweightStringBuilder :=
  '(len, tmp) ← renderU32 tmp16 value;
  b ← copy_tmp 0 len tmp b;
  terminate b.

(** The negation of the least [int32_t] overflows: undefined behaviour. *)
Definition append_i32 (value : Z) (b : LightweightStringBuilder) : option LightweightStringBuilder :=
  let negative := bool_decide (value < 0)%Z in
  uval ← (if negative then if decide (value = - 2 ^ 31)%Z then None else Some (u32 (- value)) else Some (u32 value));
  '(len, tmp) ← renderU32 tmp16 uval;
  b ← (if negative then append_char chr_minus b else Some b);
  b ← copy_tmp 0 len tmp b;
  terminate b.

(** [scale *= 10.0f], [n] times. *)
Fixpoint scale_loop (n : nat) (scale : float) : float :=
  match n with
  | O => scale
  | S n => scale_loop n (f_mul scale (f_of_Z 10))
  end.

(** [threshold *= 10] in 32 bits, [n] times. *)
Fixpoint threshold_loop (n : nat) (threshold : Z) : Z :=
  match n with
  | O => threshold
  | S n => threshold_loop n (u32 (threshold * 10))
  end.

(** The leading zeros of the fraction; [r] is [decimals - d]. *)
Fixpoint zeros_loop (r : nat) (fracInt : Z) (b : LightweightStringBuilder) : option LightweightStringBuilder :=
  match r with
  | O => Some b
  | S r' =>
      b ← (if decide (fracInt < threshold_loop r 1)%Z then append_char chr_zero b else Some b);
      zeros_loop r' fracInt b
  end.

(** The fraction in units of the last decimal place. *)
Definition frac_int (value : float) (intPart : Z) (scale : float) : option Z :=
  let frac := f_sub value (f_of_Z intPart) in
  fracInt ← f_to_u32 (f_add (f_mul frac scale) f_half);
  m ← f_to_u32 scale;
  let maxFrac := u32 (m - 1) in
  Some (if decide (maxFrac < fracInt)%Z then maxFrac else fracInt).

Definition append_float (value : float) (decimals : nat) (b : LightweightStringBuilder)
    : option LightweightStringBuilder :=
  '(value, b) ← (if f_lt value f_zero then b ← append_char chr_minus b; Some (f_neg value, b) else Some (value, b));
  let scale := scale_loop decimals f_one in
  n ← f_to_u32 (f_add (f_mul value scale) f_half);
  let value := f_div (f_of_Z n) scale in
  intPart ← f_to_u32 value;
  '(len, tmp) ← renderU32 tmp16 intPart;
  b ← copy_tmp 0 len tmp b;
  b ← terminate b;
  if decide (0 < decimals) then
    b ← append_char chr_dot b;
    fracInt ← frac_int value intPart scale;
    b ← zeros_loop (decimals - 1) fracInt b;
    '(len, tmp) ← renderU32 tmp fracInt;
    b ← copy_tmp 0 len tmp b;
    terminate b
  else Some b.

Definition c_str (b : LightweightStringBuilder) : list Z := sb_buf b.
Definition sb_length (b : LightweightStringBuilder) : nat := sb_len b.
Definition isFull (b : LightweightStringBuilder) : bool := bool_decide (kCapacity - 1 <= sb_len b).

Definition sb_clear (b : LightweightStringBuilder) : option LightweightStringBuilder :=
  terminate (Builder (sb_buf b) 0).

(** ** What the buffer holds *)

(** The buffer starts with [s]; [sb_rep] says that the terminator follows. *)
Record sb_open (b : LightweightStringBuilder) (s : list Z) : Prop := {
  so_len : sb_len b = length s;
  so_bound : length s <= kCapacity - 1;
  so_buf : exists rest, sb_buf b = s ++ rest /\ length (sb_buf b) = kCapacity;
}.

Record sb_rep (b : LightweightStringBuilder) (s : list Z) : Prop := {
  sr_len : sb_len b = length s;
  sr_bound : length s <= kCapacity - 1;
  sr_buf : exists rest, sb_buf b = s ++ 0%Z :: rest /\ length (sb_buf b) = kCapacity;
}.

(** What fits of [s ++ x]. *)
Definition fit (s : list Z) : list Z := take (kCapacity - 1) s.

Lemma rep_open b s : sb_rep b s -> sb_open b s.
Proof. intros [? ? (rest & ? & ?)]. split; [done|done|by eexists]. Qed.

Lemma new_builder_rep : sb_rep new_builder [].
Proof. split; [done|simpl; lia|by exists (replicate 127 0%Z)]. Qed.

Lemma terminate_ok b s : sb_open b s -> exists b', terminate b = Some b' /\ sb_rep b' s.
Proof.
  intros [Hl Hb (rest & E & Hlen)]. unfold terminate. rewrite Hl, E in *.
  destruct rest as [|x rest]; [rewrite app_nil_r in Hlen; unfold kCapacity in *; lia|].
  rewrite store_middle. cbn [mbind option_bind]. eexists. split; [done|].
  split; [done|done|]. exists rest. split; [done|]. simpl. rewrite length_app in *. done.
Qed.

(** One more character. *)
Lemma put_char c b s :
  sb_open b s -> length s < kCapacity - 1 ->
  exists buf, store (sb_buf b) (sb_len b) c = Some buf /\ sb_open (Builder buf (S (sb_len b))) (s ++ [c]).
Proof.
  intros [Hl Hb (rest & E & Hlen)] Hroom. rewrite Hl, E in *.
  destruct rest as [|x rest]; [rewrite app_nil_r in Hlen; unfold kCapacity in *; lia|].
  rewrite store_middle. eexists. split; [done|].
  split; cbn [sb_len sb_buf]; [rewrite length_app; cbn [length]; lia..|]. exists rest. rewrite <- app_assoc.
  split; [done|]. rewrite length_app in *. done.
Qed.

Lemma fit_id s : length s <= kCapacity - 1 -> fit s = s.
Proof. intros H. by apply firstn_all2. Qed.

Lemma fit_full s x : length s = kCapacity - 1 -> fit (s ++ x) = s.
Proof. intros H. unfold fit. by apply take_app_length'. Qed.

Lemma fit_length s : length (fit s) <= kCapacity - 1.
Proof. unfold fit. rewrite length_take. lia. Qed.

Lemma fit_app s x : fit (fit s ++ x) = fit (s ++ x).
Proof.
  unfold fit. destruct (decide (length s <= kCapacity - 1)) as [H|H].
  - by rewrite (firstn_all2 s) by lia.
  - rewrite !take_app_le by (rewrite ?length_take; lia). by rewrite take_take, Nat.min_id.
Qed.

Lemma append_char_ok c b s :
  sb_rep b s -> exists b', append_char c b = Some b' /\ sb_rep b' (fit (s ++ [c])).
Proof.
  intros Hrep. unfold append_char. rewrite (sr_len _ _ Hrep). case_decide as Hroom.
  - destruct (put_char c b s (rep_open _ _ Hrep) Hroom) as (buf & E & Ho).
    rewrite <- (sr_len _ _ Hrep), E. cbn [mbind option_bind].
    destruct (terminate_ok _ _ Ho) as (b' & E' & Hr). exists b'. split; [done|].
    rewrite fit_id; [done|]. apply Hr.
  - exists b. split; [done|]. rewrite fit_full; [done|]. pose proof (sr_bound _ _ Hrep). lia.
Qed.

Lemma copy_chars_ok str b s :
  sb_open b s -> exists b', copy_chars str b = Some b' /\ sb_open b' (fit (s ++ str)).
Proof.
  revert b s. induction str as [|c str IH]; intros b s Ho; cbn [copy_chars].
  { exists b. rewrite app_nil_r, fit_id by apply Ho. done. }
  rewrite (so_len _ _ Ho). case_decide as Hroom.
  - destruct (put_char c b s Ho Hroom) as (buf & E & Ho'). rewrite <- (so_len _ _ Ho), E. cbn [mbind option_bind].
    destruct (IH _ _ Ho') as (b' & -> & Hb'). exists b'. split; [done|]. by rewrite <- app_assoc in Hb'.
  - exists b. split; [done|]. rewrite fit_full; [done|]. pose proof (so_bound _ _ Ho). lia.
Qed.

Lemma append_str_ok str b s :
  sb_rep b s -> exists b', append_str (Some str) b = Some b' /\ sb_rep b' (fit (s ++ str)).
Proof.
  intros Hrep. destruct (copy_chars_ok str b s (rep_open _ _ Hrep)) as (b1 & E & Ho).
  destruct (terminate_ok _ _ Ho) as (b2 & E2 & Hr). exists b2. simpl. by rewrite E.
Qed.

Lemma copy_tmp_ok i n tmp b s :
  i + n <= length tmp -> sb_open b s ->
  exists b', copy_tmp i n tmp b = Some b' /\ sb_open b' (fit (s ++ take n (drop i tmp))).
Proof.
  revert i b s. induction n as [|n IH]; intros i b s Hi Ho; cbn [copy_tmp].
  { exists b. cbn [take]. rewrite app_nil_r, fit_id by apply Ho. done. }
  destruct (lookup_lt_is_Some_2 tmp i) as [c Hc]; [lia|].
  rewrite (drop_S _ _ _ Hc). cbn [take]. rewrite (so_len _ _ Ho). case_decide as Hroom.
  - unfold load. rewrite Hc. cbn [mbind option_bind].
    destruct (put_char c b s Ho Hroom) as (buf & E & Ho'). rewrite <- (so_len _ _ Ho), E. cbn [mbind option_bind].
    destruct (IH (S i) _ _ ltac:(lia) Ho') as (b' & -> & Hb'). exists b'. split; [done|]. by rewrite <- app_assoc in Hb'.
  - exists b. split; [done|]. rewrite fit_full; [done|]. pose proof (so_bound _ _ Ho). lia.
Qed.

(** ** The numbers *)

Lemma render_digits_ok n val pre rest :
  length rest = n -> (0 <= val < 10 ^ Z.of_nat n)%Z ->
  render_digits n (length pre) val (pre ++ rest) =
    Some (length pre + length (low_digits n val),
          pre ++ low_digits n val ++ drop (length (low_digits n val)) rest).
Proof.
  revert val pre rest. induction n as [|n IH]; intros val pre rest Hn Hv; cbn [render_digits].
  { destruct rest; [|done]. by rewrite Nat.add_0_r. }
  rewrite Nat2Z.inj_succ, Z.pow_succ_r in Hv by lia. rewrite low_digits_step.
  case_decide; [|by rewrite Nat.add_0_r].
  destruct rest as [|x rest]; [done|]. rewrite store_middle. cbn [mbind option_bind].
  specialize (IH (val / 10)%Z (pre ++ [chr_zero + val mod 10]%Z) rest ltac:(by simpl in Hn; lia)).
  rewrite length_app, Nat.add_1_r, <- !app_assoc in IH. simpl in IH. rewrite IH.
  - simpl. f_equal. f_equal. lia.
  - split; [apply Z.div_pos; lia|]. apply Z.div_lt_upper_bound; lia.
Qed.

Lemma digits_low16 val : in_word 32 val -> val <> 0%Z -> digits val = reverse (low_digits 16 val).
Proof.
  intros Hv Hne. unfold digits. rewrite decide_False by done. rewrite (low_digits_room 16 20); [done| |lia].
  unfold in_word in Hv. change (10 ^ Z.of_nat 16)%Z with 10000000000000000%Z. lia.
Qed.

Lemma renderU32_ok tmp val :
  in_word 32 val -> length tmp = 16 ->
  exists tmp', renderU32 tmp val = Some (length (digits val), tmp') /\
    take (length (digits val)) tmp' = digits val /\ length tmp' = 16.
Proof.
  intros Hv Hlen. unfold renderU32. destruct (decide (val = 0)%Z) as [->|Hne].
  { destruct tmp as [|x tmp]; [done|]. rewrite store_ok by (cbn [length]; lia). cbn [mbind option_bind].
    eexists. split; [done|]. by split. }
  assert (Hv16 : (0 <= val < 10 ^ Z.of_nat 16)%Z).
  { unfold in_word in Hv. change (10 ^ Z.of_nat 16)%Z with 10000000000000000%Z. lia. }
  rewrite Hlen. pose proof (render_digits_ok 16 val [] tmp Hlen Hv16) as E. cbn [app length Nat.add] in E. rewrite E.
  cbn [mbind option_bind]. set (ds := low_digits 16 val) in *.
  pose proof (swap_loop_ok (length ds) [] ds (drop (length ds) tmp) (le_n _)) as Es. cbn [app length Nat.add] in Es. rewrite Es.
  cbn [mbind option_bind]. rewrite (digits_low16 val Hv Hne). fold ds. rewrite length_reverse.
  eexists. split; [done|]. split; [by rewrite take_app_length' by (by rewrite length_reverse)|].
  assert (Hds : length ds <= 16) by (by apply (low_digits_length 16 val 16 Hv16), Hv16).
  rewrite length_app, length_reverse, length_drop. lia.
Qed.

(** Rendering a number and copying it into the buffer. *)
Lemma put_number tmp val b s :
  in_word 32 val -> length tmp = 16 -> sb_rep b s ->
  exists tmp' b1 b', renderU32 tmp val = Some (length (digits val), tmp') /\
    copy_tmp 0 (length (digits val)) tmp' b = Some b1 /\ terminate b1 = Some b' /\
    length tmp' = 16 /\ sb_rep b' (fit (s ++ digits val)).
Proof.
  intros Hv Hlen Hrep. destruct (renderU32_ok tmp val Hv Hlen) as (tmp' & E & Htake & Hl).
  assert (Hle : length (digits val) <= length tmp') by (rewrite <- Htake, length_take; lia).
  destruct (copy_tmp_ok 0 (length (digits val)) tmp' b s Hle (rep_open _ _ Hrep)) as (b1 & E1 & Ho).
  rewrite drop_0, Htake in Ho. destruct (terminate_ok _ _ Ho) as (b2 & E2 & Hr). by exists tmp', b1, b2.
Qed.

Lemma append_u32_ok val b s :
  in_word 32 val -> sb_rep b s ->
  exists b', append_u32 val b = Some b' /\ sb_rep b' (fit (s ++ digits val)).
Proof.
  intros Hv Hrep. destruct (put_number tmp16 val b s Hv eq_refl Hrep) as (tmp' & b1 & b' & E1 & E2 & E3 & _ & Hr).
  exists b'. unfold append_u32. rewrite E1. cbn [mbind option_bind]. by rewrite E2.
Qed.

Lemma append_i32_ok val b s :
  (- 2 ^ 31 < val < 2 ^ 31)%Z -> sb_rep b s ->
  exists b', append_i32 val b = Some b' /\ sb_rep b' (fit (s ++ int_text val)).
Proof.
  intros Hv Hrep. unfold append_i32, int_text. case_bool_decide as Hneg.
  - rewrite decide_False by lia. cbn [mbind option_bind].
    assert (Hu : u32 (- val) = Z.abs val) by (rewrite wrap_id; [|unfold in_word]; lia). rewrite Hu.
    destruct (append_char_ok chr_minus b s Hrep) as (b0 & E0 & Hr0).
    destruct (put_number tmp16 (Z.abs val) b0 _ ltac:(unfold in_word; lia) eq_refl Hr0)
      as (tmp' & b1 & b' & E1 & E2 & E3 & _ & Hr).
    exists b'. rewrite E1. cbn [mbind option_bind]. rewrite E0. cbn [mbind option_bind]. rewrite E2.
    rewrite decide_True by done. split; [done|]. rewrite fit_app, <- app_assoc in Hr. done.
  - cbn [mbind option_bind]. rewrite decide_False by done.
    assert (Hu : u32 val = Z.abs val) by (rewrite wrap_id; [|unfold in_word]; lia). rewrite Hu.
    destruct (put_number tmp16 (Z.abs val) b s ltac:(unfold in_word; lia) eq_refl Hrep)
      as (tmp' & b1 & b' & E1 & E2 & E3 & _ & Hr).
    exists b'. rewrite E1. cbn [mbind option_bind]. by rewrite E2.
Qed.

(** The thresholds are the powers of ten: the loop writes one zero for each missing digit. *)
Lemma threshold_loop_pow r acc :
  (0 <= acc)%Z -> (acc * 10 ^ Z.of_nat r < 2 ^ 32)%Z -> threshold_loop r acc = (acc * 10 ^ Z.of_nat r)%Z.
Proof.
  revert acc. induction r as [|r IH]; intros acc H0 Hacc; cbn [threshold_loop]; [simpl; lia|].
  rewrite Nat2Z.inj_succ, Z.pow_succ_r in * by lia.
  assert (H1 : (1 <= 10 ^ Z.of_nat r)%Z) by (pose proof (Z.pow_pos_nonneg 10 (Z.of_nat r)); lia).
  rewrite wrap_id by (unfold in_word; nia). rewrite IH by lia. lia.
Qed.

Lemma zeros_loop_ok r val b s :
  twenty_digits val -> (10 ^ Z.of_nat r < 2 ^ 32)%Z -> sb_rep b s ->
  exists b', zeros_loop r val b = Some b' /\
    sb_rep b' (fit (s ++ replicate (S r - length (digits val)) chr_zero)).
Proof.
  intros Hv. revert b s. induction r as [|r IH]; intros b s Hr Hrep.
  { pose proof (digits_length_pos val Hv). exists b. split; [done|].
    replace (1 - length (digits val)) with 0 by lia. simpl. rewrite app_nil_r, fit_id by apply Hrep. done. }
  assert (Hr' : (10 ^ Z.of_nat r < 2 ^ 32)%Z).
  { rewrite Nat2Z.inj_succ, Z.pow_succ_r in Hr by lia. pose proof (Z.pow_pos_nonneg 10 (Z.of_nat r)). lia. }
  cbn [zeros_loop]. rewrite threshold_loop_pow, Z.mul_1_l by lia.
  pose proof (digits_length val (S r) Hv ltac:(lia)) as Hiff. case_decide as Hlt.
  - destruct (append_char_ok chr_zero b s Hrep) as (b1 & -> & Hr1). cbn [mbind option_bind].
    destruct (IH b1 _ Hr' Hr1) as (b2 & -> & Hr2). exists b2. split; [done|].
    rewrite fit_app, <- app_assoc in Hr2. apply Hiff in Hlt.
    by replace (S (S r) - length (digits val)) with (S (S r - length (digits val))) by lia.
  - cbn [mbind option_bind]. destruct (IH b s Hr' Hrep) as (b2 & -> & Hr2). exists b2. split; [done|].
    assert (~ length (digits val) <= S r) by tauto.
    by replace (S (S r) - length (digits val)) with (S r - length (digits val)) by lia.
Qed.

(** ** Floats *)

(** The parts of the text: the sign, the integer part, the fraction in units of the last
    place. *)
Definition float_parts (value : float) (decimals : nat) : option (bool * Z * Z) :=
  let negative := f_lt value f_zero in
  let scale := scale_loop decimals f_one in
  n ← f_to_u32 (f_add (f_mul (if negative then f_neg value else value) scale) f_half);
  let v := f_div (f_of_Z n) scale in
  intPart ← f_to_u32 v;
  if decide (0 < decimals) then
    fracInt ← frac_int v intPart scale;
    Some (negative, intPart, fracInt)
  else Some (negative, intPart, 0%Z).

Definition float_text (decimals : nat) (parts : bool * Z * Z) : list Z :=
  let '(negative, intPart, fracInt) := parts in
  (if negative : bool then [chr_minus] else []) ++ digits intPart ++
  (if decide (0 < decimals) then chr_dot :: padded decimals fracInt else []).

(** Up to nine decimals the scale is an integer the code can hold. *)
Lemma scale_u32 d : d <= 9 -> f_to_u32 (scale_loop d f_one) = Some (10 ^ Z.of_nat d)%Z.
Proof. intros Hd. do 10 (destruct d as [|d]; [by vm_compute|]). lia. Qed.

Lemma pow10_u32 d : d <= 9 -> (1 <= 10 ^ Z.of_nat d < 2 ^ 32)%Z.
Proof.
  intros Hd. split; [pose proof (Z.pow_pos_nonneg 10 (Z.of_nat d)); lia|].
  apply Z.le_lt_trans with (10 ^ 9)%Z; [apply Z.pow_le_mono_r; lia|lia].
Qed.

Lemma frac_int_bound v intPart d fracInt :
  d <= 9 -> frac_int v intPart (scale_loop d f_one) = Some fracInt -> (0 <= fracInt < 10 ^ Z.of_nat d)%Z.
Proof.
  intros Hd. unfold frac_int. destruct (f_to_u32 (f_add _ _)) as [n|] eqn:En; [|done].
  cbn [mbind option_bind]. rewrite scale_u32 by done. cbn [mbind option_bind].
  pose proof (pow10_u32 d Hd) as Hp. apply f_to_u32_word in En. unfold in_word in En.
  rewrite wrap_id by (unfold in_word; lia). intros [= <-]. case_decide; lia.
Qed.

(** How long the text of a float can be. *)
Lemma float_text_length value d parts :
  d <= 9 -> float_parts value d = Some parts -> length (float_text d parts) <= 12 + d.
Proof.
  intros Hd. unfold float_parts, float_text. destruct (f_to_u32 _) as [n|]; cbn [mbind option_bind]; [|done].
  destruct (f_to_u32 (f_div _ _)) as [ip|] eqn:Eip; cbn [mbind option_bind]; [|done].
  pose proof (digits_length_u32 ip (f_to_u32_word _ _ Eip)) as Hip.
  assert (Hsign : length (if f_lt value f_zero then [chr_minus] else []) <= 1) by (destruct (f_lt _ _); simpl; lia).
  case_decide as Hpos.
  - destruct (frac_int _ ip _) as [fr|] eqn:Efr; cbn [mbind option_bind]; [|done]. intros [= <-].
    pose proof (frac_int_bound _ _ d fr Hd Efr) as Hfr. pose proof (pow10_u32 d Hd).
    rewrite !length_app. cbn [length]. rewrite padded_length; [lia|].
    apply digits_length; [apply u32_twenty_digits; unfold in_word; lia|lia|lia].
  - intros [= <-]. rewrite !length_app. cbn [length]. lia.
Qed.

Lemma append_float_ok value decimals parts b s :
  decimals <= 9 -> float_parts value decimals = Some parts -> sb_rep b s ->
  exists b', append_float value decimals b = Some b' /\ sb_rep b' (fit (s ++ float_text decimals parts)).
Proof.
  intros Hd Hparts Hrep. unfold append_float, float_parts in *.
  assert (Hsign : exists b0, (if f_lt value f_zero then b ← append_char chr_minus b; Some (f_neg value, b)
      else Some (value, b)) = Some (if f_lt value f_zero then f_neg value else value, b0) /\
    sb_rep b0 (fit (s ++ if f_lt value f_zero then [chr_minus] else []))).
  { destruct (f_lt value f_zero).
    - destruct (append_char_ok chr_minus b s Hrep) as (b0 & -> & Hr). by exists b0.
    - exists b. split; [done|]. rewrite app_nil_r, fit_id by apply Hrep. done. }
  destruct Hsign as (b0 & -> & Hr0). cbn [mbind option_bind].
  set (scale := scale_loop decimals f_one) in *. set (neg := f_lt value f_zero) in *. clearbody neg.
  destruct (f_to_u32 _) as [n|]; cbn [mbind option_bind] in *; [|done].
  set (v := f_div (f_of_Z n) scale) in *. clearbody v.
  destruct (f_to_u32 v) as [ip|] eqn:Eip; cbn [mbind option_bind] in *; [|done].
  destruct (put_number tmp16 ip b0 _ (f_to_u32_word _ _ Eip) eq_refl Hr0) as (tmp1 & b1 & b2 & -> & E1 & E2 & Hl1 & Hr2).
  cbn [mbind option_bind]. rewrite E1. cbn [mbind option_bind]. rewrite E2. cbn [mbind option_bind].
  rewrite fit_app, <- app_assoc in Hr2. unfold float_text.
  destruct (decide (0 < decimals)) as [Hpos|Hz].
  2: { injection Hparts as <-. exists b2. split; [done|]. rewrite app_nil_r. exact Hr2. }
  destruct (frac_int v ip scale) as [fr|] eqn:Efr; cbn [mbind option_bind] in *; [|done]. injection Hparts as <-.
  destruct (append_char_ok chr_dot b2 _ Hr2) as (b3 & -> & Hr3). cbn [mbind option_bind].
  pose proof (frac_int_bound v ip decimals fr Hd Efr) as Hfr. pose proof (pow10_u32 decimals Hd) as Hp.
  assert (Hfr32 : in_word 32 fr) by (unfold in_word; lia).
  pose proof (u32_twenty_digits fr Hfr32) as Hfr20. pose proof (pow10_u32 (decimals - 1) ltac:(lia)) as Hp1.
  destruct (zeros_loop_ok (decimals - 1) fr b3 _ Hfr20 (proj2 Hp1) Hr3) as (b4 & -> & Hr4). cbn [mbind option_bind].
  destruct (put_number tmp1 fr b4 _ Hfr32 Hl1 Hr4) as (tmp2 & b5 & b6 & -> & E5 & E6 & _ & Hr6).
  cbn [mbind option_bind]. rewrite E5. cbn [mbind option_bind]. exists b6. split; [exact E6|].
  rewrite !fit_app, <- !app_assoc, fit_app, <- !app_assoc in Hr6. cbn [app] in Hr6. replace (S (decimals - 1)) with decimals in Hr6 by lia.
  unfold padded. exact Hr6.
Qed.

(** ** Sequences of appends *)

Inductive text_op :=
  | TChar (c : Z)
  | TStr (str : list Z)
  | TU32 (value : Z)
  | TI32 (value : Z)
  | TFloat (value : float) (decimals : nat).

Definition append_op (op : text_op) : LightweightStringBuilder -> option LightweightStringBuilder :=
  match op with
  | TChar c => append_char c
  | TStr str => append_str (Some str)
  | TU32 v => append_u32 v
  | TI32 v => append_i32 v
  | TFloat v d => append_float v d
  end.

Fixpoint append_ops (ops : list text_op) (b : LightweightStringBuilder) : option LightweightStringBuilder :=
  match ops with
  | [] => Some b
  | op :: ops => b ← append_op op b; append_ops ops b
  end.

(** The text of one append, where the code defines it. *)
Definition op_text (op : text_op) : option (list Z) :=
  match op with
  | TChar c => Some [c]
  | TStr str => Some str
  | TU32 v => if decide (in_word 32 v) then Some (digits v) else None
  | TI32 v => if decide (- 2 ^ 31 < v < 2 ^ 31)%Z then Some (int_text v) else None
  | TFloat v d => if decide (d <= 9) then float_text d <$> float_parts v d else None
  end.

(** Run both sides of an equation between chains of appends. *)
Ltac run_appends :=
  cbn [mbind option_bind append_ops append_op];
  repeat match goal with |- context [mbind _ ?x] => destruct x; cbn [mbind option_bind]; [|done] end.

Lemma append_op_ok op x b s :
  op_text op = Some x -> sb_rep b s -> exists b', append_op op b = Some b' /\ sb_rep b' (fit (s ++ x)).
Proof.
  destruct op as [c|str|v|v|v d]; cbn [op_text append_op]; intros Hx Hrep.
  - injection Hx as <-. by apply append_char_ok.
  - injection Hx as <-. by apply append_str_ok.
  - case_decide; [|done]. injection Hx as <-. by apply append_u32_ok.
  - case_decide; [|done]. injection Hx as <-. by apply append_i32_ok.
  - case_decide; [|done]. destruct (float_parts v d) as [parts|] eqn:E; [|done].
    injection Hx as <-. by eapply append_float_ok.
Qed.

Lemma append_ops_ok ops xs b s :
  Forall2 (fun op x => op_text op = Some x) ops xs -> sb_rep b s ->
  exists b', append_ops ops b = Some b' /\ sb_rep b' (fit (s ++ concat xs)).
Proof.
  intros Hall. revert b s. induction Hall as [|op x ops xs Hx _ IH]; intros b s Hrep; cbn [append_ops concat].
  - exists b. rewrite app_nil_r, fit_id by apply Hrep. done.
  - destruct (append_op_ok op x b s Hx Hrep) as (b1 & -> & Hr1). cbn [mbind option_bind].
    destruct (IH b1 _ Hr1) as (b2 & -> & Hr2). exists b2. split; [done|]. by rewrite fit_app, <- app_assoc in Hr2.
Qed.

Lemma sb_clear_ok b s : sb_rep b s -> exists b', sb_clear b = Some b' /\ sb_rep b' [].
Proof.
  intros [_ _ (rest & E & Hl)]. unfold sb_clear. apply terminate_ok.
  split; [done|simpl; lia|]. by exists (sb_buf b).
Qed.

Lemma sb_rep_string b s : sb_rep b s -> no_nul s -> c_string (c_str b) = Some s.
Proof. intros [_ _ (rest & E & _)] Hs. unfold c_str. rewrite E. by apply c_string_app. Qed.

Lemma sb_rep_chars b s : sb_rep b s -> load_all (c_str b) 0 (sb_length b) = Some s.
Proof.
  intros [Hl Hb (rest & E & Hlen)]. unfold c_str, sb_length, load_all. rewrite Hl, E, decide_True by len.
  by rewrite drop_0, take_app_length.
Qed.

(** ** Properties *)

(** The string builder is a bounded text: whatever is appended since the last [clear],
    the buffer is never overrun and always terminated, and it holds the first 127 characters
    of the concatenated texts, where a number's text is its decimal digits (for a float, up
    to nine decimals, exactly that many digits behind the point). *)
Theorem builder_refines (ops : list text_op) (xs : list (list Z)) (b : LightweightStringBuilder) (s : list Z) :
  sb_rep b s -> Forall2 (fun op x => op_text op = Some x) ops xs ->
  exists b0 b', sb_clear b = Some b0 /\ append_ops ops b0 = Some b' /\ sb_rep b' (fit (concat xs)) /\
    sb_length b' = Nat.min 127 (length (concat xs)) /\
    isFull b' = bool_decide (127 <= length (concat xs)) /\
    (no_nul (concat xs) -> c_string (c_str b') = Some (fit (concat xs))).
Proof.
  intros Hrep Hall. destruct (sb_clear_ok b s Hrep) as (b0 & E0 & Hr0).
  destruct (append_ops_ok ops xs b0 [] Hall Hr0) as (b' & E & Hr). cbn [app] in Hr.
  exists b0, b'. do 3 (split; [done|]). pose proof (sr_len _ _ Hr) as Hl.
  unfold fit in Hl. rewrite length_take in Hl. change (kCapacity - 1) with 127 in Hl.
  split; [done|]. split.
  - unfold isFull. rewrite Hl. change (kCapacity - 1) with 127. apply bool_decide_ext. lia.
  - intros Hn. apply sb_rep_string; [done|]. by apply no_nul_take.
Qed.

Lemma builder_refines_witness :
  exists b0 b', sb_clear new_builder = Some b0 /\
    append_ops [TStr (text "v="); TI32 (-42); TChar chr_space; TFloat (f_div (f_of_Z 5) (f_of_Z 4)) 3] b0 = Some b' /\
    c_string (c_str b') = Some (text "v=-42 1.250").
Proof.
  destruct (builder_refines [TStr (text "v="); TI32 (-42); TChar chr_space; TFloat (f_div (f_of_Z 5) (f_of_Z 4)) 3]
    [text "v="; text "-42"; text " "; text "1.250"] new_builder [] new_builder_rep) as (b0 & b' & E0 & E & _ & _ & _ & Hs).
  - repeat (apply Forall2_cons; split; [vm_compute; reflexivity|]). constructor.
  - exists b0, b'. split; [exact E0|]. split; [exact E|].
    assert (Hn : no_nul (concat [text "v="; text "-42"; text " "; text "1.250"])) by (repeat constructor; discriminate).
    exact (Hs Hn).
Defined.

(** Numbers the code does not define: the least 32-bit integer, and floats from about
    4.29 million (with three decimals) on. *)
Example append_undefined :
  append_i32 (- 2 ^ 31) new_builder = None /\ append_float (f_of_Z 5000000) 3 new_builder = None /\
  append_float S754_nan 3 new_builder = None.
Proof. vm_compute. auto. Qed.
