(* ===== verification/Telemetry.v ===== *)
(** * The telemetry logger ([utils/logging/TelemetryLogger.h] and [.cpp])

    A ring of the last 32 messages with a count, drained as formatted lines. The optional
    mutex is an interface ([osal/sync/IMutex.h]) whose state is threaded through every
    operation; [sput_strncpy] is that of [utils/MemUtils.h]. *)

From Stdlib Require String.
From S2P Require Import Prelude Float32 ErrorLog Decimal Text.
Import String.StringSyntax.

(** ** Interfaces and data *)

(** [IMutex]: [lock] answers whether the lock was taken within the timeout. *)
Class IMutex (M : Type) := {
  mutex_lock : Z -> M -> bool * M;
  mutex_unlock : M -> M;
}.

Inductive Verbosity := CRITICAL | STATUS | INFO | DEBUG.

Definition verbosity_code (v : Verbosity) : Z :=
  match v with CRITICAL => 0 | STATUS => 1 | INFO => 2 | DEBUG => 3 end.

(** The enumerators, and the other values a cast can give. *)
Inductive TaskID := CONTROL | COMMS | DIAGNOSTICS | SYSTEM | OtherTask (code : Z).

Definition taskName (task : TaskID) : list Z :=
  match task with
  | CONTROL => text "ControlTask"
  | COMMS => text "CommsTask"
  | DIAGNOSTICS => text "DiagnosticsTask"
  | SYSTEM => text "System"
  | OtherTask _ => text "Unknown"
  end.

Definition kTextLen : nat := 64.
Definition kTelemetryCapacity : nat := 32.
#[global] Arguments kTextLen : simpl never.
#[global] Arguments kTelemetryCapacity : simpl never.

Record TelemetryEntry := TEntry {
  te_timestamp : Z;
  te_task : TaskID;
  te_level : Verbosity;
  te_text : list Z;
}.

Record TelemetryLogger := Telemetry {
  tl_guard : bool;
  tl_buf : list TelemetryEntry;
  tl_head : nat;
  tl_tail : nat;
  tl_count : nat;
  tl_verbosity : Verbosity;
}.

(** The constructor leaves the entries unset. *)
Definition new_telemetry (guard : bool) : TelemetryLogger :=
  Telemetry guard (replicate kTelemetryCapacity (TEntry 0 CONTROL CRITICAL (replicate kTextLen 0%Z))) 0 0 0 STATUS.

Definition setMutex (guard : bool) (l : TelemetryLogger) : TelemetryLogger :=
  Telemetry guard (tl_buf l) (tl_head l) (tl_tail l) (tl_count l) (tl_verbosity l).

(** ** [sput_strncpy] *)

(** [n] characters are left to write from index [i]; [src] is the rest of the C string. *)
Fixpoint sput_strncpy (n i : nat) (src dest : list Z) : option (list Z) :=
  match n with
  | O => Some dest
  | S n =>
      match src with
      | c :: src => dest ← store dest i c; sput_strncpy n (S i) src dest
      | [] => dest ← store dest i 0%Z; sput_strncpy n (S i) [] dest
      end
  end.

(** ** The operations *)

Section operations.
Context {M : Type} `{!IMutex M}.

(** [if (m_guard) m_guard->lock(0)]: the answer is not looked at. *)
Definition guard_lock (l : TelemetryLogger) (m : M) : M := if tl_guard l then (mutex_lock 0 m).2 else m.
Definition guard_unlock (l : TelemetryLogger) (m : M) : M := if tl_guard l then mutex_unlock m else m.

(** What [log] does between locking and unlocking. *)
Definition log_entry (task : TaskID) (str : list Z) (level : Verbosity) (timestamp : Z) (l : TelemetryLogger)
    : option TelemetryLogger :=
  let '(tail, count) :=
    if decide (tl_count l = kTelemetryCapacity) then ((tl_tail l + 1) mod kTelemetryCapacity, tl_count l)
    else (tl_tail l, tl_count l + 1) in
  e ← load (tl_buf l) (tl_head l);
  t ← sput_strncpy (kTextLen - 1) 0 str (te_text e);
  t ← store t (kTextLen - 1) 0%Z;
  buf ← store (tl_buf l) (tl_head l) (TEntry timestamp task level t);
  Some (Telemetry (tl_guard l) buf ((tl_head l + 1) mod kTelemetryCapacity) tail count (tl_verbosity l)).

Definition telemetry_log (task : TaskID) (str : list Z) (level : Verbosity) (timestamp : Z)
    (l : TelemetryLogger) (m : M) : option (TelemetryLogger * M) :=
  let m := guard_lock l m in
  l' ← log_entry task str level timestamp l;
  Some (l', guard_unlock l m).

(** The line of an entry. *)
Definition format_entry (e : TelemetryEntry) (sb : LightweightStringBuilder) : option LightweightStringBuilder :=
  sb ← sb_clear sb;
  sb ← append_char 91 sb;
  sb ← append_u32 (u32 (te_timestamp e / 1000)) sb;
  sb ← append_char 93 sb;
  sb ← append_char 91 sb;
  sb ← append_str (Some (taskName (te_task e))) sb;
  sb ← append_char 93 sb;
  sb ← append_char chr_space sb;
  str ← c_string (te_text e);
  sb ← append_str (Some str) sb;
  append_char chr_newline sb.

(** The loop of [drain]; [n] entries are left and [out] has been written. *)
Fixpoint drain_loop (n : nat) (l : TelemetryLogger) (sb : LightweightStringBuilder) (out : list (list Z))
    : option (TelemetryLogger * list (list Z)) :=
  match n with
  | O => Some (l, out)
  | S n =>
      e ← load (tl_buf l) (tl_tail l);
      let l := Telemetry (tl_guard l) (tl_buf l) (tl_head l) ((tl_tail l + 1) mod kTelemetryCapacity)
                 (tl_count l - 1) (tl_verbosity l) in
      if decide (verbosity_code (tl_verbosity l) < verbosity_code (te_level e))%Z then drain_loop n l sb out
      else
        sb ← format_entry e sb;
        line ← load_all (c_str sb) 0 (sb_length sb);
        drain_loop n l sb (out ++ [line])
  end.

(** [drain]: the calls of [writeFn], which is null when [writeFn] is [false]. *)
Definition drain (writeFn : bool) (l : TelemetryLogger) (m : M)
    : option (list (list Z) * TelemetryLogger * M) :=
  if negb writeFn then Some ([], l, m)
  else
    let m := guard_lock l m in
    '(l', out) ← drain_loop (tl_count l) l new_builder [];
    Some (out, l', guard_unlock l m).

Definition setVerbosity (level : Verbosity) (l : TelemetryLogger) (m : M) : TelemetryLogger * M :=
  (Telemetry (tl_guard l) (tl_buf l) (tl_head l) (tl_tail l) (tl_count l) level, guard_unlock l (guard_lock l m)).

Definition getVerbosity (l : TelemetryLogger) : Verbosity := tl_verbosity l.

Definition telemetry_count (l : TelemetryLogger) (m : M) : nat * M :=
  (tl_count l, guard_unlock l (guard_lock l m)).

Definition telemetry_clear (l : TelemetryLogger) (m : M) : TelemetryLogger * M :=
  (Telemetry (tl_guard l) (tl_buf l) 0 0 0 (tl_verbosity l), guard_unlock l (guard_lock l m)).
End operations.

(** ** What the ring holds *)

(** A message as it was logged, its text already cut. *)
Record message := Msg {
  msg_timestamp : Z;
  msg_task : TaskID;
  msg_level : Verbosity;
  msg_text : list Z;
}.

Definition entry_of (msg : message) (e : TelemetryEntry) : Prop :=
  te_timestamp e = msg_timestamp msg /\ te_task e = msg_task msg /\ te_level e = msg_level msg /\
  length (te_text e) = kTextLen /\ length (msg_text msg) < kTextLen /\ no_nul (msg_text msg) /\
  exists rest, te_text e = msg_text msg ++ 0%Z :: rest.

Record telemetry_rep (l : TelemetryLogger) (ms : list message) : Prop := {
  tr_buf : length (tl_buf l) = kTelemetryCapacity;
  tr_texts : Forall (fun e => length (te_text e) = kTextLen) (tl_buf l);
  tr_count : tl_count l = length ms;
  tr_bound : length ms <= kTelemetryCapacity;
  tr_tail : tl_tail l < kTelemetryCapacity;
  tr_head : tl_head l = (tl_tail l + length ms) mod kTelemetryCapacity;
  tr_entries : forall i msg, ms !! i = Some msg ->
    exists e, tl_buf l !! ((tl_tail l + i) mod kTelemetryCapacity) = Some e /\ entry_of msg e;
}.

Lemma new_telemetry_rep guard : telemetry_rep (new_telemetry guard) [].
Proof.
  split; try done; [by repeat constructor|simpl; lia|unfold kTelemetryCapacity; simpl; lia].
Qed.

(** The text as [log] stores it: at most 63 characters. *)
Definition cut_text (str : list Z) : list Z := take (kTextLen - 1) str.

Lemma setMutex_rep guard l ms : telemetry_rep l ms -> telemetry_rep (setMutex guard l) ms.
Proof. by intros []; split. Qed.

Lemma sput_strncpy_ok n src pre rest :
  n <= length rest ->
  sput_strncpy n (length pre) src (pre ++ rest) =
    Some (pre ++ take n src ++ replicate (n - length src) 0%Z ++ drop n rest).
Proof.
  revert src pre rest. induction n as [|n IH]; intros src pre rest Hn; cbn [sput_strncpy]; [done|].
  destruct rest as [|x rest]; [simpl in Hn; lia|]. simpl in Hn.
  destruct src as [|c src]; rewrite store_middle; cbn [mbind option_bind].
  - specialize (IH [] (pre ++ [0%Z]) rest ltac:(lia)). rewrite length_app, Nat.add_1_r in IH.
    rewrite <- !app_assoc in IH. simpl in IH. rewrite Nat.sub_0_r in IH. rewrite take_nil in IH. exact IH.
  - specialize (IH src (pre ++ [c]) rest ltac:(lia)). rewrite length_app, Nat.add_1_r in IH.
    rewrite <- !app_assoc in IH. simpl in IH. exact IH.
Qed.

Lemma stored_text str t0 :
  length t0 = kTextLen -> no_nul str ->
  exists t1 t2, sput_strncpy (kTextLen - 1) 0 str t0 = Some t1 /\ store t1 (kTextLen - 1) 0%Z = Some t2 /\
    length t2 = kTextLen /\ exists rest, t2 = cut_text str ++ 0%Z :: rest.
Proof.
  intros Hlen Hn. pose proof (sput_strncpy_ok (kTextLen - 1) str [] t0 ltac:(lia)) as E. cbn [app length] in E.
  eexists _, _. split; [exact E|]. set (t1 := take _ str ++ _).
  assert (Hl1 : length t1 = kTextLen).
  { unfold t1. rewrite !length_app, length_take, length_replicate, length_drop. unfold kTextLen in *. lia. }
  rewrite store_ok by (unfold kTextLen in *; lia). split; [done|]. rewrite length_insert. split; [done|].
  assert (Hc : length (cut_text str) = (kTextLen - 1) `min` length str) by apply length_take.
  assert (Hr : exists x rest, t1 = cut_text str ++ x :: rest /\ (length (cut_text str) < kTextLen - 1 -> x = 0%Z)).
  { unfold t1. fold (cut_text str). destruct (decide (length str < kTextLen - 1)) as [Hshort|Hlong].
    - replace (kTextLen - 1 - length str) with (S (kTextLen - 2 - length str)) by lia. by eexists 0%Z, _.
    - replace (kTextLen - 1 - length str) with 0 by lia.
      destruct (drop (kTextLen - 1) t0) as [|x r] eqn:Ed; [|exists x, r; split; [done|lia]].
      apply (f_equal length) in Ed. rewrite length_drop in Ed. unfold kTextLen in *. simpl in Ed. lia. }
  destruct Hr as (x & rest & Ht & Hx). fold t1. rewrite Ht. clear Ht t1 Hl1 E. destruct (decide (length (cut_text str) = kTextLen - 1)) as [He|He].
  - rewrite insert_app_r_alt by lia. rewrite He, Nat.sub_diag. by eexists.
  - assert (Hlt : length (cut_text str) < kTextLen - 1) by lia.
    rewrite Hx by done. rewrite insert_app_r_alt by lia.
    destruct (kTextLen - 1 - length (cut_text str)) eqn:Eq; [lia|]. by eexists.
Qed.

(** ** The ring's operations on what it holds *)

Definition message_of (task : TaskID) (str : list Z) (level : Verbosity) (timestamp : Z) : message :=
  Msg timestamp task level (cut_text str).

Definition drop_oldest (l : TelemetryLogger) : TelemetryLogger :=
  Telemetry (tl_guard l) (tl_buf l) (tl_head l) ((tl_tail l + 1) mod kTelemetryCapacity) (tl_count l - 1)
    (tl_verbosity l).

Lemma drop_oldest_rep l msg ms : telemetry_rep l (msg :: ms) -> telemetry_rep (drop_oldest l) ms.
Proof.
  intros [Hb Ht Hc Hn Htl Hh He]. cbn [length] in *. split; cbn [drop_oldest tl_buf tl_count tl_tail tl_head]; try done.
  - lia.
  - lia.
  - apply Nat.mod_upper_bound. unfold kTelemetryCapacity. lia.
  - rewrite Hh, Nat.Div0.add_mod_idemp_l. f_equal. lia.
  - intros i x Hx. destruct (He (S i) x Hx) as (e & Hl & Hok). exists e. split; [|done].
    rewrite Nat.Div0.add_mod_idemp_l. rewrite <- Hl. f_equal. f_equal. lia.
Qed.

Lemma mod_distinct n a i j : 0 < n -> i < j < n -> (a + i) mod n <> (a + j) mod n.
Proof.
  intros Hn Hij He. pose proof (Nat.div_mod_eq (a + i) n). pose proof (Nat.div_mod_eq (a + j) n).
  assert (n * ((a + j) / n - (a + i) / n) = j - i) by nia. nia.
Qed.

(** Writing at the head of a ring with room. *)
Lemma put_entry_rep l ms msg e :
  telemetry_rep l ms -> length ms < kTelemetryCapacity -> entry_of msg e ->
  telemetry_rep (Telemetry (tl_guard l) (<[tl_head l := e]> (tl_buf l)) ((tl_head l + 1) mod kTelemetryCapacity)
    (tl_tail l) (tl_count l + 1) (tl_verbosity l)) (ms ++ [msg]).
Proof.
  intros [Hb Ht Hc Hn Htl Hh He] Hroom Hok. split; cbn [tl_buf tl_count tl_tail tl_head]; rewrite ?length_app; simpl length.
  - by rewrite length_insert.
  - apply Forall_insert; [done|]. apply Hok.
  - lia.
  - lia.
  - done.
  - rewrite Hh, Nat.Div0.add_mod_idemp_l. f_equal. lia.
  - intros i x Hx. apply lookup_app_Some in Hx as [Hx|[Hi Hx]].
    + destruct (He i x Hx) as (e' & Hl & Hok'). exists e'. split; [|done].
      apply lookup_lt_Some in Hx. rewrite list_lookup_insert_ne; [done|]. rewrite Hh.
      apply not_eq_sym. apply mod_distinct; [unfold kTelemetryCapacity; lia|lia].
    + apply list_lookup_singleton_Some in Hx as [Hi0 <-]. replace i with (length ms) by lia.
      rewrite <- Hh. exists e. split; [|done]. apply list_lookup_insert_eq. rewrite Hb, Hh.
      apply Nat.mod_upper_bound. unfold kTelemetryCapacity. lia.
Qed.

Lemma log_entry_ok task str level timestamp l ms :
  telemetry_rep l ms -> no_nul str ->
  exists l', log_entry task str level timestamp l = Some l' /\
    telemetry_rep l' (push_last kTelemetryCapacity (message_of task str level timestamp) ms) /\
    tl_verbosity l' = tl_verbosity l /\ tl_guard l' = tl_guard l.
Proof.
  intros Hr Hs. pose proof (tr_buf _ _ Hr) as Hb.
  assert (Hlt : tl_head l < length (tl_buf l)).
  { rewrite Hb, (tr_head _ _ Hr). apply Nat.mod_upper_bound. unfold kTelemetryCapacity. lia. }
  destruct (load_ok _ _ Hlt) as [e He]. pose proof (Forall_lookup_1 _ _ _ _ (tr_texts _ _ Hr) He) as Ht.
  destruct (stored_text str (te_text e) Ht Hs) as (t1 & t2 & E1 & E2 & Hl2 & Hrest).
  assert (Hok : entry_of (message_of task str level timestamp) (TEntry timestamp task level t2)).
  { repeat split; [done| |by apply no_nul_take|done]. simpl. unfold cut_text. rewrite length_take.
    unfold kTextLen. lia. }
  unfold log_entry, push_last. rewrite (tr_count _ _ Hr).
  destruct (decide (length ms = kTelemetryCapacity)) as [Hfull|Hroom]; rewrite He; cbn [mbind option_bind];
    rewrite E1; cbn [mbind option_bind]; rewrite E2; cbn [mbind option_bind]; rewrite store_ok by done;
    cbn [mbind option_bind]; eexists; (split; [done|]); (split; [|done]).
  - destruct ms as [|m ms]; [done|]. cbn [tail]. simpl in Hfull.
    pose proof (put_entry_rep _ _ _ _ (drop_oldest_rep _ _ _ Hr) ltac:(lia) Hok) as Hp.
    cbn [drop_oldest tl_buf tl_count tl_tail tl_head tl_guard tl_verbosity] in Hp.
    rewrite (tr_count _ _ Hr) in Hp. simpl length in Hp. by replace (S (length ms) - 1 + 1) with (S (length ms)) in Hp by lia.
  - pose proof (tr_bound _ _ Hr). rewrite <- (tr_count _ _ Hr).
    apply (put_entry_rep _ _ _ _ Hr ltac:(lia) Hok).
Qed.

(** ** Formatting *)

(** The line written for a message. *)
Definition message_line (msg : message) : list Z :=
  [91%Z] ++ digits (u32 (msg_timestamp msg / 1000)) ++ [93%Z] ++ [91%Z] ++ taskName (msg_task msg) ++ [93%Z] ++
    [chr_space] ++ msg_text msg ++ [chr_newline].

Lemma taskName_length task : length (taskName task) <= 15.
Proof. destruct task; simpl; lia. Qed.

Lemma message_line_fits msg : length (msg_text msg) < kTextLen -> length (message_line msg) <= kCapacity - 1.
Proof.
  intros Ht. pose proof (taskName_length (msg_task msg)).
  pose proof (digits_length_u32 (u32 (msg_timestamp msg / 1000)) (wrap_in_word 32 ltac:(lia) _)).
  unfold message_line. rewrite !length_app. cbn [length]. unfold kTextLen, kCapacity in *. lia.
Qed.

(** The appends of [format_entry]. *)
Definition line_ops (msg : message) : list text_op :=
  [TChar 91; TU32 (u32 (msg_timestamp msg / 1000)); TChar 93; TChar 91; TStr (taskName (msg_task msg)); TChar 93;
   TChar chr_space; TStr (msg_text msg); TChar chr_newline]%Z.

Lemma line_ops_text msg :
  exists xs, Forall2 (fun op x => op_text op = Some x) (line_ops msg) xs /\ concat xs = message_line msg.
Proof.
  eexists. split.
  - repeat (apply Forall2_cons; split; [first [reflexivity|apply decide_True, (wrap_in_word 32); lia]|]).
    apply Forall2_nil. reflexivity.
  - cbn [concat]. by rewrite app_nil_r.
Qed.

Lemma format_entry_ok e msg sb s :
  entry_of msg e -> sb_rep sb s ->
  exists sb', format_entry e sb = Some sb' /\ sb_rep sb' (message_line msg).
Proof.
  intros (Hts & Htask & _ & _ & Hlen & Hnul & rest & Htext) Hsb.
  destruct (sb_clear_ok _ _ Hsb) as (b0 & E0 & R0). destruct (line_ops_text msg) as (xs & Hxs & Hc).
  destruct (append_ops_ok _ xs b0 [] Hxs R0) as (b & E & R). rewrite Hc in R. cbn [app] in R.
  rewrite fit_id in R by (by apply message_line_fits). exists b. split; [|done]. rewrite <- E.
  unfold format_entry. rewrite E0, Hts, Htask, Htext, c_string_app by done.
  unfold line_ops. run_appends. done.
Qed.

(** ** Draining *)

Definition passes (v : Verbosity) (msg : message) : Prop := (verbosity_code (msg_level msg) <= verbosity_code v)%Z.

#[global] Instance passes_dec v msg : Decision (passes v msg).
Proof. unfold passes. apply _. Defined.

Definition drained (v : Verbosity) (ms : list message) : list (list Z) :=
  message_line <$> filter (passes v) ms.

Lemma drain_loop_ok ms l sb s out :
  telemetry_rep l ms -> sb_rep sb s ->
  exists l', drain_loop (length ms) l sb out = Some (l', out ++ drained (tl_verbosity l) ms) /\
    telemetry_rep l' [] /\ tl_verbosity l' = tl_verbosity l /\ tl_guard l' = tl_guard l.
Proof.
  revert l sb s out. induction ms as [|msg ms IH]; intros l sb s out Hr Hsb; cbn [length drain_loop].
  { exists l. by rewrite app_nil_r. }
  destruct (tr_entries _ _ Hr 0 msg eq_refl) as (e & He & Hok).
  rewrite Nat.add_0_r, Nat.mod_small in He by apply (tr_tail _ _ Hr).
  unfold load at 1. rewrite He. cbn [mbind option_bind]. fold (drop_oldest l).
  pose proof (drop_oldest_rep _ _ _ Hr) as Hr'. change (tl_verbosity (drop_oldest l)) with (tl_verbosity l).
  pose proof Hok as (_ & _ & Hlv & _). rewrite Hlv. unfold drained. rewrite filter_cons.
  destruct (decide (verbosity_code (tl_verbosity l) < verbosity_code (msg_level msg))%Z) as [Hd|Hp].
  - rewrite decide_False by (unfold passes; lia). apply (IH _ _ _ out Hr' Hsb).
  - rewrite decide_True by (unfold passes; lia).
    destruct (format_entry_ok e msg sb s Hok Hsb) as (sb' & -> & Hsb'). cbn [mbind option_bind].
    rewrite (sb_rep_chars _ _ Hsb'). cbn [mbind option_bind].
    destruct (IH _ _ _ (out ++ [message_line msg]) Hr' Hsb') as (l' & E & H').
    exists l'. rewrite E. split; [|done]. by rewrite <- app_assoc.
Qed.

Lemma drain_ok {M} `{!IMutex M} l ms m :
  telemetry_rep l ms ->
  exists l' m', drain true l m = Some (drained (tl_verbosity l) ms, l', m') /\ telemetry_rep l' [] /\
    tl_verbosity l' = tl_verbosity l.
Proof.
  intros Hr. destruct (drain_loop_ok ms l new_builder [] [] Hr new_builder_rep) as (l' & E & H' & Hv & Hg).
  unfold drain. cbn [negb]. rewrite (tr_count _ _ Hr), E. cbn [mbind option_bind]. by eexists _, _.
Qed.

(** ** Properties *)

(** A sequence of [log] calls. *)
Fixpoint telemetry_log_all {M} `{!IMutex M} (calls : list (TaskID * list Z * Verbosity * Z)) (l : TelemetryLogger)
    (m : M) : option (TelemetryLogger * M) :=
  match calls with
  | [] => Some (l, m)
  | (task, str, level, ts) :: calls =>
      '(l, m) ← telemetry_log task str level ts l m; telemetry_log_all calls l m
  end.

Definition call_message (call : TaskID * list Z * Verbosity * Z) : message :=
  let '(task, str, level, ts) := call in message_of task str level ts.

Lemma telemetry_log_all_ok {M} `{!IMutex M} calls l (m : M) past :
  telemetry_rep l (last_n kTelemetryCapacity past) -> Forall (fun c => no_nul c.1.1.2) calls ->
  exists l' m', telemetry_log_all calls l m = Some (l', m') /\
    telemetry_rep l' (last_n kTelemetryCapacity (past ++ (call_message <$> calls))) /\ tl_verbosity l' = tl_verbosity l.
Proof.
  revert l m past. induction calls as [|[[[task str] level] ts] calls IH]; intros l m past Hr Hn; cbn [telemetry_log_all].
  { exists l, m. by rewrite app_nil_r. }
  inversion Hn as [|? ? Hs Hn']. subst.
  destruct (log_entry_ok task str level ts l _ Hr Hs) as (l1 & E1 & Hr1 & Hv1 & _).
  rewrite push_last_last in Hr1 by (unfold kTelemetryCapacity; lia).
  unfold telemetry_log. rewrite E1. cbn [mbind option_bind].
  destruct (IH l1 (guard_unlock l (guard_lock l m)) _ Hr1 Hn') as (l2 & m2 & E2 & Hr2 & Hv2).
  exists l2, m2. split; [|split; [|congruence]].
  - exact E2.
  - by rewrite <- app_assoc in Hr2.
Qed.

(** C39 Telemetry is a black box of the last 32 messages: whatever has been logged under
    whatever guard, [count] answers how many of them there are, and one [drain] writes, oldest first, exactly
    those whose level passes the verbosity threshold, each as one complete line
    "[milliseconds][task] text" with the text cut to 63 characters, and leaves nothing: a
    second drain writes nothing. *)
Theorem telemetry_drains_last {M : Type} `{!IMutex M} (calls : list (TaskID * list Z * Verbosity * Z))
    (guard : bool) (v : Verbosity) (m : M) :
  Forall (fun c => no_nul c.1.1.2) calls ->
  let '(l0, m0) := setVerbosity v (new_telemetry guard) m in
  let kept := last_n 32 (call_message <$> calls) in
  exists l m1 l' m2 l'' m3, telemetry_log_all calls l0 m0 = Some (l, m1) /\
    (telemetry_count l m1).1 = Nat.min (length calls) 32 /\
    drain true l m1 = Some (message_line <$> filter (passes v) kept, l', m2) /\
    drain true l' m2 = Some ([], l'', m3).
Proof.
  intros Hn. cbn [setVerbosity].
  assert (Hr0 : telemetry_rep (setVerbosity v (new_telemetry guard) m).1 (last_n kTelemetryCapacity [])).
  { pose proof (new_telemetry_rep guard) as []. by split. }
  destruct (telemetry_log_all_ok calls _ (setVerbosity v (new_telemetry guard) m).2 [] Hr0 Hn) as (l & m1 & E & Hr & Hv).
  cbn [app] in Hr. destruct (drain_ok l _ m1 Hr) as (l' & m2 & E2 & Hr' & _).
  destruct (drain_ok l' _ m2 Hr') as (l'' & m3 & E3 & _).
  rewrite Hv in E2. exists l, m1, l', m2, l'', m3. split_and!; [exact E| |exact E2|exact E3].
  cbn [telemetry_count fst]. rewrite (tr_count _ _ Hr), last_n_length, length_fmap. done.
Qed.

(** A mutex that counts how often it is held. *)
Definition counting_mutex : IMutex nat := {| mutex_lock _ n := (true, S n); mutex_unlock n := n - 1 |}.

Lemma telemetry_drains_last_witness :
  let H := counting_mutex in
  let calls := [(CONTROL, text "armed", STATUS, 5000%Z); (SYSTEM, text "detail", DEBUG, 6000%Z)] in
  exists l m1 l' m2, telemetry_log_all calls (setVerbosity INFO (new_telemetry true) 0).1 0 = Some (l, m1) /\
    drain true l m1 = Some ([text "[5][ControlTask] armed" ++ [chr_newline]], l', m2).
Proof.
  intros H calls.
  destruct (telemetry_drains_last (M := nat) calls true INFO 0) as (l & m1 & l' & m2 & _ & _ & E1 & _ & E2 & _).
  - repeat constructor; discriminate.
  - exists l, m1, l', m2. split; [exact E1|]. rewrite E2. vm_compute. reflexivity.
Defined.
