(* ===== verification/Sync.v ===== *)
(** * Multi-core start-up and shutdown ([osal/sync/MultiCoreSync.h])

    Two models of the same code. The first is sequential: one core's call of a barrier as
    a function, with what the other cores do before each of its loads and in the poll delay as
    functions of the host. The second is
    concurrent: every core as a state machine that performs one atomic access per step, so
    that a schedule interleaves the accesses in any order; there the barriers are placed as
    [System::run] places them. *)

From Stdlib Require Import String.
From S2P Require Import Prelude.

(** ** Core states *)

Inductive CoreState := CS_UNBORN | CS_INIT | CS_READY | CS_ERROR | CS_SHUTDOWN.

#[global] Instance CoreState_eq_dec : EqDecision CoreState.
Proof. solve_decision. Defined.

Definition core_state_byte (c : CoreState) : Z :=
  match c with
  | CS_UNBORN => 0 | CS_INIT => 1 | CS_READY => 2 | CS_ERROR => 3 | CS_SHUTDOWN => 4
  end.

(** ** Sequential model *)

(** What a barrier needs of the state it runs in: the array of core states, the error
    handler if there is one, what the other cores do before the next load, and [pollDelay],
    behind which they run as well. *)
Class SyncHost (St : Type) := {
  m_states : St -> list CoreState;
  put_states : list CoreState -> St -> St;
  m_errorHandler : option (nat -> string -> St -> St);
  meanwhile : St -> St;
  pollDelay : Z -> St -> St;
}.

(** A new [MultiCoreSync] of [n] cores. *)
Definition new_sync (n : nat) : list CoreState := replicate n CS_UNBORN.

Section sync.
Context {St : Type} `{!SyncHost St}.

Definition setState (st : CoreState) (coreId : nat) (s : St) : option St :=
  l ← store (m_states s) coreId st;
  Some (put_states l s).

Definition setInit : nat -> St -> option St := setState CS_INIT.
Definition setReady : nat -> St -> option St := setState CS_READY.
Definition setShutdown : nat -> St -> option St := setState CS_SHUTDOWN.

Definition setError (coreId : nat) (reason : string) (s : St) : option St :=
  s ← setState CS_ERROR coreId s;
  Some (match m_errorHandler with
        | Some handler => handler coreId reason s
        | None => s
        end).

(** An atomic load of one core's state: other cores may run before it. *)
Definition coreState (coreId : nat) (s : St) : option (CoreState * St) :=
  let s := meanwhile s in
  c ← load (m_states s) coreId;
  Some (c, s).

(** The loops over all cores, from core [i]; [n] are left. *)
Fixpoint anyError (i n : nat) (s : St) : option (bool * St) :=
  match n with
  | O => Some (false, s)
  | S n =>
      '(c, s) ← coreState i s;
      if decide (c = CS_ERROR) then Some (true, s) else anyError (S i) n s
  end.

Fixpoint allInState (target : CoreState) (i n : nat) (s : St) : option (bool * St) :=
  match n with
  | O => Some (true, s)
  | S n =>
      '(c, s) ← coreState i s;
      if decide (c <> target) then Some (false, s) else allInState target (S i) n s
  end.

Fixpoint allTerminated (i n : nat) (s : St) : option (bool * St) :=
  match n with
  | O => Some (true, s)
  | S n =>
      '(c, s) ← coreState i s;
      if decide (c <> CS_SHUTDOWN /\ c <> CS_ERROR) then Some (false, s) else allTerminated (S i) n s
  end.

(** The polling loops. [fuel] bounds the polls: the answer [None] is a loop that is still
    running. *)
Fixpoint startup_loop (fuel n_cores coreId : nat) (timeoutMs pollIntervalMs elapsed : Z) (s : St)
    : option (option bool * St) :=
  if decide (elapsed < timeoutMs)%Z then
    match fuel with
    | O => Some (None, s)
    | S fuel =>
        '(err, s) ← anyError 0 n_cores s;
        if err : bool then
          s ← setError coreId "Peer entered ERROR during startup barrier" s;
          Some (Some false, s)
        else
          '(all, s) ← allInState CS_READY 0 n_cores s;
          if all : bool then Some (Some true, s)
          else startup_loop fuel n_cores coreId timeoutMs pollIntervalMs
                 (u32 (elapsed + pollIntervalMs)) (pollDelay pollIntervalMs s)
    end
  else
    s ← setError coreId "Startup barrier timeout" s;
    Some (Some false, s).

Definition startupBarrier (fuel n_cores coreId : nat) (timeoutMs pollIntervalMs : Z) (s : St)
    : option (option bool * St) :=
  s ← setReady coreId s;
  startup_loop fuel n_cores coreId timeoutMs pollIntervalMs 0 s.

Fixpoint shutdown_loop (fuel n_cores : nat) (timeoutMs pollIntervalMs elapsed : Z) (s : St)
    : option (option bool * St) :=
  if decide (elapsed < timeoutMs)%Z then
    match fuel with
    | O => Some (None, s)
    | S fuel =>
        '(all, s) ← allTerminated 0 n_cores s;
        if all : bool then Some (Some true, s)
        else shutdown_loop fuel n_cores timeoutMs pollIntervalMs
               (u32 (elapsed + pollIntervalMs)) (pollDelay pollIntervalMs s)
    end
  else Some (Some false, s).

Definition shutdownBarrier (fuel n_cores coreId : nat) (timeoutMs pollIntervalMs : Z) (s : St)
    : option (option bool * St) :=
  s ← setShutdown coreId s;
  shutdown_loop fuel n_cores timeoutMs pollIntervalMs 0 s.

Fixpoint waitForCore (fuel peerId : nat) (targetState : CoreState) (timeoutMs pollIntervalMs elapsed : Z)
    (s : St) : option (option bool * St) :=
  if decide (elapsed < timeoutMs)%Z then
    match fuel with
    | O => Some (None, s)
    | S fuel =>
        '(current, s) ← coreState peerId s;
        if decide (core_state_byte targetState <= core_state_byte current)%Z then Some (Some true, s)
        else waitForCore fuel peerId targetState timeoutMs pollIntervalMs
               (u32 (elapsed + pollIntervalMs)) (pollDelay pollIntervalMs s)
    end
  else Some (Some false, s).
End sync.

(** ** What the sequential barriers promise *)

(** The host's laws, for [n] cores: an invariant [host_ok] of its states under which the
    array has [n] entries, and which stores, the error handler and the other cores keep. *)
Class SyncHostSpec (St : Type) `{!SyncHost St} (n : nat) := {
  host_ok : St -> Prop;
  host_length s : host_ok s -> length (m_states s) = n;
  states_put l s : m_states (put_states l s) = l;
  put_ok l s : host_ok s -> length l = n -> host_ok (put_states l s);
  meanwhile_ok s : host_ok s -> host_ok (meanwhile s);
  poll_ok ms s : host_ok s -> host_ok (pollDelay ms s);
  handler_ok h c r s :
    m_errorHandler = Some h -> host_ok s -> host_ok (h c r s) /\ m_states (h c r s) = m_states s;
}.

Definition terminated (c : CoreState) : Prop := c = CS_SHUTDOWN \/ c = CS_ERROR.

(** What the other cores do while one of them polls. *)
Inductive others {St : Type} `{!SyncHost St} (poll : Z) (s : St) : St -> Prop :=
  | others_meanwhile : others poll s (meanwhile s)
  | others_poll : others poll s (pollDelay poll s).

(** A scan from [s] to [s'] of the cores from [i] on: each was in [P] when it was looked at. *)
Definition scanned {St : Type} `{!SyncHost St} (P : CoreState -> Prop) (i n : nat) (s s' : St) : Prop :=
  s' = Nat.iter n meanwhile s /\
  forall d, d < n -> exists c, m_states (Nat.iter (S d) meanwhile s) !! (i + d) = Some c /\ P c.

Section host.
Context {St : Type} `{!SyncHost St} {n : nat} `{!SyncHostSpec St n}.
Implicit Types (s : St).

Lemma coreState_spec i s :
  host_ok s -> i < n -> exists c, coreState i s = Some (c, meanwhile s) /\ m_states (meanwhile s) !! i = Some c /\ host_ok (meanwhile s).
Proof.
  intros Hs%meanwhile_ok Hi. destruct (lookup_lt_is_Some_2 (m_states (meanwhile s)) i) as [c Hc]; [by rewrite (host_length _ Hs)|].
  exists c. unfold coreState, load. by rewrite Hc.
Qed.

Lemma scanned_nil (P : CoreState -> Prop) i s : scanned P i 0 s s.
Proof. split; [done|]. intros d Hd. lia. Qed.

Lemma scanned_cons (P : CoreState -> Prop) i k s s' c :
  m_states (meanwhile s) !! i = Some c -> P c -> scanned P (S i) k (meanwhile s) s' -> scanned P i (S k) s s'.
Proof.
  intros Hc HP [-> H]. split; [by rewrite <- Nat.iter_succ_r|]. intros [|d] Hd.
  - exists c. by rewrite Nat.add_0_r.
  - destruct (H d) as (c' & Hc' & HP'); [lia|]. exists c'. rewrite <- Nat.iter_succ_r in Hc'. by rewrite Nat.add_succ_r.
Qed.

(** A scan returns in a state the other cores have led to. *)
Record scan_result (poll : Z) (P Q : CoreState -> Prop) (b : bool) (i k : nat) s s' : Prop := {
  sr_ok : host_ok s';
  sr_others : rtc (others poll) s s';
  sr_pass : b = true -> scanned P i k s s';
  sr_stop : b = false -> exists d c, i <= d < i + k /\ m_states s' !! d = Some c /\ Q c;
}.

Lemma scan_nil poll (P Q : CoreState -> Prop) i s : host_ok s -> scan_result poll P Q true i 0 s s.
Proof. intros Hs. split; [done|done|intros _; apply scanned_nil|done]. Qed.

Lemma scan_stop poll (P Q : CoreState -> Prop) i k s c :
  host_ok (meanwhile s) -> m_states (meanwhile s) !! i = Some c -> Q c -> scan_result poll P Q false i (S k) s (meanwhile s).
Proof. intros Hs Hc HQ. split; [done|apply rtc_once; constructor|done|]. intros _. exists i, c. split; [lia|done]. Qed.

Lemma scan_cons poll (P Q : CoreState -> Prop) b i k s s' c :
  m_states (meanwhile s) !! i = Some c -> P c -> scan_result poll P Q b (S i) k (meanwhile s) s' -> scan_result poll P Q b i (S k) s s'.
Proof.
  intros Hc HP [H1 H2 H3 H4]. split; [done|by eapply rtc_l; [constructor|]|intros Hb; by eapply scanned_cons; [| |apply H3]|].
  intros Hb. destruct (H4 Hb) as (d & c' & Hd & H). exists d, c'. split; [lia|done].
Qed.

Lemma anyError_spec poll i k s :
  host_ok s -> i + k <= n ->
  exists b s', anyError i k s = Some (b, s') /\ scan_result poll (fun c => c <> CS_ERROR) (eq CS_ERROR) (negb b) i k s s'.
Proof.
  revert i s. induction k as [|k IH]; intros i s Hs Hk; cbn [anyError]; [exists false, s; split; [done|by apply scan_nil]|].
  destruct (coreState_spec i s Hs) as (c & -> & Hc & Hs'); [lia|]. cbn [mbind option_bind]. case_decide as He.
  - exists true, (meanwhile s). split; [done|]. by eapply scan_stop.
  - destruct (IH (S i) (meanwhile s) Hs') as (b & s' & -> & H); [lia|]. exists b, s'. split; [done|]. by eapply scan_cons.
Qed.

Lemma allInState_spec poll target i k s :
  host_ok s -> i + k <= n ->
  exists b s', allInState target i k s = Some (b, s') /\ scan_result poll (eq target) (fun c => c <> target) b i k s s'.
Proof.
  revert i s. induction k as [|k IH]; intros i s Hs Hk; cbn [allInState]; [exists true, s; split; [done|by apply scan_nil]|].
  destruct (coreState_spec i s Hs) as (c & -> & Hc & Hs'); [lia|]. cbn [mbind option_bind]. case_decide as He.
  - exists false, (meanwhile s). split; [done|]. by eapply scan_stop.
  - subst c. destruct (IH (S i) (meanwhile s) Hs') as (b & s' & -> & H); [lia|]. exists b, s'. split; [done|]. by eapply scan_cons.
Qed.

Lemma allTerminated_spec poll i k s :
  host_ok s -> i + k <= n ->
  exists b s', allTerminated i k s = Some (b, s') /\ scan_result poll terminated (fun c => ~ terminated c) b i k s s'.
Proof.
  revert i s. induction k as [|k IH]; intros i s Hs Hk; cbn [allTerminated]; [exists true, s; split; [done|by apply scan_nil]|].
  destruct (coreState_spec i s Hs) as (c & -> & Hc & Hs'); [lia|]. cbn [mbind option_bind]. case_decide as He.
  - exists false, (meanwhile s). split; [done|]. eapply scan_stop; [done|done|]. unfold terminated. tauto.
  - destruct (IH (S i) (meanwhile s) Hs') as (b & s' & -> & H); [lia|]. exists b, s'. split; [done|]. eapply scan_cons; [done| |done].
    unfold terminated. destruct (decide (c = CS_SHUTDOWN)), (decide (c = CS_ERROR)); tauto.
Qed.

Lemma setState_spec st c s :
  host_ok s -> c < n ->
  exists s', setState st c s = Some s' /\ host_ok s' /\ m_states s' = <[c := st]> (m_states s).
Proof.
  intros Hl Hc. pose proof (host_length s Hl). unfold setState. rewrite store_ok by lia. csimpl.
  eexists. split; [done|]. split; [|apply states_put].
  apply put_ok; [done|]. by rewrite length_insert.
Qed.

Lemma setError_spec c reason s :
  host_ok s -> c < n ->
  exists s', setError c reason s = Some s' /\ host_ok s' /\ m_states s' = <[c := CS_ERROR]> (m_states s).
Proof.
  intros Hl Hc. unfold setError. destruct (setState_spec CS_ERROR c s) as (s' & -> & Hok & Hs'); [done..|].
  csimpl. eexists. split; [done|]. destruct m_errorHandler as [hd|] eqn:Hh; [|done].
  destruct (handler_ok hd c reason s' Hh Hok) as [? ->]. done.
Qed.

(** The verdict of the start-up loop. *)
Definition startup_verdict (poll : Z) (c : nat) (b : bool) s s' : Prop :=
  host_ok s' /\
  if b then exists s0, rtc (others poll) s s0 /\ scanned (eq CS_READY) 0 n s0 s' else m_states s' !! c = Some CS_ERROR.

Lemma startup_error poll c reason s0 s :
  host_ok s -> c < n ->
  exists s', setError c reason s = Some s' /\ startup_verdict poll c false s0 s'.
Proof.
  intros Hl Hc. destruct (setError_spec c reason s) as (s' & -> & Hok & Hs'); [done..|].
  exists s'. split; [done|]. split; [done|]. rewrite Hs'.
  apply list_lookup_insert_eq. by rewrite (host_length s Hl).
Qed.

Lemma verdict_later poll c b s1 s2 s' : rtc (others poll) s1 s2 -> startup_verdict poll c b s2 s' -> startup_verdict poll c b s1 s'.
Proof. intros Ho [Hs Hb]. split; [done|]. destruct b; [|done]. destruct Hb as (s0 & H0 & H). exists s0. split; [by etransitivity|done]. Qed.

(** With a positive poll interval and enough fuel the loop ends. *)
Lemma startup_loop_returns c timeout poll fuel elapsed s :
  host_ok s -> c < n -> (0 < poll)%Z -> (0 <= elapsed)%Z ->
  (timeout + poll < 2 ^ 32)%Z -> (timeout - elapsed <= Z.of_nat fuel * poll)%Z ->
  exists b s', startup_loop fuel n c timeout poll elapsed s = Some (Some b, s') /\
    startup_verdict poll c b s s'.
Proof.
  intros Hl Hc Hp He Hw. revert elapsed s Hl He.
  induction fuel as [|fuel IH]; intros e s Hl He Hf; cbn [startup_loop].
  - rewrite decide_False by lia.
    destruct (startup_error poll c "Startup barrier timeout" s s) as (s' & -> & Hs'); [done..|]. csimpl. eauto.
  - case_decide as Ht.
    2: { destruct (startup_error poll c "Startup barrier timeout" s s) as (s' & -> & Hs'); [done..|].
         csimpl. eauto. }
    destruct (anyError_spec poll 0 n s Hl) as (err & s1 & -> & [Hl1 Ho1 _ _]); [lia|]. cbn [mbind option_bind]. destruct err.
    { destruct (startup_error poll c "Peer entered ERROR during startup barrier" s s1) as (s' & -> & Hs');
        [done..|]. csimpl. eauto. }
    destruct (allInState_spec poll CS_READY 0 n s1 Hl1) as (all & s2 & -> & [Hl2 Ho2 Hall _]); [lia|]. cbn [mbind option_bind]. destruct all.
    { exists true, s2. split; [done|]. split; [done|]. exists s1. split; [done|by apply Hall]. }
    rewrite wrap_id by (unfold in_word; lia).
    destruct (IH (e + poll)%Z (pollDelay poll s2)) as (b & s' & -> & Hv); [by apply poll_ok|lia..|].
    exists b, s'. split; [done|]. eapply verdict_later; [|done]. etransitivity; [exact Ho1|]. eapply rtc_r; [exact Ho2|constructor].
Qed.

(** With interval 0 it never ends, as long as the peers do not fail and some core does not get
    ready. *)
Lemma startup_loop_stuck c d timeout fuel s :
  host_ok s -> (0 < timeout)%Z -> d < n ->
  (forall s', rtc (others 0) s s' -> CS_ERROR ∉ m_states s' /\ m_states s' !! d <> Some CS_READY) ->
  exists s', startup_loop fuel n c timeout 0 0 s = Some (None, s').
Proof.
  intros Hl Ht Hd. revert s Hl. induction fuel as [|fuel IH]; intros s Hl Hk; cbn [startup_loop]; rewrite decide_True by done; [by exists s|].
  destruct (anyError_spec 0 0 n s Hl) as (err & s1 & -> & [Hl1 Ho1 _ He]); [lia|]. cbn [mbind option_bind]. destruct err.
  { destruct (He eq_refl) as (i & x & _ & Hx & <-). exfalso. apply (proj1 (Hk s1 Ho1)). by eapply list_elem_of_lookup_2. }
  destruct (allInState_spec 0 CS_READY 0 n s1 Hl1) as (all & s2 & -> & [Hl2 Ho2 Hall _]); [lia|]. cbn [mbind option_bind]. destruct all.
  { exfalso. destruct (Hall eq_refl) as [_ H]. destruct (H d Hd) as (x & Hx & <-). eapply (Hk (Nat.iter (S d) meanwhile s1)); [|exact Hx].
    etransitivity; [exact Ho1|]. generalize (S d). intros m. clear. induction m as [|m IHm]; [done|]. cbn. eapply rtc_r; [exact IHm|constructor]. }
  rewrite wrap_id by (unfold in_word; lia). rewrite Z.add_0_r. apply IH; [by apply poll_ok|].
  intros s' H'. apply Hk. etransitivity; [exact Ho1|]. etransitivity; [exact Ho2|]. eapply rtc_l; [|exact H']. constructor.
Qed.

Lemma shutdown_loop_returns timeout poll fuel elapsed s :
  host_ok s -> (0 < poll)%Z -> (0 <= elapsed)%Z ->
  (timeout + poll < 2 ^ 32)%Z -> (timeout - elapsed <= Z.of_nat fuel * poll)%Z ->
  exists b s', shutdown_loop fuel n timeout poll elapsed s = Some (Some b, s') /\
    host_ok s' /\ (b = true -> exists s0, rtc (others poll) s s0 /\ scanned terminated 0 n s0 s').
Proof.
  intros Hl Hp He Hw. revert elapsed s Hl He.
  induction fuel as [|fuel IH]; intros e s Hl He Hf; cbn [shutdown_loop].
  - rewrite decide_False by lia. by exists false, s.
  - case_decide; [|by exists false, s].
    destruct (allTerminated_spec poll 0 n s Hl) as (all & s1 & -> & [Hl1 Ho1 Hall _]); [lia|]. cbn [mbind option_bind]. destruct all.
    { exists true, s1. split; [done|]. split; [done|]. intros _. exists s. split; [done|by apply Hall]. }
    rewrite wrap_id by (unfold in_word; lia). destruct (IH (e + poll)%Z (pollDelay poll s1)) as (b & s' & -> & Hok & Hv); [by apply poll_ok|lia..|].
    exists b, s'. split; [done|]. split; [done|]. intros Hb. destruct (Hv Hb) as (s0 & H0 & Hsc). exists s0. split; [|done].
    etransitivity; [exact Ho1|]. eapply rtc_l; [constructor|exact H0].
Qed.
End host.

(** ** Concurrent model *)

Section cores.
(** The number of cores and the arguments [System::run] gives the barriers. *)
Context (n_cores : nat) (timeoutMs pollIntervalMs : Z).

(** Where a core is in [System::run]. [Work] is the dispatch loop, with the answer of
    [startupBarrier] that [run] ignores; [Gone] is the end, with both answers. *)
Inductive core_pc :=
  | Born
  | Initing
  | StartTest (elapsed : Z)
  | StartScanError (elapsed : Z) (i : nat)
  | StartScanReady (elapsed : Z) (i : nat)
  | StartFail
  | Work (started : bool)
  | StopTest (started : bool) (elapsed : Z)
  | StopScan (started : bool) (elapsed : Z) (i : nat)
  | Gone (started stopped : bool).

Record multicore := Multicore { mc_states : list CoreState; mc_pcs : list core_pc }.

Definition multicore_init : multicore :=
  Multicore (new_sync n_cores) (replicate n_cores Born).

(** One step of core [c]: at most one access to the array of states. *)
Definition core_step (c : nat) (w : multicore) : option multicore :=
  let goto pc := Multicore (mc_states w) <$> store (mc_pcs w) c pc in
  let write st pc :=
    l ← store (mc_states w) c st;
    Multicore l <$> store (mc_pcs w) c pc in
  pc ← load (mc_pcs w) c;
  match pc with
  | Born => write CS_INIT Initing
  | Initing => write CS_READY (StartTest 0)
  | StartTest e =>
      if decide (e < timeoutMs)%Z then goto (StartScanError e 0) else write CS_ERROR (Work false)
  | StartScanError e i =>
      st ← load (mc_states w) i;
      if decide (st = CS_ERROR) then goto StartFail
      else if decide (S i = n_cores) then goto (StartScanReady e 0)
      else goto (StartScanError e (S i))
  | StartScanReady e i =>
      st ← load (mc_states w) i;
      if decide (st <> CS_READY) then goto (StartTest (u32 (e + pollIntervalMs)))
      else if decide (S i = n_cores) then goto (Work true)
      else goto (StartScanReady e (S i))
  | StartFail => write CS_ERROR (Work false)
  | Work b => write CS_SHUTDOWN (StopTest b 0)
  | StopTest b e =>
      if decide (e < timeoutMs)%Z then goto (StopScan b e 0) else goto (Gone b false)
  | StopScan b e i =>
      st ← load (mc_states w) i;
      if decide (st <> CS_SHUTDOWN /\ st <> CS_ERROR) then goto (StopTest b (u32 (e + pollIntervalMs)))
      else if decide (S i = n_cores) then goto (Gone b true)
      else goto (StopScan b e (S i))
  | Gone _ _ => Some w
  end.

(** A schedule names the core of each step. *)
Fixpoint run_schedule (cs : list nat) (w : multicore) : option multicore :=
  match cs with
  | [] => Some w
  | c :: cs => w ← core_step c w; run_schedule cs w
  end.

(** The core has entered the start-up barrier. *)
Definition arrived (pc : core_pc) : bool :=
  match pc with Born | Initing => false | _ => true end.

(** Its start-up barrier answered true. *)
Definition started (pc : core_pc) : bool :=
  match pc with Work b | StopTest b _ | StopScan b _ _ | Gone b _ => b | _ => false end.

(** The core has left its dispatch loop. *)
Definition has_left (pc : core_pc) : bool :=
  match pc with StopTest _ _ | StopScan _ _ _ | Gone _ _ => true | _ => false end.

(** What the state of a core says about where it is. *)
Definition state_says (st : CoreState) (pc : core_pc) : Prop :=
  match st with
  | CS_UNBORN => pc = Born
  | CS_INIT => pc = Initing
  | CS_READY => arrived pc = true
  | CS_ERROR => pc = Work false
  | CS_SHUTDOWN => has_left pc = true
  end.

(** Every core in [0..k) has a pc in [P]. *)
Definition cores_at (P : core_pc -> Prop) (k : nat) (pcs : list core_pc) : Prop :=
  forall d, d < k -> exists pc, pcs !! d = Some pc /\ P pc.

(** What a core may infer from where it is: who has arrived and who has left. A core that
    failed at start-up counts as left, though it still runs. *)
Definition pc_knows (pcs : list core_pc) (pc : core_pc) : Prop :=
  (started pc = true -> cores_at (fun q => arrived q = true) n_cores pcs) /\
  match pc with
  | StartScanError _ i => i < n_cores
  | StartScanReady _ i => i < n_cores /\ cores_at (fun q => arrived q = true) i pcs
  | StopScan _ _ i => i < n_cores /\ cores_at (fun q => has_left q = true \/ q = Work false) i pcs
  | Gone _ true => cores_at (fun q => has_left q = true \/ q = Work false) n_cores pcs
  | _ => True
  end.

Record multicore_inv (w : multicore) : Prop := {
  inv_states : length (mc_states w) = n_cores;
  inv_says : Forall2 state_says (mc_states w) (mc_pcs w);
  inv_knows : Forall (pc_knows (mc_pcs w)) (mc_pcs w);
}.

Definition departed (pc : core_pc) : Prop := has_left pc = true \/ pc = Work false.

Lemma cores_at_insert (P : core_pc -> Prop) k pcs c p p' :
  pcs !! c = Some p -> (P p -> P p') -> cores_at P k pcs -> cores_at P k (<[c := p']> pcs).
Proof.
  intros Hc HP H d Hd. destruct (H d Hd) as (q & Hq & Pq). destruct (decide (d = c)) as [->|Hne].
  - exists p'. split; [apply list_lookup_insert_eq; by eapply lookup_lt_Some|].
    simplify_eq. auto.
  - exists q. by rewrite list_lookup_insert_ne.
Qed.

Lemma cores_at_S (P : core_pc -> Prop) k pcs pc :
  cores_at P k pcs -> pcs !! k = Some pc -> P pc -> cores_at P (S k) pcs.
Proof.
  intros H Hk HP d Hd. destruct (decide (d = k)) as [->|Hne]; [eauto|]. apply H. lia.
Qed.

Lemma pc_knows_insert pcs c p p' q :
  pcs !! c = Some p -> (arrived p = true -> arrived p' = true) -> (departed p -> departed p') ->
  pc_knows pcs q -> pc_knows (<[c := p']> pcs) q.
Proof.
  intros Hc Ha Hl [Hs Hq]. split.
  - intros H. eapply cores_at_insert; eauto.
  - destruct q; try done; try (destruct Hq as [Hi Hq]; split; [done|]);
      try (case_match; [|done]); eapply cores_at_insert; eauto.
Qed.

(** What a step must establish. *)
Lemma inv_update w c p p' st :
  multicore_inv w -> mc_pcs w !! c = Some p ->
  (arrived p = true -> arrived p' = true) -> (departed p -> departed p') ->
  state_says st p' -> pc_knows (<[c := p']> (mc_pcs w)) p' ->
  multicore_inv (Multicore (<[c := st]> (mc_states w)) (<[c := p']> (mc_pcs w))).
Proof.
  intros [Hn Hs Hk] Hc Ha Hl Hst Hp. split; simpl.
  - by rewrite length_insert.
  - by apply Forall2_insert.
  - apply Forall_insert; [|done]. eapply Forall_impl; [exact Hk|]. intros q. by eapply pc_knows_insert.
Qed.

Lemma inv_goto w c p p' st :
  multicore_inv w -> mc_pcs w !! c = Some p -> mc_states w !! c = Some st ->
  (arrived p = true -> arrived p' = true) -> (departed p -> departed p') ->
  state_says st p' -> pc_knows (<[c := p']> (mc_pcs w)) p' ->
  multicore_inv (Multicore (mc_states w) (<[c := p']> (mc_pcs w))).
Proof.
  intros Hw Hc Hst. intros. rewrite <- (list_insert_id (mc_states w) c st) by done.
  by eapply inv_update.
Qed.

Lemma inv_lookup w i :
  multicore_inv w -> i < n_cores ->
  exists st pc, mc_states w !! i = Some st /\ mc_pcs w !! i = Some pc /\ state_says st pc.
Proof.
  intros [Hn Hs _] Hi. destruct (lookup_lt_is_Some_2 (mc_states w) i) as [st Hst]; [lia|].
  destruct (Forall2_lookup_l _ _ _ _ _ Hs Hst) as (pc & Hpc & Hsay). eauto.
Qed.

Lemma multicore_init_inv : multicore_inv multicore_init.
Proof.
  split; simpl; unfold new_sync.
  - by rewrite length_replicate.
  - by apply Forall2_replicate.
  - by apply Forall_replicate.
Qed.

(** The scans pass a core only when it has arrived, or departed. *)
Lemma scan_passes (P : core_pc -> Prop) w c i p p' pc :
  mc_pcs w !! c = Some p -> (P p -> P p') -> mc_pcs w !! i = Some pc -> P pc ->
  cores_at P i (mc_pcs w) -> cores_at P (S i) (<[c := p']> (mc_pcs w)).
Proof. intros Hc HP Hi Hpc H. eapply cores_at_insert; eauto. by eapply cores_at_S. Qed.

Section step.
Context (c : nat) (w : multicore) (p : core_pc) (st : CoreState).
Hypothesis Hw : multicore_inv w.
Hypothesis Hst : mc_states w !! c = Some st.
Hypothesis Hp : mc_pcs w !! c = Some p.
Hypothesis Hsay : state_says st p.

Lemma pcs_store p' : store (mc_pcs w) c p' = Some (<[c := p']> (mc_pcs w)).
Proof. apply store_ok. by eapply lookup_lt_Some. Qed.

Lemma step_goto p' :
  (arrived p = true -> arrived p' = true) -> (departed p -> departed p') ->
  state_says st p' -> pc_knows (<[c := p']> (mc_pcs w)) p' ->
  exists w', Multicore (mc_states w) <$> store (mc_pcs w) c p' = Some w' /\ multicore_inv w'.
Proof.
  intros. rewrite pcs_store. eexists. split; [done|]. by eapply inv_goto.
Qed.

Lemma step_write st' p' :
  (arrived p = true -> arrived p' = true) -> (departed p -> departed p') ->
  state_says st' p' -> pc_knows (<[c := p']> (mc_pcs w)) p' ->
  exists w', (l ← store (mc_states w) c st'; Multicore l <$> store (mc_pcs w) c p') = Some w' /\
    multicore_inv w'.
Proof.
  intros. rewrite pcs_store, store_ok by (by eapply lookup_lt_Some). csimpl.
  eexists. split; [done|]. by eapply inv_update.
Qed.

Lemma knows_same p' :
  (arrived p = true -> arrived p' = true) -> (departed p -> departed p') ->
  pc_knows (mc_pcs w) p' -> pc_knows (<[c := p']> (mc_pcs w)) p'.
Proof. intros. by eapply pc_knows_insert. Qed.
End step.

Ltac pc_facts := unfold departed, pc_knows, terminated in *; simpl in *; intuition (try congruence).

Lemma core_step_inv c w :
  c < n_cores -> multicore_inv w -> exists w', core_step c w = Some w' /\ multicore_inv w'.
Proof.
  intros Hc Hw. destruct (inv_lookup w c) as (st & p & Hst & Hp & Hsay); [done..|].
  assert (Hk : pc_knows (mc_pcs w) p) by (eapply Forall_lookup_1; [exact (inv_knows w Hw)|exact Hp]).
  unfold core_step, load. rewrite Hp. cbn [mbind option_bind].
  destruct p as [| |e|e i|e i| |b|b e|b e i|a b].
  - eapply step_write; eauto; pc_facts.
  - eapply step_write; eauto; pc_facts.
  - case_decide.
    + eapply step_goto; eauto; [destruct st; pc_facts..|]. eapply knows_same; eauto; pc_facts; lia.
    + eapply step_write; eauto; pc_facts.
  - destruct Hk as [_ Hi]. destruct (inv_lookup w i) as (si & q & Hsi & Hq & Hsq); [done..|].
    rewrite Hsi. csimpl. repeat case_decide.
    + eapply step_goto; eauto; [destruct st; pc_facts..|]. eapply knows_same; eauto; pc_facts.
    + eapply step_goto; eauto; [destruct st; pc_facts..|]. eapply knows_same; eauto; pc_facts; try lia.
      intros d Hd. lia.
    + eapply step_goto; eauto; [destruct st; pc_facts..|]. eapply knows_same; eauto; pc_facts; lia.
  - destruct Hk as [_ [Hi Hk]]. destruct (inv_lookup w i) as (si & q & Hsi & Hq & Hsq); [done..|].
    rewrite Hsi. csimpl. case_decide as Hr; [|subst si; simpl in Hsq].
    { eapply step_goto; eauto; [destruct st; pc_facts..|]. eapply knows_same; eauto; pc_facts. }
    assert (Hpass : forall p', arrived p' = true ->
      cores_at (fun x => arrived x = true) (S i) (<[c := p']> (mc_pcs w))).
    { intros p' Ha. eapply scan_passes; eauto. }
    case_decide as Hlast.
    + eapply step_goto; eauto; [destruct st; pc_facts..|]. split; [|done]. rewrite <- Hlast. auto.
    + eapply step_goto; eauto; [destruct st; pc_facts..|]. split; [done|]. split; [lia|]. auto.
  - eapply step_write; eauto; pc_facts.
  - eapply step_write; eauto; [pc_facts..|]. eapply knows_same; eauto; pc_facts.
  - case_decide; (eapply step_goto; eauto; [destruct st; pc_facts..|]);
      eapply knows_same; eauto; pc_facts; try lia. intros d Hd. lia.
  - destruct Hk as [Hs [Hi Hk]]. destruct (inv_lookup w i) as (si & q & Hsi & Hq & Hsq); [done..|].
    rewrite Hsi. csimpl. case_decide as Hr.
    { eapply step_goto; eauto; [destruct st; pc_facts..|]. eapply knows_same; eauto; pc_facts. }
    assert (Hdq : departed q) by (destruct si; simpl in Hsq; unfold departed; intuition congruence).
    assert (Hpass : forall p', departed p' -> cores_at departed (S i) (<[c := p']> (mc_pcs w))).
    { intros p' Ha. eapply scan_passes; eauto. }
    assert (Hst' : forall p', started p' = b -> arrived p' = true ->
      started p' = true -> cores_at (fun x => arrived x = true) n_cores (<[c := p']> (mc_pcs w))).
    { intros p' <- Ha Ht. eapply cores_at_insert; [done| |by apply Hs]. done. }
    case_decide as Hlast; (eapply step_goto; eauto; [destruct st; pc_facts..|]); split; eauto.
    + simpl. rewrite <- Hlast. apply Hpass. by left.
    + split; [lia|]. apply Hpass. by left.
  - exists w. done.
Qed.

Lemma run_schedule_inv cs w :
  Forall (fun c => c < n_cores) cs -> multicore_inv w ->
  exists w', run_schedule cs w = Some w' /\ multicore_inv w'.
Proof.
  intros Hcs. revert w. induction Hcs as [|c cs Hc _ IH]; intros w Hw; simpl; [eauto|].
  destruct (core_step_inv c w Hc Hw) as (w' & -> & Hw'). csimpl. auto.
Qed.
End cores.

(** ** Two cores that disagree *)

Section disagreement.
Context (timeoutMs pollIntervalMs : Z).
Abbreviation sched := (run_schedule 2 timeoutMs pollIntervalMs).

Lemma run_schedule_app cs1 cs2 w :
  sched (cs1 ++ cs2) w = w' ← sched cs1 w; sched cs2 w'.
Proof.
  revert w. induction cs1 as [|c cs1 IH]; intros w; simpl; [done|].
  destruct (core_step _ _ _ c w) as [w'|]; [|done]. csimpl. apply IH.
Qed.

(** Core 0 has passed the barrier and gone on to SHUTDOWN: core 1 polls until its timeout. *)
Lemma late_core_times_out e :
  (0 < pollIntervalMs)%Z -> (timeoutMs + pollIntervalMs < 2 ^ 32)%Z -> (0 <= e)%Z ->
  exists cs, Forall (fun c => c < 2) cs /\
    sched cs (Multicore [CS_SHUTDOWN; CS_READY] [StopTest true 0; StartTest e]) =
      Some (Multicore [CS_SHUTDOWN; CS_ERROR] [StopTest true 0; Work false]).
Proof.
  intros Hp Hw He. remember (Z.to_nat (timeoutMs - e)) as m eqn:Hm.
  revert e He Hm. induction (lt_wf m) as [m _ IH]; intros e He Hm.
  destruct (decide (e < timeoutMs)%Z) as [Hlt|Hge].
  - destruct (IH (Z.to_nat (timeoutMs - (e + pollIntervalMs)))) with (e := (e + pollIntervalMs)%Z)
      as (cs & Hcs & Hrun); [lia..|].
    exists ([1; 1; 1; 1] ++ cs). split; [by repeat (constructor; [lia|])|].
    rewrite run_schedule_app. simpl. unfold core_step. simpl. rewrite decide_True by done. csimpl.
    rewrite wrap_id by (unfold in_word; lia). exact Hrun.
  - exists [1]. split; [by repeat (constructor; [lia|])|]. simpl. unfold core_step. simpl.
    by rewrite decide_False.
Qed.
End disagreement.

(** ** Properties *)

(** The barriers of [System::run] hold in every interleaving of the cores' accesses: no
    core gets past the start-up barrier with the answer true before every core has entered
    it, and none gets the answer true from the shutdown barrier before every core has left
    its dispatch loop, except for cores whose own start-up barrier failed. No access leaves
    the array of states. *)
Theorem barriers_safe (n : nat) (timeoutMs pollIntervalMs : Z) (cs : list nat) :
  Forall (fun c => c < n) cs ->
  exists w, run_schedule n timeoutMs pollIntervalMs cs (multicore_init n) = Some w /\
    forall c pc, mc_pcs w !! c = Some pc ->
      (started pc = true -> forall d, d < n -> exists q, mc_pcs w !! d = Some q /\ arrived q = true) /\
      (forall b, pc = Gone b true -> forall d, d < n ->
         exists q, mc_pcs w !! d = Some q /\ (has_left q = true \/ q = Work false)).
Proof.
  intros Hcs.
  destruct (run_schedule_inv n timeoutMs pollIntervalMs cs _ Hcs (multicore_init_inv n)) as (w & Hr & Hw).
  exists w. split; [done|]. intros c pc Hpc.
  pose proof (Forall_lookup_1 _ _ _ _ (inv_knows _ w Hw) Hpc) as [Hs Hk]. split; [exact Hs|].
  intros b ->. exact Hk.
Qed.

Lemma barriers_safe_witness :
  Forall (fun c => c < 2) [0; 1; 0; 1; 0; 0; 0; 0; 0] /\
  exists w, run_schedule 2 2000 1 [0; 1; 0; 1; 0; 0; 0; 0; 0] (multicore_init 2) = Some w /\
    forall c pc, mc_pcs w !! c = Some pc ->
      (started pc = true -> forall d, d < 2 -> exists q, mc_pcs w !! d = Some q /\ arrived q = true) /\
      (forall b, pc = Gone b true -> forall d, d < 2 ->
         exists q, mc_pcs w !! d = Some q /\ (has_left q = true \/ q = Work false)).
Proof.
  assert (H : Forall (fun c => c < 2) [0; 1; 0; 1; 0; 0; 0; 0; 0]) by (repeat (constructor; [lia|]); constructor).
  split; [exact H|exact (barriers_safe 2 2000 1 _ H)].
Defined.

(** The cores need not agree. There is a schedule of two cores, both of which start and
    enter the barrier, in which core 0 passes it, finishes its work and reaches SHUTDOWN
    before core 1 has looked: core 1 never sees all cores READY, times out and marks itself
    ERROR, but goes on to dispatch; and core 0's shutdown barrier takes that mark for
    termination and answers true while core 1 is still running. *)
Theorem startup_disagreement (timeoutMs pollIntervalMs : Z) :
  (0 < timeoutMs)%Z -> (0 < pollIntervalMs)%Z -> (timeoutMs + pollIntervalMs < 2 ^ 32)%Z ->
  exists cs, Forall (fun c => c < 2) cs /\
    run_schedule 2 timeoutMs pollIntervalMs cs (multicore_init 2) =
      Some (Multicore [CS_SHUTDOWN; CS_ERROR] [Gone true true; Work false]).
Proof.
  intros Ht Hp Hw.
  destruct (late_core_times_out timeoutMs pollIntervalMs 0) as (cs & Hcs & Hrun); [done..|].
  exists ([0; 1; 0; 1; 0; 0; 0; 0; 0; 0] ++ cs ++ [0; 0; 0]). split.
  - repeat apply Forall_app_2; [|done|]; by repeat (constructor; [lia|]).
  - rewrite run_schedule_app. simpl. unfold core_step. simpl.
    rewrite decide_True by done. csimpl.
    rewrite run_schedule_app, Hrun. simpl. unfold core_step. simpl. by rewrite decide_True.
Qed.

Lemma startup_disagreement_witness :
  exists cs, Forall (fun c => c < 2) cs /\
    run_schedule 2 2000 1 cs (multicore_init 2) =
      Some (Multicore [CS_SHUTDOWN; CS_ERROR] [Gone true true; Work false]).
Proof. apply (startup_disagreement 2000 1); lia. Defined.

(** C38 A barrier called with a positive poll interval returns, at the latest when its timeout
    has been counted down, whatever the other cores do between its loads and in its delays: the
    start-up barrier answers true only when each core was READY at the moment it looked at it, in
    one scan behind which it returns, and false with the caller in ERROR; the shutdown barrier
    answers true only when each core was in SHUTDOWN or ERROR when it looked at it. With interval
    0 the start-up barrier never times out: as long as no core fails and some core does not get
    ready it does not return. *)
Theorem barriers_return {St : Type} `{!SyncHost St} (n c fuel : nat) (timeoutMs poll : Z) (s : St) :
  forall Hspec : SyncHostSpec St n, host_ok s -> c < n ->
  (0 < timeoutMs)%Z -> (0 <= poll)%Z -> (timeoutMs + poll < 2 ^ 32)%Z ->
  (0 < poll -> timeoutMs <= Z.of_nat fuel * poll ->
    (exists s1 b s', setReady c s = Some s1 /\ startupBarrier fuel n c timeoutMs poll s = Some (Some b, s') /\
       if b : bool then exists s0, rtc (others poll) s1 s0 /\ scanned (eq CS_READY) 0 n s0 s' else m_states s' !! c = Some CS_ERROR) /\
    (exists s1 b s', setShutdown c s = Some s1 /\ shutdownBarrier fuel n c timeoutMs poll s = Some (Some b, s') /\
       (b = true -> exists s0, rtc (others poll) s1 s0 /\ scanned terminated 0 n s0 s')))%Z /\
  (poll = 0%Z -> forall s1 d, setReady c s = Some s1 -> d < n ->
    (forall s2, rtc (others 0) s1 s2 -> CS_ERROR ∉ m_states s2 /\ m_states s2 !! d <> Some CS_READY) ->
    exists s', startupBarrier fuel n c timeoutMs poll s = Some (None, s')).
Proof.
  intros Hspec Hl Hc Ht Hp Hw. unfold startupBarrier, shutdownBarrier.
  destruct (setState_spec CS_READY c s Hl Hc) as (s1 & H1 & L1 & _).
  destruct (setState_spec CS_SHUTDOWN c s Hl Hc) as (s2 & H2 & L2 & _).
  unfold setReady, setShutdown. rewrite H1, H2. csimpl.
  split.
  - intros Hpos Hf. split.
    + destruct (startup_loop_returns c timeoutMs poll fuel 0 s1) as (b & s' & -> & _ & Hv); [done || lia..|].
      by exists s1, b, s'.
    + destruct (shutdown_loop_returns timeoutMs poll fuel 0 s2) as (b & s' & -> & _ & Hv); [done || lia..|].
      by exists s2, b, s'.
  - intros -> s1' d [= <-] Hd Hk. by apply (startup_loop_stuck c d timeoutMs fuel s1).
Qed.

(** A host whose core 0 is ready, and leaves while core 1 looks around; the number counts the
    loads. *)
#[local] Instance restless_peer : SyncHost (list CoreState * nat) := {
  m_states s := s.1;
  put_states l s := (l, s.2);
  m_errorHandler := None;
  meanwhile s := (<[0 := if decide (s.2 < 3) then CS_READY else CS_SHUTDOWN]> s.1, S s.2);
  pollDelay _ s := s;
}.

#[local] Instance restless_peer_spec : SyncHostSpec (list CoreState * nat) 2.
Proof.
  refine {| host_ok := fun s : list CoreState * nat => length s.1 = 2 |}; try done.
  intros [l k] Hs. simpl in *. by rewrite length_insert.
Defined.

Lemma barriers_return_witness :
  (exists s1 b s', setReady 1 ([CS_INIT; CS_INIT], 0) = Some s1 /\ startupBarrier 2000 2 1 2000 1 ([CS_INIT; CS_INIT], 0) = Some (Some b, s') /\
     if b : bool then exists s0, rtc (others 1) s1 s0 /\ scanned (eq CS_READY) 0 2 s0 s' else m_states s' !! 1 = Some CS_ERROR) /\
  (exists s1 b s', setShutdown 1 ([CS_INIT; CS_INIT], 0) = Some s1 /\ shutdownBarrier 2000 2 1 2000 1 ([CS_INIT; CS_INIT], 0) = Some (Some b, s') /\
     (b = true -> exists s0, rtc (others 1) s1 s0 /\ scanned terminated 0 2 s0 s')).
Proof.
  destruct (barriers_return 2 1 2000 2000 1 ([CS_INIT; CS_INIT], 0) restless_peer_spec) as [H _];
    [reflexivity|lia..|apply H; lia].
Defined.

(** The peer is gone by the time the barrier answers true. *)
Example restless_peer_gone :
  startupBarrier 2000 2 1 2000 1 ([CS_INIT; CS_INIT], 0) = Some (Some true, ([CS_SHUTDOWN; CS_READY], 4)).
Proof. vm_compute. reflexivity. Qed.
