(* ===== verification/Kernel.v ===== *)
(** * The kernel's state

    [kernel/KernelState.h], [CoreDispatchMode.h], the static members of
    [kernel/System.h] with its task lists and its lifecycle state machine, and
    [osal/sync/WatchdogSync.h]. Tasks are objects of user code: a task is an identifier,
    its virtual functions are the fields of [Env]. *)

From S2P Require Import Prelude Float32 Protocol Queue Metrics ErrorLog Sync Telemetry.

(** ** Enumerations *)

Inductive KernelState :=
  | UNCONFIGURED | CONFIGURED | INITIALIZING | RUNNING | SUSPENDING | SUSPENDED
  | ABORTING | ABORTED | SHUTTING_DOWN | SHUTDOWN.

#[global] Instance KernelState_eq_dec : EqDecision KernelState.
Proof. solve_decision. Defined.

(** [static_cast<uint8_t>(state)] *)
Definition state_byte (k : KernelState) : Z :=
  match k with
  | UNCONFIGURED => 0 | CONFIGURED => 1 | INITIALIZING => 2 | RUNNING => 3 | SUSPENDING => 4
  | SUSPENDED => 5 | ABORTING => 6 | ABORTED => 7 | SHUTTING_DOWN => 8 | SHUTDOWN => 9
  end.

Inductive CoreDispatchMode := FLAT_LOOP | CRUNCH.

#[global] Instance CoreDispatchMode_eq_dec : EqDecision CoreDispatchMode.
Proof. solve_decision. Defined.

(** ** The inter-core watchdog ([WatchdogSync.h]) *)

Record WatchdogSync := Watchdog {
  wd_lastKick : list Z;
  wd_alive : list bool;
}.

Definition new_watchdog (n_cores : nat) : WatchdogSync :=
  Watchdog (replicate n_cores 0%Z) (replicate n_cores false).

(** The kick is stored as an [int64_t] and read back as a [uint64_t]: the same bits. *)
Definition kick (coreId : nat) (systemTimeMicros : Z) (w : WatchdogSync) : option WatchdogSync :=
  ks ← store (wd_lastKick w) coreId systemTimeMicros;
  al ← store (wd_alive w) coreId true;
  Some (Watchdog ks al).

Definition isStale (coreId : nat) (systemTimeMicros timeout : Z) (w : WatchdogSync) : option bool :=
  alive ← load (wd_alive w) coreId;
  if negb alive then Some false
  else
    lastKick ← load (wd_lastKick w) coreId;
    Some (bool_decide (timeout < u64 (systemTimeMicros - lastKick))%Z).

Definition lastKickTime (coreId : nat) (w : WatchdogSync) : option Z := load (wd_lastKick w) coreId.
Definition hasStarted (coreId : nat) (w : WatchdogSync) : option bool := load (wd_alive w) coreId.

(** ** Task lists ([System.h], [CoreData]) *)

(** [ConfigTraits.h] *)
Definition kMaxTasksPerCore : nat := 256.
#[global] Arguments kMaxTasksPerCore : simpl never.

Record CoreData := Core {
  cd_tasks : list (option nat);
  cd_taskCount : nat;
  cd_mode : CoreDispatchMode;
  cd_crunchTask : option nat;
}.

Definition new_core : CoreData := Core (replicate kMaxTasksPerCore None) 0 FLAT_LOOP None.

Definition isActive (c : CoreData) : bool :=
  bool_decide (0 < cd_taskCount c) || bool_decide (is_Some (cd_crunchTask c)).

(** [task(idx)] *)
Definition core_task (idx : nat) (c : CoreData) : option (option nat) :=
  if decide (idx < cd_taskCount c) then load (cd_tasks c) idx else Some None.

Definition addTask (tsk : option nat) (c : CoreData) : option CoreData :=
  match tsk with
  | Some _ =>
      if decide (cd_taskCount c < kMaxTasksPerCore) then
        tasks ← store (cd_tasks c) (cd_taskCount c) tsk;
        Some (Core tasks (S (cd_taskCount c)) (cd_mode c) (cd_crunchTask c))
      else Some c
  | None => Some c
  end.

(** The loop of [prependTask], for [i] down to 1. *)
Fixpoint shift_right (i : nat) (tasks : list (option nat)) : option (list (option nat)) :=
  match i with
  | O => Some tasks
  | S i' => x ← load tasks i'; tasks ← store tasks i x; shift_right i' tasks
  end.

Definition prependTask (tsk : option nat) (c : CoreData) : option CoreData :=
  match tsk with
  | Some _ =>
      if decide (cd_taskCount c < kMaxTasksPerCore) then
        tasks ← shift_right (cd_taskCount c) (cd_tasks c);
        tasks ← store tasks 0 tsk;
        Some (Core tasks (S (cd_taskCount c)) (cd_mode c) (cd_crunchTask c))
      else Some c
  | None => Some c
  end.

(** ** The crunch dispatcher's members ([CrunchDispatcher.h]) *)

Record CrunchDispatcher := CrunchDisp {
  m_task : option nat;
  m_watchdogKick : bool;
  m_consecutiveOverruns : Z;
  m_totalOverruns : Z;
}.

Definition new_crunch : CrunchDispatcher := CrunchDisp None false 0 0.

(** ** The system *)

Section system.
(** The state of user code and hardware. *)
Context {W : Type}.

(** What code outside the scheduler may touch through [System]'s public accessors.
    [sh_reads] counts the reads of the platform clock; the timers are members of the tasks
    ([ITask::timer]), found by the task's number. *)
Record Shared := Share {
  sh_log : ErrorLogger;
  sh_queue : ring Command;
  sh_watchdog : WatchdogSync;
  sh_sync : list CoreState;
  sh_safetyAbort : bool;
  sh_reads : nat;
  sh_taskTimers : gmap nat TaskTimer;
  sh_schedulerHealth : SchedulerHealthMetrics;
  sh_memProfiler : MemoryProfiler;
  sh_telemetry : TelemetryLogger;
  sh_world : W;
}.

Definition set_log (l : ErrorLogger) (h : Shared) : Shared :=
  Share l (sh_queue h) (sh_watchdog h) (sh_sync h) (sh_safetyAbort h) (sh_reads h) (sh_taskTimers h)
    (sh_schedulerHealth h) (sh_memProfiler h) (sh_telemetry h) (sh_world h).
Definition set_queue (q : ring Command) (h : Shared) : Shared :=
  Share (sh_log h) q (sh_watchdog h) (sh_sync h) (sh_safetyAbort h) (sh_reads h) (sh_taskTimers h)
    (sh_schedulerHealth h) (sh_memProfiler h) (sh_telemetry h) (sh_world h).
Definition set_watchdog (w : WatchdogSync) (h : Shared) : Shared :=
  Share (sh_log h) (sh_queue h) w (sh_sync h) (sh_safetyAbort h) (sh_reads h) (sh_taskTimers h)
    (sh_schedulerHealth h) (sh_memProfiler h) (sh_telemetry h) (sh_world h).
Definition set_sync (l : list CoreState) (h : Shared) : Shared :=
  Share (sh_log h) (sh_queue h) (sh_watchdog h) l (sh_safetyAbort h) (sh_reads h) (sh_taskTimers h)
    (sh_schedulerHealth h) (sh_memProfiler h) (sh_telemetry h) (sh_world h).
Definition set_reads (n : nat) (h : Shared) : Shared :=
  Share (sh_log h) (sh_queue h) (sh_watchdog h) (sh_sync h) (sh_safetyAbort h) n (sh_taskTimers h)
    (sh_schedulerHealth h) (sh_memProfiler h) (sh_telemetry h) (sh_world h).
Definition set_sh_taskTimers (m : gmap nat TaskTimer) (h : Shared) : Shared :=
  Share (sh_log h) (sh_queue h) (sh_watchdog h) (sh_sync h) (sh_safetyAbort h) (sh_reads h) m
    (sh_schedulerHealth h) (sh_memProfiler h) (sh_telemetry h) (sh_world h).
Definition set_sh_schedulerHealth (m : SchedulerHealthMetrics) (h : Shared) : Shared :=
  Share (sh_log h) (sh_queue h) (sh_watchdog h) (sh_sync h) (sh_safetyAbort h) (sh_reads h)
    (sh_taskTimers h) m (sh_memProfiler h) (sh_telemetry h) (sh_world h).
Definition set_memProfiler (m : MemoryProfiler) (h : Shared) : Shared :=
  Share (sh_log h) (sh_queue h) (sh_watchdog h) (sh_sync h) (sh_safetyAbort h) (sh_reads h)
    (sh_taskTimers h) (sh_schedulerHealth h) m (sh_telemetry h) (sh_world h).
Definition set_telemetry (l : TelemetryLogger) (h : Shared) : Shared :=
  Share (sh_log h) (sh_queue h) (sh_watchdog h) (sh_sync h) (sh_safetyAbort h) (sh_reads h)
    (sh_taskTimers h) (sh_schedulerHealth h) (sh_memProfiler h) l (sh_world h).
Definition set_world (w : W) (h : Shared) : Shared :=
  Share (sh_log h) (sh_queue h) (sh_watchdog h) (sh_sync h) (sh_safetyAbort h) (sh_reads h)
    (sh_taskTimers h) (sh_schedulerHealth h) (sh_memProfiler h) (sh_telemetry h) w.

Definition signalSafetyAbort (h : Shared) : Shared :=
  Share (sh_log h) (sh_queue h) (sh_watchdog h) (sh_sync h) true (sh_reads h) (sh_taskTimers h)
    (sh_schedulerHealth h) (sh_memProfiler h) (sh_telemetry h) (sh_world h).
Definition isSafetyAborted (h : Shared) : bool := sh_safetyAbort h.
Definition clearSafetyAbort (h : Shared) : Shared :=
  Share (sh_log h) (sh_queue h) (sh_watchdog h) (sh_sync h) false (sh_reads h) (sh_taskTimers h)
    (sh_schedulerHealth h) (sh_memProfiler h) (sh_telemetry h) (sh_world h).

(** [timer()] of a task. *)
Definition sh_timer (tid : nat) (h : Shared) : TaskTimer := default new_timer (sh_taskTimers h !! tid).
Definition put_sh_timer (tid : nat) (t : TaskTimer) (h : Shared) : Shared :=
  set_sh_taskTimers (<[tid := t]> (sh_taskTimers h)) h.

(** The constant virtual functions of a task ([ITask.h], [IScheduledTask.h],
    [IBackgroundTask.h], [ICrunchTask.h]). *)
Record TaskDesc := Desc {
  td_isScheduled : bool;
  td_kernelManagedPeriod : bool;
  td_periodUs : Z;
  td_declaredWcetUs : Z;
  td_schedulePriority : Z;
  td_maxBudgetUs : Z;
  td_crunchPeriodUs : Z;
  td_maxIterationUs : Z;
  td_validateDependencies : bool;
}.

(** The world the kernel runs in: the configuration [Cfg], the virtual functions of the
    tasks and the callbacks, and the readings of the platform clock. A virtual function is a
    transformer of the state it shares with the kernel; [env_peers] is what the other cores
    do to that state while this one waits in a barrier, its argument being the delay.
    [env_inv] is no code but a promise: what the callbacks keep of the commands that wait and
    of their own state, [True] if nothing. *)
Record Env := MkEnv {
  kCoreCount : nat;
  kQueueCapacity : nat;
  kControlBudgetUs : Z;
  kMaxBackgroundTasks : nat;
  kCrunchMaxOverruns : Z;
  kMinSchedulePeriodUs : Z;
  kMetricsWindowUs : Z;
  env_desc : nat -> TaskDesc;
  env_init : nat -> Shared -> Shared;
  env_tick : nat -> Z -> Shared -> Shared;
  env_onOverrun : nat -> Z -> Z -> Shared -> Shared;
  env_crunch : nat -> Z -> Shared -> Shared;
  env_onCrunchAbort : nat -> Shared -> Shared;
  env_stopCondition : nat -> Shared -> bool * Shared;
  env_watchdogKick : Shared -> Shared;
  env_peers : Z -> Shared -> Shared;
  env_clock : nat -> Z;
  env_inv : list Command -> W -> Prop;
}.

(** The world in which task [t] is a given object of the kernel: its constant functions, its
    [init] and [tick]; it has no [onOverrun] of its own. *)
Definition with_task (env : Env) (t : nat) (desc : TaskDesc) (init : Shared -> Shared) (tick : Z -> Shared -> Shared) : Env := {|
  kCoreCount := kCoreCount env; kQueueCapacity := kQueueCapacity env;
  kControlBudgetUs := kControlBudgetUs env; kMaxBackgroundTasks := kMaxBackgroundTasks env;
  kCrunchMaxOverruns := kCrunchMaxOverruns env; kMinSchedulePeriodUs := kMinSchedulePeriodUs env;
  kMetricsWindowUs := kMetricsWindowUs env;
  env_desc tid := if decide (tid = t) then desc else env_desc env tid;
  env_init tid := if decide (tid = t) then init else env_init env tid;
  env_tick tid := if decide (tid = t) then tick else env_tick env tid;
  env_onOverrun tid := if decide (tid = t) then fun _ _ h => h else env_onOverrun env tid;
  env_crunch := env_crunch env; env_onCrunchAbort := env_onCrunchAbort env;
  env_stopCondition := env_stopCondition env; env_watchdogKick := env_watchdogKick env;
  env_peers := env_peers env; env_clock := env_clock env; env_inv := env_inv env;
|}.

(** The calls the kernel makes into tasks, in order: for the statements only. *)
Inductive call :=
  | CallInit (tid : nat)
  | CallTick (core slot tid : nat) (now : Z)
  | CallBackground (tid : nat) (now : Z)
  | CallOverrun (tid : nat)
  | CallCrunch (core tid : nat) (now elapsed : Z)
  | CallCrunchAbort (tid : nat).

Record System := Sys {
  sy_cores : list CoreData;
  sy_allTasks : list nat;
  sy_backgroundTasks : list (option nat);
  sy_backgroundTaskCount : nat;
  sy_bgRoundRobin : nat;
  sy_backgroundCoreId : nat;
  sy_lastDispatch : list (list Z);
  sy_lastTime : list Z;
  sy_utilTracker : list CoreUtilizationTracker;
  sy_queueMonitor : QueueDepthMonitor;
  sy_timer : SystemTimer;
  sy_kernelState : KernelState;
  sy_built : bool;
  sy_coreInitialized : list bool;
  sy_stopConditions : list (option nat);
  sy_stopConditionCount : nat;
  sy_crunch : CrunchDispatcher;
  sy_watchdogKickFn : bool;
  sy_drainFn : bool;
  sy_shared : Shared;
  sy_trace : list call;
}.

Definition set_cores (x : list CoreData) (s : System) : System :=
  Sys x (sy_allTasks s) (sy_backgroundTasks s) (sy_backgroundTaskCount s) (sy_bgRoundRobin s)
    (sy_backgroundCoreId s) (sy_lastDispatch s) (sy_lastTime s) (sy_utilTracker s) (sy_queueMonitor s)
    (sy_timer s) (sy_kernelState s) (sy_built s) (sy_coreInitialized s) (sy_stopConditions s)
    (sy_stopConditionCount s) (sy_crunch s) (sy_watchdogKickFn s) (sy_drainFn s) (sy_shared s)
    (sy_trace s).
Definition set_allTasks (x : list nat) (s : System) : System :=
  Sys (sy_cores s) x (sy_backgroundTasks s) (sy_backgroundTaskCount s) (sy_bgRoundRobin s)
    (sy_backgroundCoreId s) (sy_lastDispatch s) (sy_lastTime s) (sy_utilTracker s) (sy_queueMonitor s)
    (sy_timer s) (sy_kernelState s) (sy_built s) (sy_coreInitialized s) (sy_stopConditions s)
    (sy_stopConditionCount s) (sy_crunch s) (sy_watchdogKickFn s) (sy_drainFn s) (sy_shared s)
    (sy_trace s).
Definition set_backgroundTasks (x : list (option nat)) (s : System) : System :=
  Sys (sy_cores s) (sy_allTasks s) x (sy_backgroundTaskCount s) (sy_bgRoundRobin s)
    (sy_backgroundCoreId s) (sy_lastDispatch s) (sy_lastTime s) (sy_utilTracker s) (sy_queueMonitor s)
    (sy_timer s) (sy_kernelState s) (sy_built s) (sy_coreInitialized s) (sy_stopConditions s)
    (sy_stopConditionCount s) (sy_crunch s) (sy_watchdogKickFn s) (sy_drainFn s) (sy_shared s)
    (sy_trace s).
Definition set_backgroundTaskCount (x : nat) (s : System) : System :=
  Sys (sy_cores s) (sy_allTasks s) (sy_backgroundTasks s) x (sy_bgRoundRobin s) (sy_backgroundCoreId s)
    (sy_lastDispatch s) (sy_lastTime s) (sy_utilTracker s) (sy_queueMonitor s) (sy_timer s)
    (sy_kernelState s) (sy_built s) (sy_coreInitialized s) (sy_stopConditions s)
    (sy_stopConditionCount s) (sy_crunch s) (sy_watchdogKickFn s) (sy_drainFn s) (sy_shared s)
    (sy_trace s).
Definition set_bgRoundRobin (x : nat) (s : System) : System :=
  Sys (sy_cores s) (sy_allTasks s) (sy_backgroundTasks s) (sy_backgroundTaskCount s) x
    (sy_backgroundCoreId s) (sy_lastDispatch s) (sy_lastTime s) (sy_utilTracker s) (sy_queueMonitor s)
    (sy_timer s) (sy_kernelState s) (sy_built s) (sy_coreInitialized s) (sy_stopConditions s)
    (sy_stopConditionCount s) (sy_crunch s) (sy_watchdogKickFn s) (sy_drainFn s) (sy_shared s)
    (sy_trace s).
Definition set_backgroundCoreId (x : nat) (s : System) : System :=
  Sys (sy_cores s) (sy_allTasks s) (sy_backgroundTasks s) (sy_backgroundTaskCount s) (sy_bgRoundRobin s)
    x (sy_lastDispatch s) (sy_lastTime s) (sy_utilTracker s) (sy_queueMonitor s) (sy_timer s)
    (sy_kernelState s) (sy_built s) (sy_coreInitialized s) (sy_stopConditions s)
    (sy_stopConditionCount s) (sy_crunch s) (sy_watchdogKickFn s) (sy_drainFn s) (sy_shared s)
    (sy_trace s).
Definition set_lastDispatch (x : list (list Z)) (s : System) : System :=
  Sys (sy_cores s) (sy_allTasks s) (sy_backgroundTasks s) (sy_backgroundTaskCount s) (sy_bgRoundRobin s)
    (sy_backgroundCoreId s) x (sy_lastTime s) (sy_utilTracker s) (sy_queueMonitor s) (sy_timer s)
    (sy_kernelState s) (sy_built s) (sy_coreInitialized s) (sy_stopConditions s)
    (sy_stopConditionCount s) (sy_crunch s) (sy_watchdogKickFn s) (sy_drainFn s) (sy_shared s)
    (sy_trace s).
Definition set_lastTime (x : list Z) (s : System) : System :=
  Sys (sy_cores s) (sy_allTasks s) (sy_backgroundTasks s) (sy_backgroundTaskCount s) (sy_bgRoundRobin s)
    (sy_backgroundCoreId s) (sy_lastDispatch s) x (sy_utilTracker s) (sy_queueMonitor s) (sy_timer s)
    (sy_kernelState s) (sy_built s) (sy_coreInitialized s) (sy_stopConditions s)
    (sy_stopConditionCount s) (sy_crunch s) (sy_watchdogKickFn s) (sy_drainFn s) (sy_shared s)
    (sy_trace s).
Definition set_utilTracker (x : list CoreUtilizationTracker) (s : System) : System :=
  Sys (sy_cores s) (sy_allTasks s) (sy_backgroundTasks s) (sy_backgroundTaskCount s) (sy_bgRoundRobin s)
    (sy_backgroundCoreId s) (sy_lastDispatch s) (sy_lastTime s) x (sy_queueMonitor s) (sy_timer s)
    (sy_kernelState s) (sy_built s) (sy_coreInitialized s) (sy_stopConditions s)
    (sy_stopConditionCount s) (sy_crunch s) (sy_watchdogKickFn s) (sy_drainFn s) (sy_shared s)
    (sy_trace s).
Definition set_queueMonitor (x : QueueDepthMonitor) (s : System) : System :=
  Sys (sy_cores s) (sy_allTasks s) (sy_backgroundTasks s) (sy_backgroundTaskCount s) (sy_bgRoundRobin s)
    (sy_backgroundCoreId s) (sy_lastDispatch s) (sy_lastTime s) (sy_utilTracker s) x (sy_timer s)
    (sy_kernelState s) (sy_built s) (sy_coreInitialized s) (sy_stopConditions s)
    (sy_stopConditionCount s) (sy_crunch s) (sy_watchdogKickFn s) (sy_drainFn s) (sy_shared s)
    (sy_trace s).
Definition set_timer (x : SystemTimer) (s : System) : System :=
  Sys (sy_cores s) (sy_allTasks s) (sy_backgroundTasks s) (sy_backgroundTaskCount s) (sy_bgRoundRobin s)
    (sy_backgroundCoreId s) (sy_lastDispatch s) (sy_lastTime s) (sy_utilTracker s) (sy_queueMonitor s) x
    (sy_kernelState s) (sy_built s) (sy_coreInitialized s) (sy_stopConditions s)
    (sy_stopConditionCount s) (sy_crunch s) (sy_watchdogKickFn s) (sy_drainFn s) (sy_shared s)
    (sy_trace s).
Definition set_kernelState (x : KernelState) (s : System) : System :=
  Sys (sy_cores s) (sy_allTasks s) (sy_backgroundTasks s) (sy_backgroundTaskCount s) (sy_bgRoundRobin s)
    (sy_backgroundCoreId s) (sy_lastDispatch s) (sy_lastTime s) (sy_utilTracker s) (sy_queueMonitor s)
    (sy_timer s) x (sy_built s) (sy_coreInitialized s) (sy_stopConditions s) (sy_stopConditionCount s)
    (sy_crunch s) (sy_watchdogKickFn s) (sy_drainFn s) (sy_shared s) (sy_trace s).
Definition set_built (x : bool) (s : System) : System :=
  Sys (sy_cores s) (sy_allTasks s) (sy_backgroundTasks s) (sy_backgroundTaskCount s) (sy_bgRoundRobin s)
    (sy_backgroundCoreId s) (sy_lastDispatch s) (sy_lastTime s) (sy_utilTracker s) (sy_queueMonitor s)
    (sy_timer s) (sy_kernelState s) x (sy_coreInitialized s) (sy_stopConditions s)
    (sy_stopConditionCount s) (sy_crunch s) (sy_watchdogKickFn s) (sy_drainFn s) (sy_shared s)
    (sy_trace s).
Definition set_coreInitialized (x : list bool) (s : System) : System :=
  Sys (sy_cores s) (sy_allTasks s) (sy_backgroundTasks s) (sy_backgroundTaskCount s) (sy_bgRoundRobin s)
    (sy_backgroundCoreId s) (sy_lastDispatch s) (sy_lastTime s) (sy_utilTracker s) (sy_queueMonitor s)
    (sy_timer s) (sy_kernelState s) (sy_built s) x (sy_stopConditions s) (sy_stopConditionCount s)
    (sy_crunch s) (sy_watchdogKickFn s) (sy_drainFn s) (sy_shared s) (sy_trace s).
Definition set_stopConditions (x : list (option nat)) (s : System) : System :=
  Sys (sy_cores s) (sy_allTasks s) (sy_backgroundTasks s) (sy_backgroundTaskCount s) (sy_bgRoundRobin s)
    (sy_backgroundCoreId s) (sy_lastDispatch s) (sy_lastTime s) (sy_utilTracker s) (sy_queueMonitor s)
    (sy_timer s) (sy_kernelState s) (sy_built s) (sy_coreInitialized s) x (sy_stopConditionCount s)
    (sy_crunch s) (sy_watchdogKickFn s) (sy_drainFn s) (sy_shared s) (sy_trace s).
Definition set_stopConditionCount (x : nat) (s : System) : System :=
  Sys (sy_cores s) (sy_allTasks s) (sy_backgroundTasks s) (sy_backgroundTaskCount s) (sy_bgRoundRobin s)
    (sy_backgroundCoreId s) (sy_lastDispatch s) (sy_lastTime s) (sy_utilTracker s) (sy_queueMonitor s)
    (sy_timer s) (sy_kernelState s) (sy_built s) (sy_coreInitialized s) (sy_stopConditions s) x
    (sy_crunch s) (sy_watchdogKickFn s) (sy_drainFn s) (sy_shared s) (sy_trace s).
Definition set_crunch (x : CrunchDispatcher) (s : System) : System :=
  Sys (sy_cores s) (sy_allTasks s) (sy_backgroundTasks s) (sy_backgroundTaskCount s) (sy_bgRoundRobin s)
    (sy_backgroundCoreId s) (sy_lastDispatch s) (sy_lastTime s) (sy_utilTracker s) (sy_queueMonitor s)
    (sy_timer s) (sy_kernelState s) (sy_built s) (sy_coreInitialized s) (sy_stopConditions s)
    (sy_stopConditionCount s) x (sy_watchdogKickFn s) (sy_drainFn s) (sy_shared s) (sy_trace s).
Definition set_watchdogKickFn (x : bool) (s : System) : System :=
  Sys (sy_cores s) (sy_allTasks s) (sy_backgroundTasks s) (sy_backgroundTaskCount s) (sy_bgRoundRobin s)
    (sy_backgroundCoreId s) (sy_lastDispatch s) (sy_lastTime s) (sy_utilTracker s) (sy_queueMonitor s)
    (sy_timer s) (sy_kernelState s) (sy_built s) (sy_coreInitialized s) (sy_stopConditions s)
    (sy_stopConditionCount s) (sy_crunch s) x (sy_drainFn s) (sy_shared s) (sy_trace s).
Definition set_drainFn (x : bool) (s : System) : System :=
  Sys (sy_cores s) (sy_allTasks s) (sy_backgroundTasks s) (sy_backgroundTaskCount s) (sy_bgRoundRobin s)
    (sy_backgroundCoreId s) (sy_lastDispatch s) (sy_lastTime s) (sy_utilTracker s) (sy_queueMonitor s)
    (sy_timer s) (sy_kernelState s) (sy_built s) (sy_coreInitialized s) (sy_stopConditions s)
    (sy_stopConditionCount s) (sy_crunch s) (sy_watchdogKickFn s) x (sy_shared s) (sy_trace s).
Definition set_shared (x : Shared) (s : System) : System :=
  Sys (sy_cores s) (sy_allTasks s) (sy_backgroundTasks s) (sy_backgroundTaskCount s) (sy_bgRoundRobin s)
    (sy_backgroundCoreId s) (sy_lastDispatch s) (sy_lastTime s) (sy_utilTracker s) (sy_queueMonitor s)
    (sy_timer s) (sy_kernelState s) (sy_built s) (sy_coreInitialized s) (sy_stopConditions s)
    (sy_stopConditionCount s) (sy_crunch s) (sy_watchdogKickFn s) (sy_drainFn s) x (sy_trace s).
Definition set_trace (x : list call) (s : System) : System :=
  Sys (sy_cores s) (sy_allTasks s) (sy_backgroundTasks s) (sy_backgroundTaskCount s) (sy_bgRoundRobin s)
    (sy_backgroundCoreId s) (sy_lastDispatch s) (sy_lastTime s) (sy_utilTracker s) (sy_queueMonitor s)
    (sy_timer s) (sy_kernelState s) (sy_built s) (sy_coreInitialized s) (sy_stopConditions s)
    (sy_stopConditionCount s) (sy_crunch s) (sy_watchdogKickFn s) (sy_drainFn s) (sy_shared s) x.

Definition on_shared (f : Shared -> Shared) (s : System) : System := set_shared (f (sy_shared s)) s.
Definition emit (c : call) (s : System) : System := set_trace (sy_trace s ++ [c]) s.

Definition set_schedulerHealth (x : SchedulerHealthMetrics) (s : System) : System := on_shared (set_sh_schedulerHealth x) s.

Definition task_timer (tid : nat) (s : System) : TaskTimer := sh_timer tid (sy_shared s).
Definition put_timer (tid : nat) (t : TaskTimer) (s : System) : System := on_shared (put_sh_timer tid t) s.

(** [errorLogger().log(...)] *)
Definition sys_log (code : ErrorCode) (timestamp : Z) (value : float) (s : System) : option System :=
  l ← log code timestamp value (sh_log (sy_shared s));
  Some (on_shared (set_log l) s).

(** One reading of the platform clock. *)
Definition read_clock (env : Env) (s : System) : Z * System :=
  (env_clock env (sh_reads (sy_shared s)), on_shared (set_reads (S (sh_reads (sy_shared s)))) s).

(** [s_timer.nowMicros()] *)
Definition sys_now (env : Env) (s : System) : Z * System :=
  if st_source (sy_timer s) then
    let '(c, s) := read_clock env s in (nowMicros (sy_timer s) c, s)
  else (nowMicros (sy_timer s) 0, s).

(** [timer().start()] and [timer().stop()] of a task: the clock is read if it is set. *)
Definition timer_start (env : Env) (tid : nat) (s : System) : System :=
  let '(c, s) := if tt_clocked (task_timer tid s) then read_clock env s else (0%Z, s) in
  put_timer tid (start c (task_timer tid s)) s.

Definition timer_stop (env : Env) (tid : nat) (s : System) : option System :=
  let '(c, s) := if tt_clocked (task_timer tid s) then read_clock env s else (0%Z, s) in
  t ← stop c (task_timer tid s);
  Some (put_timer tid t s).

(** ** The lifecycle state machine *)

Definition valid_transition (from target : KernelState) : bool :=
  match from with
  | UNCONFIGURED => bool_decide (target = CONFIGURED)
  | CONFIGURED => bool_decide (target = INITIALIZING)
  | INITIALIZING => bool_decide (target = RUNNING)
  | RUNNING => bool_decide (target = SUSPENDING) || bool_decide (target = ABORTING) ||
               bool_decide (target = SHUTTING_DOWN)
  | SUSPENDING => bool_decide (target = SUSPENDED)
  | SUSPENDED => bool_decide (target = RUNNING) || bool_decide (target = SHUTTING_DOWN)
  | ABORTING => bool_decide (target = ABORTED)
  | ABORTED => bool_decide (target = RUNNING) || bool_decide (target = SHUTTING_DOWN)
  | SHUTTING_DOWN => bool_decide (target = SHUTDOWN)
  | SHUTDOWN => false
  end.

Definition transitionTo (target : KernelState) (s : System) : option (bool * System) :=
  if valid_transition (sy_kernelState s) target then Some (true, set_kernelState target s)
  else
    s ← sys_log INVALID_STATE 0 (f_of_Z (state_byte target)) s;
    Some (false, s).

Definition isActiveState (k : KernelState) : bool :=
  bool_decide (k = RUNNING) || bool_decide (k = SUSPENDING) || bool_decide (k = SUSPENDED).
End system.
Abbreviation sy_taskTimers s := (sh_taskTimers (sy_shared s)).
Abbreviation sy_schedulerHealth s := (sh_schedulerHealth (sy_shared s)).
#[global] Arguments Shared : clear implicits.
#[global] Arguments Env : clear implicits.
#[global] Arguments System : clear implicits.
#[global] Arguments kMaxTasksPerCore : simpl never.

(** ** The static initialisers *)

Definition kMaxStopConditions : nat := 8.

(** [System] before [SystemBuilder::build]; [h] is the shared infrastructure. *)
Definition boot {W} (env : Env W) (h : Shared W) : System W :=
  Sys (replicate (kCoreCount env) new_core) [] (replicate (kMaxBackgroundTasks env) None) 0 0 0
    (replicate (kCoreCount env) (replicate kMaxTasksPerCore 0%Z)) (replicate (kCoreCount env) 0%Z)
    (replicate (kCoreCount env) cu_reset) new_depth new_system_timer UNCONFIGURED
    false (replicate (kCoreCount env) false) (replicate kMaxStopConditions None) 0 new_crunch
    false false h [].

Definition boot_shared {W} (env : Env W) (w : W) : Shared W :=
  Share new_logger (new_queue (kQueueCapacity env) (Cmd 0 0 0)) (new_watchdog (kCoreCount env))
    (new_sync (kCoreCount env)) false 0 ∅ new_health new_profiler (new_telemetry false) w.

(** ** Task lists *)

(** The registered tasks. *)
Definition registered (c : CoreData) : list (option nat) := take (cd_taskCount c) (cd_tasks c).

Definition core_wf (c : CoreData) : Prop :=
  length (cd_tasks c) = kMaxTasksPerCore /\ cd_taskCount c <= kMaxTasksPerCore.

Lemma new_core_wf : core_wf new_core.
Proof. split; [apply length_replicate|simpl; lia]. Qed.

(** Shifting [l] right over the slot behind it leaves its first element where it was. *)
Lemma shift_right_spec l x r :
  shift_right (length l) (l ++ x :: r) = Some (take 1 (l ++ [x]) ++ l ++ r).
Proof.
  revert x r. induction l as [|y l IH] using rev_ind; intros x r; [done|].
  rewrite length_app, Nat.add_1_r. cbn [shift_right].
  rewrite <- app_assoc. cbn [app]. rewrite load_middle. cbn [mbind option_bind].
  rewrite store_middle_S. cbn [mbind option_bind]. rewrite IH. f_equal.
  rewrite <- !app_assoc. cbn [app]. f_equal. by destruct l.
Qed.

(** Appending and prepending do just that while there is room. *)
Lemma addTask_spec tid c :
  core_wf c -> cd_taskCount c < kMaxTasksPerCore ->
  exists c', addTask (Some tid) c = Some c' /\ core_wf c' /\
    registered c' = registered c ++ [Some tid] /\ cd_mode c' = cd_mode c /\
    cd_crunchTask c' = cd_crunchTask c.
Proof.
  intros [Hl Hc] Hlt. unfold addTask. rewrite decide_True by done.
  rewrite store_ok by lia. cbn [mbind option_bind]. eexists. split; [done|].
  split; [split; simpl; [by rewrite length_insert|lia]|]. split; [|done].
  unfold registered. simpl. rewrite (take_S_r _ _ (Some tid)) by (apply list_lookup_insert_eq; lia).
  by rewrite take_insert_ge by lia.
Qed.

Lemma prependTask_spec tid c :
  core_wf c -> cd_taskCount c < kMaxTasksPerCore ->
  exists c', prependTask (Some tid) c = Some c' /\ core_wf c' /\
    registered c' = Some tid :: registered c /\ cd_mode c' = cd_mode c /\
    cd_crunchTask c' = cd_crunchTask c /\ cd_taskCount c' = S (cd_taskCount c).
Proof.
  intros [Hl Hc] Hlt. unfold prependTask. rewrite decide_True by done.
  set (n := cd_taskCount c) in *. unfold registered. fold n.
  assert (Hn : length (take n (cd_tasks c)) = n) by (rewrite length_take; lia).
  destruct (drop n (cd_tasks c)) as [|x r] eqn:Hd.
  { apply (f_equal length) in Hd. rewrite length_drop in Hd. simpl in Hd. lia. }
  assert (Hsplit : cd_tasks c = take n (cd_tasks c) ++ x :: r) by (by rewrite <- Hd, take_drop).
  assert (Hsh : shift_right n (cd_tasks c) =
    Some (take 1 (take n (cd_tasks c) ++ [x]) ++ take n (cd_tasks c) ++ r)).
  { rewrite <- shift_right_spec, Hn. by rewrite <- Hsplit. }
  rewrite Hsh. cbn [mbind option_bind].
  assert (H1 : exists z, take 1 (take n (cd_tasks c) ++ [x]) = [z]).
  { destruct (take n (cd_tasks c)) as [|z ?]; simpl; eauto. }
  destruct H1 as [z ->]. cbn [app]. rewrite store_0. cbn [mbind option_bind].
  eexists. split; [done|]. simpl. apply (f_equal length) in Hsplit. rewrite length_app in Hsplit. simpl in Hsplit.
  split; [split; simpl; [rewrite length_app; lia|lia]|]. split; [|done].
  f_equal. rewrite <- Hn at 1. apply take_app_length.
Qed.

(** ** Properties *)

(** How far a state is along the kernel's life. *)
Definition phase (k : KernelState) : nat :=
  match k with
  | UNCONFIGURED => 0 | CONFIGURED => 1 | INITIALIZING => 2
  | RUNNING | SUSPENDING | SUSPENDED | ABORTING | ABORTED => 3
  | SHUTTING_DOWN => 4 | SHUTDOWN => 5
  end.

Lemma valid_transition_phase k t :
  valid_transition k t = true -> phase t = S (phase k) \/ (phase k = 3 /\ phase t = 3).
Proof. destruct k, t; simpl; auto; discriminate. Qed.

Fixpoint transitions {W} (targets : list KernelState) (s : System W) : option (list bool * System W) :=
  match targets with
  | [] => Some ([], s)
  | t :: ts => '(ok, s) ← transitionTo t s; '(oks, s) ← transitions ts s; Some (ok :: oks, s)
  end.

(** The lifecycle on its own. *)
Fixpoint lifecycle (targets : list KernelState) (k : KernelState) : list bool * KernelState :=
  match targets with
  | [] => ([], k)
  | t :: ts =>
      let ok := valid_transition k t in
      let '(oks, k') := lifecycle ts (if ok then t else k) in (ok :: oks, k')
  end.

(** The entries a rejected transition leaves in the error log. *)
Fixpoint lifecycle_log (targets : list KernelState) (k : KernelState) (es : list Entry) : list Entry :=
  match targets with
  | [] => es
  | t :: ts =>
      if valid_transition k t then lifecycle_log ts t es
      else lifecycle_log ts k (push_entry (LogEntry INVALID_STATE 0 (f_of_Z (state_byte t))) es)
  end.

Lemma transitions_ok {W} (targets : list KernelState) (s : System W) (es : list Entry) :
  logger_holds (sh_log (sy_shared s)) es ->
  exists s', transitions targets s = Some ((lifecycle targets (sy_kernelState s)).1, s') /\
    sy_kernelState s' = (lifecycle targets (sy_kernelState s)).2 /\
    logger_holds (sh_log (sy_shared s')) (lifecycle_log targets (sy_kernelState s) es).
Proof.
  revert s es. induction targets as [|t ts IH]; intros s es Hlog; [by exists s|].
  cbn [transitions lifecycle lifecycle_log]. unfold transitionTo.
  destruct (valid_transition (sy_kernelState s) t) eqn:Hv; cbn [mbind option_bind].
  - destruct (IH (set_kernelState t s) es Hlog) as (s' & -> & Hk & Hl).
    simpl in *. exists s'. by destruct (lifecycle ts t).
  - unfold sys_log. destruct (log_ok _ _ INVALID_STATE 0 (f_of_Z (state_byte t)) Hlog) as (l & -> & Hl).
    cbn [mbind option_bind]. destruct (IH (on_shared (set_log l) s) _ Hl) as (s' & -> & Hk & Hl').
    simpl in *. exists s'. by destruct (lifecycle ts (sy_kernelState s)).
Qed.

Lemma lifecycle_phase targets k :
  let '(oks, k') := lifecycle targets k in
  phase k <= phase k' <= phase k + count_occ Bool.bool_dec oks true.
Proof.
  revert k. induction targets as [|t ts IH]; intros k; simpl; [lia|].
  specialize (IH (if valid_transition k t then t else k)).
  destruct (valid_transition k t) eqn:Hv; destruct (lifecycle ts _) as [oks k']; simpl.
  - apply valid_transition_phase in Hv. lia.
  - lia.
Qed.

(** C8 The kernel's lifecycle moves forward only: whatever transitions are requested, the
    ones outside the table are refused, leave the state alone and are logged as
    INVALID_STATE with the target's code; the phase never goes back and takes one accepted
    transition per step, so a kernel runs only after it was configured and initialised, and
    a SHUTDOWN kernel refuses everything. *)
Theorem lifecycle_forward {W : Type} (targets : list KernelState) (s : System W) (es : list Entry) :
  logger_holds (sh_log (sy_shared s)) es ->
  exists oks s', transitions targets s = Some (oks, s') /\
    oks = (lifecycle targets (sy_kernelState s)).1 /\
    sy_kernelState s' = (lifecycle targets (sy_kernelState s)).2 /\
    logger_holds (sh_log (sy_shared s')) (lifecycle_log targets (sy_kernelState s) es) /\
    phase (sy_kernelState s) <= phase (sy_kernelState s') /\
    phase (sy_kernelState s') <= phase (sy_kernelState s) + count_occ Bool.bool_dec oks true /\
    (sy_kernelState s = SHUTDOWN -> oks = replicate (length targets) false).
Proof.
  intros Hlog. destruct (transitions_ok targets s es Hlog) as (s' & He & Hk & Hl).
  do 2 eexists. split; [exact He|]. split; [done|]. split; [done|]. split; [done|].
  pose proof (lifecycle_phase targets (sy_kernelState s)) as Hp. rewrite Hk.
  destruct (lifecycle targets (sy_kernelState s)) as [oks k'] eqn:E. simpl.
  split; [lia|]. split; [lia|]. intros Hs. rewrite Hs in E. clear -E.
  revert oks k' E. induction targets as [|t ts IH]; intros oks k' E; simpl in *; simplify_eq; [done|].
  destruct (lifecycle ts SHUTDOWN) as [oks1 k1]. simplify_eq. simpl. f_equal. by eapply IH.
Qed.

(** ** A concrete world, for the witnesses *)

(** Task 0 has a managed period of 100; the declared budgets are the defaults of
    [IBackgroundTask] for odd tasks and of [CfgDiagsBudgetUs] for even ones. *)
Definition idle_env (W : Type) (inv : list Command -> W -> Prop) : Env W := {|
  kCoreCount := 1; kQueueCapacity := 4; kControlBudgetUs := 10000; kMaxBackgroundTasks := 4;
  kCrunchMaxOverruns := 2; kMinSchedulePeriodUs := 10; kMetricsWindowUs := 60000000;
  env_desc tid := Desc (tid =? 0) (tid =? 0) 100 0 255 (if Nat.odd tid then 1000 else 10000) 100 50 true;
  env_init _ h := h; env_tick _ _ h := h; env_onOverrun _ _ _ h := h; env_crunch _ _ h := h;
  env_onCrunchAbort _ h := h; env_stopCondition _ h := (false, h); env_watchdogKick h := h;
  env_peers _ h := h;
  env_clock n := Z.of_nat n; env_inv := inv;
|}.

Definition sample_env : Env unit := idle_env unit (fun _ _ => True).

Definition sample_boot : System unit := boot sample_env (boot_shared sample_env tt).

Lemma lifecycle_forward_witness :
  exists oks s', transitions [CONFIGURED; RUNNING; INITIALIZING; RUNNING] sample_boot = Some (oks, s') /\
    oks = [true; false; true; true] /\ sy_kernelState s' = RUNNING /\
    logger_holds (sh_log (sy_shared s')) [LogEntry INVALID_STATE 0 (f_of_Z 3)] /\
    0 <= 3 /\ 3 <= 0 + 3 /\ (UNCONFIGURED = SHUTDOWN -> oks = replicate 4 false).
Proof.
  destruct (lifecycle_forward [CONFIGURED; RUNNING; INITIALIZING; RUNNING] sample_boot []
    new_logger_holds) as (oks & s' & He & Ho & Hk & Hl & Hp & Hq & Hs).
  exists oks, s'. split; [exact He|]. split; [exact Ho|]. split; [exact Hk|]. split; [exact Hl|].
  split; [lia|]. split; [lia|exact Hs].
Defined.
