(* ===== verification/Sched.v ===== *)
(** * Initialisation and the tick ([kernel/System.h], [init] and [tick])

    One tick of a core: first its scheduled tasks in list order, each unless its declared
    period has not elapsed, then, on the background core, the ring of background tasks
    within the gap the budget leaves. *)

From S2P Require Import Prelude Float32 Protocol Queue Metrics ErrorLog Sync Telemetry Kernel.

Section sched.
Context {W : Type} (env : Env W).
Abbreviation System := (System W).

(** ** [init] *)

(** The loop over an array of task pointers, from index [t]. *)
Fixpoint init_tasks (tasks : list (option nat)) (t n : nat) (s : System) : option System :=
  match n with
  | O => Some s
  | S n =>
      tsk ← load tasks t;
      let s := match tsk with
               | Some tid => emit (CallInit tid) (on_shared (env_init env tid) s)
               | None => s
               end in
      init_tasks tasks (S t) n s
  end.

(** The tasks [init] initialises: those of the core, its crunch task, and the background tasks on
    the core that runs them. *)
Definition init_core (coreId : nat) (s : System) : option System :=
  core ← load (sy_cores s) coreId;
  s ← init_tasks (cd_tasks core) 0 (cd_taskCount core) s;
  let s := match cd_mode core, cd_crunchTask core with
           | CRUNCH, Some tid => emit (CallInit tid) (on_shared (env_init env tid) s)
           | _, _ => s
           end in
  if decide (coreId = sy_backgroundCoreId s)
  then init_tasks (sy_backgroundTasks s) 0 (sy_backgroundTaskCount s) s else Some s.

(** [System::init]. The code's assertion that the system is built is a guard here: outside
    it the behaviour is undefined. *)
Definition sys_init (coreId : nat) (s : System) : option System :=
  if negb (sy_built s) then None
  else if decide (kCoreCount env <= coreId) then Some s
  else
    s ← (if decide (sy_kernelState s = CONFIGURED)
         then '(_, s) ← transitionTo INITIALIZING s; Some s else Some s);
    s ← init_core coreId s;
    s ← (if decide (sy_kernelState s = INITIALIZING)
         then '(_, s) ← transitionTo RUNNING s; Some s else Some s);
    ci ← store (sy_coreInitialized s) coreId true;
    Some (set_coreInitialized ci s).

(** ** [tick], phase 1: scheduled tasks *)

(** The period check: whether the task in slot [t] is dispatched, and the dispatch times. *)
Definition period_gate (tid coreId t : nat) (now : Z) (s : System) : option (bool * System) :=
  let d := env_desc env tid in
  if td_isScheduled d && td_kernelManagedPeriod d && bool_decide (0 < td_periodUs d)%Z then
    row ← load (sy_lastDispatch s) coreId;
    last ← load row t;
    if decide (last <> 0%Z /\ (u64 (now - last) < td_periodUs d)%Z) then Some (false, s)
    else
      row ← store row t now;
      rows ← store (sy_lastDispatch s) coreId row;
      Some (true, set_lastDispatch rows s)
  else Some (true, s).

(** The deadline check behind a dispatch. *)
Definition deadline_check (tid : nat) (now : Z) (s : System) : option System :=
  let d := env_desc env tid in
  if td_isScheduled d then
    let wcet := td_declaredWcetUs d in
    let actual := lastDuration (task_timer tid s) in
    if decide (0 < wcet /\ wcet < actual)%Z then
      let s := put_timer tid (recordDeadlineMiss (task_timer tid s)) s in
      s ← sys_log DEADLINE_MISS now (f_of_Z actual) s;
      Some (emit (CallOverrun tid) (on_shared (env_onOverrun env tid actual wcet) s))
    else Some s
  else Some s.

(** One slot; [busy] is [busyAccum]. *)
Definition tick_slot (tasks : list (option nat)) (coreId t : nat) (now busy : Z) (s : System)
    : option (Z * System) :=
  tsk ← load tasks t;
  match tsk with
  | None => Some (busy, s)
  | Some tid =>
      '(go, s) ← period_gate tid coreId t now s;
      if negb go then Some (busy, s)
      else
        let s := timer_start env tid s in
        let s := emit (CallTick coreId t tid now) (on_shared (env_tick env tid now) s) in
        s ← timer_stop env tid s;
        let busy := u64 (busy + lastDuration (task_timer tid s)) in
        s ← deadline_check tid now s;
        Some (busy, s)
  end.

Fixpoint tick_slots (tasks : list (option nat)) (coreId t n : nat) (now busy : Z) (s : System)
    : option (Z * System) :=
  match n with
  | O => Some (busy, s)
  | S n =>
      '(busy, s) ← tick_slot tasks coreId t now busy s;
      tick_slots tasks coreId (S t) n now busy s
  end.

(** ** Phase 2: the background ring *)

(** [n] dispatch attempts are left and [i] are done; [used] is the time spent. *)
Fixpoint tick_background (i n : nat) (gapBudget used now : Z) (s : System) : option (Z * System) :=
  match n with
  | O => Some (used, s)
  | S n =>
      bg ← load (sy_backgroundTasks s) (sy_bgRoundRobin s);
      let s := set_bgRoundRobin ((sy_bgRoundRobin s + 1) mod sy_backgroundTaskCount s) s in
      match bg with
      | None => tick_background (S i) n gapBudget used now s
      | Some tid =>
          if decide (0 < i /\ (gapBudget < u64 (used + td_maxBudgetUs (env_desc env tid)))%Z)
          then Some (used, s)
          else
            let s := timer_start env tid s in
            let s := emit (CallBackground tid now) (on_shared (env_tick env tid now) s) in
            s ← timer_stop env tid s;
            let used := u64 (used + lastDuration (task_timer tid s)) in
            tick_background (S i) n gapBudget used now s
      end
  end.

(** ** [tick] *)

(** The head of [tick]: rollover detection and the start of the utilization window. *)
Definition tick_enter (coreId : nat) (now : Z) (s : System) : option System :=
  last ← load (sy_lastTime s) coreId;
  s ← (if decide (now < last /\ last <> 0)%Z then sys_log TIMER_ROLLOVER now f_zero s else Some s);
  lt ← store (sy_lastTime s) coreId now;
  let s := set_lastTime lt s in
  u ← load (sy_utilTracker s) coreId;
  us ← store (sy_utilTracker s) coreId (recordTickStart now u);
  Some (set_utilTracker us s).

(** Its tail: utilization, gap and queue depth. *)
Definition tick_leave (coreId : nat) (now busy : Z) (s : System) : option System :=
  let '(tickEndTime, s) := sys_now env s in
  u ← load (sy_utilTracker s) coreId;
  us ← store (sy_utilTracker s) coreId (recordTickEnd tickEndTime busy u);
  let s := set_utilTracker us s in
  let wallTime := if decide (now <= tickEndTime)%Z then (tickEndTime - now)%Z else 0%Z in
  let gapUs := if decide (busy <= wallTime)%Z then (wallTime - busy)%Z else 0%Z in
  let s := set_schedulerHealth (recordGap gapUs tickEndTime (sy_schedulerHealth s)) s in
  if decide (coreId = 0) then
    let depth := Z.of_nat (size (kQueueCapacity env) (sh_queue (sy_shared s))) in
    Some (set_queueMonitor (sample depth tickEndTime (sy_queueMonitor s)) s)
  else Some s.

Definition sys_tick (coreId : nat) (now : Z) (s : System) : option System :=
  if negb (sy_built s) then None
  else if decide (kCoreCount env <= coreId) then Some s
  else
    s ← tick_enter coreId now s;
    core ← load (sy_cores s) coreId;
    '(busy, s) ← tick_slots (cd_tasks core) coreId 0 (cd_taskCount core) now 0 s;
    '(busy, s) ←
      (if decide (coreId = sy_backgroundCoreId s /\ 0 < sy_backgroundTaskCount s) then
         let gapBudget := kControlBudgetUs env in
         let gapBudget := if decide (busy < gapBudget)%Z then (gapBudget - busy)%Z else 0%Z in
         '(used, s) ← tick_background 0 (sy_backgroundTaskCount s) gapBudget 0 now s;
         Some (u64 (busy + used), s)
       else Some (busy, s));
    tick_leave coreId now busy s.
End sched.

(** ** Well-formedness *)

Definition timer_ok (t : TaskTimer) : Prop := length (w_hist (tt_win t)) = kHistogramBuckets.

Lemma new_timer_ok : timer_ok new_timer.
Proof. reflexivity. Qed.

Lemma start_ok c t : timer_ok t -> timer_ok (start c t).
Proof. done. Qed.

Lemma recordDeadlineMiss_ok t : timer_ok t -> timer_ok (recordDeadlineMiss t).
Proof. done. Qed.

(** The duration [stop] records. *)
Definition measured (c : Z) (t : TaskTimer) : Z :=
  let now := if tt_clocked t then c else 0%Z in
  if decide (tt_start t <= now)%Z then (now - tt_start t)%Z else 0%Z.

Lemma stop_total c t :
  timer_ok t ->
  exists t', stop c t = Some t' /\ timer_ok t' /\ lastDuration t' = measured c t /\
    tt_clocked t' = tt_clocked t.
Proof.
  intros Ht. unfold stop, add_sample, incr_at. fold (measured c t).
  pose proof (bucket_of_lt (measured c t)) as Hb. rewrite <- Ht in Hb.
  destruct (load_ok _ _ Hb) as [v ->]. cbn [mbind option_bind].
  rewrite store_ok by done. cbn [mbind option_bind]. eexists. split; [done|].
  case_decide; (split; [|done]); unfold timer_ok in *; [done|].
  simpl. by rewrite length_insert.
Qed.

Section proofs.
Context {W : Type} (env : Env W).
Abbreviation System := (System W).
Implicit Types s : System.

Record shared_ok (h : Shared W) : Prop := {
  so_log : exists es, logger_holds (sh_log h) es;
  so_queue : exists l, holds (kQueueCapacity env) (sh_queue h) l /\ env_inv env l (sh_world h);
  so_watchdog : length (wd_lastKick (sh_watchdog h)) = kCoreCount env /\
    length (wd_alive (sh_watchdog h)) = kCoreCount env;
  so_sync : length (sh_sync h) = kCoreCount env;
  so_timers : forall tid, timer_ok (sh_timer tid h);
  so_telemetry : exists ms, telemetry_rep (sh_telemetry h) ms;
}.

Lemma set_health_ok x h : shared_ok h -> shared_ok (set_sh_schedulerHealth x h).
Proof. intros []. by split. Qed.

(** Callbacks use the public interface: they keep the shared objects well formed, also in
    the sense of [env_inv], do not turn the clock's readings back, and leave the clocks on the
    tasks' timers. *)
Record callback_ok (f : Shared W -> Shared W) : Prop := {
  cb_shared : forall h, shared_ok h -> shared_ok (f h);
  cb_reads : forall h, sh_reads h <= sh_reads (f h);
  cb_clocked : forall h tid, tt_clocked (sh_timer tid (f h)) = tt_clocked (sh_timer tid h);
}.

(** A task's [tick] only looks at the timers. *)
Record env_ok : Prop := {
  eo_init : forall tid, callback_ok (env_init env tid);
  eo_tick : forall tid now, callback_ok (env_tick env tid now);
  eo_timers : forall tid now h, sh_taskTimers (env_tick env tid now h) = sh_taskTimers h;
  eo_overrun : forall tid a w, callback_ok (env_onOverrun env tid a w);
  eo_crunch : forall tid now, callback_ok (env_crunch env tid now);
  eo_crunchAbort : forall tid, callback_ok (env_onCrunchAbort env tid);
  eo_stop : forall f, callback_ok (fun h => (env_stopCondition env f h).2);
  eo_kick : callback_ok (env_watchdogKick env);
  eo_peers : forall ms, callback_ok (env_peers env ms);
}.

Record sys_wf (s : System) : Prop := {
  wf_cores : length (sy_cores s) = kCoreCount env /\ Forall core_wf (sy_cores s);
  wf_background : sy_backgroundTaskCount s <= length (sy_backgroundTasks s);
  wf_ring : sy_bgRoundRobin s = 0 \/ sy_bgRoundRobin s < sy_backgroundTaskCount s;
  wf_dispatch : length (sy_lastDispatch s) = kCoreCount env /\
    Forall (fun row => length row = kMaxTasksPerCore) (sy_lastDispatch s);
  wf_lastTime : length (sy_lastTime s) = kCoreCount env;
  wf_util : length (sy_utilTracker s) = kCoreCount env;
  wf_inits : length (sy_coreInitialized s) = kCoreCount env;
  wf_shared : shared_ok (sy_shared s);
  wf_stop : sy_stopConditionCount s <= length (sy_stopConditions s);
}.

Lemma wf_timers s : sys_wf s -> forall tid, timer_ok (task_timer tid s).
Proof. intros Hwf. apply (so_timers _ (wf_shared _ Hwf)). Qed.

(** What a dispatch leaves alone. *)
Definition static (s : System) :=
  (sy_cores s, sy_allTasks s, sy_backgroundTasks s, sy_backgroundTaskCount s, sy_backgroundCoreId s,
   sy_lastTime s, sy_utilTracker s, sy_queueMonitor s, sy_timer s,
   sy_kernelState s, sy_built s, sy_coreInitialized s,
   (sy_stopConditions s, sy_stopConditionCount s, sy_crunch s, sy_watchdogKickFn s)).

(** A piece of the kernel that returns: what it emitted, and what it left alone. Clocks
    stay attached to the timers that have them, and readings only go forward. *)
Record keeps (s s' : System) : Prop := {
  k_wf : sys_wf s';
  k_static : static s' = static s;
  k_clocked : forall tid, tt_clocked (task_timer tid s') = tt_clocked (task_timer tid s);
  k_reads : sh_reads (sy_shared s) <= sh_reads (sy_shared s');
}.

Lemma keeps_refl s : sys_wf s -> keeps s s.
Proof. by split. Qed.

Lemma keeps_trans s1 s2 s3 : keeps s1 s2 -> keeps s2 s3 -> keeps s1 s3.
Proof. intros [_ H2 H3 H4] [K1 K2 K3 K4]. split; [done|congruence|congruence|lia]. Qed.

Lemma static_cores s s' : static s' = static s -> sy_cores s' = sy_cores s.
Proof. unfold static. intros H. by simplify_eq. Qed.
Lemma static_ring s s' : static s' = static s ->
  sy_backgroundTasks s' = sy_backgroundTasks s /\
  sy_backgroundTaskCount s' = sy_backgroundTaskCount s.
Proof. unfold static. intros H. by simplify_eq. Qed.

(** *** Small pieces *)

Lemma task_timer_put_eq tid t s : task_timer tid (put_timer tid t s) = t.
Proof. unfold task_timer, put_timer, sh_timer. simpl. by rewrite lookup_insert_eq. Qed.

Lemma task_timer_put_ne tid tid' t s :
  tid <> tid' -> task_timer tid' (put_timer tid t s) = task_timer tid' s.
Proof. intros H. unfold task_timer, put_timer, sh_timer. simpl. by rewrite lookup_insert_ne. Qed.

Lemma put_timer_wf tid t s : sys_wf s -> timer_ok t -> sys_wf (put_timer tid t s).
Proof.
  intros Hwf Ht. pose proof (wf_timers _ Hwf) as Hts. destruct Hwf as [? ? ? ? ? ? ? []]. split; auto. split; auto.
  intros tid'. change (timer_ok (task_timer tid' (put_timer tid t s))). destruct (decide (tid = tid')) as [->|Hne].
  - by rewrite task_timer_put_eq.
  - by rewrite task_timer_put_ne.
Qed.

Lemma put_timer_keeps tid t s :
  sys_wf s -> timer_ok t -> tt_clocked t = tt_clocked (task_timer tid s) ->
  keeps s (put_timer tid t s).
Proof.
  intros Hwf Ht Hc. split; [by apply put_timer_wf|done| |done].
  intros tid'. destruct (decide (tid = tid')) as [->|Hne].
  - by rewrite task_timer_put_eq.
  - by rewrite task_timer_put_ne.
Qed.

Lemma on_shared_keeps f s :
  sys_wf s -> callback_ok f -> keeps s (on_shared f s).
Proof.
  intros Hwf [Hf Hr Hc]. split; [|done|intros tid; apply Hc|apply Hr].
  destruct Hwf. split; auto. simpl. auto.
Qed.

Lemma emit_keeps c s : sys_wf s -> keeps s (emit c s).
Proof. intros Hwf. split; [|done|done|done]. by destruct Hwf; split. Qed.

Lemma sys_log_ok code t v s :
  sys_wf s ->
  exists s', sys_log code t v s = Some s' /\ keeps s s' /\ sy_trace s' = sy_trace s /\
    sy_taskTimers s' = sy_taskTimers s /\ sy_lastDispatch s' = sy_lastDispatch s /\
    sy_bgRoundRobin s' = sy_bgRoundRobin s.
Proof.
  intros Hwf. pose proof (wf_shared _ Hwf) as [[es Hes] Hq Hw Hy Ht Htl]. unfold sys_log.
  destruct (log_ok _ _ code t v Hes) as (l & -> & Hl). cbn [mbind option_bind].
  eexists. split; [done|]. split; [|done]. split; [|done|done|done].
  destruct Hwf. split; auto. simpl. split; eauto.
Qed.

Lemma read_clock_ok s : sys_wf s -> keeps s (read_clock env s).2.
Proof.
  intros Hwf. split; [|done|done|simpl; lia]. destruct Hwf as [? ? ? ? ? ? ? []].
  split; auto. by split.
Qed.

Lemma timer_start_ok tid s :
  sys_wf s ->
  let s' := timer_start env tid s in
  keeps s s' /\ sy_trace s' = sy_trace s /\ sy_lastDispatch s' = sy_lastDispatch s /\
  sy_bgRoundRobin s' = sy_bgRoundRobin s /\
  (tt_clocked (task_timer tid s) = true ->
    tt_start (task_timer tid s') = env_clock env (sh_reads (sy_shared s)) /\
    sh_reads (sy_shared s') = S (sh_reads (sy_shared s))).
Proof.
  intros Hwf s'. unfold s', timer_start. clear s'.
  destruct (tt_clocked (task_timer tid s)) eqn:Hc; simpl.
  - split.
    { apply (keeps_trans _ (read_clock env s).2); [by apply read_clock_ok|].
      apply put_timer_keeps; [by apply read_clock_ok|apply wf_timers, read_clock_ok; done|done]. }
    repeat (split; [done|]). intros _.
    rewrite task_timer_put_eq. simpl. change (task_timer tid _) with (task_timer tid s).
    by rewrite Hc.
  - split; [|done]. apply put_timer_keeps; [done|by apply (wf_timers _ Hwf)|done].
Qed.

Lemma timer_stop_ok tid s :
  sys_wf s ->
  exists s', timer_stop env tid s = Some s' /\
  keeps s s' /\ sy_trace s' = sy_trace s /\ sy_lastDispatch s' = sy_lastDispatch s /\
  sy_bgRoundRobin s' = sy_bgRoundRobin s /\
  (tt_clocked (task_timer tid s) = true ->
    lastDuration (task_timer tid s') =
      measured (env_clock env (sh_reads (sy_shared s))) (task_timer tid s)).
Proof.
  intros Hwf. unfold timer_stop.
  destruct (tt_clocked (task_timer tid s)) eqn:Hc; simpl.
  - change (task_timer tid (on_shared _ s)) with (task_timer tid s).
    destruct (stop_total (env_clock env (sh_reads (sy_shared s))) (task_timer tid s))
      as (t' & -> & Hok & Hm & Hcl); [apply (wf_timers _ Hwf)|].
    cbn [mbind option_bind]. eexists. split; [done|]. split.
    { apply (keeps_trans _ (read_clock env s).2); [by apply read_clock_ok|].
      apply put_timer_keeps; [by apply read_clock_ok|done|done]. }
    repeat (split; [done|]). intros _. by rewrite task_timer_put_eq.
  - destruct (stop_total 0 (task_timer tid s)) as (t' & -> & Hok & Hm & Hcl); [apply (wf_timers _ Hwf)|].
    cbn [mbind option_bind]. eexists. split; [done|].
    split; [by apply put_timer_keeps|done].
Qed.

(** ** Phase 1 *)

(** Tasks whose period the kernel manages. *)
Definition gated (tid : nat) : bool :=
  let d := env_desc env tid in
  td_isScheduled d && td_kernelManagedPeriod d && bool_decide (0 < td_periodUs d)%Z.

(** Whether a task last dispatched at [last] is dispatched at [now]; 0 stands for never. *)
Definition dispatches (tid : nat) (last now : Z) : bool :=
  if gated tid then
    negb (bool_decide (last <> 0%Z /\ (u64 (now - last) < td_periodUs (env_desc env tid))%Z))
  else true.

(** The dispatch time remembered for a slot. *)
Definition last_of (coreId t : nat) s : Z :=
  default 0%Z (row ← sy_lastDispatch s !! coreId; row !! t).

Definition new_last (tsk : option nat) (last now : Z) : Z :=
  match tsk with
  | Some tid => if gated tid && dispatches tid last now then now else last
  | None => last
  end.

(** The dispatches of a trace. *)
Definition ticks_of (cs : list call) : list (nat * nat * nat * Z) :=
  omap (fun c => match c with CallTick c t tid now => Some (c, t, tid, now) | _ => None end) cs.

Definition backgrounds_of (cs : list call) : list nat :=
  omap (fun c => match c with CallBackground tid _ => Some tid | _ => None end) cs.

(** The dispatch slot [t] gets in a tick. *)
Definition slot_calls (coreId : nat) (tasks : list (option nat)) (now : Z) s (t : nat)
    : list (nat * nat * nat * Z) :=
  match tasks !! t with
  | Some (Some tid) => if dispatches tid (last_of coreId t s) now then [(coreId, t, tid, now)] else []
  | _ => []
  end.

Lemma last_of_update s rows coreId t row now c' t' :
  sy_lastDispatch s !! coreId = Some row -> t < length row ->
  rows = <[coreId := <[t := now]> row]> (sy_lastDispatch s) ->
  last_of c' t' (set_lastDispatch rows s) =
    if decide (c' = coreId /\ t' = t) then now else last_of c' t' s.
Proof.
  intros Hrow Ht ->. unfold last_of. simpl.
  pose proof (lookup_lt_Some _ _ _ Hrow) as Hc.
  destruct (decide (c' = coreId)) as [->|Hne].
  - rewrite list_lookup_insert_eq by done. rewrite Hrow. simpl.
    destruct (decide (t' = t)) as [->|Hne].
    + rewrite list_lookup_insert_eq by done. by rewrite decide_True.
    + rewrite list_lookup_insert_ne by done. rewrite decide_False; [done|tauto].
  - rewrite list_lookup_insert_ne by done. rewrite decide_False; [done|tauto].
Qed.

Lemma period_gate_ok tid coreId t now s :
  sys_wf s -> coreId < kCoreCount env -> t < kMaxTasksPerCore ->
  exists s', period_gate env tid coreId t now s = Some (dispatches tid (last_of coreId t s) now, s') /\
    keeps s s' /\ sy_trace s' = sy_trace s /\ sy_bgRoundRobin s' = sy_bgRoundRobin s /\
    (forall c' t', last_of c' t' s' =
      if decide (c' = coreId /\ t' = t) then new_last (Some tid) (last_of c' t' s) now
      else last_of c' t' s).
Proof.
  intros Hwf Hc Ht. unfold period_gate. fold (gated tid). unfold new_last, dispatches.
  destruct (gated tid) eqn:Hg; simpl.
  2: { exists s. repeat (split; [done || by apply keeps_refl|]). intros c' t'. by case_decide. }
  destruct (wf_dispatch _ Hwf) as [Hrows Hlen].
  destruct (lookup_lt_is_Some_2 (sy_lastDispatch s) coreId) as [row Hrow]; [lia|].
  assert (Hrl : length row = kMaxTasksPerCore) by (by eapply (Forall_lookup_1 _ _ _ _ Hlen)).
  destruct (lookup_lt_is_Some_2 row t) as [last Hlast]; [lia|].
  unfold load. rewrite Hrow. cbn [mbind option_bind]. rewrite Hlast. cbn [mbind option_bind].
  assert (Hl : last_of coreId t s = last) by (unfold last_of; rewrite Hrow; simpl; by rewrite Hlast).
  case_decide as Hskip.
  - rewrite Hl, bool_decide_true by done. exists s.
    repeat (split; [done || by apply keeps_refl|]). intros c' t'. case_decide as He; [|done].
    destruct He as [-> ->]. by rewrite Hl, bool_decide_true.
  - rewrite Hl, bool_decide_false by done. rewrite store_ok by lia. cbn [mbind option_bind].
    rewrite store_ok by lia. cbn [mbind option_bind].
    eexists. split; [done|]. split; [|split; [done|split; [done|]]].
    + split; [|done..]. destruct Hwf. split; auto. simpl. split; [by rewrite length_insert|].
      apply Forall_insert; [done|]. by rewrite length_insert.
    + intros c' t'. rewrite (last_of_update s _ coreId t row now) by (done || lia).
      case_decide as He; [|done]. destruct He as [-> ->]. by rewrite Hl, bool_decide_false.
Qed.

Lemma call_keeps c f s : sys_wf s -> callback_ok f -> keeps s (emit c (on_shared f s)).
Proof.
  intros Hwf Hf. pose proof (on_shared_keeps f s Hwf Hf) as Hk.
  eapply keeps_trans; [exact Hk|]. by apply emit_keeps, Hk.
Qed.

Lemma deadline_check_ok tid now s :
  env_ok -> sys_wf s ->
  exists s' calls, deadline_check env tid now s = Some s' /\ keeps s s' /\
    sy_trace s' = sy_trace s ++ calls /\ ticks_of calls = [] /\ backgrounds_of calls = [] /\
    sy_bgRoundRobin s' = sy_bgRoundRobin s /\ sy_lastDispatch s' = sy_lastDispatch s.
Proof.
  intros Henv Hwf. unfold deadline_check.
  destruct (td_isScheduled (env_desc env tid)).
  2: { exists s, []. rewrite app_nil_r. repeat (split; [done || by apply keeps_refl|]). done. }
  case_decide as Hover.
  2: { exists s, []. rewrite app_nil_r. repeat (split; [done || by apply keeps_refl|]). done. }
  assert (Hk : keeps s (put_timer tid (recordDeadlineMiss (task_timer tid s)) s))
    by (apply put_timer_keeps; [done|by apply (wf_timers _ Hwf)|done]).
  set (s1 := put_timer _ _ s) in *.
  destruct (sys_log_ok DEADLINE_MISS now (f_of_Z (lastDuration (task_timer tid s))) s1)
    as (s2 & -> & Hk2 & Ht & _ & Hl & Hr); [apply Hk|].
  cbn [mbind option_bind]. do 2 eexists. split; [done|]. split.
  { eapply keeps_trans; [exact Hk|]. eapply keeps_trans; [exact Hk2|].
    apply call_keeps; [apply Hk2|apply (eo_overrun Henv)]. }
  simpl. rewrite Ht. repeat (split; [done|]). done.
Qed.

(** A dispatch: clock, body, clock. *)
Definition dispatch_task (tid : nat) (now : Z) (c : call) s : option System :=
  let s := timer_start env tid s in
  let s := emit c (on_shared (env_tick env tid now) s) in
  timer_stop env tid s.

Lemma dispatch_task_ok tid now c s :
  env_ok -> sys_wf s ->
  exists s', dispatch_task tid now c s = Some s' /\ keeps s s' /\
    sy_trace s' = sy_trace s ++ [c] /\ sy_lastDispatch s' = sy_lastDispatch s /\
    sy_bgRoundRobin s' = sy_bgRoundRobin s /\
    (tt_clocked (task_timer tid s) = true ->
      exists r h, sh_reads h = S r /\
        let before := env_clock env r in
        let after := env_clock env (sh_reads (env_tick env tid now h)) in
        lastDuration (task_timer tid s') = (if decide (before <= after) then after - before else 0)%Z).
Proof.
  intros Henv Hwf. unfold dispatch_task.
  destruct (timer_start_ok tid s Hwf) as (Hk1 & Ht1 & Hl1 & Hr1 & Hm1).
  set (s1 := timer_start env tid s) in *.
  assert (Hk2 : keeps s1 (emit c (on_shared (env_tick env tid now) s1))).
  { apply call_keeps; [apply Hk1|apply (eo_tick Henv)]. }
  set (s2 := emit c _) in *.
  destruct (timer_stop_ok tid s2) as (s3 & Hs & Hk3 & Ht3 & Hl3 & Hr3 & Hm3); [apply Hk2|].
  exists s3. split; [done|]. split; [eauto using keeps_trans|].
  rewrite Ht3, Hl3, Hr3. simpl. rewrite Ht1, Hl1, Hr1. repeat (split; [done|]).
  intros Hc. destruct (Hm1 Hc) as [Hst Hrd].
  assert (Hc2 : tt_clocked (task_timer tid s2) = true)
    by (rewrite (k_clocked _ _ Hk2), (k_clocked _ _ Hk1); done).
  exists (sh_reads (sy_shared s)), (sy_shared s1). split; [done|].
  cbv zeta. rewrite Hm3 by done. unfold measured. rewrite Hc2.
  assert (E : task_timer tid s2 = task_timer tid s1)
    by (unfold s2, task_timer, sh_timer; cbn; by rewrite (eo_timers Henv)).
  by rewrite E, Hst.
Qed.

Lemma tick_slot_ok tasks coreId t now busy s tsk :
  env_ok -> sys_wf s -> coreId < kCoreCount env -> t < kMaxTasksPerCore ->
  tasks !! t = Some tsk ->
  exists busy' s' calls, tick_slot env tasks coreId t now busy s = Some (busy', s') /\
    keeps s s' /\ sy_trace s' = sy_trace s ++ calls /\ backgrounds_of calls = [] /\
    sy_bgRoundRobin s' = sy_bgRoundRobin s /\
    ticks_of calls = slot_calls coreId tasks now s t /\ (0 <= busy -> 0 <= busy')%Z /\
    (forall c' t', last_of c' t' s' =
      if decide (c' = coreId /\ t' = t) then new_last tsk (last_of c' t' s) now
      else last_of c' t' s).
Proof.
  intros Henv Hwf Hc Ht Htsk. unfold tick_slot, slot_calls, load. rewrite Htsk.
  cbn [mbind option_bind]. destruct tsk as [tid|].
  2: { exists busy, s, []. rewrite app_nil_r. repeat (split; [done || by apply keeps_refl|]).
       intros c' t'. by case_decide. }
  destruct (period_gate_ok tid coreId t now s Hwf Hc Ht) as (s1 & -> & Hk1 & Ht1 & Hr1 & Hl1).
  cbn [mbind option_bind]. destruct (dispatches tid (last_of coreId t s) now); cbn [negb].
  2: { exists busy, s1, []. rewrite app_nil_r, Ht1. repeat (split; [done|]). done. }
  destruct (dispatch_task_ok tid now (CallTick coreId t tid now) s1 Henv)
    as (s2 & Hd & Hk2 & Ht2 & Hl2 & Hr2 & _); [apply Hk1|].
  unfold dispatch_task in Hd. rewrite Hd. cbn [mbind option_bind].
  destruct (deadline_check_ok tid now s2 Henv)
    as (s3 & calls & -> & Hk3 & Ht3 & Hti & Hba & Hr3 & Hl3); [apply Hk2|].
  cbn [mbind option_bind]. do 2 eexists. exists (CallTick coreId t tid now :: calls).
  split; [done|]. split; [eauto using keeps_trans|].
  rewrite Ht3, Ht2, Ht1, <- app_assoc, Hr3, Hr2. repeat (split; [done|]).
  split; [simpl; by rewrite Hti|].
  split; [intros _; apply (wrap_in_word 64); lia|].
  intros c' t'. rewrite <- Hl1. unfold last_of. by rewrite Hl3, Hl2.
Qed.

Lemma slot_calls_ext coreId tasks now s s' t :
  last_of coreId t s' = last_of coreId t s ->
  slot_calls coreId tasks now s' t = slot_calls coreId tasks now s t.
Proof. intros H. unfold slot_calls. by rewrite H. Qed.

Lemma tick_slots_ok tasks coreId t n now busy s :
  env_ok -> sys_wf s -> coreId < kCoreCount env ->
  length tasks = kMaxTasksPerCore -> t + n <= kMaxTasksPerCore ->
  exists busy' s' calls, tick_slots env tasks coreId t n now busy s = Some (busy', s') /\
    keeps s s' /\ sy_trace s' = sy_trace s ++ calls /\ backgrounds_of calls = [] /\
    sy_bgRoundRobin s' = sy_bgRoundRobin s /\
    ticks_of calls = mjoin (slot_calls coreId tasks now s <$> seq t n) /\
    (0 <= busy -> 0 <= busy')%Z /\
    (forall c' t', last_of c' t' s' =
      if decide (c' = coreId /\ t <= t' < t + n)
      then new_last (default None (tasks !! t')) (last_of c' t' s) now
      else last_of c' t' s).
Proof.
  intros Henv Hwf Hc Hl. revert t busy s Hwf. induction n as [|n IH]; intros t busy s Hwf Hn.
  { exists busy, s, []. rewrite app_nil_r. repeat (split; [done || by apply keeps_refl|]).
    intros c' t'. rewrite decide_False; [done|lia]. }
  destruct (lookup_lt_is_Some_2 tasks t) as [tsk Htsk]; [lia|].
  destruct (tick_slot_ok tasks coreId t now busy s tsk)
    as (b1 & s1 & cs1 & Hs1 & Hk1 & Ht1 & Hb1 & Hr1 & Hti1 & Hn1 & Hl1); [done || lia..|].
  destruct (IH (S t) b1 s1) as (b2 & s2 & cs2 & Hs2 & Hk2 & Ht2 & Hb2 & Hr2 & Hti2 & Hn2 & Hl2);
    [apply Hk1|lia|].
  exists b2, s2, (cs1 ++ cs2). cbn [tick_slots]. rewrite Hs1. cbn [mbind option_bind].
  split; [done|]. split; [eauto using keeps_trans|].
  rewrite Ht2, Ht1, <- app_assoc, Hr2, Hr1. split; [done|].
  unfold backgrounds_of, ticks_of in *. rewrite !omap_app, Hb1, Hb2, Hti1, Hti2.
  repeat (split; [done|]). split.
  - cbn [seq]. rewrite fmap_cons.
    change (mjoin (?x :: ?l)) with (x ++ mjoin l).
    f_equal. f_equal. apply list_fmap_ext. intros i t' Hi%lookup_seq. apply slot_calls_ext.
    rewrite Hl1, decide_False; [done|lia].
  - split; [auto|]. intros c' t'. rewrite Hl2, !Hl1.
    destruct (decide (c' = coreId /\ t' = t)) as [[-> ->]|Hne].
    + rewrite decide_False by lia. rewrite decide_True by lia. by rewrite Htsk.
    + destruct (decide (c' = coreId /\ S t <= t' < S t + n)).
      * by rewrite decide_True by lia.
      * by rewrite decide_False by lia.
Qed.

(** ** Phase 2 *)

(** The entry [m] places behind the round-robin index. *)
Definition ring_at s (m : nat) : option nat :=
  default None (sy_backgroundTasks s !! ((sy_bgRoundRobin s + m) mod sy_backgroundTaskCount s)).

Lemma omap_seq_S {B} (f : nat -> option B) j : omap f (seq 1 j) = omap (fun m => f (S m)) (seq 0 j).
Proof.
  rewrite <- (fmap_S_seq 0 j). induction (seq 0 j) as [|m l IH]; csimpl; [done|]. by rewrite IH.
Qed.

Lemma omap_pointwise {A B} (f g : A -> option B) (l : list A) : (forall x, f x = g x) -> omap f l = omap g l.
Proof. intros H. induction l as [|x l IH]; csimpl; [done|]. by rewrite H, IH. Qed.

(** Moving the index on. *)
Definition ring_next s : System :=
  set_bgRoundRobin ((sy_bgRoundRobin s + 1) mod sy_backgroundTaskCount s) s.

Lemma ring_next_ok s :
  sys_wf s -> 0 < sy_backgroundTaskCount s ->
  keeps s (ring_next s) /\
  (forall m, ring_at (ring_next s) m = ring_at s (S m)) /\
  (forall m, (sy_bgRoundRobin (ring_next s) + m) mod sy_backgroundTaskCount s =
    (sy_bgRoundRobin s + S m) mod sy_backgroundTaskCount s).
Proof.
  intros Hwf Hc.
  assert (Hmod : forall m, ((sy_bgRoundRobin s + 1) mod sy_backgroundTaskCount s + m)
      mod sy_backgroundTaskCount s = (sy_bgRoundRobin s + S m) mod sy_backgroundTaskCount s).
  { intros m. rewrite Nat.Div0.add_mod_idemp_l. f_equal. lia. }
  split; [|split; [|done]].
  - split; [|done..]. destruct Hwf. split; auto. right. simpl. apply Nat.mod_upper_bound. lia.
  - intros m. unfold ring_at. simpl. by rewrite Hmod.
Qed.

Lemma ring_at_static s s' :
  static s' = static s -> sy_bgRoundRobin s' = sy_bgRoundRobin s ->
  forall m, ring_at s' m = ring_at s m.
Proof. intros [Hr Hc]%static_ring Hrr m. unfold ring_at. by rewrite Hr, Hc, Hrr. Qed.

Lemma ring_at_static' s s' :
  sy_backgroundTasks s' = sy_backgroundTasks s ->
  sy_backgroundTaskCount s' = sy_backgroundTaskCount s -> sy_bgRoundRobin s' = sy_bgRoundRobin s ->
  forall m, ring_at s' m = ring_at s m.
Proof. intros Hr Hc Hrr m. unfold ring_at. by rewrite Hr, Hc, Hrr. Qed.

Lemma ring_load s :
  sys_wf s -> 0 < sy_backgroundTaskCount s ->
  load (sy_backgroundTasks s) (sy_bgRoundRobin s) = Some (ring_at s 0).
Proof.
  intros Hwf Hc. pose proof (wf_background _ Hwf). assert (Hr : sy_bgRoundRobin s < sy_backgroundTaskCount s) by (destruct (wf_ring _ Hwf); lia).
  unfold load, ring_at. rewrite Nat.add_0_r, Nat.mod_small by done.
  destruct (lookup_lt_is_Some_2 (sy_backgroundTasks s) (sy_bgRoundRobin s)) as [x ->]; [lia|done].
Qed.

(** One attempt, with the index moved on first. *)
Lemma tick_background_S i n gap used now s :
  sys_wf s -> 0 < sy_backgroundTaskCount s ->
  tick_background env i (S n) gap used now s =
    match ring_at s 0 with
    | None => tick_background env (S i) n gap used now (ring_next s)
    | Some tid =>
        if decide (0 < i /\ (gap < u64 (used + td_maxBudgetUs (env_desc env tid)))%Z)
        then Some (used, ring_next s)
        else
          s' ← dispatch_task tid now (CallBackground tid now) (ring_next s);
          tick_background env (S i) n gap
            (u64 (used + lastDuration (task_timer tid s'))) now s'
    end.
Proof.
  intros Hwf Hc. cbn [tick_background]. rewrite ring_load by done. cbn [mbind option_bind].
  destruct (ring_at s 0); done.
Qed.

(** The dispatched tasks are the next [j] ring entries; [broke] tells whether the loop
    left at an entry that did not fit, with the index already behind it. *)
Lemma tick_background_ok i n gap used now s :
  env_ok -> sys_wf s -> 0 < sy_backgroundTaskCount s ->
  exists used' s' calls j (broke : bool),
    tick_background env i n gap used now s = Some (used', s') /\
    keeps s s' /\ sy_trace s' = sy_trace s ++ calls /\ ticks_of calls = [] /\
    sy_lastDispatch s' = sy_lastDispatch s /\
    backgrounds_of calls = omap (ring_at s) (seq 0 j) /\
    j + Nat.b2n broke <= n /\ (broke = false -> j = n) /\ (i = 0 -> 0 < n -> 0 < j) /\
    sy_bgRoundRobin s' = (sy_bgRoundRobin s + (j + Nat.b2n broke)) mod sy_backgroundTaskCount s.
Proof.
  intros Henv. revert i used s. induction n as [|n IH]; intros i used s Hwf Hc.
  { exists used, s, [], 0, false. rewrite app_nil_r, !Nat.add_0_r.
    assert (Hr : sy_bgRoundRobin s < sy_backgroundTaskCount s) by (destruct (wf_ring _ Hwf); lia). rewrite Nat.mod_small by done.
    repeat (split; [done || by apply keeps_refl|]). done. }
  rewrite tick_background_S by done.
  destruct (ring_next_ok s Hwf Hc) as (Hk1 & Hat & Hrr).
  destruct (static_ring _ _ (k_static _ _ Hk1)) as [Hb1 Hc1].
  destruct (ring_at s 0) as [tid|] eqn:Hhead.
  - case_decide as Hfit.
    { exists used, (ring_next s), [], 0, true. rewrite app_nil_r.
      repeat (split; [done|]). split; [simpl; lia|]. split; [done|]. split; [lia|]. done. }
    destruct (dispatch_task_ok tid now (CallBackground tid now) (ring_next s) Henv)
      as (s2 & -> & Hk2 & Ht2 & Hl2 & Hr2 & _); [apply Hk1|].
    cbn [mbind option_bind]. destruct (static_ring _ _ (k_static _ _ Hk2)) as [Hb2 Hc2].
    destruct (IH (S i) (u64 (used + lastDuration (task_timer tid s2))) s2)
      as (used' & s3 & calls & j & broke & He & Hk3 & Ht3 & Hti & Hl3 & Hba & Hj & Hbr & _ & Hr3);
      [apply Hk2|lia|].
    exists used', s3, (CallBackground tid now :: calls), (S j), broke.
    split; [done|]. split; [eauto using keeps_trans|].
    split; [rewrite Ht3, Ht2, <- app_assoc; done|]. split; [done|].
    split; [rewrite Hl3, Hl2; done|]. split.
    + cbn [seq]. simpl. rewrite Hhead, Hba, omap_seq_S. f_equal.
      apply omap_pointwise. intros m. by rewrite (ring_at_static _ _ (k_static _ _ Hk2) Hr2), Hat.
    + split; [lia|]. split; [intros Hf; by rewrite (Hbr Hf)|]. split; [lia|].
      by rewrite Hr3, Hc2, Hc1, Hr2, Hrr.
  - destruct (IH (S i) used (ring_next s))
      as (used' & s3 & calls & j & broke & He & Hk3 & Ht3 & Hti & Hl3 & Hba & Hj & Hbr & _ & Hr3);
      [apply Hk1|lia|].
    exists used', s3, calls, (S j), broke.
    split; [done|]. split; [eauto using keeps_trans|].
    split; [done|]. split; [done|]. split; [done|]. split.
    + cbn [seq]. simpl. rewrite Hhead, Hba, omap_seq_S.
      apply omap_pointwise. intros m. by rewrite Hat.
    + split; [lia|]. split; [intros Hf; by rewrite (Hbr Hf)|]. split; [lia|].
      by rewrite Hr3, Hc1, Hrr.
Qed.

(** ** The whole tick *)

(** What [build] decides and a tick leaves alone. *)
Definition layout s :=
  (sy_cores s, sy_allTasks s, sy_backgroundTasks s, sy_backgroundTaskCount s, sy_backgroundCoreId s, sy_built s,
   sy_timer s, sy_kernelState s, (sy_stopConditions s, sy_stopConditionCount s, sy_crunch s, sy_coreInitialized s)).

Lemma layout_static s s' : static s' = static s -> layout s' = layout s.
Proof. unfold static, layout. intros H. simplify_eq. congruence. Qed.

Lemma layout_fields s s' :
  layout s' = layout s ->
  sy_cores s' = sy_cores s /\ sy_backgroundTasks s' = sy_backgroundTasks s /\
  sy_backgroundTaskCount s' = sy_backgroundTaskCount s /\
  sy_backgroundCoreId s' = sy_backgroundCoreId s /\ sy_built s' = sy_built s.
Proof. unfold layout. intros H. simplify_eq. repeat split; congruence. Qed.

Lemma tick_enter_ok coreId now s :
  sys_wf s -> coreId < kCoreCount env ->
  exists s', tick_enter coreId now s = Some s' /\ sys_wf s' /\ layout s' = layout s /\
    sy_trace s' = sy_trace s /\ sy_lastDispatch s' = sy_lastDispatch s /\
    sy_bgRoundRobin s' = sy_bgRoundRobin s /\ sy_taskTimers s' = sy_taskTimers s.
Proof.
  intros Hwf Hc. unfold tick_enter, load.
  destruct (lookup_lt_is_Some_2 (sy_lastTime s) coreId) as [last ->]; [by rewrite (wf_lastTime _ Hwf)|].
  cbn [mbind option_bind].
  assert (Hs1 : exists s1, (if decide (now < last /\ last <> 0)%Z
      then sys_log TIMER_ROLLOVER now f_zero s else Some s) = Some s1 /\ keeps s s1 /\
      sy_trace s1 = sy_trace s /\ sy_taskTimers s1 = sy_taskTimers s /\
      sy_lastDispatch s1 = sy_lastDispatch s /\ sy_bgRoundRobin s1 = sy_bgRoundRobin s).
  { case_decide; [by apply sys_log_ok|]. exists s. repeat (split; [done || by apply keeps_refl|]). done. }
  destruct Hs1 as (s1 & -> & Hk & Ht & Htt & Hl & Hr). cbn [mbind option_bind].
  pose proof (k_wf _ _ Hk) as Hwf1.
  rewrite store_ok by (by rewrite (wf_lastTime _ Hwf1)). cbn [mbind option_bind set_lastTime sy_utilTracker].
  destruct (lookup_lt_is_Some_2 (sy_utilTracker s1) coreId) as [u ->]; [by rewrite (wf_util _ Hwf1)|].
  cbn [mbind option_bind]. rewrite store_ok by (by rewrite (wf_util _ Hwf1)). cbn [mbind option_bind].
  eexists. split; [done|]. split.
  { destruct Hwf1. split; simpl; rewrite ?length_insert; auto. }
  split; [exact (layout_static _ _ (k_static _ _ Hk))|done].
Qed.

Lemma tick_leave_ok coreId now busy s :
  sys_wf s -> coreId < kCoreCount env ->
  exists s', tick_leave env coreId now busy s = Some s' /\ sys_wf s' /\ layout s' = layout s /\
    sy_trace s' = sy_trace s /\ sy_lastDispatch s' = sy_lastDispatch s /\
    sy_bgRoundRobin s' = sy_bgRoundRobin s /\ sy_taskTimers s' = sy_taskTimers s.
Proof.
  intros Hwf Hc. unfold tick_leave.
  assert (Hnow : exists tend s1, sys_now env s = (tend, s1) /\ keeps s s1 /\
      sy_trace s1 = sy_trace s /\ sy_taskTimers s1 = sy_taskTimers s /\
      sy_lastDispatch s1 = sy_lastDispatch s /\ sy_bgRoundRobin s1 = sy_bgRoundRobin s).
  { unfold sys_now. destruct (st_source (sy_timer s)); do 2 eexists; (split; [done|]);
      repeat (split; [done || (by apply keeps_refl) || by apply read_clock_ok|]); done. }
  destruct Hnow as (tend & s1 & -> & Hk & Ht & Htt & Hl & Hr).
  pose proof (k_wf _ _ Hk) as Hwf1. unfold load.
  destruct (lookup_lt_is_Some_2 (sy_utilTracker s1) coreId) as [u ->]; [by rewrite (wf_util _ Hwf1)|].
  cbn [mbind option_bind]. rewrite store_ok by (by rewrite (wf_util _ Hwf1)). cbn [mbind option_bind].
  pose proof (layout_static _ _ (k_static _ _ Hk)) as Hlay.
  case_decide; (eexists; split; [done|]; split;
    [destruct Hwf1; split; simpl; rewrite ?length_insert; auto using set_health_ok|by split]).
Qed.

Lemma tick_ok coreId now s core :
  env_ok -> sys_wf s -> sy_built s = true -> coreId < kCoreCount env ->
  sy_cores s !! coreId = Some core ->
  exists s' calls, sys_tick env coreId now s = Some s' /\ sys_wf s' /\ layout s' = layout s /\
    (forall tid, tt_clocked (task_timer tid s') = tt_clocked (task_timer tid s)) /\
    sy_trace s' = sy_trace s ++ calls /\
    ticks_of calls = mjoin (slot_calls coreId (cd_tasks core) now s <$> seq 0 (cd_taskCount core)) /\
    (forall c' t', last_of c' t' s' =
      if decide (c' = coreId /\ t' < cd_taskCount core)
      then new_last (default None (cd_tasks core !! t')) (last_of c' t' s) now
      else last_of c' t' s) /\
    if decide (coreId = sy_backgroundCoreId s /\ 0 < sy_backgroundTaskCount s) then
      exists s2 gap used s3 calls3, sys_wf s2 /\ sy_backgroundTaskCount s2 = sy_backgroundTaskCount s /\
        (forall tid, tt_clocked (task_timer tid s2) = tt_clocked (task_timer tid s)) /\
        (forall m, ring_at s2 m = ring_at s m) /\ sy_bgRoundRobin s2 = sy_bgRoundRobin s /\
        (gap <= Z.max 0 (kControlBudgetUs env))%Z /\
        tick_background env 0 (sy_backgroundTaskCount s) gap 0 now s2 = Some (used, s3) /\
        sy_trace s3 = sy_trace s2 ++ calls3 /\ backgrounds_of calls = backgrounds_of calls3 /\
        sy_bgRoundRobin s' = sy_bgRoundRobin s3
    else backgrounds_of calls = [] /\ sy_bgRoundRobin s' = sy_bgRoundRobin s.
Proof.
  intros Henv Hwf Hb Hc Hcore. unfold sys_tick. rewrite Hb, decide_False by lia. cbn [negb].
  destruct (tick_enter_ok coreId now s Hwf Hc) as (s1 & -> & Hwf1 & Hlay1 & Ht1 & Hl1 & Hr1 & Htt1).
  cbn [mbind option_bind]. destruct (layout_fields _ _ Hlay1) as (E1 & E2 & E3 & E4 & _).
  unfold load. replace (sy_cores s1) with (sy_cores s). rewrite Hcore. cbn [mbind option_bind].
  assert (Hcok : core_wf core) by (eapply (Forall_lookup_1 _ _ _ _ (proj2 (wf_cores _ Hwf))); done).
  destruct Hcok as [Hlen Hcnt].
  destruct (tick_slots_ok (cd_tasks core) coreId 0 (cd_taskCount core) now 0 s1)
    as (b2 & s2 & cs2 & -> & Hk2 & Ht2 & Hbg2 & Hr2 & Hti2 & Hn2 & Hl2); [done || lia..|].
  cbn [mbind option_bind]. pose proof (layout_static _ _ (k_static _ _ Hk2)) as Hlay2.
  destruct (layout_fields _ _ Hlay2) as (F1 & F2 & F3 & F4 & _).
  assert (Hlast : forall c t, last_of c t s1 = last_of c t s) by (intros; unfold last_of; by rewrite Hl1).
  assert (Hticks : ticks_of cs2 = mjoin (slot_calls coreId (cd_tasks core) now s <$> seq 0 (cd_taskCount core))).
  { rewrite Hti2. f_equal. apply list_fmap_ext. intros i t Hi. by apply slot_calls_ext. }
  replace (sy_backgroundCoreId s2) with (sy_backgroundCoreId s) by congruence.
  replace (sy_backgroundTaskCount s2) with (sy_backgroundTaskCount s) by congruence.
  assert (Htmr : forall tid, task_timer tid s1 = task_timer tid s)
    by (intros; unfold task_timer, sh_timer; by rewrite Htt1).
  case_decide as Hbgc.
  - destruct (tick_background_ok 0 (sy_backgroundTaskCount s)
      (if decide (b2 < kControlBudgetUs env)%Z then (kControlBudgetUs env - b2)%Z else 0%Z) 0 now s2 Henv)
      as (used & s3 & cs3 & j & broke & Hbgr & Hk3 & Ht3 & Hti3 & Hl3 & Hba3 & Hj & Hbr & Hpos & Hr3);
      [apply Hk2|replace (sy_backgroundTaskCount s2) with (sy_backgroundTaskCount s) by congruence; lia|].
    rewrite Hbgr. cbn [mbind option_bind].
    destruct (tick_leave_ok coreId now (u64 (b2 + used)) s3) as (s4 & -> & Hwf4 & Hlay4 & Ht4 & Hl4 & Hr4 & Htt4);
      [apply Hk3|done|].
    exists s4, (cs2 ++ cs3). split; [done|]. split; [done|].
    split; [etransitivity; [exact Hlay4|]; etransitivity; [exact (layout_static _ _ (k_static _ _ Hk3))|];
      etransitivity; [exact Hlay2|exact Hlay1]|].
    split; [intros tid; unfold task_timer at 1, sh_timer; rewrite Htt4; fold (sh_timer tid (sy_shared s3)); fold (task_timer tid s3);
      by rewrite (k_clocked _ _ Hk3), (k_clocked _ _ Hk2), Htmr|].
    split; [by rewrite Ht4, Ht3, Ht2, Ht1, app_assoc|].
    unfold ticks_of, backgrounds_of in *. rewrite !omap_app, Hti3, app_nil_r. split; [done|]. split.
    { intros c' t'. unfold last_of at 1. rewrite Hl4, Hl3. fold (last_of c' t' s2).
      rewrite Hl2, Hlast. repeat case_decide; (done || lia). }
    do 3 eexists. exists s3, cs3. split; [apply Hk2|]. split; [congruence|].
    split; [intros tid; by rewrite (k_clocked _ _ Hk2), Htmr|].
    split; [apply ring_at_static'; congruence|]. split; [congruence|].
    split; [|split; [exact Hbgr|split; [done|by rewrite Hbg2, Hr4]]].
    specialize (Hn2 ltac:(lia)). case_decide; lia.
  - cbn [mbind option_bind].
    destruct (tick_leave_ok coreId now b2 s2) as (s4 & -> & Hwf4 & Hlay4 & Ht4 & Hl4 & Hr4 & Htt4);
      [apply Hk2|done|].
    exists s4, cs2. split; [done|]. split; [done|]. split; [etransitivity; [exact Hlay4|]; etransitivity; [exact Hlay2|exact Hlay1]|].
    split; [intros tid; unfold task_timer at 1, sh_timer; rewrite Htt4; fold (sh_timer tid (sy_shared s2)); fold (task_timer tid s2);
      by rewrite (k_clocked _ _ Hk2), Htmr|].
    split; [by rewrite Ht4, Ht2, Ht1|]. split; [done|]. split.
    { intros c' t'. unfold last_of at 1. rewrite Hl4. fold (last_of c' t' s2).
      rewrite Hl2, Hlast. repeat case_decide; (done || lia). }
    by rewrite Hr4, Hr2, Hr1.
Qed.

(** ** Sequences of ticks *)

Fixpoint run_ticks (coreId : nat) (nows : list Z) s : option System :=
  match nows with
  | [] => Some s
  | now :: nows => s ← sys_tick env coreId now s; run_ticks coreId nows s
  end.

(** The times at which a slot is dispatched, in a trace. *)
Definition slot_times (coreId t : nat) (cs : list (nat * nat * nat * Z)) : list Z :=
  omap (fun c => let '(c', t', _, now) := c in
    if decide (c' = coreId /\ t' = t) then Some now else None) cs.

(** The reference: when a task last dispatched at [last] is dispatched, given the ticks. *)
Fixpoint gate_times (tid : nat) (last : Z) (nows : list Z) : list Z :=
  match nows with
  | [] => []
  | now :: nows =>
      if dispatches tid last now then now :: gate_times tid (new_last (Some tid) last now) nows
      else gate_times tid last nows
  end.

Lemma slot_times_app coreId t xs ys :
  slot_times coreId t (xs ++ ys) = slot_times coreId t xs ++ slot_times coreId t ys.
Proof. apply omap_app. Qed.

Lemma ticks_of_app xs ys : ticks_of (xs ++ ys) = ticks_of xs ++ ticks_of ys.
Proof. apply omap_app. Qed.

Lemma backgrounds_of_app xs ys : backgrounds_of (xs ++ ys) = backgrounds_of xs ++ backgrounds_of ys.
Proof. apply omap_app. Qed.

Lemma slot_times_calls coreId tasks now s t t' :
  slot_times coreId t (slot_calls coreId tasks now s t') =
    if decide (t' = t) then
      match tasks !! t with
      | Some (Some tid) => if dispatches tid (last_of coreId t s) now then [now] else []
      | _ => []
      end
    else [].
Proof.
  unfold slot_calls. case_decide as He.
  - subst t'. destruct (tasks !! t) as [[tid|]|]; try done.
    destruct (dispatches _ _ _); simpl; [|done]. by rewrite decide_True.
  - destruct (tasks !! t') as [[tid|]|]; try done.
    destruct (dispatches _ _ _); simpl; [|done]. rewrite decide_False; [done|tauto].
Qed.

Lemma slot_times_join coreId tasks now s t ts :
  NoDup ts ->
  slot_times coreId t (mjoin (slot_calls coreId tasks now s <$> ts)) =
    if decide (t ∈ ts) then
      match tasks !! t with
      | Some (Some tid) => if dispatches tid (last_of coreId t s) now then [now] else []
      | _ => []
      end
    else [].
Proof.
  induction 1 as [|t' ts Hnin Hnd IH]; [done|].
  change (mjoin (slot_calls coreId tasks now s <$> t' :: ts)) with
    (slot_calls coreId tasks now s t' ++ mjoin (slot_calls coreId tasks now s <$> ts)).
  rewrite slot_times_app, slot_times_calls, IH. destruct (decide (t' = t)) as [->|Hne].
  - rewrite (decide_False (P := t ∈ ts)) by done. rewrite app_nil_r, decide_True by set_solver. done.
  - simpl. repeat case_decide; set_solver.
Qed.

Lemma run_ticks_ok coreId nows s core t tid :
  env_ok -> sys_wf s -> sy_built s = true -> coreId < kCoreCount env ->
  sy_cores s !! coreId = Some core -> t < cd_taskCount core ->
  cd_tasks core !! t = Some (Some tid) ->
  exists s' calls, run_ticks coreId nows s = Some s' /\ sys_wf s' /\
    sy_trace s' = sy_trace s ++ calls /\
    slot_times coreId t (ticks_of calls) = gate_times tid (last_of coreId t s) nows.
Proof.
  intros Henv. revert s. induction nows as [|now nows IH]; intros s Hwf Hb Hc Hcore Ht Htid.
  { exists s, []. by rewrite app_nil_r. }
  destruct (tick_ok coreId now s core Henv Hwf Hb Hc Hcore)
    as (s1 & cs1 & He & Hwf1 & Hlay & _ & Ht1 & Hti1 & Hl1 & _).
  destruct (layout_fields _ _ Hlay) as (E1 & _ & _ & _ & E5).
  destruct (IH s1) as (s2 & cs2 & He2 & Hwf2 & Ht2 & Hti2); [done || congruence..|].
  exists s2, (cs1 ++ cs2). cbn [run_ticks]. rewrite He. cbn [mbind option_bind].
  split; [done|]. split; [done|]. split; [by rewrite Ht2, Ht1, app_assoc|].
  rewrite ticks_of_app, slot_times_app, Hti2, Hti1, slot_times_join by apply NoDup_seq.
  rewrite decide_True by (apply elem_of_seq; lia). rewrite Htid, Hl1, decide_True by done.
  rewrite Htid. cbn [default id from_option gate_times].
  destruct (dispatches tid (last_of coreId t s) now) eqn:Hd; [done|].
  simpl. unfold new_last. by rewrite Hd, andb_false_r.
Qed.

(** The same for all slots at once. *)
Lemma run_ticks_all coreId nows s core :
  env_ok -> sys_wf s -> sy_built s = true -> coreId < kCoreCount env -> sy_cores s !! coreId = Some core ->
  exists s' calls, run_ticks coreId nows s = Some s' /\ sy_trace s' = sy_trace s ++ calls /\
    forall t tid, t < cd_taskCount core -> cd_tasks core !! t = Some (Some tid) ->
      slot_times coreId t (ticks_of calls) = gate_times tid (last_of coreId t s) nows.
Proof.
  intros Henv Hwf Hb Hc Hcore. assert (Htotal : exists s' calls, run_ticks coreId nows s = Some s' /\ sy_trace s' = sy_trace s ++ calls).
  { revert s Hwf Hb Hcore. induction nows as [|now nows IH]; intros s Hwf Hb Hcore; [exists s, []; by rewrite app_nil_r|].
    destruct (tick_ok coreId now s core Henv Hwf Hb Hc Hcore) as (s1 & cs1 & He & Hwf1 & Hlay & _ & Ht1 & _).
    destruct (layout_fields _ _ Hlay) as (E1 & _ & _ & _ & E5). destruct (IH s1) as (s2 & cs2 & He2 & Ht2); [done || congruence..|].
    exists s2, (cs1 ++ cs2). cbn [run_ticks]. rewrite He. split; [done|]. by rewrite Ht2, Ht1, app_assoc. }
  destruct Htotal as (s' & cs & He & Ht). exists s', cs. split; [done|]. split; [done|]. intros t tid Hlt Htid.
  destruct (run_ticks_ok coreId nows s core t tid Henv Hwf Hb Hc Hcore Hlt Htid) as (s2 & cs2 & He2 & _ & Ht2 & Hti).
  rewrite He in He2. injection He2 as <-. rewrite Ht in Ht2. by apply app_inv_head in Ht2 as <-.
Qed.

(** A slot among the dispatches of a tick. *)
Lemma elem_of_ticks coreId now s core cs c t tid :
  ticks_of cs = mjoin (slot_calls coreId (cd_tasks core) now s <$> seq 0 (cd_taskCount core)) ->
  (c, t, tid, now) ∈ ticks_of cs <->
    (c = coreId /\ t < cd_taskCount core) /\ cd_tasks core !! t = Some (Some tid) /\ dispatches tid (last_of coreId t s) now = true.
Proof.
  intros ->. rewrite list_elem_of_join. unfold slot_calls. split.
  - intros (l & Hin & (k & -> & [_ Hk]%elem_of_seq)%list_elem_of_fmap).
    destruct (cd_tasks core !! k) as [[tid'|]|] eqn:E; [|by apply not_elem_of_nil in Hin..].
    destruct (dispatches tid' _ now) eqn:Hd; [|by apply not_elem_of_nil in Hin]. apply list_elem_of_singleton in Hin. injection Hin as -> -> ->. done.
  - intros ([-> Ht] & Htid & Hd). exists [(coreId, t, tid, now)]. split; [by apply list_elem_of_singleton|]. apply list_elem_of_fmap. exists t.
    rewrite Htid, Hd. split; [done|]. apply elem_of_seq. lia.
Qed.

(** Dispatches a managed period keeps apart. *)
Fixpoint spaced (period : Z) (ts : list Z) : Prop :=
  match ts with
  | a :: (b :: _) as ts' => (a = 0%Z \/ (period <= u64 (b - a))%Z) /\ spaced period ts'
  | _ => True
  end.

Lemma gate_times_head tid last nows b bs :
  gated tid = true -> gate_times tid last nows = b :: bs ->
  last = 0%Z \/ (td_periodUs (env_desc env tid) <= u64 (b - last))%Z.
Proof.
  intros Hg. revert last. induction nows as [|now nows IH]; intros last; [done|]. cbn [gate_times].
  unfold dispatches at 1. rewrite Hg. case_bool_decide as Hd; cbn [negb].
  - apply IH.
  - intros [= -> _]. destruct (decide (last = 0%Z)); [by left|right]. lia.
Qed.

Lemma gate_times_spaced tid last nows :
  gated tid = true -> spaced (td_periodUs (env_desc env tid)) (gate_times tid last nows).
Proof.
  intros Hg. revert last. induction nows as [|now nows IH]; intros last; [done|]. cbn [gate_times].
  destruct (dispatches tid last now) eqn:Hd; [|apply IH].
  specialize (IH (new_last (Some tid) last now)). unfold new_last in *. rewrite Hg, Hd in *. simpl in *.
  destruct (gate_times tid now nows) as [|b bs] eqn:E; [done|]. split; [|done].
  by eapply gate_times_head.
Qed.
End proofs.

(** ** A task of the kernel in the world of the others *)

(** What a callback keeps depends on two sizes and on the promise only. *)
Lemma callback_ok_same {W} (env env' : Env W) f :
  kCoreCount env' = kCoreCount env -> kQueueCapacity env' = kQueueCapacity env -> env_inv env' = env_inv env ->
  callback_ok env f -> callback_ok env' f.
Proof.
  intros Hc Hq Hi [Hf Hr Ht]. split; [|done..]. intros h [H1 H2 H3 H4 H5 H6]. rewrite Hc in H3, H4. rewrite Hq, Hi in H2.
  destruct (Hf h) as [? ? ? ? ? ?]; [by split|]. split; rewrite ?Hc, ?Hq, ?Hi; done.
Qed.

Lemma with_task_ok {W} (env : Env W) t desc init tick :
  env_ok env -> callback_ok env init -> (forall now, callback_ok env (tick now)) ->
  (forall now h, sh_taskTimers (tick now h) = sh_taskTimers h) -> env_ok (with_task env t desc init tick).
Proof.
  intros [E1 E2 Et E3 E4 E5 E6 E7 E8] Hi Ht Hm.
  split; intros; try (apply (callback_ok_same env); try reflexivity); eauto; simpl; case_decide; eauto. by split.
Qed.

(** ** Properties *)

(** C6 A tick of a core always returns, keeps the kernel's state well formed, and
    dispatches exactly the registered tasks that are due, each once and in list order: a
    task with a managed period is skipped only while less than its period has passed since
    the time remembered for its slot; every other task runs in every tick. The time of the tick
    is then remembered for each slot whose task has a managed period and was dispatched, and
    for no other; so that over any sequence of ticks each slot runs at the times at which
    its period has passed since it last ran. *)
Theorem tick_dispatches_due {W : Type} (env : Env W) (coreId : nat) (now : Z) (s : System W)
    (core : CoreData) :
  env_ok env -> sys_wf env s -> sy_built s = true -> coreId < kCoreCount env ->
  sy_cores s !! coreId = Some core ->
  (exists s' calls, sys_tick env coreId now s = Some s' /\ sys_wf env s' /\
    sy_trace s' = sy_trace s ++ calls /\
    ticks_of calls = mjoin (slot_calls env coreId (cd_tasks core) now s <$> seq 0 (cd_taskCount core)) /\
    (forall t tid, (coreId, t, tid, now) ∈ ticks_of calls -> gated env tid = true -> last_of coreId t s' = now) /\
    (forall c t, (forall tid, gated env tid = true -> (c, t, tid, now) ∉ ticks_of calls) -> last_of c t s' = last_of c t s)) /\
  forall nows, exists s' calls, run_ticks env coreId nows s = Some s' /\ sy_trace s' = sy_trace s ++ calls /\
    forall t tid, t < cd_taskCount core -> cd_tasks core !! t = Some (Some tid) ->
      slot_times coreId t (ticks_of calls) = gate_times env tid (last_of coreId t s) nows.
Proof.
  intros Henv Hwf Hb Hc Hcore. split.
  - destruct (tick_ok env coreId now s core Henv Hwf Hb Hc Hcore)
      as (s' & cs & He & Hwf' & _ & _ & Ht & Hti & Hl & _). exists s', cs. do 4 (split; [done|]). split.
    + intros t tid (H1 & Htid & Hd)%(elem_of_ticks env coreId now s core cs _ _ _ Hti) Hg. rewrite Hl, decide_True, Htid by done.
      cbn. by rewrite Hg, Hd.
    + intros c t Hno. rewrite Hl. case_decide as Hct; [|done]. destruct Hct as [-> Ht'].
      destruct (cd_tasks core !! t) as [[tid|]|] eqn:Htid; [|done..]. cbn. destruct (gated env tid) eqn:Hg; [|done].
      destruct (dispatches env tid (last_of coreId t s) now) eqn:Hd; [|done]. exfalso. apply (Hno tid Hg).
      by apply (elem_of_ticks env coreId now s core cs _ _ _ Hti).
  - intros nows. destruct (run_ticks_all env coreId nows s core Henv Hwf Hb Hc Hcore) as (s' & cs & He & Ht & Hall). by exists s', cs.
Qed.

(** Over any sequence of ticks of a core, a task with a managed period runs at the
    first tick, and then at every tick at which its period has passed since it last ran and
    at no other: two dispatches in a row are at least a period apart, unless the first was
    at time 0. *)
Theorem managed_period_respected {W : Type} (env : Env W) (coreId t tid : nat) (nows : list Z)
    (s : System W) (core : CoreData) :
  env_ok env -> sys_wf env s -> sy_built s = true -> coreId < kCoreCount env ->
  sy_cores s !! coreId = Some core -> t < cd_taskCount core ->
  cd_tasks core !! t = Some (Some tid) -> gated env tid = true -> last_of coreId t s = 0%Z ->
  exists s' calls, run_ticks env coreId nows s = Some s' /\ sy_trace s' = sy_trace s ++ calls /\
    slot_times coreId t (ticks_of calls) = gate_times env tid 0 nows /\
    spaced (td_periodUs (env_desc env tid)) (slot_times coreId t (ticks_of calls)) /\
    (forall now rest, nows = now :: rest -> exists later,
      slot_times coreId t (ticks_of calls) = now :: later).
Proof.
  intros Henv Hwf Hb Hc Hcore Ht Htid Hg Hl.
  destruct (run_ticks_ok env coreId nows s core t tid Henv Hwf Hb Hc Hcore Ht Htid)
    as (s' & cs & He & _ & Htr & Hti).
  rewrite Hl in Hti. exists s', cs. split; [done|]. split; [done|]. split; [done|].
  rewrite Hti. split; [by apply gate_times_spaced|].
  intros now rest ->. cbn [gate_times]. unfold dispatches. rewrite Hg, bool_decide_false by tauto.
  cbn [negb]. eauto.
Qed.

(** A tick of the background core runs the task at the head of the ring, if there is
    one there, and goes on through the ring in order; no entry has two turns in a tick, and
    the index stops behind the last entry it looked at. Other cores run no background
    task. *)
Theorem background_turn {W : Type} (env : Env W) (coreId : nat) (now : Z) (s : System W)
    (core : CoreData) :
  env_ok env -> sys_wf env s -> sy_built s = true -> coreId < kCoreCount env ->
  sy_cores s !! coreId = Some core ->
  exists s' calls, sys_tick env coreId now s = Some s' /\ sy_trace s' = sy_trace s ++ calls /\
    if decide (coreId = sy_backgroundCoreId s /\ 0 < sy_backgroundTaskCount s) then
      exists j k, backgrounds_of calls = omap (ring_at s) (seq 0 j) /\
        0 < j /\ j <= k <= sy_backgroundTaskCount s /\ k <= S j /\
        sy_bgRoundRobin s' = (sy_bgRoundRobin s + k) mod sy_backgroundTaskCount s
    else backgrounds_of calls = [].
Proof.
  intros Henv Hwf Hb Hc Hcore.
  destruct (tick_ok env coreId now s core Henv Hwf Hb Hc Hcore)
    as (s' & cs & He & Hwf' & _ & _ & Ht & Hti & _ & Hbg).
  exists s', cs. split; [done|]. split; [done|]. case_decide as Hd; [|by destruct Hbg].
  destruct Hbg as (s2 & gap & used & s3 & cs3 & Hwf2 & Hcnt & _ & Hat & Hrr & _ & Hrun & Ht3 & Hbs & Hr3).
  destruct (tick_background_ok env 0 (sy_backgroundTaskCount s) gap 0 now s2 Henv Hwf2)
    as (used' & s3' & cs3' & j & broke & Hrun' & _ & Ht3' & _ & _ & Hba & Hj & Hbr & Hpos & Hr3');
    [lia|].
  rewrite Hrun in Hrun'. injection Hrun' as <- <-. rewrite Ht3 in Ht3'. apply app_inv_head in Ht3' as <-.
  exists j, (j + Nat.b2n broke). rewrite Hbs, Hba, Hr3, Hr3', Hcnt, Hrr.
  split; [by apply omap_pointwise|]. split; [apply Hpos; lia|].
  destruct broke; simpl in *; (split; [lia|split; [lia|done]]).
Qed.

(** ** A ring of two *)

Section starvation.
Context {W : Type} (env : Env W).

(** Running task [a] takes time: the reading behind its body is later than the one in
    front of it. *)
Definition takes_time (a : nat) : Prop :=
  forall now h r, sh_reads h = S r ->
    (0 < env_clock env (sh_reads (env_tick env a now h)) - env_clock env r < 2 ^ 62)%Z.

Context (a b : nat).
Hypothesis Htime : takes_time a.
Hypothesis Hbudget : (0 <= kControlBudgetUs env < 2 ^ 62)%Z.

(** The head takes time, so the next entry does not fit when its declared budget is the
    whole control budget. *)
Lemma background_two (gap now : Z) (s : System W) :
  env_ok env -> sys_wf env s -> sy_backgroundTaskCount s = 2 ->
  ring_at s 0 = Some a -> ring_at s 1 = Some b ->
  tt_clocked (task_timer a s) = true ->
  (gap <= kControlBudgetUs env <= td_maxBudgetUs (env_desc env b))%Z ->
  (td_maxBudgetUs (env_desc env b) < 2 ^ 62)%Z ->
  exists used s', tick_background env 0 2 gap 0 now s = Some (used, s') /\
    sy_trace s' = sy_trace s ++ [CallBackground a now] /\
    sy_bgRoundRobin s' = (sy_bgRoundRobin s + 2) mod 2.
Proof.
  intros Henv Hwf Hc Ha Hb Hcl Hgap Hmax.
  rewrite tick_background_S, Ha, decide_False by (done || lia).
  destruct (ring_next_ok env s Hwf ltac:(lia)) as (Hk1 & Hat & Hrr).
  destruct (dispatch_task_ok env a now (CallBackground a now) (ring_next s) Henv)
    as (s2 & -> & Hk2 & Ht2 & Hl2 & Hr2 & Hm); [apply Hk1|].
  cbn [mbind option_bind].
  destruct Hm as (r & h & Hr & Hdur); [by rewrite (k_clocked _ _ _ Hk1)|].
  pose proof (Htime now h r Hr) as Hd. cbv zeta in Hdur.
  rewrite decide_True in Hdur by lia. rewrite Hdur.
  set (d := (_ - env_clock env r)%Z) in *. clearbody d.
  destruct (static_ring _ _ (k_static _ _ _ Hk2)) as [_ Hc2].
  destruct (static_ring _ _ (k_static _ _ _ Hk1)) as [_ Hc1].
  rewrite tick_background_S by (apply Hk2 || lia).
  rewrite (ring_at_static _ _ (k_static _ _ _ Hk2) Hr2), Hat, Hb.
  rewrite (wrap_id 64 (0 + d)) by (unfold in_word; lia).
  rewrite (wrap_id 64) by (unfold in_word; lia). rewrite decide_True by lia.
  do 2 eexists. split; [done|]. split; [exact Ht2|].
  simpl. rewrite Hc2, Hr2, Hc1, Hc. specialize (Hrr 1). rewrite Hc in Hrr. exact Hrr.
Qed.

Lemma starved_run (coreId : nat) (nows : list Z) (s : System W) (core : CoreData) :
  env_ok env -> sys_wf env s -> sy_built s = true -> coreId < kCoreCount env ->
  sy_cores s !! coreId = Some core -> sy_backgroundCoreId s = coreId ->
  sy_backgroundTaskCount s = 2 -> sy_bgRoundRobin s < 2 ->
  ring_at s 0 = Some a -> ring_at s 1 = Some b -> tt_clocked (task_timer a s) = true ->
  (kControlBudgetUs env <= td_maxBudgetUs (env_desc env b) < 2 ^ 62)%Z ->
  exists s' calls, run_ticks env coreId nows s = Some s' /\ sy_trace s' = sy_trace s ++ calls /\
    backgrounds_of calls = replicate (length nows) a.
Proof.
  intros Henv Hwf Hb Hc Hcore Hbc Hcnt Hlt Ha Hbt Hcl Hbud.
  revert s Hwf Hb Hcore Hbc Hcnt Hlt Ha Hbt Hcl.
  induction nows as [|now nows IH]; intros s Hwf Hb Hcore Hbc Hcnt Hlt Ha Hbt Hcl.
  { exists s, []. by rewrite app_nil_r. }
  destruct (tick_ok env coreId now s core Henv Hwf Hb Hc Hcore)
    as (s1 & cs1 & He & Hwf1 & Hlay & Hclk & Ht1 & _ & _ & Hbg).
  rewrite decide_True in Hbg by lia.
  destruct Hbg as (s2 & gap & used & s3 & cs3 & Hwf2 & Hcnt2 & Hclk2 & Hat & Hrr & Hgap & Hrun & Ht3 & Hbs & Hr3).
  destruct (background_two gap now s2 Henv Hwf2) as (used' & s3' & Hrun' & Ht3' & Hr3');
    [congruence|by rewrite Hat|by rewrite Hat|by rewrite Hclk2|lia|lia|].
  rewrite Hcnt in Hrun. rewrite Hrun in Hrun'. injection Hrun' as <- <-.
  rewrite Ht3 in Ht3'. apply app_inv_head in Ht3' as ->.
  assert (Hr1 : sy_bgRoundRobin s1 = sy_bgRoundRobin s).
  { rewrite Hr3, Hr3', Hrr. rewrite <- (Nat.mod_small (sy_bgRoundRobin s) 2) at 2 by done.
    replace (sy_bgRoundRobin s + 2) with (sy_bgRoundRobin s + 1 * 2) by lia. apply Nat.Div0.mod_add. }
  destruct (layout_fields _ _ Hlay) as (E1 & E2 & E3 & E4 & E5).
  pose proof (ring_at_static' s s1 E2 E3 Hr1) as Hat1.
  destruct (IH s1) as (s' & cs & He' & Ht' & Hb'); try congruence.
  exists s', (cs1 ++ cs). cbn [run_ticks]. rewrite He. cbn [mbind option_bind]. split; [done|].
  split; [by rewrite Ht', Ht1, app_assoc|].
  by rewrite backgrounds_of_app, Hbs, Hb'.
Qed.
End starvation.

(** The background ring is not fair. With two tasks in it, the first of which takes
    time, and a second whose declared budget is at least the control budget (as the diagnostics
    task's is by default), every tick runs the first task and skips the second, whose turn
    is used up by the budget check: however long the system runs, it never runs. *)
Theorem background_starvation {W : Type} (env : Env W) (coreId a b : nat) (nows : list Z)
    (s : System W) (core : CoreData) :
  takes_time env a -> (0 <= kControlBudgetUs env < 2 ^ 62)%Z ->
  env_ok env -> sys_wf env s -> sy_built s = true -> coreId < kCoreCount env ->
  sy_cores s !! coreId = Some core -> sy_backgroundCoreId s = coreId ->
  sy_backgroundTaskCount s = 2 -> sy_bgRoundRobin s = 0 ->
  sy_backgroundTasks s !! 0 = Some (Some a) -> sy_backgroundTasks s !! 1 = Some (Some b) ->
  tt_clocked (task_timer a s) = true ->
  (kControlBudgetUs env <= td_maxBudgetUs (env_desc env b) < 2 ^ 62)%Z -> a <> b ->
  exists s' calls, run_ticks env coreId nows s = Some s' /\ sy_trace s' = sy_trace s ++ calls /\
    backgrounds_of calls = replicate (length nows) a /\ b ∉ backgrounds_of calls.
Proof.
  intros Htime Hbud Henv Hwf Hb Hc Hcore Hbc Hcnt Hrr Ha Hbt Hcl Hmax Hne.
  assert (Hat : forall i x, i < 2 -> sy_backgroundTasks s !! i = Some (Some x) -> ring_at s i = Some x).
  { intros i x Hi Hx. unfold ring_at. rewrite Hrr, Hcnt, Nat.add_0_l, Nat.mod_small by done. by rewrite Hx. }
  destruct (starved_run env a b Htime Hbud coreId nows s core Henv Hwf Hb Hc Hcore Hbc Hcnt
    ltac:(lia) (Hat 0 a ltac:(lia) Ha) (Hat 1 b ltac:(lia) Hbt) Hcl Hmax) as (s' & cs & He & Ht & Hbs).
  exists s', cs. split; [done|]. split; [done|]. split; [done|]. rewrite Hbs.
  intros [-> _]%elem_of_replicate. done.
Qed.

(** ** Initialisation *)

Section init.
Context {W : Type} (env : Env W).
Implicit Types s : System W.

Definition inits_of (tasks : list (option nat)) : list call := CallInit <$> omap id tasks.

Lemma init_tasks_ok tasks t n s :
  env_ok env -> sys_wf env s -> t + n <= length tasks ->
  exists s', init_tasks env tasks t n s = Some s' /\ keeps env s s' /\
    sy_trace s' = sy_trace s ++ inits_of (take n (drop t tasks)).
Proof.
  intros Henv. revert t s. induction n as [|n IH]; intros t s Hwf Hn.
  { exists s. rewrite app_nil_r. by repeat (split; [done || by apply keeps_refl|]). }
  destruct (lookup_lt_is_Some_2 tasks t) as [tsk Htsk]; [lia|].
  cbn [init_tasks]. unfold load. rewrite Htsk. cbn [mbind option_bind].
  rewrite (drop_S _ _ _ Htsk). cbn [take].
  destruct tsk as [tid|].
  - pose proof (call_keeps env (CallInit tid) (env_init env tid) s Hwf (eo_init _ Henv tid)) as Hk.
    destruct (IH (S t) _ (k_wf _ _ _ Hk)) as (s' & -> & Hk' & Ht); [lia|].
    exists s'. split; [done|]. split; [by eapply keeps_trans|].
    rewrite Ht. simpl. by rewrite <- app_assoc.
  - destruct (IH (S t) s Hwf) as (s' & -> & Hk' & Ht); [lia|].
    exists s'. split; [done|]. by split.
Qed.

Lemma static_init s s' :
  static s' = static s ->
  sy_backgroundTasks s' = sy_backgroundTasks s /\ sy_backgroundTaskCount s' = sy_backgroundTaskCount s /\
  sy_backgroundCoreId s' = sy_backgroundCoreId s /\ sy_kernelState s' = sy_kernelState s /\
  sy_cores s' = sy_cores s /\ sy_coreInitialized s' = sy_coreInitialized s /\
  sy_built s' = sy_built s.
Proof. unfold static. intros H. simplify_eq. repeat split; congruence. Qed.

Lemma transition_valid target s :
  valid_transition (sy_kernelState s) target = true ->
  transitionTo target s = Some (true, set_kernelState target s).
Proof. intros H. unfold transitionTo. by rewrite H. Qed.

(** The first core to call [init] moves the kernel to INITIALIZING, and on to RUNNING. *)
Definition entered_state (k : KernelState) : KernelState := if decide (k = CONFIGURED) then INITIALIZING else k.
Definition started_state (k : KernelState) : KernelState := if decide (k = CONFIGURED \/ k = INITIALIZING) then RUNNING else k.

Lemma set_kernelState_same s : set_kernelState (sy_kernelState s) s = s.
Proof. by destruct s. Qed.

Lemma enter_init s :
  (if decide (sy_kernelState s = CONFIGURED)
   then '(_, s) ← transitionTo INITIALIZING s; Some s else Some s) = Some (set_kernelState (entered_state (sy_kernelState s)) s).
Proof.
  unfold entered_state. case_decide as Hk; [|by rewrite set_kernelState_same]. by rewrite transition_valid by (by rewrite Hk).
Qed.

Lemma leave_init k s :
  sy_kernelState s = entered_state k ->
  (if decide (sy_kernelState s = INITIALIZING)
   then '(_, s) ← transitionTo RUNNING s; Some s else Some s) = Some (set_kernelState (started_state k) s).
Proof.
  intros Hk. case_decide as Hi.
  - rewrite transition_valid by (by rewrite Hi). cbn. do 2 f_equal. unfold started_state. rewrite decide_True; [done|].
    unfold entered_state in Hk. case_decide; intuition congruence.
  - replace (started_state k) with (sy_kernelState s); [by rewrite set_kernelState_same|]. rewrite Hk in *. unfold started_state, entered_state in *.
    repeat case_decide; intuition congruence.
Qed.

(** A state change alone. *)
Lemma set_kernelState_wf k s : sys_wf env s -> sys_wf env (set_kernelState k s).
Proof. intros Hwf. by destruct Hwf; split. Qed.

(** The crunch task's part of [init]. *)
Lemma init_crunch_ok core s :
  env_ok env -> sys_wf env s ->
  exists s', match cd_mode core, cd_crunchTask core with
      | CRUNCH, Some tid => emit (CallInit tid) (on_shared (env_init env tid) s)
      | _, _ => s end = s' /\ keeps env s s' /\
    sy_trace s' = sy_trace s ++ (if decide (cd_mode core = CRUNCH) then inits_of [cd_crunchTask core] else []).
Proof.
  intros Henv Hwf. pose proof (keeps_refl env s Hwf) as Hrefl.
  destruct (cd_mode core), (cd_crunchTask core) as [tid|];
    (eexists; split; [done|]); simpl; rewrite ?app_nil_r; (split; [|done]); try done.
  apply call_keeps; [done|apply (eo_init _ Henv)].
Qed.

(** The background tasks' part. *)
Lemma init_background_ok coreId s :
  env_ok env -> sys_wf env s ->
  exists s', (if decide (coreId = sy_backgroundCoreId s)
      then init_tasks env (sy_backgroundTasks s) 0 (sy_backgroundTaskCount s) s else Some s) = Some s' /\
    keeps env s s' /\
    sy_trace s' = sy_trace s ++ (if decide (coreId = sy_backgroundCoreId s)
      then inits_of (take (sy_backgroundTaskCount s) (sy_backgroundTasks s)) else []).
Proof.
  intros Henv Hwf. destruct (decide (coreId = sy_backgroundCoreId s)).
  - destruct (init_tasks_ok (sy_backgroundTasks s) 0 (sy_backgroundTaskCount s) s Henv Hwf)
      as (s4 & He & Hk4 & Ht4); [apply (wf_background _ _ Hwf)|].
    exists s4. by rewrite drop_0 in Ht4.
  - exists s. rewrite app_nil_r. split; [done|]. split; [|done]. by apply keeps_refl.
Qed.

(** What [init] calls on a core. *)
Definition init_calls (coreId : nat) (core : CoreData) (s : System W) : list call :=
  inits_of (registered core) ++
  (if decide (cd_mode core = CRUNCH) then inits_of [cd_crunchTask core] else []) ++
  (if decide (coreId = sy_backgroundCoreId s) then inits_of (take (sy_backgroundTaskCount s) (sy_backgroundTasks s)) else []).

Lemma init_core_ok coreId s core :
  env_ok env -> sys_wf env s -> sy_cores s !! coreId = Some core ->
  exists s', init_core env coreId s = Some s' /\ keeps env s s' /\ sy_trace s' = sy_trace s ++ init_calls coreId core s.
Proof.
  intros Henv Hwf Hcore. unfold init_core, load. rewrite Hcore. cbn [mbind option_bind].
  pose proof (Forall_lookup_1 _ _ _ _ (proj2 (wf_cores _ _ Hwf)) Hcore) as [Hlen Hcnt].
  destruct (init_tasks_ok (cd_tasks core) 0 (cd_taskCount core) s Henv Hwf)
    as (s2 & -> & Hk2 & Ht2); [lia|]. cbn [mbind option_bind]. rewrite drop_0 in Ht2.
  fold (registered core) in Ht2.
  destruct (init_crunch_ok core s2 Henv (k_wf _ _ _ Hk2)) as (s3 & -> & Hk3 & Ht3).
  pose proof (keeps_trans _ _ _ _ Hk2 Hk3) as Hk13.
  destruct (static_init _ _ (k_static _ _ _ Hk13)) as (E1 & E2 & E3 & _).
  destruct (init_background_ok coreId s3 Henv (k_wf _ _ _ Hk3)) as (s4 & -> & Hk4 & Ht4).
  rewrite E1, E2, E3 in Ht4. exists s4. split; [done|]. split; [by eapply keeps_trans|].
  unfold init_calls. rewrite Ht4, Ht3, Ht2. by rewrite <- !app_assoc.
Qed.

Lemma sys_init_total coreId s core :
  env_ok env -> sys_wf env s -> sy_built s = true -> coreId < kCoreCount env ->
  sy_cores s !! coreId = Some core ->
  exists s', sys_init env coreId s = Some s' /\ sys_wf env s' /\
    sy_kernelState s' = started_state (sy_kernelState s) /\ sy_coreInitialized s' !! coreId = Some true /\
    sy_cores s' = sy_cores s /\ sy_built s' = true /\
    sy_backgroundCoreId s' = sy_backgroundCoreId s /\
    sy_trace s' = sy_trace s ++ init_calls coreId core s /\
    layout s' = layout (set_kernelState (started_state (sy_kernelState s)) (set_coreInitialized (<[coreId := true]> (sy_coreInitialized s)) s)).
Proof.
  intros Henv Hwf Hb Hc Hcore. unfold sys_init. rewrite Hb, decide_False by lia. cbn [negb].
  rewrite enter_init. cbn [mbind option_bind]. set (k := sy_kernelState s). set (k1 := entered_state k).
  set (s1 := set_kernelState k1 s). assert (Hwf1 : sys_wf env s1) by (by apply set_kernelState_wf).
  destruct (init_core_ok coreId s1 core Henv Hwf1 Hcore) as (s4 & -> & Hk4 & Ht4). cbn [mbind option_bind].
  destruct (static_init _ _ (k_static _ _ _ Hk4)) as (_ & _ & F3 & F4 & F5 & F6 & F7). simpl in F3, F4, F5, F6, F7.
  pose proof (layout_static _ _ (k_static _ _ _ Hk4)) as Hlay.
  assert (Hks : sy_kernelState s4 = k1) by congruence.
  rewrite (leave_init k) by done. cbn [mbind option_bind].
  pose proof (set_kernelState_wf (started_state k) s4 (k_wf _ _ _ Hk4)) as Hwf5.
  rewrite store_ok by (by rewrite (wf_inits _ _ Hwf5)). cbn [mbind option_bind].
  eexists. split; [done|]. split.
  { destruct Hwf5. split; auto. simpl in *. by rewrite length_insert. }
  split; [done|]. split.
  { simpl. apply list_lookup_insert_eq. by rewrite (wf_inits _ _ (k_wf _ _ _ Hk4)). }
  simpl. do 3 (split; [congruence|]). split; [exact Ht4|].
  unfold layout in *. simpl in *. congruence.
Qed.

Lemma sys_init_ok coreId s core :
  env_ok env -> sys_wf env s -> sy_built s = true -> coreId < kCoreCount env ->
  sy_cores s !! coreId = Some core ->
  sy_kernelState s = CONFIGURED \/ sy_kernelState s = RUNNING ->
  exists s', sys_init env coreId s = Some s' /\ sys_wf env s' /\
    sy_kernelState s' = RUNNING /\ sy_coreInitialized s' !! coreId = Some true /\
    sy_cores s' = sy_cores s /\ sy_built s' = true /\
    sy_backgroundCoreId s' = sy_backgroundCoreId s /\
    sy_trace s' = sy_trace s ++ inits_of (registered core) ++
      (if decide (cd_mode core = CRUNCH) then inits_of [cd_crunchTask core] else []) ++
      (if decide (coreId = sy_backgroundCoreId s)
       then inits_of (take (sy_backgroundTaskCount s) (sy_backgroundTasks s)) else []).
Proof.
  intros Henv Hwf Hb Hc Hcore Hk. destruct (sys_init_total coreId s core) as (s' & E & H1 & H2 & H3 & H4 & H5 & H6 & H7 & _); [done..|].
  assert (E2 : started_state (sy_kernelState s) = RUNNING) by (by destruct Hk as [-> | ->]). rewrite E2 in H2. by exists s'.
Qed.
End init.

(** [init] runs every task of the core once, in list order, then the core's crunch
    task, then, on the background core, the background tasks, and takes a CONFIGURED kernel
    through INITIALIZING to RUNNING; called for a further core of a running kernel it
    leaves the state as it is. *)
Theorem init_runs_all {W : Type} (env : Env W) (coreId : nat) (s : System W) (core : CoreData) :
  env_ok env -> sys_wf env s -> sy_built s = true -> coreId < kCoreCount env ->
  sy_cores s !! coreId = Some core ->
  sy_kernelState s = CONFIGURED \/ sy_kernelState s = RUNNING ->
  exists s', sys_init env coreId s = Some s' /\ sys_wf env s' /\
    sy_kernelState s' = RUNNING /\ sy_coreInitialized s' !! coreId = Some true /\
    sy_trace s' = sy_trace s ++ inits_of (registered core) ++
      (if decide (cd_mode core = CRUNCH) then inits_of [cd_crunchTask core] else []) ++
      (if decide (coreId = sy_backgroundCoreId s)
       then inits_of (take (sy_backgroundTaskCount s) (sy_backgroundTasks s)) else []).
Proof.
  intros Henv Hwf Hb Hc Hcore Hk.
  destruct (sys_init_ok env coreId s core) as (s' & He & Hwf' & Hk' & Hi & _ & _ & _ & Ht); [done..|].
  by exists s'.
Qed.

(** ** A concrete system, for the witnesses *)

(** Callbacks that do nothing. *)
Ltac idle_env_ok := split; intros; try reflexivity; split; intros; cbn; auto.

(** Task 0 on core 0; tasks 1 and 2, the latter with the diagnostics budget, in the ring. *)
Definition sample_system : System unit :=
  let core := Core (<[0 := Some 0]> (replicate kMaxTasksPerCore None)) 1 FLAT_LOOP None in
  Sys [core] [] [Some 1; Some 2; None; None] 2 0 0 [replicate kMaxTasksPerCore 0%Z] [0%Z] [cu_reset]
    new_depth (st_setClockSource true 0) CONFIGURED true [false] (replicate kMaxStopConditions None) 0
    new_crunch false false (put_sh_timer 1 (setClockSource true new_timer) (boot_shared sample_env tt)) [].

Lemma sample_env_ok : env_ok sample_env.
Proof. idle_env_ok. Qed.

Lemma sample_system_wf : sys_wf sample_env sample_system.
Proof.
  split; try reflexivity.
  - split; [reflexivity|]. repeat constructor.
  - vm_compute. lia.
  - by left.
  - split; [reflexivity|]. repeat constructor.
  - split; [exists []; apply new_logger_holds|exists []; split; [apply new_queue_holds|done]|done|done| |
      exists []; apply new_telemetry_rep].
    intros tid. unfold sh_timer. cbn. destruct (decide (tid = 1)) as [->|Hne].
    + by rewrite lookup_insert_eq.
    + by rewrite lookup_insert_ne.
  - vm_compute. lia.
Qed.

Lemma tick_dispatches_due_witness :
  (exists s' calls, sys_tick sample_env 0 5 sample_system = Some s' /\ sys_wf sample_env s' /\
    sy_trace s' = [] ++ calls /\ ticks_of calls = [(0, 0, 0, 5%Z)] /\ last_of 0 0 s' = 5%Z) /\
  exists s' calls, run_ticks sample_env 0 [7; 50; 107; 150; 300]%Z sample_system = Some s' /\ sy_trace s' = [] ++ calls /\
    slot_times 0 0 (ticks_of calls) = [7; 107; 300]%Z.
Proof.
  destruct (tick_dispatches_due sample_env 0 5 sample_system _ sample_env_ok sample_system_wf
    eq_refl (Nat.lt_0_succ 0) eq_refl) as [(s' & calls & E & Hwf & Ht & Hti & Hl & _) Hrun]. split.
  - exists s', calls. split; [exact E|]. split; [exact Hwf|]. split; [exact Ht|]. split; [exact Hti|].
    apply (Hl 0 0); [rewrite Hti; vm_compute; left|reflexivity].
  - destruct (Hrun [7; 50; 107; 150; 300]%Z) as (s2 & calls2 & E2 & Ht2 & Hslots). exists s2, calls2. split; [exact E2|]. split; [exact Ht2|].
    exact (Hslots 0 0 (Nat.lt_0_succ 0) eq_refl).
Defined.

Lemma managed_period_respected_witness :
  exists s' calls, run_ticks sample_env 0 [7; 50; 107; 150; 300]%Z sample_system = Some s' /\
    sy_trace s' = [] ++ calls /\
    slot_times 0 0 (ticks_of calls) = [7; 107; 300]%Z /\
    spaced 100 (slot_times 0 0 (ticks_of calls)) /\
    (forall now rest, [7; 50; 107; 150; 300]%Z = now :: rest -> exists later,
      slot_times 0 0 (ticks_of calls) = now :: later).
Proof.
  exact (managed_period_respected sample_env 0 0 0 [7; 50; 107; 150; 300]%Z sample_system _
    sample_env_ok sample_system_wf eq_refl (Nat.lt_0_succ 0) eq_refl (Nat.lt_0_succ 0)
    eq_refl eq_refl eq_refl).
Defined.

(** The exception in [managed_period_respected] is real: a dispatch at time 0 is not
    remembered. *)
Example dispatch_at_zero_forgotten : gate_times sample_env 0 0 [0; 1; 2; 101]%Z = [0; 1; 101]%Z.
Proof. reflexivity. Qed.

Lemma background_turn_witness :
  exists s' calls, sys_tick sample_env 0 5 sample_system = Some s' /\ sy_trace s' = [] ++ calls /\
    exists j k, backgrounds_of calls = omap (ring_at sample_system) (seq 0 j) /\
      0 < j /\ j <= k <= 2 /\ k <= S j /\ sy_bgRoundRobin s' = (0 + k) mod 2.
Proof.
  exact (background_turn sample_env 0 5 sample_system _ sample_env_ok sample_system_wf
    eq_refl (Nat.lt_0_succ 0) eq_refl).
Defined.

Lemma background_starvation_witness :
  exists s' calls, run_ticks sample_env 0 (replicate 100 5%Z) sample_system = Some s' /\
    sy_trace s' = [] ++ calls /\ backgrounds_of calls = replicate 100 1 /\ 2 ∉ backgrounds_of calls.
Proof.
  refine (background_starvation sample_env 0 1 2 (replicate 100 5%Z) sample_system _
    _ _ sample_env_ok sample_system_wf eq_refl (Nat.lt_0_succ 0) eq_refl eq_refl eq_refl eq_refl
    eq_refl eq_refl eq_refl _ _).
  - intros now h r Hr. simpl. rewrite Hr. lia.
  - simpl. lia.
  - simpl. lia.
  - discriminate.
Defined.

Lemma init_runs_all_witness :
  exists s', sys_init sample_env 0 sample_system = Some s' /\ sys_wf sample_env s' /\
    sy_kernelState s' = RUNNING /\ sy_coreInitialized s' !! 0 = Some true /\
    sy_trace s' = [CallInit 0; CallInit 1; CallInit 2].
Proof.
  exact (init_runs_all sample_env 0 sample_system _ sample_env_ok sample_system_wf eq_refl
    (Nat.lt_0_succ 0) eq_refl (or_introl eq_refl)).
Defined.
