(* ===== verification/Crunch.v ===== *)
(** * The crunch dispatcher ([kernel/CrunchDispatcher.h])

    The tight loop of a CRUNCH core: stop conditions, safety abort, watchdog, the task's
    [crunch] with its overrun detection. [fuel] bounds the iterations; the answer false is
    a loop that is still running. *)

From S2P Require Import Prelude Float32 Queue Metrics ErrorLog Sync Kernel Sched.

Section crunch.
Context {W : Type} (env : Env W).
Abbreviation System := (System W).

(** [System::anyStopConditionFired], from condition [i]; [n] are left. *)
Fixpoint stop_conditions (conds : list (option nat)) (i n : nat) (s : System)
    : option (bool * System) :=
  match n with
  | O => Some (false, s)
  | S n =>
      cond ← load conds i;
      match cond with
      | Some f =>
          let '(fired, h) := env_stopCondition env f (sy_shared s) in
          let s := set_shared h s in
          if fired : bool then Some (true, s) else stop_conditions conds (S i) n s
      | None => stop_conditions conds (S i) n s
      end
  end.

Definition anyStopConditionFired (s : System) : option (bool * System) :=
  stop_conditions (sy_stopConditions s) 0 (sy_stopConditionCount s) s.

(** [CrunchDispatcher::configure]. *)
Definition configure (task : option nat) (watchdogKick : bool) (d : CrunchDispatcher) : CrunchDispatcher :=
  CrunchDisp task watchdogKick (m_consecutiveOverruns d) (m_totalOverruns d).

Definition set_overruns (consecutive total : Z) (d : CrunchDispatcher) : CrunchDispatcher :=
  CrunchDisp (m_task d) (m_watchdogKick d) consecutive total.

(** The way out on a safety abort. A null task is dereferenced: undefined behaviour. *)
Definition soft_abort (s : System) : option System :=
  tid ← m_task (sy_crunch s);
  let s := emit (CallCrunchAbort tid) (on_shared (env_onCrunchAbort env tid) s) in
  let '(now, s) := sys_now env s in
  sys_log SOFT_ABORT now f_zero s.

(** Step 2 of an iteration: the kernel's watchdog and the platform's. *)
Definition crunch_kick (coreId : nat) (now : Z) (s : System) : option System :=
  w ← kick coreId now (sh_watchdog (sy_shared s));
  let s := on_shared (set_watchdog w) s in
  Some (if m_watchdogKick (sy_crunch s) then on_shared (env_watchdogKick env) s else s).

(** Step 4; the answer is whether the loop goes on. *)
Definition crunch_overrun (tid : nat) (now elapsed : Z) (s : System) : option (bool * System) :=
  let d := sy_crunch s in
  if decide (td_maxIterationUs (env_desc env tid) < elapsed)%Z then
    let consecutive := u32 (m_consecutiveOverruns d + 1) in
    let s := set_crunch (set_overruns consecutive (u32 (m_totalOverruns d + 1)) d) s in
    s ← sys_log CRUNCH_OVERRUN now (f_of_Z elapsed) s;
    if decide (0 < kCrunchMaxOverruns env /\ kCrunchMaxOverruns env <= consecutive)%Z then
      let s := emit (CallCrunchAbort tid) (on_shared (env_onCrunchAbort env tid) s) in
      s ← sys_log HARD_FAULT now (f_of_Z consecutive) s;
      Some (false, s)
    else Some (true, s)
  else Some (true, set_crunch (set_overruns 0 (m_totalOverruns d) d) s).

(** The body of the loop. *)
Definition crunch_iteration (coreId : nat) (s : System) : option (bool * System) :=
  if isSafetyAborted (sy_shared s) then
    s ← soft_abort s;
    Some (false, s)
  else
    let '(now, s) := sys_now env s in
    s ← crunch_kick coreId now s;
    let '(start, s) := sys_now env s in
    tid ← m_task (sy_crunch s);
    let s := on_shared (env_crunch env tid now) s in
    let '(stop, s) := sys_now env s in
    let elapsed := u64 (stop - start) in
    crunch_overrun tid now elapsed (emit (CallCrunch coreId tid now elapsed) s).

Fixpoint crunch_loop (fuel coreId : nat) (s : System) : option (bool * System) :=
  match fuel with
  | O => Some (false, s)
  | S fuel =>
      if isActiveState (sy_kernelState s) then
        '(fired, s) ← anyStopConditionFired s;
        if fired : bool then Some (true, s)
        else
          '(go, s) ← crunch_iteration coreId s;
          if go : bool then crunch_loop fuel coreId s else Some (true, s)
      else Some (true, s)
  end.

Definition runLoop (fuel coreId : nat) (s : System) : option (bool * System) :=
  let s := set_crunch (set_overruns 0 0 (sy_crunch s)) s in
  if isSafetyAborted (sy_shared s) then
    s ← soft_abort s;
    Some (true, s)
  else crunch_loop fuel coreId s.
End crunch.

(** ** What the trace shows *)

(** Which of the trace's iterations overran. *)
Definition overruns_of (maxIterationUs : Z) (cs : list call) : list bool :=
  omap (fun c => match c with
                 | CallCrunch _ _ _ elapsed => Some (bool_decide (maxIterationUs < elapsed)%Z)
                 | _ => None
                 end) cs.

Definition aborts_of (cs : list call) : list nat :=
  omap (fun c => match c with CallCrunchAbort tid => Some tid | _ => None end) cs.

(** The length of the run of overruns at the end, and their number. *)
Definition trailing (ovs : list bool) : nat := foldl (fun n (b : bool) => if b then S n else 0) 0 ovs.
Definition overruns (ovs : list bool) : nat := count_occ Bool.bool_dec ovs true.

Lemma trailing_snoc ovs b : trailing (ovs ++ [b]) = if b : bool then S (trailing ovs) else 0.
Proof. unfold trailing. by rewrite foldl_app. Qed.

Lemma overruns_snoc ovs b : overruns (ovs ++ [b]) = if b : bool then S (overruns ovs) else overruns ovs.
Proof. unfold overruns. rewrite count_occ_app. destruct b; simpl; lia. Qed.

Lemma trailing_le ovs : trailing ovs <= overruns ovs <= length ovs.
Proof.
  induction ovs as [|b ovs IH] using rev_ind; [done|].
  rewrite trailing_snoc, overruns_snoc, length_app. simpl. destruct b; lia.
Qed.

Section proofs.
Context {W : Type} (env : Env W).
Hypothesis Henv : env_ok env.
Implicit Types s : System W.

(** ** What an iteration leaves alone *)

Definition rest s :=
  (sy_cores s, sy_kernelState s, sy_built s, sy_stopConditions s, sy_stopConditionCount s,
   m_task (sy_crunch s), m_watchdogKick (sy_crunch s)).

Record spares s s' : Prop := {
  sp_wf : sys_wf env s';
  sp_rest : rest s' = rest s;
}.

Lemma spares_refl s : sys_wf env s -> spares s s.
Proof. by split. Qed.

Lemma spares_trans s1 s2 s3 : spares s1 s2 -> spares s2 s3 -> spares s1 s3.
Proof. intros [_ H] [? ?]. split; [done|congruence]. Qed.

Lemma keeps_spares s s' : keeps env s s' -> spares s s' /\ sy_crunch s' = sy_crunch s.
Proof.
  intros [Hwf Hs _ _]. unfold static in Hs. inversion Hs. split; [|done]. split; [done|].
  unfold rest. congruence.
Qed.

Lemma set_crunch_spares c t s : sys_wf env s -> spares s (set_crunch (set_overruns c t (sy_crunch s)) s).
Proof. intros Hwf. split; [|done]. by destruct Hwf; split. Qed.

Lemma sys_now_keeps s :
  sys_wf env s -> keeps env s (sys_now env s).2 /\ sy_trace (sys_now env s).2 = sy_trace s.
Proof.
  intros Hwf. unfold sys_now. destruct (st_source (sy_timer s)); simpl; (split; [|done]).
  - by apply read_clock_ok.
  - by apply keeps_refl.
Qed.

Lemma stop_conditions_ok conds i n s :
  sys_wf env s -> i + n <= length conds ->
  exists b s', stop_conditions env conds i n s = Some (b, s') /\ keeps env s s' /\
    sy_trace s' = sy_trace s.
Proof.
  revert i s. induction n as [|n IH]; intros i s Hwf Hn; simpl.
  { exists false, s. split; [done|]. by split; [apply keeps_refl|]. }
  destruct (load_ok conds i) as [cond ->]; [lia|]. csimpl. destruct cond as [f|].
  2: { apply IH; [done|lia]. }
  pose proof (on_shared_keeps env _ s Hwf (eo_stop _ Henv f)) as Hk. unfold on_shared in Hk.
  destruct (env_stopCondition env f (sy_shared s)) as [[] h]; simpl in Hk; [by eauto|].
  destruct (IH (S i) (set_shared h s)) as (b & s' & -> & Hk' & Ht); [apply Hk|lia|].
  exists b, s'. split; [done|]. split; [by eapply keeps_trans|done].
Qed.

Lemma anyStopConditionFired_ok s :
  sys_wf env s ->
  exists b s', anyStopConditionFired env s = Some (b, s') /\ keeps env s s' /\ sy_trace s' = sy_trace s.
Proof. intros Hwf. apply stop_conditions_ok; [done|apply (wf_stop _ _ Hwf)]. Qed.

Lemma stop_conditions_flag conds i n s b s' :
  (forall f h, isSafetyAborted h = true -> isSafetyAborted (env_stopCondition env f h).2 = true) ->
  isSafetyAborted (sy_shared s) = true -> stop_conditions env conds i n s = Some (b, s') ->
  isSafetyAborted (sy_shared s') = true.
Proof.
  intros Hstop. revert i s. induction n as [|n IH]; intros i s Hs He; simpl in He; [by simplify_eq|].
  destruct (load conds i) as [[f|]|]; simpl in He; [|by eapply IH|done].
  specialize (Hstop f _ Hs). destruct (env_stopCondition env f (sy_shared s)) as [[] h]; simplify_eq/=; [done|].
  by apply (IH (S i) (set_shared h s)).
Qed.

(** The newest log entry. *)
Definition last_log (code : ErrorCode) s : Prop :=
  exists es e, logger_holds (sh_log (sy_shared s)) es /\ last es = Some e /\ e_code e = code.

Lemma sys_log_last code t v s :
  sys_wf env s -> exists s', sys_log code t v s = Some s' /\ keeps env s s' /\
    sy_trace s' = sy_trace s /\ last_log code s'.
Proof.
  intros Hwf. destruct (sys_log_ok env code t v s Hwf) as (s' & He & Hk & Ht & _).
  exists s'. do 3 (split; [done|]). unfold sys_log in He.
  destruct (so_log _ _ (wf_shared _ _ Hwf)) as [es Hes].
  destruct (log_ok _ _ code t v Hes) as (l & Hl & Hl'). rewrite Hl in He. simpl in He. simplify_eq.
  exists (push_entry (LogEntry code t v) es), (LogEntry code t v). split; [done|].
  unfold push_entry, push_last. by rewrite last_snoc.
Qed.

Lemma soft_abort_ok tid s :
  sys_wf env s -> m_task (sy_crunch s) = Some tid ->
  exists s', soft_abort env s = Some s' /\ spares s s' /\ sy_crunch s' = sy_crunch s /\
    sy_trace s' = sy_trace s ++ [CallCrunchAbort tid] /\ last_log SOFT_ABORT s'.
Proof.
  intros Hwf Htid. unfold soft_abort. rewrite Htid. csimpl.
  pose proof (call_keeps env (CallCrunchAbort tid) _ s Hwf (eo_crunchAbort _ Henv tid)) as Hk.
  set (s1 := emit _ _) in *. destruct (sys_now_keeps s1) as [Hk1 Ht1]; [apply Hk|].
  destruct (sys_now env s1) as [now s2]. simpl in *.
  destruct (sys_log_last SOFT_ABORT now f_zero s2) as (s3 & -> & Hk3 & Ht3 & Hl); [apply Hk1|].
  exists s3. split; [done|].
  destruct (keeps_spares s s3) as [? Hc]; [exact (keeps_trans _ _ _ _ Hk (keeps_trans _ _ _ _ Hk1 Hk3))|].
  do 2 (split; [done|]). split; [congruence|done].
Qed.

Lemma crunch_kick_ok coreId now s :
  sys_wf env s -> coreId < kCoreCount env ->
  exists s', crunch_kick env coreId now s = Some s' /\ keeps env s s' /\ sy_trace s' = sy_trace s.
Proof.
  intros Hwf Hc. destruct (wf_shared _ _ Hwf) as [Hlog Hq [Hkicks Halive] Hsync Ht Htl].
  unfold crunch_kick, kick. rewrite !store_ok by lia. csimpl.
  set (h := set_watchdog _). assert (Hh : keeps env s (on_shared h s)).
  { split; [|done|done|done]. destruct Hwf. split; auto. split; [done|done| |done..].
    simpl. rewrite !length_insert. done. }
  eexists. split; [done|]. destruct (m_watchdogKick _); [|done]. split; [|done].
  eapply keeps_trans; [exact Hh|]. apply on_shared_keeps; [apply Hh|apply (eo_kick _ Henv)].
Qed.

(** ** The counters *)

Definition counted (ovs : list bool) s : Prop :=
  m_consecutiveOverruns (sy_crunch s) = Z.of_nat (trailing ovs) /\
  m_totalOverruns (sy_crunch s) = Z.of_nat (overruns ovs).

(** The run of overruns that ends the loop. *)
Definition at_limit (n : nat) : Prop :=
  (0 < kCrunchMaxOverruns env /\ kCrunchMaxOverruns env <= Z.of_nat n)%Z.

#[global] Instance at_limit_dec n : Decision (at_limit n).
Proof. unfold at_limit. apply _. Defined.

Lemma crunch_overrun_ok tid now elapsed ovs s :
  let ovs' := ovs ++ [bool_decide (td_maxIterationUs (env_desc env tid) < elapsed)%Z] in
  sys_wf env s -> counted ovs s -> (Z.of_nat (length ovs) + 1 < 2 ^ 32)%Z -> ~ at_limit 0 ->
  exists s' calls, crunch_overrun env tid now elapsed s = Some (negb (bool_decide (at_limit (trailing ovs'))), s') /\
    spares s s' /\ counted ovs' s' /\ sy_trace s' = sy_trace s ++ calls /\
    calls = (if decide (at_limit (trailing ovs')) then [CallCrunchAbort tid] else []) /\
    (at_limit (trailing ovs') -> last_log HARD_FAULT s').
Proof.
  intros ovs' Hwf [Hc Ht] Hlen H0. unfold crunch_overrun. pose proof (trailing_le ovs) as Hle.
  unfold ovs', counted. rewrite trailing_snoc, overruns_snoc. case_decide as Hover.
  2: { rewrite !(bool_decide_false (_ < elapsed)%Z) by done. rewrite bool_decide_false, decide_False by done.
       eexists _, []. split; [done|]. split; [by apply set_crunch_spares|]. rewrite app_nil_r. done. }
  rewrite !(bool_decide_true (_ < elapsed)%Z) by done. rewrite Hc, Ht.
  rewrite !wrap_id by (unfold in_word; lia). rewrite !Z.add_1_r, <- !Nat2Z.inj_succ.
  set (s1 := set_crunch _ s).
  pose proof (set_crunch_spares (Z.of_nat (S (trailing ovs))) (Z.of_nat (S (overruns ovs))) s Hwf) as Hs1.
  fold s1 in Hs1.
  destruct (sys_log_last CRUNCH_OVERRUN now (f_of_Z elapsed) s1) as (s2 & -> & Hk2 & Ht2 & _); [apply Hs1|].
  cbn [mbind option_bind]. destruct (keeps_spares _ _ Hk2) as [Hs2 Hcr2].
  unfold at_limit in *. case_decide as Hlim.
  - rewrite bool_decide_true by done.
    pose proof (call_keeps env (CallCrunchAbort tid) _ s2 (k_wf _ _ _ Hk2) (eo_crunchAbort _ Henv tid)) as Hk3.
    set (s3 := emit _ _) in *.
    destruct (sys_log_last HARD_FAULT now (f_of_Z (Z.of_nat (S (trailing ovs)))) s3)
      as (s4 & -> & Hk4 & Ht4 & Hlog); [apply Hk3|].
    csimpl. destruct (keeps_spares _ _ (keeps_trans _ _ _ _ Hk3 Hk4)) as [Hs4 Hcr4].
    eexists s4, _. split; [done|]. split; [exact (spares_trans _ _ _ Hs1 (spares_trans _ _ _ Hs2 Hs4))|].
    rewrite Hcr4, Hcr2. split; [done|].
    split; [rewrite Ht4; simpl; by rewrite Ht2|]. by rewrite decide_True.
  - rewrite bool_decide_false by done.
    eexists s2, []. split; [done|]. split; [exact (spares_trans _ _ _ Hs1 Hs2)|].
    rewrite Hcr2. split; [done|]. rewrite app_nil_r, decide_False by done. by rewrite Ht2.
Qed.

Lemma aborts_of_app xs ys : aborts_of (xs ++ ys) = aborts_of xs ++ aborts_of ys.
Proof. apply omap_app. Qed.

(** The calls of a crunch loop run no background task. *)
Definition is_crunch_call (c : call) : Prop :=
  match c with CallCrunch _ _ _ _ | CallCrunchAbort _ => True | _ => False end.

Lemma crunch_calls_background cs : Forall is_crunch_call cs -> backgrounds_of cs = [].
Proof. induction 1 as [|[] cs Hc _ IH]; by simpl. Qed.

Lemma overruns_of_app m xs ys : overruns_of m (xs ++ ys) = overruns_of m xs ++ overruns_of m ys.
Proof. apply omap_app. Qed.

(** How a loop that has made the iterations [ovs] stands. *)
Definition verdict (tid : nat) (done : bool) (ovs : list bool) (aborts : list nat) s : Prop :=
  (aborts = [] /\ ~ at_limit (trailing ovs)) \/
  (done = true /\ aborts = [tid] /\
    ((~ at_limit (trailing ovs) /\ last_log SOFT_ABORT s) \/
     (at_limit (trailing ovs) /\ last_log HARD_FAULT s))).

Section loop.
Context (tid coreId : nat).
Hypothesis Hcore : coreId < kCoreCount env.

Lemma at_limit_0 : ~ at_limit 0.
Proof. unfold at_limit. lia. Qed.
#[local] Hint Resolve at_limit_0 : core.

Abbreviation maxUs := (td_maxIterationUs (env_desc env tid)).

(** An iteration that is not aborted at its head. *)
Lemma crunch_dispatch_ok ovs s :
  sys_wf env s -> m_task (sy_crunch s) = Some tid -> counted ovs s ->
  (Z.of_nat (length ovs) + 1 < 2 ^ 32)%Z -> isSafetyAborted (sy_shared s) = false ->
  exists b s' calls, let limit := at_limit (trailing (ovs ++ [b])) in
    crunch_iteration env coreId s = Some (negb (bool_decide limit), s') /\ spares s s' /\
    sy_trace s' = sy_trace s ++ calls /\ overruns_of maxUs calls = [b] /\ counted (ovs ++ [b]) s' /\
    aborts_of calls = (if decide limit then [tid] else []) /\ (limit -> last_log HARD_FAULT s') /\
    Forall is_crunch_call calls.
Proof.
  intros Hwf Htid Hcnt Hlen Hflag. unfold crunch_iteration. rewrite Hflag.
  destruct (sys_now_keeps s Hwf) as [Hk1 Ht1]. destruct (sys_now env s) as [now s1]. simpl in *.
  destruct (crunch_kick_ok coreId now s1 (k_wf _ _ _ Hk1) Hcore) as (s2 & -> & Hk2 & Ht2).
  cbn [mbind option_bind].
  destruct (sys_now_keeps s2 (k_wf _ _ _ Hk2)) as [Hk3 Ht3]. destruct (sys_now env s2) as [start s3]. simpl in *.
  pose proof (keeps_trans _ _ _ _ Hk1 (keeps_trans _ _ _ _ Hk2 Hk3)) as Hk13.
  destruct (keeps_spares _ _ Hk13) as [_ Hcr3]. rewrite Hcr3, Htid. cbn [mbind option_bind].
  pose proof (on_shared_keeps env _ s3 (k_wf _ _ _ Hk3) (eo_crunch _ Henv tid now)) as Hk4.
  set (s4 := on_shared _ s3) in *.
  destruct (sys_now_keeps s4 (k_wf _ _ _ Hk4)) as [Hk5 Ht5]. destruct (sys_now env s4) as [stop s5]. simpl in *.
  set (el := u64 (stop - start)).
  pose proof (emit_keeps env (CallCrunch coreId tid now el) s5 (k_wf _ _ _ Hk5)) as Hk6.
  pose proof (keeps_trans _ _ _ _ Hk13 (keeps_trans _ _ _ _ Hk4 (keeps_trans _ _ _ _ Hk5 Hk6))) as Hk.
  destruct (keeps_spares _ _ Hk) as [Hsp Hcr].
  destruct (crunch_overrun_ok tid now el ovs (emit (CallCrunch coreId tid now el) s5))
    as (s' & calls & -> & Hsp' & Hc' & Ht' & Hcalls & Hlog); [apply Hk6| |done..|].
  { unfold counted. by rewrite Hcr. }
  eexists _, s', (CallCrunch coreId tid now el :: calls). split; [done|].
  split; [by eapply spares_trans|]. split.
  { rewrite Ht'. simpl. rewrite Ht5. simpl. rewrite Ht3, Ht2, Ht1, <- app_assoc. done. }
  rewrite Hcalls. case_decide; (do 4 (split; [done|])); repeat constructor.
Qed.

(** What [fuel] iterations from a state with the history [ovs] give. *)
Definition loop_post (fuel : nat) (ovs : list bool) s (r : option (bool * System W)) : Prop :=
  exists fin s' calls, let new := overruns_of maxUs calls in
    r = Some (fin, s') /\ spares s s' /\ sy_trace s' = sy_trace s ++ calls /\
    Forall is_crunch_call calls /\ length new <= fuel /\ (fin = false -> length new = fuel) /\ counted (ovs ++ new) s' /\
    verdict tid fin (ovs ++ new) (aborts_of calls) s' /\
    (forall k, k < length new -> ~ at_limit (trailing (ovs ++ take k new))).

(** The ways to go on: the loop stops, is aborted, reaches the limit, or iterates. *)
Lemma post_stop fuel ovs s s1 (fin : bool) :
  spares s s1 -> sy_crunch s1 = sy_crunch s -> sy_trace s1 = sy_trace s ->
  counted ovs s -> ~ at_limit (trailing ovs) -> (fin = false -> fuel = 0) ->
  loop_post fuel ovs s (Some (fin, s1)).
Proof.
  intros Hs1 Hc1 Ht1 Hcnt Hlim Hfin. exists fin, s1, []. simpl. rewrite !app_nil_r.
  do 3 (split; [done|]). split; [constructor|]. split; [lia|]. split; [intros; symmetry; auto|].
  split; [unfold counted; by rewrite Hc1|]. split; [by left|]. intros k. lia.
Qed.

Lemma post_abort fuel ovs s s1 :
  spares s s1 -> sy_crunch s1 = sy_crunch s -> m_task (sy_crunch s) = Some tid ->
  sy_trace s1 = sy_trace s -> counted ovs s -> ~ at_limit (trailing ovs) ->
  loop_post fuel ovs s (s2 ← soft_abort env s1; Some (true, s2)).
Proof.
  intros Hs1 Hc1 Htid Ht1 Hcnt Hlim.
  destruct (soft_abort_ok tid s1) as (s2 & -> & Hs2 & Hc2 & Ht2 & Hl2); [apply Hs1|congruence|].
  exists true, s2, [CallCrunchAbort tid]. simpl. rewrite !app_nil_r.
  split; [done|]. split; [by eapply spares_trans|]. split; [congruence|]. split; [by repeat constructor|]. split; [lia|].
  split; [done|]. split; [unfold counted; by rewrite Hc2, Hc1|]. split; [|intros k; lia].
  right. do 2 (split; [done|]). by left.
Qed.

Lemma post_iterate fuel ovs s s1 b s2 calls r :
  spares s s1 -> sy_trace s1 = sy_trace s -> spares s1 s2 -> sy_trace s2 = sy_trace s1 ++ calls ->
  overruns_of maxUs calls = [b] -> aborts_of calls = [] -> Forall is_crunch_call calls ->
  ~ at_limit (trailing ovs) -> loop_post fuel (ovs ++ [b]) s2 r -> loop_post (S fuel) ovs s r.
Proof.
  intros Hs1 Ht1 Hs2 Ht2 Ho2 Ha2 Hk2 Hlim (fin & s3 & calls' & -> & Hs3 & Ht3 & Hk3 & Hn & Hd & Hc3 & Hv & Hp).
  exists fin, s3, (calls ++ calls'). simpl. rewrite overruns_of_app, aborts_of_app, Ho2, Ha2.
  rewrite <- app_assoc in Hc3, Hv. simpl in *.
  split; [done|]. split; [exact (spares_trans _ _ _ Hs1 (spares_trans _ _ _ Hs2 Hs3))|].
  split; [rewrite Ht3, Ht2, Ht1; by rewrite app_assoc|].
  split; [by apply Forall_app_2|]. split; [lia|]. split; [intros; f_equal; auto|]. do 2 (split; [done|]).
  intros [|k] Hk; simpl; [by rewrite app_nil_r|].
  specialize (Hp k). rewrite <- app_assoc in Hp. apply Hp. lia.
Qed.

Lemma crunch_loop_ok fuel ovs s :
  sys_wf env s -> m_task (sy_crunch s) = Some tid -> counted ovs s -> ~ at_limit (trailing ovs) ->
  (Z.of_nat (length ovs + fuel) < 2 ^ 32)%Z ->
  loop_post fuel ovs s (crunch_loop env fuel coreId s).
Proof.
  revert ovs s. induction fuel as [|fuel IH]; intros ovs s Hwf Htid Hcnt Hlim Hlen; simpl.
  { apply post_stop; [by apply spares_refl|done..]. }
  destruct (isActiveState (sy_kernelState s)); [|apply post_stop; [by apply spares_refl|done..]].
  destruct (anyStopConditionFired_ok s Hwf) as (fired & s1 & -> & Hk1 & Ht1). cbn [mbind option_bind].
  destruct (keeps_spares _ _ Hk1) as [Hs1 Hc1].
  destruct fired; [by apply post_stop|].
  destruct (isSafetyAborted (sy_shared s1)) eqn:Hflag.
  - unfold crunch_iteration. rewrite Hflag.
    destruct (post_abort (S fuel) ovs s s1) as (fin & s2 & calls & He & Hpost); [done..|].
    destruct (soft_abort env s1) as [s2'|]; [|done]. simpl in *. simplify_eq. by exists true, s2, calls.
  - destruct (crunch_dispatch_ok ovs s1) as (b & s2 & calls & -> & Hs2 & Ht2 & Ho2 & Hc2 & Ha2 & Hl2 & Hcc2);
      [apply Hs1|congruence|unfold counted; by rewrite Hc1|lia|done|].
    cbn [mbind option_bind]. destruct (decide (at_limit (trailing (ovs ++ [b])))) as [Hat|Hat].
    + rewrite bool_decide_true by done. simpl. exists true, s2, calls. simpl. rewrite Ho2, Ha2.
      split; [done|]. split; [by eapply spares_trans|]. split; [congruence|]. split; [done|].
      split; [simpl; lia|].
      split; [done|]. split; [done|]. split.
      * right. do 2 (split; [done|]). right. auto.
      * intros [|k] Hk; simpl in *; [|lia]. by rewrite app_nil_r.
    + rewrite bool_decide_false by done. simpl.
      eapply (post_iterate fuel ovs s s1); [done..|].
      pose proof (spares_trans _ _ _ Hs1 Hs2) as [Hwf2 Hr]. unfold rest in Hr.
      apply IH; [done|congruence|done|done|rewrite length_app; simpl; lia].
Qed.

Lemma runLoop_ok fuel s :
  sys_wf env s -> m_task (sy_crunch s) = Some tid -> (Z.of_nat fuel < 2 ^ 32)%Z ->
  loop_post fuel [] (set_crunch (set_overruns 0 0 (sy_crunch s)) s) (runLoop env fuel coreId s).
Proof.
  intros Hwf Htid Hf. pose proof (set_crunch_spares 0 0 s Hwf) as Hs0.
  unfold runLoop. set (s0 := set_crunch _ s) in *. destruct (isSafetyAborted (sy_shared s0)).
  - eapply post_abort; try done. by apply spares_refl, Hs0.
  - apply crunch_loop_ok; try done. apply Hs0.
Qed.
End loop.
End proofs.

(** ** Properties *)

(** C21 The crunch loop keeps its promise about overruns: whatever the task, the stop
    conditions and the other callbacks do, it stays inside its buffers, its counters are the
    number of overruns and the length of the current run of overruns, and it gives up
    exactly when that run reaches the configured limit: then, and on a safety abort, the
    task's abort callback is the one and only abort call, with HARD_FAULT or SOFT_ABORT as
    the newest log entry. A loop that is not done has made one iteration per unit of fuel. *)
Theorem crunch_history {W : Type} (env : Env W) (fuel coreId tid : nat) (s : System W) :
  env_ok env -> sys_wf env s -> coreId < kCoreCount env -> m_task (sy_crunch s) = Some tid ->
  (Z.of_nat fuel < 2 ^ 32)%Z ->
  exists fin s' calls, runLoop env fuel coreId s = Some (fin, s') /\ sys_wf env s' /\
    sy_trace s' = sy_trace s ++ calls /\
    let ovs := overruns_of (td_maxIterationUs (env_desc env tid)) calls in
    length ovs <= fuel /\ (fin = false -> length ovs = fuel) /\
    m_totalOverruns (sy_crunch s') = Z.of_nat (overruns ovs) /\
    m_consecutiveOverruns (sy_crunch s') = Z.of_nat (trailing ovs) /\
    verdict env tid fin ovs (aborts_of calls) s' /\
    (forall k, k < length ovs -> ~ at_limit env (trailing (take k ovs))).
Proof.
  intros Henv Hwf Hc Htid Hf.
  pose proof (runLoop_ok env Henv tid coreId Hc fuel s Hwf Htid Hf) as Hpost.
  destruct Hpost as (fin & s' & calls & -> & [Hwf' _] & Ht & _ & Hn & Hd & [H1 H2] & Hv & Hp).
  exists fin, s', calls. simpl in *. done.
Qed.

(** A pending safety abort stops the crunch loop before the next iteration: before the
    first one always with the abort callback; between two iterations with the callback only
    if no stop condition fires at the same time, because the stop conditions are asked
    first and their exit skips it. *)
Theorem crunch_abort_prompt {W : Type} (env : Env W) (fuel coreId tid : nat) (s : System W) :
  env_ok env -> sys_wf env s -> m_task (sy_crunch s) = Some tid ->
  isSafetyAborted (sy_shared s) = true -> isActiveState (sy_kernelState s) = true ->
  (forall f h, isSafetyAborted h = true -> isSafetyAborted (env_stopCondition env f h).2 = true) ->
  (exists s', runLoop env fuel coreId s = Some (true, s') /\
     sy_trace s' = sy_trace s ++ [CallCrunchAbort tid]) /\
  (exists fired s1 s', anyStopConditionFired env s = Some (fired, s1) /\
     crunch_loop env (S fuel) coreId s = Some (true, s') /\
     sy_trace s' = sy_trace s ++ (if fired then [] else [CallCrunchAbort tid])).
Proof.
  intros Henv Hwf Htid Hflag Hact Hstop. split.
  - unfold runLoop. set (s0 := set_crunch _ s). change (sy_shared s0) with (sy_shared s). rewrite Hflag.
    destruct (soft_abort_ok env Henv tid s0) as (s' & -> & _ & _ & Ht & _);
      [apply (set_crunch_spares env 0 0 s Hwf)|done|]. cbn [mbind option_bind]. eauto.
  - destruct (anyStopConditionFired_ok env Henv s Hwf) as (fired & s1 & E & Hk & Ht).
    exists fired, s1. simpl. rewrite Hact, E. cbn [mbind option_bind].
    destruct fired; [exists s1; by rewrite app_nil_r|].
    assert (Hf1 : isSafetyAborted (sy_shared s1) = true) by (by eapply stop_conditions_flag).
    unfold crunch_iteration. rewrite Hf1. destruct (keeps_spares env s s1 Hk) as [Hs1 Hc1].
    destruct (soft_abort_ok env Henv tid s1) as (s2 & -> & _ & _ & Ht2 & _); [apply Hs1|congruence|].
    cbn [mbind option_bind]. exists s2. rewrite Ht2, Ht. done.
Qed.

(** ** A concrete crunch core, for the witnesses *)

(** [sample_env] with a crunch task that always overruns its 50 microseconds, on core 0. *)
Definition crunch_env : Env unit := {|
  kCoreCount := 1; kQueueCapacity := 4; kControlBudgetUs := 10000; kMaxBackgroundTasks := 4;
  kCrunchMaxOverruns := 2; kMinSchedulePeriodUs := 10; kMetricsWindowUs := 60000000;
  env_desc := env_desc sample_env;
  env_init _ h := h; env_tick _ _ h := h; env_onOverrun _ _ _ h := h; env_crunch _ _ h := h;
  env_onCrunchAbort _ h := h; env_stopCondition _ h := (false, h); env_watchdogKick h := h;
  env_peers _ h := h;
  env_clock n := (1000 * Z.of_nat n)%Z; env_inv _ _ := True;
|}.

Definition crunch_system : System unit :=
  set_crunch (configure (Some 7) false new_crunch) (set_kernelState RUNNING sample_system).

Lemma crunch_env_ok : env_ok crunch_env.
Proof. idle_env_ok. Qed.

Lemma crunch_system_wf : sys_wf crunch_env crunch_system.
Proof. destruct sample_system_wf as [? ? ? ? ? ? ? []]; split; auto. by split. Qed.

(** It is given up after the second overrun. *)
Lemma crunch_history_witness :
  exists fin s' calls, runLoop crunch_env 5 0 crunch_system = Some (fin, s') /\
    sys_wf crunch_env s' /\ sy_trace s' = [] ++ calls /\
    let ovs := overruns_of 50 calls in
    length ovs <= 5 /\ (fin = false -> length ovs = 5) /\
    m_totalOverruns (sy_crunch s') = Z.of_nat (overruns ovs) /\
    m_consecutiveOverruns (sy_crunch s') = Z.of_nat (trailing ovs) /\
    verdict crunch_env 7 fin ovs (aborts_of calls) s' /\
    (forall k, k < length ovs -> ~ at_limit crunch_env (trailing (take k ovs))).
Proof.
  apply (crunch_history crunch_env 5 0 7 crunch_system crunch_env_ok crunch_system_wf);
    [apply Nat.lt_0_succ|reflexivity|reflexivity].
Defined.

Example crunch_gives_up :
  (fun r => (r.1, m_totalOverruns (sy_crunch r.2), overruns_of 50 (sy_trace r.2),
             aborts_of (sy_trace r.2)))
    <$> runLoop crunch_env 5 0 crunch_system = Some (true, 2%Z, [true; true], [7]).
Proof. reflexivity. Qed.

Definition aborted_system : System unit :=
  set_shared (signalSafetyAbort (sy_shared crunch_system)) crunch_system.

Lemma aborted_system_wf : sys_wf crunch_env aborted_system.
Proof. destruct crunch_system_wf as [? ? ? ? ? ? ? []]; split; auto. by split. Qed.

Lemma crunch_abort_prompt_witness :
  (exists s', runLoop crunch_env 4 0 aborted_system = Some (true, s') /\
     sy_trace s' = sy_trace aborted_system ++ [CallCrunchAbort 7]) /\
  (exists fired s1 s', anyStopConditionFired crunch_env aborted_system = Some (fired, s1) /\
     crunch_loop crunch_env 5 0 aborted_system = Some (true, s') /\
     sy_trace s' = sy_trace aborted_system ++ (if fired then [] else [CallCrunchAbort 7])).
Proof.
  refine (crunch_abort_prompt crunch_env 4 0 7 aborted_system crunch_env_ok aborted_system_wf _ _ _ _);
    [reflexivity..|]. intros f h Hh. exact Hh.
Defined.
