(* ===== verification/Run.v ===== *)
(** * The run loop, the snapshot and the reset ([kernel/System.h])

    [sys_run] is [System::run] on one core: what the other cores do in the meantime is
    behind the environment's [env_peers]. [fuel] bounds the iterations of the dispatch
    loop; the answer false is a core that is still dispatching. *)

From S2P Require Import Prelude Float32 Protocol Queue Metrics ErrorLog Sync Telemetry Kernel Sched Crunch.

Section run.
Context {W : Type} (env : Env W).
Abbreviation System := (System W).

(** ** The barriers *)

(** [s_sync] is default-constructed: it has no error handler. The other cores run in a delay,
    and with no time passing before a load. *)
Definition sys_sync : SyncHost (Shared W) := {|
  m_states := sh_sync;
  put_states := set_sync;
  m_errorHandler := None;
  meanwhile := env_peers env 0;
  pollDelay := env_peers env;
|}.

Definition kMultiCore : bool := bool_decide (2 <= kCoreCount env).

(** [NoOpMultiCoreSync] below two cores. *)
Definition sync_setInit (coreId : nat) (s : System) : option System :=
  if kMultiCore then
    h ← @setInit _ sys_sync coreId (sy_shared s);
    Some (set_shared h s)
  else Some s.

(** A barrier with the timeout of 2000 polls; [run] ignores its answer. *)
Definition sync_barrier
    (barrier : SyncHost (Shared W) -> nat -> nat -> nat -> Z -> Z -> Shared W -> option (option bool * Shared W))
    (coreId : nat) (s : System) : option System :=
  if kMultiCore then
    '(answer, h) ← barrier sys_sync 2000 (kCoreCount env) coreId 2000%Z 1%Z (sy_shared s);
    _ ← answer;
    Some (set_shared h s)
  else Some s.

(** ** [run] *)

Fixpoint flat_loop (fuel coreId : nat) (s : System) : option (bool * System) :=
  match fuel with
  | O => Some (false, s)
  | S fuel =>
      if isActiveState (sy_kernelState s) then
        '(fired, s) ← anyStopConditionFired env s;
        if fired : bool then Some (true, s)
        else
          let '(now, s) := sys_now env s in
          s ← sys_tick env coreId now s;
          flat_loop fuel coreId s
      else Some (true, s)
  end.

(** Phase 4. *)
Definition run_dispatch (fuel coreId : nat) (s : System) : option (bool * System) :=
  core ← load (sy_cores s) coreId;
  match cd_mode core, cd_crunchTask core with
  | CRUNCH, Some tid =>
      runLoop env fuel coreId
        (set_crunch (configure (Some tid) (sy_watchdogKickFn s) (sy_crunch s)) s)
  | _, _ => flat_loop fuel coreId s
  end.

(** Phase 5. *)
Definition run_shutdown (s : System) : option System :=
  s ← (if decide (sy_kernelState s = RUNNING)
       then '(_, s) ← transitionTo SHUTTING_DOWN s; Some s else Some s);
  if decide (sy_kernelState s = SHUTTING_DOWN)
  then '(_, s) ← transitionTo SHUTDOWN s; Some s else Some s.

Definition sys_run (fuel coreId : nat) (s : System) : option (bool * System) :=
  if negb (sy_built s) then None
  else if decide (kCoreCount env <= coreId) then Some (true, s)
  else
    s ← sync_setInit coreId s;
    initialized ← load (sy_coreInitialized s) coreId;
    s ← (if initialized : bool then Some s else sys_init env coreId s);
    s ← sync_barrier (@startupBarrier _) coreId s;
    '(fin, s) ← run_dispatch fuel coreId s;
    if fin : bool then
      s ← run_shutdown s;
      s ← sync_barrier (@shutdownBarrier _) coreId s;
      Some (true, s)
    else Some (false, s).

(** ** [snapshot] *)

Definition empty_task_snapshot : TaskSnapshot :=
  TaskSnap 0 0 0 0 0 0 0 0 0 (replicate kHistogramBuckets 0%Z).

Definition task_snapshot (c t : nat) (tmr : TaskTimer) : TaskSnapshot :=
  TaskSnap (Z.of_nat t) (Z.of_nat c) (lastDuration tmr) (minDuration tmr) (maxDuration tmr)
    (bits_of_float (getAverageDurationUs tmr)) (sampleCount tmr) (overrunCount tmr)
    (deadlineMissCount tmr) (histogram tmr).

(** The tasks of core [c] from slot [t]; [n] are left and [idx] entries are written. *)
Fixpoint snapshot_tasks (s : System) (tasks : list (option nat)) (c t n idx : nat)
    (out : list TaskSnapshot) : option (nat * list TaskSnapshot) :=
  match n with
  | O => Some (idx, out)
  | S n =>
      if decide (idx < kMaxSnapshotTasks) then
        tsk ← load tasks t;
        match tsk with
        | Some tid =>
            out ← store out idx (task_snapshot c t (task_timer tid s));
            snapshot_tasks s tasks c (S t) n (S idx) out
        | None => snapshot_tasks s tasks c (S t) n idx out
        end
      else Some (idx, out)
  end.

Fixpoint snapshot_cores (s : System) (c n idx : nat) (out : list TaskSnapshot)
    : option (nat * list TaskSnapshot) :=
  match n with
  | O => Some (idx, out)
  | S n =>
      if decide (idx < kMaxSnapshotTasks) then
        core ← load (sy_cores s) c;
        '(idx, out) ← snapshot_tasks s (cd_tasks core) c 0 (cd_taskCount core) idx out;
        snapshot_cores s (S c) n idx out
      else Some (idx, out)
  end.

Fixpoint snapshot_utilization (s : System) (c n : nat) (out : list Z) : option (list Z) :=
  match n with
  | O => Some out
  | S n =>
      if decide (c < kMaxSnapshotCores) then
        u ← load (sy_utilTracker s) c;
        out ← store out c (bits_of_float (getUtilization u));
        snapshot_utilization s (S c) n out
      else Some out
  end.

Definition snapshot (s : System) : option (PerformanceSnapshot * System) :=
  let '(timestamp, s) := sys_now env s in
  utilization ← snapshot_utilization s 0 (kCoreCount env) (replicate kMaxSnapshotCores 0%Z);
  '(idx, tasks) ← snapshot_cores s 0 (kCoreCount env) 0 (replicate kMaxSnapshotTasks empty_task_snapshot);
  let q := sy_queueMonitor s in
  let h := sy_schedulerHealth s in
  Some (Snapshot timestamp (Z.of_nat (kCoreCount env)) utilization
          (lastDepth q) (maxDepth q) (bits_of_float (averageDepth q))
          (getPeakHeapUsedBytes (sh_memProfiler (sy_shared s))) getFreeHeapBytes getStackHighWaterMark
          (totalGapUs h) (maxGapUs h) (bits_of_float (averageGapUs h)) (sh_tickCountReported h)
          (sh_totalOverruns h) (sh_totalDeadlineMisses h) idx tasks, s).

(** ** [reset] *)

(** The kernel's own task objects are destroyed; the crunch dispatcher, the memory profiler
    and the user's task timers are left as they are. The telemetry's guard is an object of the
    world. *)
Definition sys_reset `{!IMutex W} (s : System) : System :=
  let h := sy_shared s in
  let '(telemetry, w) := telemetry_clear (sh_telemetry h) (sh_world h) in
  let h := Share (log_clear (sh_log h)) (clear (sh_queue h)) (new_watchdog (kCoreCount env))
             (new_sync (kCoreCount env)) false (sh_reads h) (sh_taskTimers h)
             (sh_reset (sh_schedulerHealth h)) (sh_memProfiler h) telemetry w in
  Sys (replicate (kCoreCount env) new_core) [] (replicate (length (sy_backgroundTasks s)) None) 0 0 0
    (replicate (kCoreCount env) (replicate kMaxTasksPerCore 0%Z)) (replicate (kCoreCount env) 0%Z)
    (replicate (kCoreCount env) cu_reset) (qd_reset (sy_queueMonitor s)) new_system_timer UNCONFIGURED false
    (replicate (length (sy_coreInitialized s)) false)
    (replicate (length (sy_stopConditions s)) None) 0 (sy_crunch s) false false h (sy_trace s).
End run.

(** ** What [run] does *)

Section proofs.
Context {W : Type} (env : Env W).
Hypothesis Henv : env_ok env.
Implicit Types s : System W.

Lemma sys_sync_spec : @SyncHostSpec _ (sys_sync env) (kCoreCount env).
Proof.
  refine {| host_ok := shared_ok env : Shared W -> Prop |}; simpl.
  - intros h Hh. apply Hh.
  - done.
  - intros l h [? ? ? _ ? ?] Hl. by split.
  - intros h Hh. by apply (eo_peers _ Henv).
  - intros ms h Hh. by apply (eo_peers _ Henv).
  - done.
Defined.

Lemma set_shared_wf h s : sys_wf env s -> shared_ok env h -> sys_wf env (set_shared h s).
Proof. intros Hwf Hh. by destruct Hwf; split. Qed.

(** A piece of [run] that changes the shared state alone. *)
Definition only_shared s s' : Prop := exists h, s' = set_shared h s /\ shared_ok env h.

Lemma only_shared_wf s s' : sys_wf env s -> only_shared s s' -> sys_wf env s'.
Proof. intros Hwf (h & -> & Hh). by apply set_shared_wf. Qed.

Lemma only_shared_refl s : sys_wf env s -> only_shared s s.
Proof. intros Hwf. exists (sy_shared s). split; [by destruct s|apply (wf_shared _ _ Hwf)]. Qed.

Lemma sync_setInit_ok coreId s :
  sys_wf env s -> coreId < kCoreCount env ->
  exists s', sync_setInit env coreId s = Some s' /\ only_shared s s'.
Proof.
  intros Hwf Hc. unfold sync_setInit. destruct (kMultiCore env); [|by eauto using only_shared_refl].
  destruct (@setState_spec _ (sys_sync env) _ sys_sync_spec CS_INIT coreId (sy_shared s))
    as (h & E & Hok & _); [apply (wf_shared _ _ Hwf)|done|].
  unfold setInit. rewrite E. cbn [mbind option_bind]. eexists. split; [done|]. by exists h.
Qed.

Lemma startup_ok coreId s :
  sys_wf env s -> coreId < kCoreCount env ->
  exists s', sync_barrier env (@startupBarrier _) coreId s = Some s' /\ only_shared s s'.
Proof.
  intros Hwf Hc. unfold sync_barrier. destruct (kMultiCore env); [|by eauto using only_shared_refl].
  unfold startupBarrier, setReady.
  destruct (@setState_spec _ (sys_sync env) _ sys_sync_spec CS_READY coreId (sy_shared s))
    as (h & -> & Hok & _); [apply (wf_shared _ _ Hwf)|done|]. cbn [mbind option_bind].
  destruct (@startup_loop_returns _ (sys_sync env) _ sys_sync_spec coreId 2000 1 2000 0 h)
    as (b & h' & -> & Hok' & _); [done || lia..|].
  cbn [mbind option_bind]. eexists. split; [done|]. by exists h'.
Qed.

Lemma shutdown_ok coreId s :
  sys_wf env s -> coreId < kCoreCount env ->
  exists s', sync_barrier env (@shutdownBarrier _) coreId s = Some s' /\ only_shared s s'.
Proof.
  intros Hwf Hc. unfold sync_barrier. destruct (kMultiCore env); [|by eauto using only_shared_refl].
  unfold shutdownBarrier, setShutdown.
  destruct (@setState_spec _ (sys_sync env) _ sys_sync_spec CS_SHUTDOWN coreId (sy_shared s))
    as (h & -> & Hok & _); [apply (wf_shared _ _ Hwf)|done|]. cbn [mbind option_bind].
  destruct (@shutdown_loop_returns _ (sys_sync env) _ sys_sync_spec 2000 1 2000 0 h)
    as (b & h' & -> & Hok' & _); [done || lia..|].
  cbn [mbind option_bind]. eexists. split; [done|]. by exists h'.
Qed.

(** The loops leave the lifecycle alone, and off the background core they run no background
    task. *)
Lemma flat_loop_ok fuel coreId core s :
  sys_wf env s -> sy_built s = true -> coreId < kCoreCount env -> sy_cores s !! coreId = Some core ->
  exists fin s' calls, flat_loop env fuel coreId s = Some (fin, s') /\ sys_wf env s' /\
    sy_kernelState s' = sy_kernelState s /\ sy_trace s' = sy_trace s ++ calls /\
    (coreId <> sy_backgroundCoreId s -> backgrounds_of calls = []).
Proof.
  intros Hwf Hb Hc. revert s Hwf Hb. induction fuel as [|fuel IH]; intros s Hwf Hb Hcore; simpl.
  { exists false, s, []. by rewrite app_nil_r. }
  destruct (isActiveState (sy_kernelState s)); [|exists true, s, []; by rewrite app_nil_r].
  destruct (anyStopConditionFired_ok env Henv s Hwf) as (fired & s1 & -> & Hk1 & Ht1).
  cbn [mbind option_bind]. destruct (keeps_spares env s s1 Hk1) as [[Hwf1 Hr1] _].
  unfold rest in Hr1. destruct fired.
  { exists true, s1, []. rewrite app_nil_r. split_and!; [done|done|congruence|done|done]. }
  destruct (sys_now_keeps env s1 Hwf1) as [Hk2 Ht2].
  destruct (sys_now env s1) as [now s2]. simpl in Hk2, Ht2.
  destruct (keeps_spares env s1 s2 Hk2) as [[Hwf2 Hr2] _]. unfold rest in Hr2.
  destruct (tick_ok env coreId now s2 core) as (s3 & cs & -> & Hwf3 & Hl & _ & Ht3 & _ & _ & Hbg); [done|done|congruence|done|congruence|].
  cbn [mbind option_bind]. destruct (layout_fields s2 s3 Hl) as (L1 & _ & _ & L4 & L5).
  assert (Hks : sy_kernelState s3 = sy_kernelState s2) by (unfold layout in Hl; congruence).
  destruct (IH s3) as (fin & s4 & cs' & -> & Hwf4 & Hk4 & Ht4 & Hbg4); [done|congruence..|].
  exists fin, s4, (cs ++ cs'). split_and!; [done|done|congruence|by rewrite Ht4, Ht3, Ht2, Ht1, app_assoc|].
  destruct (static_init _ _ (k_static _ _ _ Hk1)) as (_ & _ & B1 & _).
  destruct (static_init _ _ (k_static _ _ _ Hk2)) as (_ & _ & B2 & _).
  intros Hne. rewrite decide_False in Hbg by (intros [? _]; congruence). destruct Hbg as [Hbg _].
  rewrite backgrounds_of_app, Hbg, Hbg4 by congruence. done.
Qed.

Lemma run_dispatch_ok fuel coreId core s :
  sys_wf env s -> sy_built s = true -> coreId < kCoreCount env -> sy_cores s !! coreId = Some core ->
  (Z.of_nat fuel < 2 ^ 32)%Z ->
  exists fin s' calls, run_dispatch env fuel coreId s = Some (fin, s') /\ sys_wf env s' /\
    sy_kernelState s' = sy_kernelState s /\ sy_trace s' = sy_trace s ++ calls /\
    (coreId <> sy_backgroundCoreId s \/ (cd_mode core = CRUNCH /\ cd_crunchTask core <> None) ->
      backgrounds_of calls = []).
Proof.
  intros Hwf Hb Hc Hcore Hf. unfold run_dispatch, load. rewrite Hcore. cbn [mbind option_bind].
  destruct (flat_loop_ok fuel coreId core s) as (fin & s' & calls & E & Hwf' & Hk' & Ht' & Hbg); [done..|].
  destruct (cd_mode core); [exists fin, s', calls; split_and!; [done..|intuition congruence]|].
  destruct (cd_crunchTask core) as [tid|]; [|exists fin, s', calls; split_and!; [done..|intuition congruence]].
  clear fin s' calls E Hwf' Hk' Ht' Hbg.
  set (s1 := set_crunch _ s). assert (Hwf1 : sys_wf env s1) by (by destruct Hwf; split).
  destruct (runLoop_ok env Henv tid coreId Hc fuel s1) as (fin & s' & calls & -> & [Hwf' Hr] & Ht & Hcc & _); [done..|].
  exists fin, s', calls. split_and!; [done|done| |done|intros _; by apply crunch_calls_background].
  unfold rest in Hr. simpl in Hr. congruence.
Qed.

(** The initialisation that [run] starts with. *)
Lemma run_init_ok coreId core (initialized : bool) s :
  sys_wf env s -> sy_built s = true -> coreId < kCoreCount env -> sy_cores s !! coreId = Some core ->
  sy_kernelState s = RUNNING \/ (initialized = false /\ sy_kernelState s = CONFIGURED) ->
  exists s', (if initialized then Some s else sys_init env coreId s) = Some s' /\ sys_wf env s' /\
    sy_kernelState s' = RUNNING /\ sy_cores s' = sy_cores s /\ sy_built s' = true /\
    sy_backgroundCoreId s' = sy_backgroundCoreId s /\
    sy_trace s' = sy_trace s ++ (if initialized then [] else inits_of (registered core) ++
      (if decide (cd_mode core = CRUNCH) then inits_of [cd_crunchTask core] else []) ++
      (if decide (coreId = sy_backgroundCoreId s)
       then inits_of (take (sy_backgroundTaskCount s) (sy_backgroundTasks s)) else [])).
Proof.
  intros Hwf Hb Hc Hcore Hk. destruct initialized.
  { exists s. rewrite app_nil_r. destruct Hk as [Hk|[? _]]; [|done]. done. }
  destruct (sys_init_ok env coreId s core) as (s' & He & Hwf' & Hk' & _ & Hc' & Hb' & Hbg' & Ht); [done..| |].
  { destruct Hk as [|[_ ?]]; auto. }
  by exists s'.
Qed.

(** Phase 5 takes a running kernel to SHUTDOWN, and only such a kernel. *)
Lemma run_shutdown_ok s :
  sys_wf env s ->
  run_shutdown s = Some (set_kernelState
    (if decide (sy_kernelState s = RUNNING \/ sy_kernelState s = SHUTTING_DOWN) then SHUTDOWN
     else sy_kernelState s) s).
Proof.
  intros Hwf. unfold run_shutdown. destruct (sy_kernelState s) eqn:Hk; simpl;
    rewrite ?transition_valid by (by rewrite ?Hk); simpl; rewrite ?Hk; simpl;
    rewrite ?transition_valid by (by rewrite ?Hk); try done.
  all: destruct s; simpl in *; by subst.
Qed.

(** What the first call of [run] on a core initialises. *)
Definition startup_calls (coreId : nat) (core : CoreData) (initialized : bool) s : list call :=
  if initialized then [] else inits_of (registered core) ++
    (if decide (cd_mode core = CRUNCH) then inits_of [cd_crunchTask core] else []) ++
    (if decide (coreId = sy_backgroundCoreId s)
     then inits_of (take (sy_backgroundTaskCount s) (sy_backgroundTasks s)) else []).

Lemma startup_calls_background coreId core initialized s :
  backgrounds_of (startup_calls coreId core initialized s) = [].
Proof.
  assert (H : forall tasks, backgrounds_of (inits_of tasks) = []).
  { unfold inits_of. intros tasks. induction (omap id tasks); by simpl. }
  unfold startup_calls. destruct initialized; [done|]. rewrite !backgrounds_of_app, H. simpl.
  do 2 case_decide; by rewrite ?H.
Qed.

Lemma sys_run_ok fuel coreId core (initialized : bool) s :
  sys_wf env s -> sy_built s = true -> coreId < kCoreCount env ->
  sy_cores s !! coreId = Some core -> sy_coreInitialized s !! coreId = Some initialized ->
  sy_kernelState s = RUNNING \/ (initialized = false /\ sy_kernelState s = CONFIGURED) ->
  (Z.of_nat fuel < 2 ^ 32)%Z ->
  exists fin s' calls, sys_run env fuel coreId s = Some (fin, s') /\ sys_wf env s' /\
    sy_kernelState s' = (if fin then SHUTDOWN else RUNNING) /\
    sy_trace s' = sy_trace s ++ startup_calls coreId core initialized s ++ calls /\
    (coreId <> sy_backgroundCoreId s \/ (cd_mode core = CRUNCH /\ cd_crunchTask core <> None) ->
      backgrounds_of calls = []).
Proof.
  intros Hwf Hb Hc Hcore Hi Hk Hf. unfold sys_run. rewrite Hb, decide_False by lia. cbn [negb].
  destruct (sync_setInit_ok coreId s Hwf Hc) as (s1 & -> & h1 & -> & Hh1).
  cbn [mbind option_bind]. pose proof (set_shared_wf h1 s Hwf Hh1) as Hwf1.
  destruct (run_init_ok coreId core initialized (set_shared h1 s))
    as (s2 & E & Hwf2 & Hk2 & Hc2 & Hb2 & Hbg2 & Ht2); [done..|].
  unfold load in *. simpl in E |- *. rewrite Hi in *. cbn [mbind option_bind] in *. rewrite E.
  cbn [mbind option_bind].
  destruct (startup_ok coreId s2 Hwf2 Hc) as (s3 & -> & h3 & -> & Hh3). cbn [mbind option_bind].
  pose proof (set_shared_wf h3 s2 Hwf2 Hh3) as Hwf3.
  destruct (run_dispatch_ok fuel coreId core (set_shared h3 s2))
    as (fin & s4 & calls & -> & Hwf4 & Hk4 & Ht4 & Hbg4); [done|done|done|simpl; rewrite Hc2; exact Hcore|done|].
  simpl in Hk4, Ht4, Ht2. cbn [mbind option_bind].
  assert (Ht : sy_trace s4 = sy_trace s ++ startup_calls coreId core initialized s ++ calls)
    by (unfold startup_calls; by rewrite Ht4, Ht2, <- app_assoc).
  assert (Hbg : coreId <> sy_backgroundCoreId s \/ (cd_mode core = CRUNCH /\ cd_crunchTask core <> None) ->
    backgrounds_of calls = []) by (intros H; apply Hbg4; simpl; by rewrite Hbg2).
  destruct fin; [|exists false, s4, calls; split_and!; [done|done|congruence|done|done]].
  rewrite (run_shutdown_ok s4 Hwf4), decide_True by (left; congruence). cbn [mbind option_bind].
  destruct (shutdown_ok coreId (set_kernelState SHUTDOWN s4)) as (s5 & -> & h5 & -> & Hh5);
    [by apply set_kernelState_wf|done|].
  cbn [mbind option_bind]. eexists true, _, calls. split_and!; [done| |done|done|done].
  apply set_shared_wf; [|done]. by apply set_kernelState_wf.
Qed.

End proofs.

(** ** What the snapshot shows *)

Section snapshots.
Context {W : Type} (env : Env W).
Implicit Types s : System W.

(** The entries of a core's tasks, [t] being the slot of the first. *)
Fixpoint core_entries s (c t : nat) (tasks : list (option nat)) : list TaskSnapshot :=
  match tasks with
  | [] => []
  | Some tid :: tasks => task_snapshot c t (task_timer tid s) :: core_entries s c (S t) tasks
  | None :: tasks => core_entries s c (S t) tasks
  end.

(** Of all cores, [c] being the number of the first. *)
Fixpoint system_entries s (c : nat) (cores : list CoreData) : list TaskSnapshot :=
  match cores with
  | [] => []
  | core :: cores => core_entries s c 0 (registered core) ++ system_entries s (S c) cores
  end.

Lemma core_entries_ext s s' c t tasks :
  sy_taskTimers s' = sy_taskTimers s -> core_entries s' c t tasks = core_entries s c t tasks.
Proof.
  intros H. revert t. induction tasks as [|[tid|] tasks IH]; intros t; simpl; [done| |done].
  unfold task_timer, sh_timer. rewrite H. by rewrite IH.
Qed.

Lemma system_entries_ext s s' c cores :
  sy_taskTimers s' = sy_taskTimers s -> system_entries s' c cores = system_entries s c cores.
Proof.
  intros H. revert c. induction cores as [|core cores IH]; intros c; simpl; [done|].
  by rewrite (core_entries_ext s s'), IH.
Qed.

Lemma sys_now_same s :
  sy_taskTimers (sys_now env s).2 = sy_taskTimers s /\ sy_cores (sys_now env s).2 = sy_cores s.
Proof. unfold sys_now. by destruct (st_source (sy_timer s)). Qed.

(** [new] entries were written behind the [idx] there were. *)
Definition extends (pre junk new : list TaskSnapshot) (r : option (nat * list TaskSnapshot)) : Prop :=
  r = Some (length pre + length new, pre ++ new ++ drop (length new) junk).

Lemma extends_nil pre junk : extends pre junk [] (Some (length pre, pre ++ junk)).
Proof. unfold extends. simpl. by rewrite Nat.add_0_r. Qed.

Lemma snapshot_tasks_ok s tasks c t n pre junk :
  t + n <= length tasks -> length pre + length junk = kMaxSnapshotTasks ->
  extends pre junk (take (length junk) (core_entries s c t (take n (drop t tasks))))
    (snapshot_tasks s tasks c t n (length pre) (pre ++ junk)).
Proof.
  revert t pre junk. induction n as [|n IH]; intros t pre junk Hn Hlen; simpl.
  { rewrite take_nil. apply extends_nil. }
  case_decide as Hroom.
  2: { destruct junk; [|simpl in *; lia]. apply extends_nil. }
  destruct (lookup_lt_is_Some_2 tasks t) as [tsk Htsk]; [lia|].
  unfold load. rewrite Htsk, (drop_S _ _ _ Htsk). cbn [mbind option_bind take core_entries].
  destruct tsk as [tid|]; [|apply IH; [lia|done]].
  destruct junk as [|x junk]; [simpl in *; lia|]. rewrite store_middle. cbn [mbind option_bind].
  specialize (IH (S t) (pre ++ [task_snapshot c t (task_timer tid s)]) junk).
  rewrite length_app in IH. simpl length in IH. rewrite Nat.add_1_r, <- app_assoc in IH. simpl in IH.
  unfold extends in *. rewrite IH by (simpl in *; lia). simpl. rewrite ?length_app. simpl.
  f_equal. f_equal; [lia|]. by rewrite <- app_assoc.
Qed.

Lemma extends_length pre junk new r :
  extends pre junk new r -> length new <= length junk ->
  exists junk', r = Some (length (pre ++ new), (pre ++ new) ++ junk') /\
    length junk' = length junk - length new /\ junk' = drop (length new) junk.
Proof.
  intros -> Hn. exists (drop (length new) junk). rewrite length_app, length_drop, <- app_assoc. done.
Qed.

Lemma extends_app pre junk es rest r :
  extends (pre ++ take (length junk) es) (drop (length (take (length junk) es)) junk)
    (take (length (drop (length (take (length junk) es)) junk)) rest) r ->
  extends pre junk (take (length junk) (es ++ rest)) r.
Proof.
  unfold extends. intros ->. rewrite firstn_app, length_drop, !length_app, drop_drop, <- !app_assoc.
  replace (length junk - length (take (length junk) es)) with (length junk - length es)
    by (rewrite length_take; lia).
  f_equal. f_equal. lia.
Qed.

Lemma snapshot_cores_ok s c n pre junk :
  Forall core_wf (sy_cores s) -> c + n <= length (sy_cores s) ->
  length pre + length junk = kMaxSnapshotTasks ->
  extends pre junk (take (length junk) (system_entries s c (take n (drop c (sy_cores s)))))
    (snapshot_cores s c n (length pre) (pre ++ junk)).
Proof.
  intros Hwf. revert c pre junk. induction n as [|n IH]; intros c pre junk Hn Hlen; simpl.
  { rewrite take_nil. apply extends_nil. }
  case_decide as Hroom.
  2: { destruct junk; [|simpl in *; lia]. apply extends_nil. }
  destruct (lookup_lt_is_Some_2 (sy_cores s) c) as [core Hcore]; [lia|].
  unfold load. rewrite Hcore, (drop_S _ _ _ Hcore). cbn [mbind option_bind take system_entries].
  destruct (Forall_lookup_1 _ _ _ _ Hwf Hcore) as [Hl Hc].
  pose proof (snapshot_tasks_ok s (cd_tasks core) c 0 (cd_taskCount core) pre junk) as Ht.
  rewrite drop_0 in Ht. fold (registered core) in Ht.
  set (es := core_entries s c 0 (registered core)) in *.
  destruct (extends_length _ _ _ _ (Ht ltac:(lia) Hlen)) as (junk' & -> & Hj & Hj'); [rewrite length_take; lia|].
  cbn [mbind option_bind]. apply extends_app. rewrite <- Hj'.
  apply IH; [lia|]. rewrite Hj, length_app, length_take. lia.
Qed.

Lemma snapshot_utilization_ok s c n out :
  length (sy_utilTracker s) = kCoreCount env -> c + n <= kCoreCount env -> length out = kMaxSnapshotCores ->
  exists out', snapshot_utilization s c n out = Some out' /\ length out' = kMaxSnapshotCores.
Proof.
  intros Hu. revert c out. induction n as [|n IH]; intros c out Hn Hlen; simpl; [eauto|].
  case_decide; [|eauto].
  destruct (load_ok (sy_utilTracker s) c) as [u ->]; [lia|]. cbn [mbind option_bind].
  rewrite store_ok by lia. cbn [mbind option_bind]. apply IH; [lia|]. by rewrite length_insert.
Qed.
End snapshots.

(** ** Properties *)

(** [run] takes a core through its whole life: called on a configured or running kernel,
    it stays inside its buffers, initialises the core's tasks once and before anything is
    dispatched, goes through both barriers whatever the other cores do, and comes back, if
    its dispatch loop ends, with the kernel in SHUTDOWN; until then the kernel is RUNNING. *)
Theorem run_to_shutdown {W : Type} (env : Env W) (fuel coreId : nat) (s : System W)
    (core : CoreData) (initialized : bool) :
  env_ok env -> sys_wf env s -> sy_built s = true -> coreId < kCoreCount env ->
  sy_cores s !! coreId = Some core -> sy_coreInitialized s !! coreId = Some initialized ->
  sy_kernelState s = RUNNING \/ (initialized = false /\ sy_kernelState s = CONFIGURED) ->
  (Z.of_nat fuel < 2 ^ 32)%Z ->
  exists fin s' calls, sys_run env fuel coreId s = Some (fin, s') /\ sys_wf env s' /\
    sy_kernelState s' = (if fin then SHUTDOWN else RUNNING) /\
    sy_trace s' = sy_trace s ++
      (if initialized then [] else inits_of (registered core) ++
        (if decide (cd_mode core = CRUNCH) then inits_of [cd_crunchTask core] else []) ++
        (if decide (coreId = sy_backgroundCoreId s)
         then inits_of (take (sy_backgroundTaskCount s) (sy_backgroundTasks s)) else [])) ++ calls.
Proof.
  intros Henv Hwf Hb Hc Hcore Hi Hk Hf.
  destruct (sys_run_ok env Henv fuel coreId core initialized s)
    as (fin & s' & calls & H1 & H2 & H3 & H4 & _); [done..|].
  by exists fin, s', calls.
Qed.

(** A snapshot shows every registered task, in core and slot order, with the readings of
    its timer, up to the sixteen it has room for, and counts them; its arrays have the sizes
    the serializer relies on. *)
Theorem snapshot_complete {W : Type} (env : Env W) (s : System W) :
  sys_wf env s ->
  exists snap s', snapshot env s = Some (snap, s') /\ snapshot_ok snap /\
    let entries := system_entries s 0 (sy_cores s) in
    ps_taskCount snap = Nat.min 16 (length entries) /\
    take (ps_taskCount snap) (ps_tasks snap) = take 16 entries.
Proof.
  intros Hwf. unfold snapshot.
  destruct (sys_now_keeps env s Hwf) as [Hk _]. destruct (sys_now_same env s) as (He1 & He2).
  destruct (sys_now env s) as [ts s1]. simpl in Hk, He1, He2. pose proof (k_wf _ _ _ Hk) as Hwf1.
  destruct (snapshot_utilization_ok env s1 0 (kCoreCount env) (replicate kMaxSnapshotCores 0%Z))
    as (us & -> & Hus); [apply (wf_util _ _ Hwf1)|lia|done|].
  cbn [mbind option_bind].
  destruct (wf_cores _ _ Hwf1) as [Hlen Hcores].
  set (junk := replicate kMaxSnapshotTasks empty_task_snapshot).
  assert (Hjunk : length junk = 16) by apply length_replicate.
  pose proof (snapshot_cores_ok s1 0 (kCoreCount env) [] junk Hcores ltac:(lia) Hjunk) as Hext.
  rewrite drop_0, (firstn_all2 (sy_cores s1)), Hjunk in Hext by lia.
  unfold extends in Hext. change ([] ++ junk) with junk in Hext. change (length []) with 0 in Hext.
  rewrite Hext. cbn [mbind option_bind].
  rewrite (system_entries_ext s1 s) by done. rewrite He2.
  set (es := system_entries s 0 (sy_cores s)).
  eexists _, s1. split; [done|].
  split; [split; [exact Hus| |]|split]; cbn [ps_taskCount ps_tasks app Nat.add].
  - rewrite length_app, length_drop, Hjunk, length_take. change kMaxSnapshotTasks with 16. lia.
  - rewrite length_take. change kMaxSnapshotTasks with 16. lia.
  - by rewrite length_take.
  - by rewrite take_app_length.
Qed.

Lemma run_to_shutdown_witness :
  exists fin s' calls, sys_run sample_env 3 0 sample_system = Some (fin, s') /\ sys_wf sample_env s' /\
    sy_kernelState s' = (if fin : bool then SHUTDOWN else RUNNING) /\
    sy_trace s' = sy_trace sample_system ++
      (inits_of [Some 0] ++ [] ++ inits_of [Some 1; Some 2]) ++ calls.
Proof.
  refine (run_to_shutdown sample_env 3 0 sample_system _ false sample_env_ok sample_system_wf eq_refl
    (Nat.lt_0_succ 0) eq_refl eq_refl (or_intror (conj eq_refl eq_refl)) _).
  reflexivity.
Defined.

(** A stop condition that has fired ends the loop, here before the first tick. *)
Example run_stops :
  let env := @MkEnv unit 1 4 10000 4 2 10 60000000 (env_desc sample_env) (fun _ h => h) (fun _ _ h => h)
    (fun _ _ _ h => h) (fun _ _ h => h) (fun _ h => h) (fun _ h => (true, h)) (fun h => h)
    (fun _ h => h) Z.of_nat (fun _ _ => True) in
  let s := set_stopConditions [Some 0] (set_stopConditionCount 1 sample_system) in
  (fun r => (r.1, sy_kernelState r.2, sy_trace r.2)) <$> sys_run env 1 0 s =
    Some (true, SHUTDOWN, [CallInit 0; CallInit 1; CallInit 2]).
Proof. reflexivity. Qed.

Lemma snapshot_complete_witness :
  exists snap s', snapshot sample_env sample_system = Some (snap, s') /\ snapshot_ok snap /\
    let entries := system_entries sample_system 0 (sy_cores sample_system) in
    ps_taskCount snap = Nat.min 16 (length entries) /\
    take (ps_taskCount snap) (ps_tasks snap) = take 16 entries.
Proof. exact (snapshot_complete sample_env sample_system sample_system_wf). Defined.
