(* ===== verification/Cores.v ===== *)
(** * All cores of a kernel at once ([kernel/System.h], [kernel/CrunchDispatcher.h])

    [System::run] on every core, one access to the variables the cores share per step, in any
    order: the kernel state, which is an ordinary variable behind a test, a read and a write,
    and the barriers' states of [Sync]. What a task or a stop condition does is not looked at;
    the schedule has the answers of the conditions. A core calls [run] once and has not been
    initialised before. *)

From S2P Require Import Prelude Sync Kernel.

(** ** The machine *)

Section machine.
(** The cores, the arguments of the barriers, the tasks [init] initialises on each core, and
    whether a core runs the crunch loop. *)
Context (n_cores : nat) (timeoutMs pollIntervalMs : Z) (n_tasks : nat -> nat) (crunching : nat -> bool).

(** The four places where [init] and [run] change the kernel state: if it is [guard], they
    call [transitionTo] for [target]. *)
Inductive change := ToInitializing | ToRunning | ToShuttingDown | ToShutdown.

Definition guard (ch : change) : KernelState :=
  match ch with ToInitializing => CONFIGURED | ToRunning => INITIALIZING | ToShuttingDown => RUNNING | ToShutdown => SHUTTING_DOWN end.

Definition target (ch : change) : KernelState :=
  match ch with ToInitializing => INITIALIZING | ToRunning => RUNNING | ToShuttingDown => SHUTTING_DOWN | ToShutdown => SHUTDOWN end.

(** The accesses of a change: the guard's, that of the [switch], and the assignment. *)
Inductive access := TestIt | ReadIt | WriteIt.

(** The points of the dispatch loops: the crunch loop asks for a safety abort before it starts
    and in each turn, and for the limit of overruns after a turn. *)
Inductive loop_point := AskFirst | AskActive | AskStop | AskAbort | Turn | AskOverruns.

(** Where a core is in [run]. [At Initing] is after [init], [At (Work b)] after the dispatch
    loop; [b] is the answer of the start-up barrier. *)
Inductive run_pc :=
  | At (p : core_pc)
  | InitTask (t : nat)
  | Changing (ch : change) (a : access) (b : bool)
  | Looping (l : loop_point) (b : bool).

Inductive event := Inited (t : nat) | Turned | Wrote (k : KernelState) | Rejected (k : KernelState).

Record kernel := MkKernel {
  k_state : KernelState;
  k_sync : list CoreState;
  k_pcs : list run_pc;
  k_trace : list (nat * event);
}.

(** After [build], before any core has called [run]. *)
Definition kernel_start : kernel :=
  MkKernel CONFIGURED (new_sync n_cores) (replicate n_cores (At Born)) [].

Definition after (ch : change) (b : bool) : run_pc :=
  match ch with
  | ToInitializing => InitTask 0
  | ToRunning => At Initing
  | ToShuttingDown => Changing ToShutdown TestIt b
  | ToShutdown => At (Work b)
  end.

(** What follows a call of [setInit] or of a barrier. *)
Definition enter (c : nat) (p : core_pc) : run_pc :=
  match p with
  | Initing => Changing ToInitializing TestIt false
  | Work b => Looping (if crunching c then AskFirst else AskActive) b
  | p => At p
  end.

(** Where the barriers' machine has the core. *)
Definition sync_pc (pc : run_pc) : core_pc :=
  match pc with
  | At p => p
  | InitTask _ | Changing (ToInitializing | ToRunning) _ _ => Initing
  | Changing (ToShuttingDown | ToShutdown) _ b | Looping _ b => Work b
  end.

Definition barriers (w : kernel) : multicore := Multicore (k_sync w) (sync_pc <$> k_pcs w).

(** One step of core [c]; [answer] is what the condition says that it asks, if it asks one. *)
Definition kernel_step (c : nat) (answer : bool) (w : kernel) : option kernel :=
  let step k es pc := pcs ← store (k_pcs w) c pc; Some (MkKernel k (k_sync w) pcs (k_trace w ++ ((c,.) <$> es))) in
  let goto pc := step (k_state w) [] pc in
  pc ← load (k_pcs w) c;
  match pc with
  | At p =>
      m ← core_step n_cores timeoutMs pollIntervalMs c (barriers w);
      p ← load (mc_pcs m) c;
      pcs ← store (k_pcs w) c (enter c p);
      Some (MkKernel (k_state w) (mc_states m) pcs (k_trace w))
  | InitTask t =>
      if decide (t < n_tasks c) then step (k_state w) [Inited t] (InitTask (S t)) else goto (Changing ToRunning TestIt false)
  | Changing ch TestIt b => if decide (k_state w = guard ch) then goto (Changing ch ReadIt b) else goto (after ch b)
  | Changing ch ReadIt b =>
      if valid_transition (k_state w) (target ch) then goto (Changing ch WriteIt b)
      else step (k_state w) [Rejected (target ch)] (after ch b)
  | Changing ch WriteIt b => step (target ch) [Wrote (target ch)] (after ch b)
  | Looping l b =>
      let leave := goto (Changing ToShuttingDown TestIt b) in
      match l with
      | AskFirst => if answer then leave else goto (Looping AskActive b)
      | AskActive => if isActiveState (k_state w) then goto (Looping AskStop b) else leave
      | AskStop => if answer then leave else goto (Looping (if crunching c then AskAbort else Turn) b)
      | AskAbort => if answer then leave else goto (Looping Turn b)
      | Turn => step (k_state w) [Turned] (Looping (if crunching c then AskOverruns else AskActive) b)
      | AskOverruns => if answer then leave else goto (Looping AskActive b)
      end
  end.

Fixpoint kernel_run (cs : list (nat * bool)) (w : kernel) : option kernel :=
  match cs with
  | [] => Some w
  | (c, answer) :: cs => w ← kernel_step c answer w; kernel_run cs w
  end.

(** ** What is said of it *)

Definition inits_of (c : nat) (es : list (nat * event)) : list nat :=
  omap (fun e => match e with (d, Inited t) => if decide (d = c) then Some t else None | _ => None end) es.

Definition turns_of (c : nat) (es : list (nat * event)) : nat :=
  length (omap (fun e => match e with (d, Turned) => if decide (d = c) then Some tt else None | _ => None end) es).

(** Its start-up barrier has answered true, or false. *)
Definition on_time (pc : run_pc) : bool := started (sync_pc pc).

Definition failed (pc : run_pc) : bool :=
  match sync_pc pc with Work b | StopTest b _ | StopScan b _ _ | Gone b _ => negb b | _ => false end.

Definition past_loop (pc : run_pc) : bool :=
  match pc with
  | Changing (ToShuttingDown | ToShutdown) _ _ => true
  | At p => match p with Work _ => true | p => has_left p end
  | _ => false
  end.

Definition gone (pc : run_pc) : bool := match pc with At (Gone _ _) => true | _ => false end.

(** Which cores can have left the kernel in a state. *)
Definition fresh (pc : run_pc) : bool :=
  match pc with At Born | Changing ToInitializing _ _ => true | _ => false end.

Definition initializing (pc : run_pc) : bool :=
  match pc with InitTask _ | Changing ToRunning _ _ => true | _ => false end.

Definition in_service (pc : run_pc) : bool :=
  match pc with
  | At (Initing | StartTest _ | StartScanError _ _ | StartScanReady _ _ | StartFail) | Changing ToShuttingDown _ _ | Looping _ _ => true
  | _ => false
  end.

Definition shutting_down (pc : run_pc) : bool := match pc with Changing ToShutdown _ _ => true | _ => false end.

Definition through (pc : run_pc) : bool :=
  match pc with At (Work _ | StopTest _ _ | StopScan _ _ _ | Gone _ _) => true | _ => false end.

Definition state_held (k : KernelState) (pcs : list run_pc) : Prop :=
  match k with
  | CONFIGURED => Forall (fun pc => fresh pc = true) pcs
  | INITIALIZING => Exists (fun pc => initializing pc = true) pcs
  | RUNNING => Exists (fun pc => in_service pc = true) pcs
  | SHUTTING_DOWN => Exists (fun pc => shutting_down pc = true) pcs
  | SHUTDOWN => Exists (fun pc => through pc = true) pcs
  | _ => False
  end.

(** How many of its tasks a core has initialised. *)
Definition inited (c : nat) (pc : run_pc) : nat :=
  match pc with
  | At Born | Changing ToInitializing _ _ => 0
  | InitTask t => t
  | _ => n_tasks c
  end.

(** [At Initing] aside, a core is at a barrier only where [enter] has not sent it on; and it
    initialises no more tasks than it has. *)
Definition fits (c : nat) (pc : run_pc) : Prop :=
  match pc with InitTask t => t <= n_tasks c | _ => True end.

Record kernel_inv (w : kernel) : Prop := {
  ki_barriers : multicore_inv n_cores (barriers w);
  ki_state : state_held (k_state w) (k_pcs w);
  ki_inits : forall c pc, k_pcs w !! c = Some pc -> fits c pc /\ inits_of c (k_trace w) = seq 0 (inited c pc);
}.

(** ** A step, by its cases *)

(** What the barriers' machine does with a core. *)
Definition next (p p' : core_pc) : Prop :=
  match p with
  | Born => p' = Initing
  | Initing => p' = StartTest 0
  | StartTest _ | StartScanError _ _ | StartScanReady _ _ =>
      match p' with StartTest _ | StartScanError _ _ | StartScanReady _ _ | StartFail | Work _ => True | _ => False end
  | StartFail => p' = Work false
  | Work b => p' = StopTest b 0
  | StopTest b _ | StopScan b _ _ => match p' with StopTest a _ | StopScan a _ _ | Gone a _ => a = b | _ => False end
  | Gone _ _ => p' = p
  end.

(** How many steps a core has to take at most until it is [Gone], once the kernel is being shut
    down; a turn of a barrier's loop scans the cores once or twice. *)
Definition polls (e : Z) : nat := Z.to_nat (timeoutMs - e).

Definition leave_rank : nat := polls 0 * S n_cores + 2.

Definition loop_rank (l : loop_point) : nat :=
  leave_rank + match l with AskActive => 7 | AskFirst | AskOverruns => 8 | Turn => 9 | AskAbort => 10 | AskStop => 11 end.

Definition start_rank (turns : nat) : nat := leave_rank + 12 + turns * (2 * n_cores + 1) + 1.

Definition barrier_rank (p : core_pc) : nat :=
  match p with
  | Born => S (S (start_rank (polls 0)))
  | Initing => S (start_rank (polls 0))
  | StartTest e => start_rank (polls e)
  | StartScanError e i => start_rank (polls e - 1) + (n_cores - i) + n_cores
  | StartScanReady e i => start_rank (polls e - 1) + (n_cores - i)
  | StartFail => leave_rank + 12
  | Work _ => leave_rank
  | StopTest _ e => polls e * S n_cores + 1
  | StopScan _ e i => (polls e - 1) * S n_cores + 1 + (n_cores - i)
  | Gone _ _ => 0
  end.

(** A scan is of a core there is, and in a turn that has time left. *)
Definition in_time (p : core_pc) : Prop :=
  match p with
  | StartTest e | StopTest _ e => (0 <= e)%Z
  | StartScanError e i | StartScanReady e i | StopScan _ e i => (0 <= e < timeoutMs)%Z /\ i < n_cores
  | _ => True
  end.

Definition paced (p p' : core_pc) : Prop :=
  0 < n_cores -> (0 < pollIntervalMs)%Z -> (timeoutMs + pollIntervalMs < 2 ^ 32)%Z -> in_time p ->
  in_time p' /\ barrier_rank p' <= barrier_rank p - 1.

Lemma polls_next e : (0 <= e < timeoutMs)%Z -> (0 < pollIntervalMs)%Z -> (timeoutMs + pollIntervalMs < 2 ^ 32)%Z ->
  (0 <= u32 (e + pollIntervalMs))%Z /\ polls (u32 (e + pollIntervalMs)) <= polls e - 1.
Proof. intros He Hp Hw. rewrite wrap_id by (unfold in_word; lia). unfold polls. lia. Qed.

Lemma polls_pos e : (e < timeoutMs)%Z -> 1 <= polls e.
Proof. unfold polls. lia. Qed.

Lemma core_step_next c m m' p :
  core_step n_cores timeoutMs pollIntervalMs c m = Some m' -> mc_pcs m !! c = Some p ->
  exists p', mc_pcs m' = <[c := p']> (mc_pcs m) /\ next p p' /\ paced p p'.
Proof.
  intros E Hp. unfold core_step, load in E. rewrite Hp in E. cbn [mbind option_bind] in E.
  assert (Hc : forall q, store (mc_pcs m) c q = Some (<[c := q]> (mc_pcs m))).
  { intros q. apply store_ok. by eapply lookup_lt_Some. }
  destruct p as [| |e|e i|e i| |b|b e|b e i|a b]; rewrite ?Hc in E; cbn [fmap option_fmap option_map] in E;
    repeat (case_decide || (apply bind_Some in E; destruct E as (? & _ & E)));
    injection E as <-; cbn [mc_pcs next]; eexists; (split; [reflexivity || by rewrite list_insert_id|]); (split; [done|]);
    intros Hn Hpoll Hlim Ht; cbn in Ht; try (destruct (polls_next e) as [Hu Hd]; [lia..|]); try (pose proof (polls_pos e ltac:(lia)));
    cbn [in_time barrier_rank]; unfold start_rank, leave_rank; (split; [lia|nia]).
Qed.

(** Where a loop goes on when the condition it has asked is not met. *)
Definition onward (c : nat) (l l' : loop_point) : Prop :=
  match l with
  | AskFirst | AskOverruns => l' = AskActive
  | AskStop => l' = if crunching c then AskAbort else Turn
  | AskAbort => l' = Turn
  | AskActive | Turn => False
  end.

(** The step of a core at [pc] while the state is [k], with the new state and what is noted. *)
Inductive local_step (c : nat) (answer : bool) (k : KernelState) : run_pc -> KernelState -> run_pc -> list event -> Prop :=
  | LBarrier p p' : next p p' -> paced p p' -> local_step c answer k (At p) k (enter c p') []
  | LInit t : t < n_tasks c -> local_step c answer k (InitTask t) k (InitTask (S t)) [Inited t]
  | LInitDone t : ~ t < n_tasks c -> local_step c answer k (InitTask t) k (Changing ToRunning TestIt false) []
  | LTest ch b : k = guard ch -> local_step c answer k (Changing ch TestIt b) k (Changing ch ReadIt b) []
  | LSkip ch b : k <> guard ch -> local_step c answer k (Changing ch TestIt b) k (after ch b) []
  | LValid ch b : valid_transition k (target ch) = true ->
      local_step c answer k (Changing ch ReadIt b) k (Changing ch WriteIt b) []
  | LReject ch b : valid_transition k (target ch) = false ->
      local_step c answer k (Changing ch ReadIt b) k (after ch b) [Rejected (target ch)]
  | LWrite ch b : local_step c answer k (Changing ch WriteIt b) (target ch) (after ch b) [Wrote (target ch)]
  | LActive b : isActiveState k = true -> local_step c answer k (Looping AskActive b) k (Looping AskStop b) []
  | LInactive b : isActiveState k = false ->
      local_step c answer k (Looping AskActive b) k (Changing ToShuttingDown TestIt b) []
  | LTold l b : answer = true -> local_step c answer k (Looping l b) k (Changing ToShuttingDown TestIt b) []
  | LOn l l' b : answer = false -> onward c l l' -> local_step c answer k (Looping l b) k (Looping l' b) []
  | LTurn b : local_step c answer k (Looping Turn b) k (Looping (if crunching c then AskOverruns else AskActive) b) [Turned].

Lemma kernel_step_view c answer w :
  c < n_cores -> multicore_inv n_cores (barriers w) ->
  exists pc pc' w' es, kernel_step c answer w = Some w' /\ k_pcs w !! c = Some pc /\ k_pcs w' = <[c := pc']> (k_pcs w) /\
    k_trace w' = k_trace w ++ ((c,.) <$> es) /\ local_step c answer (k_state w) pc (k_state w') pc' es /\
    multicore_inv n_cores (barriers w').
Proof.
  intros Hc Hw. destruct (inv_lookup n_cores (barriers w) c Hw Hc) as (st & p & _ & Hp & _). cbn in Hp.
  rewrite list_lookup_fmap in Hp. apply fmap_Some in Hp as (pc & Hpc & ->).
  exists pc. unfold kernel_step, load. rewrite Hpc. cbn [mbind option_bind].
  assert (Hview : forall k es pc', local_step c answer (k_state w) pc k pc' es -> sync_pc pc' = sync_pc pc ->
    exists pc'' w' es', (pcs ← store (k_pcs w) c pc'; Some (MkKernel k (k_sync w) pcs (k_trace w ++ ((c,.) <$> es)))) = Some w' /\
      Some pc = Some pc /\ k_pcs w' = <[c := pc'']> (k_pcs w) /\ k_trace w' = k_trace w ++ ((c,.) <$> es') /\
      local_step c answer (k_state w) pc (k_state w') pc'' es' /\ multicore_inv n_cores (barriers w')).
  { intros k es pc' Hl Hs. rewrite store_ok by (by eapply lookup_lt_Some). eexists pc', _, es. split; [reflexivity|].
    do 4 (split; [done|]). unfold barriers. cbn.
    rewrite list_fmap_insert, Hs, list_insert_id; [exact Hw|]. by rewrite list_lookup_fmap, Hpc. }
  destruct pc as [p|t|ch [] b|l b].
  - destruct (core_step_inv n_cores timeoutMs pollIntervalMs c (barriers w) Hc Hw) as (m & E & Hm). rewrite E. cbn.
    destruct (core_step_next c (barriers w) m p E) as (p' & Em & Hn & Hpc').
    { cbn. by rewrite list_lookup_fmap, Hpc. }
    assert (Hlt : c < length (k_pcs w)) by (by eapply lookup_lt_Some).
    rewrite Em. rewrite list_lookup_insert_eq by (cbn; by rewrite length_fmap). cbn. rewrite store_ok by done. cbn.
    eexists (enter c p'), _, []. split; [reflexivity|]. cbn. rewrite app_nil_r. do 3 (split; [done|]).
    split; [by constructor|]. unfold barriers. cbn. rewrite list_fmap_insert.
    replace (sync_pc (enter c p')) with p' by (by destruct p'). cbn in Em. rewrite <- Em. by destruct m.
  - case_decide; apply Hview; by try constructor.
  - case_decide; apply Hview; try (by constructor); by destruct ch.
  - destruct (valid_transition _ _) eqn:Hv; apply Hview; try (by constructor); by destruct ch.
  - apply Hview; [constructor|by destruct ch].
  - destruct l; try destruct answer eqn:Ha; try (destruct (isActiveState (k_state w)) eqn:Hact); apply Hview; try done; by try constructor.
Qed.

(** ** The kernel state *)

Lemma Forall_at (P : run_pc -> bool) v l c pc : Forall (fun pc => P pc = v) l -> l !! c = Some pc -> P pc = v.
Proof. intros H Hc. by apply (Forall_lookup_1 _ _ _ _ H Hc). Qed.

Lemma Exists_insert_here (P : run_pc -> Prop) l c p p' : l !! c = Some p -> P p' -> Exists P (<[c := p']> l).
Proof.
  intros Hc Hp. apply Exists_lookup. exists c, p'. split; [|done]. apply list_lookup_insert_eq. by eapply lookup_lt_Some.
Qed.

Lemma Exists_insert_stays (P : run_pc -> Prop) l c p p' :
  l !! c = Some p -> (P p -> P p') -> Exists P l -> Exists P (<[c := p']> l).
Proof.
  intros Hc HP (i & x & Hi & Px)%Exists_lookup. destruct (decide (i = c)) as [->|Hn].
  - eapply Exists_insert_here; [done|]. apply HP. congruence.
  - apply Exists_lookup. exists i, x. by rewrite list_lookup_insert_ne.
Qed.

Lemma held_barrier c p p' (P : run_pc -> bool) :
  next p p' -> P = fresh \/ P = in_service \/ P = through -> P (At p) = true -> P (enter c p') = true.
Proof. destruct p, p'; cbn; intros Hn [-> | [-> | ->]]; cbn; congruence || done. Qed.

(** A core that takes the state on, or stays among those that hold it, keeps it held. *)
Lemma held_step c answer k pc k' pc' es pcs :
  state_held k pcs -> pcs !! c = Some pc -> local_step c answer k pc k' pc' es -> state_held k' (<[c := pc']> pcs).
Proof.
  intros Hk Hc Hl.
  assert (Hsame : forall P : run_pc -> bool, (P pc = true -> P pc' = true) ->
    Exists (fun pc => P pc = true) pcs -> Exists (fun pc => P pc = true) (<[c := pc']> pcs)).
  { intros P HP. by eapply Exists_insert_stays. }
  assert (Hfresh : (fresh pc = true -> fresh pc' = true) -> Forall (fun pc => fresh pc = true) pcs ->
    Forall (fun pc => fresh pc = true) (<[c := pc']> pcs)).
  { intros HP H. apply Forall_insert; [done|]. apply HP. by eapply Forall_at. }
  destruct Hl; try (destruct k; cbn in Hk |- *; try done; (apply Hsame || apply Hfresh); first [done|by destruct ch|eapply held_barrier; [done|auto]]).
  destruct ch; by eapply Exists_insert_here.
Qed.

(** ** The invariant *)

Lemma inits_of_app c es es' : inits_of c (es ++ es') = inits_of c es ++ inits_of c es'.
Proof. apply omap_app. Qed.

Lemma inits_of_others c d es : c <> d -> inits_of c ((d,.) <$> es) = [].
Proof. intros Hn. induction es as [|[] es IH]; cbn; [done|rewrite decide_False by congruence; exact IH|exact IH..]. Qed.

Lemma inits_step c answer k pc k' pc' es trace :
  local_step c answer k pc k' pc' es -> fits c pc -> inits_of c trace = seq 0 (inited c pc) ->
  fits c pc' /\ inits_of c (trace ++ ((c,.) <$> es)) = seq 0 (inited c pc').
Proof.
  intros Hl Hf Ht. rewrite inits_of_app, Ht. destruct Hl; cbn in *; rewrite ?app_nil_r; try done;
    try (destruct ch; cbn; (split; [lia|done]) || done).
  - by destruct p, p'.
  - rewrite decide_True by done. split; [lia|]. symmetry. exact (seq_S t 0).
  - split; [done|]. f_equal. lia.
Qed.

Lemma kernel_step_inv c answer w :
  c < n_cores -> kernel_inv w -> exists w', kernel_step c answer w = Some w' /\ kernel_inv w'.
Proof.
  intros Hc [Hb Hs Hi]. destruct (kernel_step_view c answer w Hc Hb) as (pc & pc' & w' & es & E & Hpc & Ep & Et & Hl & Hb').
  exists w'. split; [done|]. split; [done|rewrite Ep; by eapply held_step|].
  intros d q Hd. rewrite Ep in Hd. rewrite Et. destruct (decide (d = c)) as [->|Hn].
  - rewrite list_lookup_insert_eq in Hd by (by eapply lookup_lt_Some). injection Hd as <-.
    destruct (Hi c pc Hpc). by eapply inits_step.
  - rewrite list_lookup_insert_ne in Hd by done. rewrite inits_of_app, inits_of_others, app_nil_r by done. by apply Hi.
Qed.

Lemma kernel_start_inv : kernel_inv kernel_start.
Proof.
  split.
  - unfold barriers. cbn. rewrite fmap_replicate. apply multicore_init_inv.
  - apply Forall_replicate. done.
  - intros c pc [-> _]%lookup_replicate. done.
Qed.

Lemma kernel_run_inv cs w :
  Forall (fun c => c.1 < n_cores) cs -> kernel_inv w -> exists w', kernel_run cs w = Some w' /\ kernel_inv w'.
Proof.
  intros Hcs. revert w. induction Hcs as [|[c answer] cs Hc _ IH]; intros w Hw; cbn; [by exists w|].
  destruct (kernel_step_inv c answer w Hc Hw) as (w' & -> & Hw'). cbn. by apply IH.
Qed.

(** ** What a core knows when its start-up barrier has answered true *)

Definition has_run (k : KernelState) : Prop := k = RUNNING \/ k = SHUTTING_DOWN \/ k = SHUTDOWN.

Definition all_ready (w : kernel) : Prop :=
  forall d, d < n_cores -> exists q, k_pcs w !! d = Some q /\ arrived (sync_pc q) = true.

Lemma on_time_all_ready w c pc : kernel_inv w -> k_pcs w !! c = Some pc -> on_time pc = true -> all_ready w.
Proof.
  intros Hw Hpc Ho d Hd.
  assert (Hk : pc_knows n_cores (mc_pcs (barriers w)) (sync_pc pc)).
  { eapply Forall_lookup_1; [apply (inv_knows _ _ (ki_barriers w Hw))|]. cbn. by rewrite list_lookup_fmap, Hpc. }
  destruct Hk as [Hk _]. destruct (Hk Ho d Hd) as (q & Hq & Ha). cbn in Hq.
  rewrite list_lookup_fmap in Hq. apply fmap_Some in Hq as (pc' & Hpc' & ->). by exists pc'.
Qed.


Lemma kernel_length w : kernel_inv w -> length (k_pcs w) = n_cores.
Proof.
  intros Hw. pose proof (Forall2_length _ _ _ (inv_says _ _ (ki_barriers w Hw))) as E.
  rewrite (inv_states _ _ (ki_barriers w Hw)) in E. cbn in E. by rewrite length_fmap in E.
Qed.

Lemma kernel_pcs w d pc : kernel_inv w -> k_pcs w !! d = Some pc -> d < n_cores.
Proof. intros Hw H%lookup_lt_Some. by rewrite kernel_length in H. Qed.

Lemma gone_shutdown w : 0 < n_cores -> kernel_inv w -> Forall (fun pc => gone pc = true) (k_pcs w) -> k_state w = SHUTDOWN.
Proof.
  intros Hn Hw Hg. pose proof (ki_state w Hw) as Hs. rewrite <- (kernel_length w Hw) in Hn.
  assert (Hno : forall P : run_pc -> bool, (forall pc, gone pc = true -> P pc = false) -> ~ Exists (fun pc => P pc = true) (k_pcs w)).
  { intros P HP (i & x & Hx & Hi)%Exists_lookup. pose proof (HP x (Forall_at _ _ _ _ _ Hg Hx)). congruence. }
  destruct (k_state w); cbn in Hs; try done; try (exfalso; revert Hs; apply Hno; by intros [[]| | |]).
  destruct (k_pcs w) as [|q l]; [cbn in Hn; lia|]. apply Forall_cons in Hs as [Hq _]. apply Forall_cons in Hg as [Hg _]. by destruct q as [[]| | |].
Qed.

Lemma arrived_past pc : arrived (sync_pc pc) = true -> fresh pc = false /\ initializing pc = false.
Proof. by destruct pc as [[]| |[]|]. Qed.

Lemma ready_inited c pc : arrived (sync_pc pc) = true -> inited c pc = n_tasks c.
Proof. by destruct pc as [[]| |[]|]. Qed.

Lemma all_ready_has_run w : 0 < n_cores -> kernel_inv w -> all_ready w -> has_run (k_state w).
Proof.
  intros Hn Hw Hr. destruct (Hr 0 Hn) as (q & Hq & Ha%arrived_past). pose proof (ki_state w Hw) as Hs.
  unfold has_run. destruct (k_state w); cbn in Hs; try done; auto.
  - destruct Ha. pose proof (Forall_at _ _ _ _ _ Hs Hq). congruence.
  - apply Exists_lookup in Hs as (i & x & Hx & Hi). destruct (Hr i) as (q' & Hq' & Ha'%arrived_past); [by eapply kernel_pcs|].
    destruct Ha'. congruence.
Qed.

(** ** As long as no core is late and no condition is met *)

Lemma failed_stays c answer k pc k' pc' es : local_step c answer k pc k' pc' es -> failed pc' = false -> failed pc = false.
Proof.
  destruct 1; try done; try (by destruct ch).
  destruct p, p'; unfold failed; cbn in *; try done; intros; simplify_eq; done.
Qed.

Definition calm (w : kernel) : Prop := Forall (fun pc => past_loop pc = false) (k_pcs w).

Definition none_failed (w : kernel) : Prop := Forall (fun pc => failed pc = false) (k_pcs w).

Lemma calm_running w : calm w -> kernel_inv w -> has_run (k_state w) -> k_state w = RUNNING.
Proof.
  intros Hc Hw Hr. pose proof (ki_state w Hw) as Hs.
  destruct Hr as [E|[E|E]]; [done|exfalso..]; rewrite E in Hs; cbn in Hs; apply Exists_lookup in Hs as (i & x & Hx & Hi);
    pose proof (Forall_at _ _ _ _ _ Hc Hx); by destruct x as [[]| |[]|].
Qed.

Lemma calm_step c w w' :
  c < n_cores -> kernel_inv w -> kernel_step c false w = Some w' -> (none_failed w -> calm w) -> none_failed w' -> calm w'.
Proof.
  intros Hc Hw E Hcalm Hf'.
  destruct (kernel_step_view c false w Hc (ki_barriers w Hw)) as (pc & pc' & w1 & es & E1 & Hpc & Ep & _ & Hl & _).
  rewrite E in E1. injection E1 as <-. unfold none_failed, calm in *. rewrite Ep in *.
  assert (Hlt : c < length (k_pcs w)) by (by eapply lookup_lt_Some).
  assert (Hfc : failed pc' = false) by (eapply Forall_at; [exact Hf'|]; by apply list_lookup_insert_eq).
  assert (Hf : Forall (fun pc => failed pc = false) (k_pcs w)).
  { apply Forall_lookup. intros i x Hx. destruct (decide (i = c)) as [->|Hn].
    - rewrite Hpc in Hx. injection Hx as <-. by eapply failed_stays.
    - eapply Forall_at; [exact Hf'|]. by rewrite list_lookup_insert_ne. }
  specialize (Hcalm Hf). apply Forall_insert; [done|].
  assert (Hp : past_loop pc = false) by (by eapply Forall_at).
  destruct Hl; try done; try (by destruct ch).
  - destruct p, p'; try done; by rewrite <- Hp.
  - exfalso. assert (Hb : b = true) by (by destruct b). subst b.
    assert (Hr : has_run (k_state w)).
    { apply all_ready_has_run; [lia|done|]. by eapply on_time_all_ready. }
    rewrite (calm_running w Hcalm Hw Hr) in H. done.
Qed.

Lemma calm_run cs w :
  Forall (fun c => c.1 < n_cores /\ c.2 = false) cs -> kernel_inv w -> (none_failed w -> calm w) ->
  exists w', kernel_run cs w = Some w' /\ kernel_inv w' /\ (none_failed w' -> calm w').
Proof.
  intros Hcs. revert w. induction Hcs as [|[c answer] cs [Hc Ha] _ IH]; intros w Hw Hq; cbn; [by exists w|].
  cbn in Ha. subst answer. destruct (kernel_step_inv c false w Hc Hw) as (w' & E & Hw'). rewrite E. cbn. apply IH; [done|].
  by apply (calm_step c w w').
Qed.

(** ** Shutting down *)

Definition rank (pc : run_pc) : nat :=
  match pc with
  | At p => barrier_rank p
  | Looping l _ => loop_rank l
  | Changing ToShuttingDown a _ => leave_rank + match a with TestIt => 6 | ReadIt => 5 | WriteIt => 4 end
  | Changing ToShutdown a _ => leave_rank + match a with TestIt => 3 | ReadIt => 2 | WriteIt => 1 end
  | _ => 0
  end.

(** A turn that a core may still make. *)
Definition turns_left (pc : run_pc) : nat :=
  match pc with Looping (AskStop | AskAbort | Turn) _ => 1 | _ => 0 end.

Definition at_in_time (pc : run_pc) : Prop := match pc with At p => in_time p | _ => True end.

Lemma rank_zero pc : arrived (sync_pc pc) = true -> rank pc = 0 -> gone pc = true.
Proof.
  destruct pc as [[]| |[] []|[]]; cbn; unfold start_rank, leave_rank, loop_rank; try done; intros; nia.
Qed.

Section timeouts.
Hypothesis Hcores : 0 < n_cores.
Hypothesis Hpoll : (0 < pollIntervalMs)%Z.
Hypothesis Hlim : (timeoutMs + pollIntervalMs < 2 ^ 32)%Z.

Lemma step_in_time c answer k pc k' pc' es : local_step c answer k pc k' pc' es -> at_in_time pc -> at_in_time pc'.
Proof using Hcores Hpoll Hlim.
  destruct 1 as [p p' Hn Hp| | | | | | |ch| | | | |]; cbn; try done; try (by destruct ch).
  intros Ht. destruct (Hp Hcores Hpoll Hlim Ht) as [Hi _]. by destruct p'.
Qed.

Definition over (k : KernelState) : Prop := k = SHUTTING_DOWN \/ k = SHUTDOWN.

Lemma turns_of_app c es es' : turns_of c (es ++ es') = turns_of c es + turns_of c es'.
Proof. unfold turns_of. by rewrite omap_app, length_app. Qed.

Lemma turns_of_others c d es : c <> d -> turns_of c ((d,.) <$> es) = 0.
Proof.
  intros Hn. unfold turns_of. induction es as [|[] es IH]; cbn; [done|exact IH| |exact IH..].
  rewrite decide_False by congruence. exact IH.
Qed.

Lemma winding_step c answer k pc k' pc' es :
  local_step c answer k pc k' pc' es -> over k -> arrived (sync_pc pc) = true -> at_in_time pc ->
  over k' /\ arrived (sync_pc pc') = true /\ rank pc' <= rank pc - 1 /\
  turns_of c ((c,.) <$> es) + turns_left pc' <= turns_left pc.
Proof using Hcores Hpoll Hlim.
  intros Hl Ho Ha Ht. assert (Hk : isActiveState k = false) by (by destruct Ho as [-> | ->]).
  destruct Hl as [p p' Hn Hp| | |ch b|ch b|ch b|ch b|ch b| | |l b|l l' b ? Hl|]; cbn in Ha; try done;
    try (destruct ch; try done; cbn; repeat split; try done; try (left; done); try (right; done); lia); try congruence.
  - destruct (Hp Hcores Hpoll Hlim Ht) as [Hi Hr]. split; [done|]. split; [by destruct p, p'|].
    destruct p'; cbn in Hr |- *; try (split; lia). destruct p; try done; destruct (crunching c); cbn;
      unfold loop_rank, start_rank; (split; [nia|done]).
  - cbn. unfold loop_rank. repeat split; try done; lia.
  - destruct l; cbn; repeat split; try done; unfold loop_rank; lia.
  - destruct l; cbn in Hl; try done; subst l'; destruct (crunching c); cbn; unfold loop_rank; repeat split; try done; lia.
  - unfold turns_of. cbn. rewrite decide_True by done. destruct (crunching c); cbn; unfold loop_rank; repeat split; try done; lia.
Qed.

(** The kernel is being shut down, and no core is still initialising. *)
Record winding (w : kernel) : Prop := {
  wi_inv : kernel_inv w;
  wi_ready : all_ready w;
  wi_over : over (k_state w);
  wi_time : forall c pc, k_pcs w !! c = Some pc -> at_in_time pc;
}.

Lemma winding_kernel_step c answer w :
  c < n_cores -> winding w -> exists w', kernel_step c answer w = Some w' /\ winding w' /\
    forall d pc, k_pcs w !! d = Some pc -> exists pc', k_pcs w' !! d = Some pc' /\
      rank pc' <= rank pc - (if decide (d = c) then 1 else 0) /\
      turns_of d (k_trace w') + turns_left pc' <= turns_of d (k_trace w) + turns_left pc.
Proof using Hcores Hpoll Hlim.
  intros Hc [Hw Hr Ho Ht]. destruct (kernel_step_inv c answer w Hc Hw) as (w' & E & Hw'). exists w'. split; [done|].
  destruct (kernel_step_view c answer w Hc (ki_barriers w Hw)) as (pc & pc' & w1 & es & E1 & Hpc & Ep & Et & Hl & _).
  rewrite E in E1. injection E1 as <-.
  destruct (Hr c Hc) as (q & Hq & Ha). rewrite Hpc in Hq. injection Hq as <-.
  destruct (winding_step c answer _ _ _ _ _ Hl Ho Ha (Ht c pc Hpc)) as (Ho' & Ha' & Hrank & Hturns).
  assert (Hlt : c < length (k_pcs w)) by (by eapply lookup_lt_Some).
  assert (Hin : k_pcs w' !! c = Some pc') by (rewrite Ep; by apply list_lookup_insert_eq).
  assert (Hout : forall d, d <> c -> k_pcs w' !! d = k_pcs w !! d) by (intros d Hd; rewrite Ep; by apply list_lookup_insert_ne).
  split; [split; [done| |done|]|].
  - intros d Hd. destruct (decide (d = c)) as [->|Hn]; [by exists pc'|]. rewrite Hout by done. by apply Hr.
  - intros d q Hq. destruct (decide (d = c)) as [->|Hn].
    + rewrite Hin in Hq. injection Hq as <-. eapply step_in_time; [exact Hl|by eapply Ht].
    + rewrite Hout in Hq by done. by eapply Ht.
  - intros d q Hq. rewrite Et, turns_of_app. destruct (decide (d = c)) as [->|Hn].
    + rewrite Hpc in Hq. injection Hq as <-. exists pc'. split; [done|]. split; [done|lia].
    + exists q. rewrite Hout, turns_of_others by done. split; [done|]. split; lia.
Qed.

Definition own_steps (c : nat) (cs : list (nat * bool)) : nat := length (filter (fun x => x.1 = c) cs).

Lemma winding_run cs w :
  Forall (fun c => c.1 < n_cores) cs -> winding w -> exists w', kernel_run cs w = Some w' /\ winding w' /\
    forall d pc, k_pcs w !! d = Some pc -> exists pc', k_pcs w' !! d = Some pc' /\ rank pc' <= rank pc - own_steps d cs /\
      turns_of d (k_trace w') + turns_left pc' <= turns_of d (k_trace w) + turns_left pc.
Proof using Hcores Hpoll Hlim.
  intros Hcs. revert w. induction Hcs as [|[c answer] cs Hc _ IH]; intros w Hw; cbn [kernel_run].
  - exists w. do 2 (split; [done|]). intros d pc Hpc. exists pc. split; [done|]. unfold own_steps. cbn. lia.
  - destruct (winding_kernel_step c answer w Hc Hw) as (w1 & -> & Hw1 & H1). cbn [mbind option_bind].
    destruct (IH w1 Hw1) as (w2 & E2 & Hw2 & H2). exists w2. do 2 (split; [done|]). intros d pc Hpc.
    destruct (H1 d pc Hpc) as (pc1 & Hpc1 & Hr1 & Ht1). destruct (H2 d pc1 Hpc1) as (pc2 & Hpc2 & Hr2 & Ht2).
    exists pc2. split; [done|]. split; [|lia]. unfold own_steps in *. rewrite filter_cons. cbn [fst].
    destruct (decide (d = c)) as [->|Hn]; [rewrite decide_True by done|rewrite decide_False by done]; cbn; lia.
Qed.

Lemma rank_bound pc : arrived (sync_pc pc) = true -> at_in_time pc -> rank pc <= start_rank (polls 0).
Proof using Hcores.
  intros Ha Ht. assert (Hp : forall e, (0 <= e)%Z -> polls e <= polls 0) by (intros e; unfold polls; lia).
  destruct pc as [p|t|ch a b|l b].
  - unfold start_rank, leave_rank. destruct p as [| |e|e i|e i| |b|b e|b e i|a b]; cbn in *; try done; unfold start_rank, leave_rank;
      try (pose proof (Hp e ltac:(lia)); try (pose proof (polls_pos e ltac:(lia)))); nia.
  - done.
  - unfold start_rank. destruct ch, a; cbn in *; try done; nia.
  - unfold start_rank. destruct l; cbn; unfold loop_rank; nia.
Qed.

Lemma run_in_time cs w w' : kernel_run cs w = Some w' -> Forall (fun c => c.1 < n_cores) cs -> kernel_inv w ->
  (forall c pc, k_pcs w !! c = Some pc -> at_in_time pc) -> forall c pc, k_pcs w' !! c = Some pc -> at_in_time pc.
Proof using Hcores Hpoll Hlim.
  intros E Hcs. revert w E. induction Hcs as [|[c answer] cs Hc _ IH]; intros w E Hw Ht; cbn in E; [by simplify_eq|].
  destruct (kernel_step_inv c answer w Hc Hw) as (w1 & E1 & Hw1). rewrite E1 in E. cbn in E. apply (IH w1 E Hw1).
  destruct (kernel_step_view c answer w Hc (ki_barriers w Hw)) as (pc & pc' & w2 & es & E2 & Hpc & Ep & _ & Hl & _).
  rewrite E1 in E2. injection E2 as <-. intros d q Hq. rewrite Ep in Hq. destruct (decide (d = c)) as [->|Hn].
  - rewrite list_lookup_insert_eq in Hq by (by eapply lookup_lt_Some). injection Hq as <-. by eapply step_in_time, Ht.
  - rewrite list_lookup_insert_ne in Hq by done. by eapply Ht.
Qed.
End timeouts.
End machine.

(** ** Against the sequential kernel *)

Lemma changing_step n timeoutMs poll n_tasks crunching c answer ch a b w :
  k_pcs w !! c = Some (Changing ch a b) ->
  let k := k_state w in
  kernel_step n timeoutMs poll n_tasks crunching c answer w =
    let '(k', es, pc) :=
      match a with
      | TestIt => (k, [], if decide (k = guard ch) then Changing ch ReadIt b else after ch b)
      | ReadIt => if valid_transition k (target ch) then (k, [], Changing ch WriteIt b) else (k, [Rejected (target ch)], after ch b)
      | WriteIt => (target ch, [Wrote (target ch)], after ch b)
      end in
    Some (MkKernel k' (k_sync w) (<[c := pc]> (k_pcs w)) (k_trace w ++ ((c,.) <$> es))).
Proof.
  intros Hpc k. subst k. assert (Hlt : c < length (k_pcs w)) by (by eapply lookup_lt_Some). unfold kernel_step, load. rewrite Hpc. cbn.
  destruct a; [destruct (decide (k_state w = guard ch))|destruct (valid_transition _ _)|]; by rewrite store_ok.
Qed.

(** A core that is not interrupted changes the state as [init] and [run] do in [Sched] and
    [Run], where the guard and [transitionTo] are one step. *)
Lemma change_alone {W} n timeoutMs poll n_tasks crunching c ch b w (s : System W) :
  k_pcs w !! c = Some (Changing ch TestIt b) -> sy_kernelState s = k_state w ->
  exists k w' s', kernel_run n timeoutMs poll n_tasks crunching (replicate k (c, false)) w = Some w' /\
    (if decide (sy_kernelState s = guard ch) then '(_, s) ← transitionTo (target ch) s; Some s else Some s) = Some s' /\
    sy_kernelState s' = k_state w' /\ k_pcs w' !! c = Some (after ch b).
Proof.
  intros Hpc Hs. assert (Hlt : c < length (k_pcs w)) by (by eapply lookup_lt_Some). rewrite Hs.
  destruct (decide (k_state w = guard ch)) as [E|E].
  - assert (Hv : valid_transition (guard ch) (target ch) = true) by (by destruct ch).
    exists 3. unfold transitionTo. rewrite Hs, E, Hv. eexists _, _. split.
    + cbn [replicate kernel_run]. rewrite (changing_step _ _ _ _ _ _ _ ch TestIt b) by done. rewrite decide_True by done. cbn.
      rewrite (changing_step _ _ _ _ _ _ _ ch ReadIt b) by (by apply list_lookup_insert_eq). cbn. rewrite E, Hv. cbn.
      rewrite (changing_step _ _ _ _ _ _ _ ch WriteIt b) by (apply list_lookup_insert_eq; by rewrite length_insert). reflexivity.
    + cbn. do 2 (split; [done|]). apply list_lookup_insert_eq. by rewrite !length_insert.
  - exists 1. eexists _, s. cbn [replicate kernel_run]. rewrite (changing_step _ _ _ _ _ _ _ ch TestIt b) by done.
    rewrite decide_False by done. cbn. do 3 (split; [done|]). by apply list_lookup_insert_eq.
Qed.

(** ** Properties *)

(** C19 All cores of a kernel, in every interleaving of their accesses: none is outside the tables; each
    core initialises its tasks in their order, each once. When the start-up barrier of some core
    has answered true, every core has initialised all its tasks, and the kernel is running or
    on its way to the end. As long as no core's barrier has failed and no condition to stop is
    met, no core leaves its dispatch loop, and the kernel is running once a core has started.
    When all cores have returned, the kernel is shut down. *)
Theorem cores_in_step (n : nat) (timeoutMs poll : Z) (n_tasks : nat -> nat) (crunching : nat -> bool) (cs : list (nat * bool)) :
  0 < n -> Forall (fun c => c.1 < n) cs ->
  exists w, kernel_run n timeoutMs poll n_tasks crunching cs (kernel_start n) = Some w /\ length (k_pcs w) = n /\
    (forall c, c < n -> exists m, m <= n_tasks c /\ inits_of c (k_trace w) = seq 0 m) /\
    (forall c pc, k_pcs w !! c = Some pc -> on_time pc = true ->
       has_run (k_state w) /\ forall d, d < n -> inits_of d (k_trace w) = seq 0 (n_tasks d)) /\
    (Forall (fun c => c.2 = false) cs -> Forall (fun pc => failed pc = false) (k_pcs w) ->
       Forall (fun pc => past_loop pc = false) (k_pcs w) /\
       forall c pc, k_pcs w !! c = Some pc -> on_time pc = true -> k_state w = RUNNING) /\
    (Forall (fun pc => gone pc = true) (k_pcs w) -> k_state w = SHUTDOWN).
Proof.
  intros Hn Hcs. destruct (kernel_run_inv n timeoutMs poll n_tasks crunching cs _ Hcs (kernel_start_inv n n_tasks)) as (w & E & Hw).
  exists w. split; [done|]. split; [by apply (kernel_length n n_tasks)|]. split; [|split; [|split]].
  - intros c Hc. destruct (lookup_lt_is_Some_2 (k_pcs w) c) as (pc & Hpc); [by rewrite (kernel_length n n_tasks)|].
    destruct (ki_inits _ _ w Hw c pc Hpc) as [Hf ->]. exists (inited n_tasks c pc). split; [|done].
    destruct pc as [[]| |[]|]; cbn in *; lia.
  - intros c pc Hpc Ho. pose proof (on_time_all_ready n n_tasks w c pc Hw Hpc Ho) as Hr. split; [by eapply all_ready_has_run|].
    intros d Hd. destruct (Hr d Hd) as (q & Hq & Ha). destruct (ki_inits _ _ w Hw d q Hq) as [_ ->]. by rewrite ready_inited.
  - intros Hfalse Hf.
    destruct (calm_run n timeoutMs poll n_tasks crunching cs (kernel_start n)) as (w1 & E1 & _ & Hc1).
    { apply Forall_and. by split. }
    { apply kernel_start_inv. }
    { intros _. by apply Forall_replicate. }
    rewrite E in E1. injection E1 as <-. specialize (Hc1 Hf). split; [done|]. intros c pc Hpc Ho.
    eapply calm_running; [done..|]. eapply all_ready_has_run; [done..|]. by eapply on_time_all_ready.
  - intros Hg. eapply gone_shutdown; done.
Qed.

(** A core that returns takes at most so many steps, once the kernel is shutting down. *)
Definition wind_down (n : nat) (timeoutMs : Z) : nat := start_rank n timeoutMs (polls timeoutMs 0).

(** C20 Once some core has started in time and the kernel is shutting down, it stays so and comes to an
    end: no core makes more than one further turn of its dispatch loop, every core that is
    scheduled often enough returns from [run], and then the kernel is shut down. *)
Theorem cores_wind_down (n : nat) (timeoutMs poll : Z) (n_tasks : nat -> nat) (crunching : nat -> bool) (cs1 cs2 : list (nat * bool)) (w1 : kernel) :
  0 < n -> (0 < poll)%Z -> (timeoutMs + poll < 2 ^ 32)%Z ->
  Forall (fun c => c.1 < n) cs1 -> Forall (fun c => c.1 < n) cs2 ->
  kernel_run n timeoutMs poll n_tasks crunching cs1 (kernel_start n) = Some w1 ->
  Exists (fun pc => on_time pc = true) (k_pcs w1) -> over (k_state w1) ->
  exists w2, kernel_run n timeoutMs poll n_tasks crunching cs2 w1 = Some w2 /\ over (k_state w2) /\
    (forall c, c < n -> turns_of c (k_trace w2) <= turns_of c (k_trace w1) + 1 /\
       (wind_down n timeoutMs <= own_steps c cs2 -> exists pc, k_pcs w2 !! c = Some pc /\ gone pc = true)) /\
    ((forall c, c < n -> wind_down n timeoutMs <= own_steps c cs2) -> k_state w2 = SHUTDOWN).
Proof.
  intros Hn Hpoll Hlim Hcs1 Hcs2 E1 (c0 & pc0 & Hpc0 & Ho)%Exists_lookup Hover.
  destruct (kernel_run_inv n timeoutMs poll n_tasks crunching cs1 _ Hcs1 (kernel_start_inv n n_tasks)) as (w & E & Hw).
  rewrite E1 in E. injection E as <-.
  assert (Hr : all_ready n w1) by (by eapply on_time_all_ready).
  assert (Ht : forall c pc, k_pcs w1 !! c = Some pc -> at_in_time n timeoutMs pc).
  { apply (run_in_time n timeoutMs poll n_tasks crunching Hn Hpoll Hlim cs1 _ w1 E1 Hcs1 (kernel_start_inv n n_tasks)). by intros c pc [-> _]%lookup_replicate. }
  destruct (winding_run n timeoutMs poll n_tasks crunching Hn Hpoll Hlim cs2 w1 Hcs2) as (w2 & E2 & Hw2 & H2); [done|].
  assert (Hend : forall c, c < n -> turns_of c (k_trace w2) <= turns_of c (k_trace w1) + 1 /\
    (wind_down n timeoutMs <= own_steps c cs2 -> exists pc, k_pcs w2 !! c = Some pc /\ gone pc = true)).
  { intros c Hc. destruct (Hr c Hc) as (pc & Hpc & Ha). destruct (H2 c pc Hpc) as (pc2 & Hpc2 & Hrank & Hturns). split.
    - assert (turns_left pc <= 1) by (destruct pc as [| | |[]]; cbn; lia). lia.
    - intros Hsteps. exists pc2. split; [done|]. destruct (wi_ready _ _ _ _ Hw2 c Hc) as (q & Hq & Ha2). rewrite Hpc2 in Hq. injection Hq as <-.
      apply (rank_zero n timeoutMs); [done|]. pose proof (rank_bound n timeoutMs Hn pc Ha (Ht c pc Hpc)). unfold wind_down in Hsteps. lia. }
  exists w2. split; [done|]. split; [apply (wi_over _ _ _ _ Hw2)|]. split; [exact Hend|]. intros Hall.
  pose proof (wi_inv _ _ _ _ Hw2) as Hi. apply (gone_shutdown n n_tasks w2 Hn Hi).
  apply Forall_lookup. intros c pc Hpc. assert (Hc : c < n) by (by eapply kernel_pcs).
  destruct (Hend c Hc) as [_ Hg]. destruct (Hg (Hall c Hc)) as (q & Hq & Hgone). congruence.
Qed.

(** Two cores in turn, [k] times. *)
Definition in_turn (k : nat) : list (nat * bool) := concat (replicate k [(0, false); (1, false)]).

(** Two cores with two tasks each, the second with a crunch task as well. *)
Abbreviation two_cores := (kernel_run 2 3 1 (fun _ => 2) (Nat.eqb 1)).

Definition started_cores : list (nat * bool) := in_turn 25.

Lemma cores_in_step_witness :
  exists w, two_cores started_cores (kernel_start 2) = Some w /\ k_state w = RUNNING /\
    Forall (fun pc => past_loop pc = false) (k_pcs w) /\ forall d, d < 2 -> inits_of d (k_trace w) = [0; 1].
Proof.
  destruct (cores_in_step 2 3 1 (fun _ => 2) (Nat.eqb 1) started_cores) as (w & E & _ & _ & Hon & Hcalm & _); [lia| |].
  - apply Forall_concat, Forall_replicate. repeat constructor.
  - assert (Ho : exists pc, k_pcs w !! 0 = Some pc /\ on_time pc = true).
    { vm_compute in E. injection E as <-. by eexists. }
    destruct Ho as (pc & Hpc & Ho). destruct (Hon 0 pc Hpc Ho) as [_ Hi].
    destruct Hcalm as [Hp Hr].
    + apply Forall_concat, Forall_replicate. repeat constructor.
    + vm_compute in E. injection E as <-. repeat constructor.
    + exists w. split; [exact E|]. split; [exact (Hr 0 pc Hpc Ho)|]. split; [exact Hp|exact Hi].
Defined.

(** The first core is told to stop and has written SHUTTING_DOWN. *)
Definition told_to_stop : list (nat * bool) := started_cores ++ [(0, false); (0, true); (0, false); (0, false); (0, false)].

Lemma cores_wind_down_witness :
  exists w1 w2, two_cores told_to_stop (kernel_start 2) = Some w1 /\ k_state w1 = SHUTTING_DOWN /\
    two_cores (in_turn 39) w1 = Some w2 /\ k_state w2 = SHUTDOWN.
Proof.
  destruct (two_cores told_to_stop (kernel_start 2)) as [w1|] eqn:E1; [|vm_compute in E1; discriminate].
  assert (H : k_state w1 = SHUTTING_DOWN /\ Exists (fun pc => on_time pc = true) (k_pcs w1)).
  { vm_compute in E1. injection E1 as <-. split; [reflexivity|by left]. }
  destruct (cores_wind_down 2 3 1 (fun _ => 2) (Nat.eqb 1) told_to_stop (in_turn 39) w1) as (w2 & E2 & _ & _ & Hend);
    [lia|lia|lia| | |exact E1|apply H|left; apply H|].
  - apply Forall_app. split; [apply Forall_concat, Forall_replicate|]; repeat constructor.
  - apply Forall_concat, Forall_replicate. repeat constructor.
  - exists w1, w2. split; [reflexivity|]. split; [apply H|]. split; [exact E2|]. apply Hend.
    intros [|[|c]] Hc; [vm_compute; lia|vm_compute; lia|lia].
Defined.

(** ** What the unsynchronised state allows *)

(** A core's next [k] steps, in which no condition is met. *)
Definition steps (c k : nat) : list (nat * bool) := replicate k (c, false).

Definition written (es : list (nat * event)) : list (nat * KernelState) :=
  omap (fun e => match e with (c, Wrote k) => Some (c, k) | _ => None end) es.

(** Two flat cores without tasks. *)
Abbreviation flat_cores timeout := (kernel_run 2 timeout 1 (fun _ => 0) (fun _ => false)).

(** Both are told to stop at once: the state goes back from SHUTDOWN to SHUTTING_DOWN. *)
Example shut_down_twice :
  (fun w => written (k_trace w)) <$>
    flat_cores 3 (in_turn 21 ++ [(0, true); (1, true)] ++ steps 0 2 ++ steps 1 2 ++ steps 0 4 ++ steps 1 4) (kernel_start 2) =
  Some [(0, INITIALIZING); (1, INITIALIZING); (0, RUNNING); (1, RUNNING);
    (0, SHUTTING_DOWN); (0, SHUTDOWN); (1, SHUTTING_DOWN); (1, SHUTDOWN)].
Proof. vm_compute. reflexivity. Qed.

(** A core held up in its call of [transitionTo] while the other times out, runs and returns:
    it takes the kernel back from SHUTDOWN and dispatches. *)
Example late_core_revives :
  (fun w => (written (k_trace w), gone <$> k_pcs w !! 1, turns_of 0 (k_trace w))) <$>
    flat_cores 1 (steps 0 3 ++ steps 1 15 ++ [(1, true)] ++ steps 1 12 ++ steps 0 19) (kernel_start 2) =
  Some ([(1, INITIALIZING); (1, RUNNING); (1, SHUTTING_DOWN); (1, SHUTDOWN); (0, INITIALIZING); (0, RUNNING)], Some true, 2).
Proof. vm_compute. reflexivity. Qed.

(** The same core writes INITIALIZING while the other dispatches: that one leaves its loop and
    shuts the kernel down, with no condition met. *)
Example unprompted_shutdown :
  (fun w => (written (k_trace w), turns_of 0 (k_trace w))) <$>
    flat_cores 1 (steps 0 3 ++ steps 1 20 ++ steps 0 1 ++ steps 1 1 ++ steps 0 4 ++ steps 1 6 ++ steps 0 30) (kernel_start 2) =
  Some ([(1, INITIALIZING); (1, RUNNING); (0, INITIALIZING); (0, RUNNING); (1, SHUTTING_DOWN); (1, SHUTDOWN)], 0).
Proof. vm_compute. reflexivity. Qed.
