(* ===== verification/Builder.v ===== *)
(** * The system builder ([builder/SystemBuilder.h])

    Registration of tasks, the kernel's own tasks, the priority order of each core and the
    checks of [build]. The builder writes into the static state of [System], so its
    operations are transitions of [Kernel.System]; what it keeps itself are the user's
    dependencies. *)

From stdpp Require Import sorting.
From S2P Require Import Prelude Float32 Queue Metrics ErrorLog Sync Telemetry Kernel Sched Crunch Run.

(** ** Results *)

(** One constructor per error string. *)
Inductive BuildError :=
  | AlreadyBuilt | NoTasks | PeriodBelowMinimum | DuplicateTask | CrunchOnCore0 | CrunchNoTask
  | CrunchOtherTasks | CrunchNeedsTwoCores | CrunchPeriodBelowMinimum | DependencyFailed.

#[global] Instance BuildError_eq_dec : EqDecision BuildError.
Proof. solve_decision. Defined.

Inductive BuildResult := BuildOk | BuildFailed (error : BuildError).

#[global] Instance BuildResult_eq_dec : EqDecision BuildResult.
Proof. solve_decision. Defined.

(** ** The builder's members: which of the nullable dependencies are set *)

Record SystemBuilder := Builder {
  m_app : bool;
  m_stream : bool;
  m_watchdogKickFn : bool;
  m_clockSource : bool;
}.

Definition new_builder (app : bool) : SystemBuilder := Builder app false false false.
Definition setStream (stream : bool) (b : SystemBuilder) : SystemBuilder :=
  Builder (m_app b) stream (m_watchdogKickFn b) (m_clockSource b).
Definition setWatchdogKick (kick : bool) (b : SystemBuilder) : SystemBuilder :=
  Builder (m_app b) (m_stream b) kick (m_clockSource b).
Definition b_setClockSource (src : bool) (b : SystemBuilder) : SystemBuilder :=
  Builder (m_app b) (m_stream b) (m_watchdogKickFn b) src.

Section builder.
Context {W : Type} (env : Env W).
(** The addresses of the kernel's own tasks. *)
Context (controlTask commsTask diagsTask : nat).
Abbreviation System := (System W).

(** ** Registration *)

(** [core(coreId)]: an index out of range stands for core 0. *)
Definition core_index (coreId : nat) : nat := if decide (coreId < kCoreCount env) then coreId else 0.

(** An update of one core's task list. *)
Definition with_core (coreId : nat) (f : CoreData -> option CoreData) (s : System) : option System :=
  core ← load (sy_cores s) coreId;
  core ← f core;
  cores ← store (sy_cores s) coreId core;
  Some (set_cores cores s).

Definition addScheduledTask (coreId : nat) (task : option nat) (s : System) : option System :=
  with_core (core_index coreId) (addTask task) s.

Definition setCrunchTask (coreId : nat) (task : option nat) (s : System) : option System :=
  match task with
  | Some _ =>
      with_core (core_index coreId)
        (fun c => Some (Core (cd_tasks c) (cd_taskCount c) CRUNCH task)) s
  | None => Some s
  end.

Definition addBackgroundTask (task : option nat) (s : System) : option System :=
  match task with
  | Some _ =>
      if decide (sy_backgroundTaskCount s < kMaxBackgroundTasks env) then
        bg ← store (sy_backgroundTasks s) (sy_backgroundTaskCount s) task;
        Some (set_backgroundTaskCount (S (sy_backgroundTaskCount s)) (set_backgroundTasks bg s))
      else Some s
  | None => Some s
  end.

Definition addStopCondition (fn : option nat) (s : System) : option System :=
  match fn with
  | Some _ =>
      if decide (sy_stopConditionCount s < kMaxStopConditions) then
        cs ← store (sy_stopConditions s) (sy_stopConditionCount s) fn;
        Some (set_stopConditionCount (S (sy_stopConditionCount s)) (set_stopConditions cs s))
      else Some s
  | None => Some s
  end.

(** ** Priorities *)

Definition effectivePriority (tsk : option nat) : Z :=
  match tsk with
  | None => 0xFE
  | Some tid =>
      let d := env_desc env tid in
      if negb (td_isScheduled d) then 0xFE
      else if decide (td_schedulePriority d <> 0xFF) then td_schedulePriority d
      else
        let period := td_periodUs d in
        if decide (period = 0) then 0xFE
        else if decide (period <= 100) then 2
        else if decide (period <= 1000) then 10
        else if decide (period <= 10000) then 20
        else if decide (period <= 100000) then 40
        else if decide (period <= 1000000) then 80
        else 0xA0
  end%Z.

(** The inner loop of the insertion sort, from [j] down. *)
Fixpoint sort_shift (key : option nat) (j : nat) (tasks : list (option nat)) : option (list (option nat)) :=
  match j with
  | O => store tasks 0 key
  | S i =>
      prev ← load tasks i;
      if decide (effectivePriority key < effectivePriority prev)%Z then
        tasks ← store tasks j prev;
        sort_shift key i tasks
      else store tasks j key
  end.

(** The outer loop, from [i]; [n] are left. *)
Fixpoint sort_loop (i n : nat) (tasks : list (option nat)) : option (list (option nat)) :=
  match n with
  | O => Some tasks
  | S n =>
      key ← load tasks i;
      tasks ← sort_shift key i tasks;
      sort_loop (S i) n tasks
  end.

Definition sort_core (c : CoreData) : option CoreData :=
  tasks ← sort_loop 1 (cd_taskCount c - 1) (cd_tasks c);
  Some (Core tasks (cd_taskCount c) (cd_mode c) (cd_crunchTask c)).

Definition sortTasksByPriority (s : System) : option System :=
  cores ← mapM sort_core (sy_cores s);
  Some (set_cores cores s).

(** ** The telemetry *)

(** The context of the callback is part of the callback. *)
Definition b_setTelemetryDrain (writeFn : bool) (s : System) : System := set_drainFn writeFn s.

Definition setTelemetryMutex (mutex : bool) (s : System) : System :=
  on_shared (fun h => set_telemetry (setMutex mutex (sh_telemetry h)) h) s.

(** ** The kernel's tasks *)

(** The constructor of a kernel task in its static storage: a new [TaskTimer]. *)
Definition emplace (tid : nat) (s : System) : System := put_timer tid new_timer s.

Definition prepend_kernel_tasks (s : System) : option System :=
  if kMultiCore env then
    s ← with_core 0 (prependTask (Some controlTask)) s;
    core1 ← load (sy_cores s) 1;
    if decide (cd_mode core1 = CRUNCH) then with_core 0 (prependTask (Some commsTask)) s
    else with_core 1 (prependTask (Some commsTask)) s
  else
    s ← with_core 0 (prependTask (Some commsTask)) s;
    with_core 0 (prependTask (Some controlTask)) s.

(** The last active core below [c]. *)
Fixpoint last_active (c : nat) (cores : list CoreData) : option nat :=
  match c with
  | O => Some 0
  | S c =>
      core ← load cores c;
      if isActive core then Some c else last_active c cores
  end.

Definition create_kernel_tasks (b : SystemBuilder) (s : System) : option System :=
  let s := emplace diagsTask (emplace commsTask (emplace controlTask s)) in
  let s := set_watchdogKickFn (m_watchdogKickFn b) s in
  s ← prepend_kernel_tasks s;
  (* the code appends without asking whether there is room *)
  bg ← store (sy_backgroundTasks s) (sy_backgroundTaskCount s) (Some diagsTask);
  let s := set_backgroundTaskCount (S (sy_backgroundTaskCount s)) (set_backgroundTasks bg s) in
  id ← (if kMultiCore env then last_active (kCoreCount env) (sy_cores s) else Some 0);
  Some (set_backgroundCoreId id s).

(** ** Validation *)

(** The tasks of all cores, in the order of the loops over cores and slots. *)
Definition tasks_of (s : System) : list (option nat) := mjoin (registered <$> sy_cores s).

(** Some task satisfies [p]: the loops that return at the first one. *)
Definition any_task (p : nat -> bool) (tasks : list (option nat)) : bool :=
  existsb (fun tsk => match tsk with Some tid => p tid | None => false end) tasks.

Definition period_too_short (tid : nat) : bool :=
  let d := env_desc env tid in
  td_isScheduled d && bool_decide (0 < td_periodUs d /\ td_periodUs d < kMinSchedulePeriodUs env)%Z.

(** A task pointer that occurs again further on. *)
Fixpoint has_duplicate (tasks : list (option nat)) : bool :=
  match tasks with
  | [] => false
  | Some tid :: tasks => any_task (fun tid' => bool_decide (tid' = tid)) tasks || has_duplicate tasks
  | None :: tasks => has_duplicate tasks
  end.

(** The utilization of a core in thousandths, and the number of tasks that count. *)
Definition utilization_step (acc : Z * nat) (tsk : option nat) : Z * nat :=
  match tsk with
  | Some tid =>
      let d := env_desc env tid in
      if decide (td_isScheduled d = true /\ 0 < td_declaredWcetUs d /\ 0 < td_periodUs d)%Z
      then (u64 (acc.1 + u64 (td_declaredWcetUs d * 1000) / td_periodUs d)%Z, S acc.2)
      else acc
  | None => acc
  end.

Definition utilization (tasks : list (option nat)) : Z * nat := foldl utilization_step (0%Z, 0) tasks.

Fixpoint warn_utilization (cores : list CoreData) (s : System) : option System :=
  match cores with
  | [] => Some s
  | core :: cores =>
      let '(numerator, scheduledCount) := utilization (registered core) in
      s ← (if decide (0 < scheduledCount /\ (800 < numerator)%Z)
           then sys_log SENSOR_ERROR 0 (f_div (f_of_Z numerator) (f_of_Z 1000)) s else Some s);
      warn_utilization cores s
  end.

Definition validateSchedulingConstraints (s : System) : option (BuildResult * System) :=
  if any_task period_too_short (tasks_of s) then Some (BuildFailed PeriodBelowMinimum, s)
  else if has_duplicate (tasks_of s) then Some (BuildFailed DuplicateTask, s)
  else
    s ← warn_utilization (sy_cores s) s;
    Some (BuildOk, s).

(** The rules for CRUNCH cores, from core [c]. *)
Fixpoint validate_crunch (c : nat) (cores : list CoreData) : BuildResult :=
  match cores with
  | [] => BuildOk
  | core :: cores =>
      match cd_mode core with
      | FLAT_LOOP => validate_crunch (S c) cores
      | CRUNCH =>
          if decide (c = 0) then BuildFailed CrunchOnCore0
          else
            match cd_crunchTask core with
            | None => BuildFailed CrunchNoTask
            | Some tid =>
                if decide (0 < cd_taskCount core) then BuildFailed CrunchOtherTasks
                else if decide (kCoreCount env < 2) then BuildFailed CrunchNeedsTwoCores
                else
                  let period := td_crunchPeriodUs (env_desc env tid) in
                  if decide (0 < period /\ period < kMinSchedulePeriodUs env)%Z
                  then BuildFailed CrunchPeriodBelowMinimum
                  else validate_crunch (S c) cores
            end
      end
  end.

Definition validateCrunchConstraints (s : System) : BuildResult := validate_crunch 0 (sy_cores s).

Definition validateTaskDependencies (s : System) : BuildResult :=
  if any_task (fun tid => negb (td_validateDependencies (env_desc env tid))) (tasks_of s)
  then BuildFailed DependencyFailed else BuildOk.

(** ** [build] *)

(** Tasks with timers: of the cores, of the background ring, of CRUNCH mode. *)
Definition timed_tasks (s : System) : list (option nat) :=
  tasks_of s ++ take (sy_backgroundTaskCount s) (sy_backgroundTasks s) ++ (cd_crunchTask <$> sy_cores s).

(** The propagation loops. *)
Definition each_timer (f : TaskTimer -> TaskTimer) (s : System) : System :=
  foldl (fun s tsk => match tsk with
                      | Some tid => put_timer tid (f (task_timer tid s)) s
                      | None => s
                      end) s (timed_tasks s).

Definition propagate_clock (s : System) : System :=
  let '(clock, s) := read_clock env s in
  each_timer (setClockSource true) (set_timer (st_setClockSource true clock) s).

Definition propagate_window (s : System) : System :=
  let s := each_timer (setMetricsWindowUs (kMetricsWindowUs env)) s in
  set_queueMonitor (qd_setMetricsWindowUs (kMetricsWindowUs env) (sy_queueMonitor s))
    (set_schedulerHealth (sh_setMetricsWindowUs (kMetricsWindowUs env) (sy_schedulerHealth s)) s).

(** The list for the diagnostics task. *)
Definition collect_tasks (s : System) : System :=
  set_allTasks (take (kCoreCount env * kMaxTasksPerCore) (omap id (tasks_of s))) s.

(** The part of [build] behind the checks. *)
Definition finish_build (b : SystemBuilder) (s : System) : option System :=
  let s := if m_app b then collect_tasks s else s in
  let s := if m_clockSource b then propagate_clock s else s in
  let s := set_built true (propagate_window s) in
  '(_, s) ← transitionTo CONFIGURED s;
  Some s.

(** The checks and what follows them. *)
Definition check_and_finish (b : SystemBuilder) (s : System) : option (BuildResult * System) :=
  if negb (existsb isActive (sy_cores s)) then Some (BuildFailed NoTasks, s)
  else
    '(r, s) ← validateSchedulingConstraints s;
    if decide (r = BuildOk) then
      if decide (validateCrunchConstraints s = BuildOk) then
        if decide (validateTaskDependencies s = BuildOk) then
          s ← finish_build b s;
          Some (BuildOk, s)
        else Some (validateTaskDependencies s, s)
      else Some (validateCrunchConstraints s, s)
    else Some (r, s).

Definition build (b : SystemBuilder) (s : System) : option (BuildResult * System) :=
  if sy_built s then Some (BuildFailed AlreadyBuilt, s)
  else
    s ← (if m_app b then create_kernel_tasks b s else Some s);
    s ← sortTasksByPriority s;
    check_and_finish b s.
End builder.

(** ** The priority order *)

Section sorting.
Context {W : Type} (env : Env W).
Abbreviation prio := (effectivePriority env).
Implicit Types (l m r : list (option nat)) (key : option nat).

(** Insertion into a list, from its end, behind everything of the same priority. *)
Fixpoint insert_back key (rl : list (option nat)) : list (option nat) :=
  match rl with
  | [] => [key]
  | y :: rl => if decide (prio key < prio y)%Z then y :: insert_back key rl else key :: y :: rl
  end.

Definition insert_task l key : list (option nat) := reverse (insert_back key (reverse l)).
Definition stable_sort l : list (option nat) := foldl insert_task [] l.

Lemma insert_task_snoc l y key :
  insert_task (l ++ [y]) key =
    if decide (prio key < prio y)%Z then insert_task l key ++ [y] else l ++ [y; key].
Proof.
  unfold insert_task. rewrite reverse_snoc. simpl. case_decide; rewrite !reverse_cons; [done|].
  rewrite reverse_involutive, <- app_assoc. done.
Qed.

Lemma sort_shift_spec key x l r :
  sort_shift env key (length l) (l ++ x :: r) = Some (insert_task l key ++ r).
Proof.
  revert x r. induction l as [|y l IH] using rev_ind; intros x r.
  { change 0 with (length (@nil (option nat))). simpl app. done. }
  rewrite length_app, Nat.add_1_r, insert_task_snoc, <- app_assoc. simpl.
  unfold load. rewrite list_lookup_middle by done. cbn [mbind option_bind].
  case_decide as Hp.
  - rewrite store_middle_S. cbn [mbind option_bind]. rewrite IH, <- app_assoc. done.
  - rewrite store_middle_S, <- app_assoc. done.
Qed.

Lemma insert_task_length l key : length (insert_task l key) = S (length l).
Proof.
  induction l as [|y l IH] using rev_ind; [done|].
  rewrite insert_task_snoc. case_decide; rewrite !length_app, ?IH; simpl; lia.
Qed.

Lemma sort_loop_spec l m r :
  sort_loop env (length l) (length m) (l ++ m ++ r) = Some (foldl insert_task l m ++ r).
Proof.
  revert l. induction m as [|key m IH]; intros l; simpl; [done|].
  rewrite load_middle. cbn [mbind option_bind]. rewrite sort_shift_spec. cbn [mbind option_bind].
  rewrite <- (insert_task_length l key). apply IH.
Qed.

(** What an insertion does. *)
Lemma insert_task_split l key :
  exists a b, l = a ++ b /\ insert_task l key = a ++ key :: b /\
    Forall (fun y => prio key < prio y)%Z b /\ (forall y, last a = Some y -> prio y <= prio key)%Z.
Proof.
  induction l as [|y l (a & b & -> & IH & Hb & Ha)] using rev_ind; [by exists [], []|].
  rewrite insert_task_snoc. case_decide as Hp.
  - exists a, (b ++ [y]). rewrite IH, <- !app_assoc. split; [done|]. split; [done|].
    split; [|done]. apply Forall_app_2; [done|by constructor].
  - exists ((a ++ b) ++ [y]), []. rewrite app_nil_r, <- !app_assoc. split; [done|]. split; [done|].
    split; [done|]. intros z. rewrite app_assoc, last_snoc. intros [= <-]. lia.
Qed.

Definition by_priority : relation (option nat) := fun x y => (prio x <= prio y)%Z.

#[global] Instance by_priority_trans : Transitive by_priority.
Proof. intros x y z. unfold by_priority. lia. Qed.

Lemma insert_task_perm l key : insert_task l key ≡ₚ key :: l.
Proof.
  destruct (insert_task_split l key) as (a & b & -> & -> & _ & _). symmetry. apply Permutation_middle.
Qed.

Lemma insert_task_sorted l key :
  StronglySorted by_priority l -> StronglySorted by_priority (insert_task l key).
Proof.
  destruct (insert_task_split l key) as (a & b & -> & -> & Hb & Ha). intros Hs.
  apply StronglySorted_app in Hs as (Hab & Hsa & Hsb).
  assert (Hle : forall y, y ∈ a -> by_priority y key).
  { destruct a as [|z a _] using rev_ind; [by intros y ?%elem_of_nil|].
    specialize (Ha z). rewrite last_snoc in Ha. specialize (Ha eq_refl).
    apply StronglySorted_app in Hsa as (Haz & _ & _). intros y [Hy|Hy]%elem_of_app.
    - transitivity z; [|done]. apply Haz; [done|set_solver].
    - apply list_elem_of_singleton in Hy. by subst. }
  rewrite Forall_forall in Hb. apply StronglySorted_app. split; [|split; [done|]].
  - intros x y Hx [->|Hy]%elem_of_cons; auto.
  - constructor; [done|]. apply Forall_forall. intros y Hy. specialize (Hb y Hy). unfold by_priority. lia.
Qed.

Lemma insert_task_stable p l key :
  filter (fun t => prio t = p) (insert_task l key) = filter (fun t => prio t = p) (l ++ [key]).
Proof.
  destruct (insert_task_split l key) as (a & b & -> & -> & Hb & _).
  rewrite !filter_app, <- app_assoc. f_equal. rewrite !filter_cons, filter_nil.
  case_decide as Hp; [|by rewrite app_nil_r].
  assert (Hnil : filter (fun t => prio t = p) b = []); [|by rewrite Hnil].
  induction Hb as [|y b Hy _ IH]; [done|]. rewrite filter_cons, decide_False by lia. done.
Qed.

Lemma stable_sort_perm l : stable_sort l ≡ₚ l.
Proof.
  unfold stable_sort. rewrite <- (app_nil_l l) at 2. generalize (@nil (option nat)) as acc.
  induction l as [|x l IH]; intros acc; simpl; [by rewrite app_nil_r|].
  rewrite IH, insert_task_perm. simpl. apply Permutation_middle.
Qed.

Lemma stable_sort_sorted l : StronglySorted by_priority (stable_sort l).
Proof.
  unfold stable_sort. assert (Hacc : StronglySorted by_priority []) by constructor.
  revert Hacc. generalize (@nil (option nat)) as acc.
  induction l as [|x l IH]; intros acc Hacc; simpl; [done|]. by apply IH, insert_task_sorted.
Qed.

Lemma stable_sort_stable p l :
  filter (fun t => prio t = p) (stable_sort l) = filter (fun t => prio t = p) l.
Proof.
  unfold stable_sort. rewrite <- (app_nil_l l) at 2. generalize (@nil (option nat)) as acc.
  induction l as [|x l IH]; intros acc; simpl; [by rewrite app_nil_r|].
  rewrite IH, filter_app, insert_task_stable, <- filter_app, <- app_assoc. done.
Qed.

(** A core after the sort. *)
Lemma sort_core_ok c :
  core_wf c ->
  exists c', sort_core env c = Some c' /\ core_wf c' /\ registered c' = stable_sort (registered c) /\
    cd_taskCount c' = cd_taskCount c /\ cd_mode c' = cd_mode c /\ cd_crunchTask c' = cd_crunchTask c.
Proof.
  intros [Hlen Hcnt]. unfold sort_core.
  assert (Hloop : sort_loop env 1 (cd_taskCount c - 1) (cd_tasks c) =
    Some (stable_sort (registered c) ++ drop (cd_taskCount c) (cd_tasks c))).
  { rewrite <- (firstn_skipn (cd_taskCount c) (cd_tasks c)) at 1. fold (registered c).
    assert (Hr : length (registered c) = cd_taskCount c) by (unfold registered; rewrite length_take; lia).
    destruct (registered c) as [|x m]; [by rewrite <- Hr|].
    rewrite <- Hr. simpl. rewrite Nat.sub_0_r. apply (sort_loop_spec [x] m). }
  rewrite Hloop. cbn [mbind option_bind]. eexists. split; [done|].
  assert (Hs : length (stable_sort (registered c)) = cd_taskCount c).
  { rewrite (Permutation_length (stable_sort_perm _)). unfold registered. rewrite length_take. lia. }
  split; [split; simpl; [rewrite length_app, length_drop, Hs; lia|lia]|].
  split; [|done]. unfold registered at 1. simpl. by rewrite <- Hs at 1; rewrite take_app_length.
Qed.
End sorting.

(** ** Well-formedness through the build *)

Section proofs.
Context {W : Type} (env : Env W).
Context (controlTask commsTask diagsTask : nat).
Implicit Types s : System W.

Lemma set_cores_wf cores s :
  sys_wf env s -> length cores = kCoreCount env -> Forall core_wf cores -> sys_wf env (set_cores cores s).
Proof. intros Hwf Hl Hc. by destruct Hwf; split. Qed.

(** The parts of the state that registration and sorting leave alone. *)
Definition aside s :=
  (sy_backgroundTasks s, sy_backgroundTaskCount s, sy_bgRoundRobin s, sy_kernelState s, sy_built s,
   sy_stopConditions s, sy_stopConditionCount s, sy_shared s).

Lemma with_core_ok coreId f s :
  sys_wf env s -> coreId < kCoreCount env ->
  (forall c, core_wf c -> exists c', f c = Some c' /\ core_wf c') ->
  exists core core', sy_cores s !! coreId = Some core /\ f core = Some core' /\ core_wf core' /\
    with_core coreId f s = Some (set_cores (<[coreId := core']> (sy_cores s)) s) /\
    sys_wf env (set_cores (<[coreId := core']> (sy_cores s)) s).
Proof.
  intros Hwf Hc Hf. destruct (wf_cores _ _ Hwf) as [Hl Hcores].
  destruct (lookup_lt_is_Some_2 (sy_cores s) coreId) as [core Hcore]; [lia|].
  destruct (Hf core) as (core' & E & Hc'); [by eapply Forall_lookup_1|].
  exists core, core'. do 3 (split; [done|]). unfold with_core, load. rewrite Hcore. cbn [mbind option_bind].
  rewrite E. cbn [mbind option_bind]. rewrite store_ok by lia. split; [done|].
  apply set_cores_wf; [done|by rewrite length_insert|by apply Forall_insert].
Qed.

(** A core with tasks put in front of its list. *)
Definition grown (pre : list (option nat)) (c c' : CoreData) : Prop :=
  core_wf c' /\ registered c' = pre ++ registered c /\ cd_mode c' = cd_mode c /\
  cd_crunchTask c' = cd_crunchTask c.

Lemma registered_length c : core_wf c -> length (registered c) = cd_taskCount c.
Proof. intros [Hl Hc]. unfold registered. rewrite length_take. lia. Qed.

Lemma prependTask_total tid c :
  core_wf c -> exists c', prependTask (Some tid) c = Some c' /\
    grown (if decide (cd_taskCount c < kMaxTasksPerCore) then [Some tid] else []) c c'.
Proof.
  intros Hc. destruct (decide (cd_taskCount c < kMaxTasksPerCore)) as [Hroom|Hfull].
  - destruct (prependTask_spec tid c Hc Hroom) as (c' & E & Hc' & Hr & Hm & Hx & _). by exists c'.
  - exists c. unfold prependTask. by rewrite decide_False.
Qed.

Lemma grown_trans pre1 pre2 c1 c2 c3 : grown pre1 c1 c2 -> grown pre2 c2 c3 -> grown (pre2 ++ pre1) c1 c3.
Proof.
  intros (_ & H1 & M1 & X1) (Hwf & H2 & M2 & X2). split; [done|].
  split; [by rewrite H2, H1, app_assoc|]. split; congruence.
Qed.

Lemma grown_refl c : core_wf c -> grown [] c c.
Proof. done. Qed.

(** All cores are as before, but for tasks put in front; [pre c] are those of core [c]. *)
Definition cores_grown (pre : nat -> list (option nat)) s s' : Prop :=
  length (sy_cores s') = length (sy_cores s) /\
  forall c core, sy_cores s !! c = Some core ->
    exists core', sy_cores s' !! c = Some core' /\ grown (pre c) core core'.

Lemma cores_grown_trans p1 p2 s1 s2 s3 :
  cores_grown p1 s1 s2 -> cores_grown p2 s2 s3 -> cores_grown (fun c => p2 c ++ p1 c) s1 s3.
Proof.
  intros [L1 H1] [L2 H2]. split; [congruence|]. intros c core Hc.
  destruct (H1 c core Hc) as (core' & Hc' & G1). destruct (H2 c core' Hc') as (core'' & Hc'' & G2).
  exists core''. split; [done|]. by eapply grown_trans.
Qed.

(** One [prependTask] of the builder. *)
Lemma prepend_on_ok tid k s :
  sys_wf env s -> k < kCoreCount env ->
  exists s' core, with_core k (prependTask (Some tid)) s = Some s' /\ sys_wf env s' /\
    sy_cores s !! k = Some core /\ (exists cores, s' = set_cores cores s) /\
    cores_grown (fun c => if decide (c = k /\ cd_taskCount core < kMaxTasksPerCore) then [Some tid] else []) s s'.
Proof.
  intros Hwf Hk. destruct (with_core_ok k (prependTask (Some tid)) s Hwf Hk)
    as (core & core' & Hcore & E & Hc' & -> & Hwf').
  { intros c Hc. destruct (prependTask_total tid c Hc) as (c' & E & G). exists c'. split; [done|apply G]. }
  exists (set_cores (<[k:=core']> (sy_cores s)) s), core.
  do 3 (split; [done|]). split; [by eexists|]. split; [simpl; by rewrite length_insert|].
  destruct (wf_cores _ _ Hwf) as [Hl Hcores].
  intros c co Hco. simpl. destruct (decide (c = k)) as [->|Hne].
  - exists core'. split; [apply list_lookup_insert_eq; lia|]. simplify_eq.
    destruct (prependTask_total tid core) as (c'' & E' & G); [by eapply Forall_lookup_1|].
    rewrite E in E'. simplify_eq. case_decide; case_decide; tauto.
  - exists co. split; [by rewrite list_lookup_insert_ne|]. rewrite decide_False by tauto.
    apply grown_refl. by eapply Forall_lookup_1.
Qed.

(** Where the kernel's own tasks belong, [crunch1] telling that core 1 is in CRUNCH mode. *)
Definition kernel_tasks (crunch1 : bool) (c : nat) : list (option nat) :=
  match c with
  | 0 => if kMultiCore env then if crunch1 then [Some commsTask; Some controlTask] else [Some controlTask]
         else [Some controlTask; Some commsTask]
  | 1 => if kMultiCore env && negb crunch1 then [Some commsTask] else []
  | _ => []
  end.

Definition core1_crunch s : bool :=
  match sy_cores s !! 1 with Some core => bool_decide (cd_mode core = CRUNCH) | None => false end.

(** There is room for them. *)
Definition roomy s : Prop :=
  forall c core, c < 2 -> sy_cores s !! c = Some core -> cd_taskCount core + 2 <= kMaxTasksPerCore.

(** Both [prependTask]s, in order: [k1] and [k2] are the cores, [t1] and [t2] the tasks. *)
Lemma prepend_two t1 t2 k1 k2 s :
  sys_wf env s -> k1 < kCoreCount env -> k2 < kCoreCount env ->
  exists s1 s' pre, with_core k1 (prependTask (Some t1)) s = Some s1 /\
    (exists cores, s1 = set_cores cores s) /\ sys_wf env s1 /\
    (forall c core, sy_cores s !! c = Some core -> exists core1, sy_cores s1 !! c = Some core1 /\
      cd_mode core1 = cd_mode core) /\
    with_core k2 (prependTask (Some t2)) s1 = Some s' /\ sys_wf env s' /\
    (exists cores, s' = set_cores cores s) /\ cores_grown pre s s' /\
    (forall c t, t ∈ pre c -> t = Some t1 \/ t = Some t2) /\
    (k1 < 2 -> k2 < 2 -> roomy s -> forall c, pre c =
      (if decide (c = k2) then [Some t2] else []) ++ (if decide (c = k1) then [Some t1] else [])).
Proof.
  intros Hwf H1 H2.
  destruct (prepend_on_ok t1 k1 s Hwf H1) as (s1 & core & E1 & Hwf1 & Hcore & [cs ->] & G1).
  destruct (prepend_on_ok t2 k2 (set_cores cs s) Hwf1 H2) as (s2 & core2 & E2 & Hwf2 & Hcore2 & [cs2 ->] & G2).
  eexists _, _, _. split; [exact E1|]. split; [by eexists|]. split; [done|]. split.
  { intros c co Hco. destruct (proj2 G1 c co Hco) as (co' & ? & _ & _ & ? & _). eauto. }
  split; [exact E2|]. split; [done|]. split; [by eexists|].
  split; [exact (cores_grown_trans _ _ _ _ _ G1 G2)|]. split.
  { intros c t. cbv beta. intros [H|H]%elem_of_app; case_decide; set_solver. }
  intros Hk1 Hk2 Hroom c. cbv beta. pose proof (Hroom k1 core Hk1 Hcore).
  destruct (lookup_lt_is_Some_2 (sy_cores s) k2) as [core2' Hc2'];
    [destruct (wf_cores _ _ Hwf) as [-> _]; lia|].
  pose proof (Hroom k2 core2' Hk2 Hc2').
  assert (Hcnt : cd_taskCount core2 <= cd_taskCount core2' + 1).
  { destruct (proj2 G1 k2 core2' Hc2') as (co & Hco & Hwfc & Hr & _). simplify_eq.
    apply (f_equal length) in Hr. rewrite length_app, !registered_length in Hr;
      [|by eapply Forall_lookup_1; [apply (wf_cores _ _ Hwf)|]|done].
    destruct (decide (k2 = k1 /\ cd_taskCount core < kMaxTasksPerCore)); simpl in Hr; lia. }
  f_equal; apply decide_ext; intuition lia.
Qed.

Lemma prepend_kernel_tasks_ok s :
  sys_wf env s -> 0 < kCoreCount env ->
  exists s' pre, prepend_kernel_tasks env controlTask commsTask s = Some s' /\ sys_wf env s' /\
    (exists cores, s' = set_cores cores s) /\ cores_grown pre s s' /\
    (forall c t, t ∈ pre c -> t = Some controlTask \/ t = Some commsTask) /\
    (roomy s -> forall c, pre c = kernel_tasks (core1_crunch s) c).
Proof.
  intros Hwf Hpos. unfold prepend_kernel_tasks, kernel_tasks, kMultiCore. case_bool_decide as Hmulti.
  - destruct (lookup_lt_is_Some_2 (sy_cores s) 1) as [core1 Hcore1];
      [destruct (wf_cores _ _ Hwf) as [-> _]; lia|].
    set (k := if decide (cd_mode core1 = CRUNCH) then 0 else 1).
    assert (Hk : k < 2 /\ k < kCoreCount env) by (unfold k; destruct (decide (cd_mode core1 = CRUNCH)); lia).
    destruct (prepend_two controlTask commsTask 0 k s Hwf Hpos) as
      (s1 & s' & pre & -> & [cs ->] & Hwf1 & Hmode & E & Hwf2 & Hcs & Hg & Hin & Hpre); [apply Hk|].
    cbn [mbind option_bind]. destruct (Hmode 1 core1 Hcore1) as (core1' & Hc1' & Hm).
    unfold load at 1. rewrite Hc1'. cbn [mbind option_bind]. rewrite Hm.
    exists s', pre. split; [by unfold k in E; destruct (decide (cd_mode core1 = CRUNCH))|].
    split_and!; [done..|]. intros Hroom c. rewrite Hpre by (done || lia).
    unfold core1_crunch, k. rewrite Hcore1. by destruct (cd_mode core1), c as [|[|c]].
  - destruct (prepend_two commsTask controlTask 0 0 s Hwf Hpos Hpos) as
      (s1 & s' & pre & -> & _ & _ & _ & E & Hwf2 & Hcs & Hg & Hin & Hpre).
    cbn [mbind option_bind]. rewrite E. exists s', pre. split_and!; [done..|intros c t Ht; destruct (Hin c t Ht); auto|].
    intros Hroom c. rewrite Hpre by (done || lia). by destruct c as [|[|c]].
Qed.

Lemma set_background_wf bg n s :
  sys_wf env s -> n <= length bg -> sy_backgroundTaskCount s <= n ->
  sys_wf env (set_backgroundTaskCount n (set_backgroundTasks bg s)).
Proof. intros Hwf Hn Hc. destruct Hwf. split; auto; simpl in *; lia. Qed.

Lemma set_backgroundCoreId_wf k s : sys_wf env s -> sys_wf env (set_backgroundCoreId k s).
Proof. intros Hwf. by destruct Hwf; split. Qed.

Lemma set_watchdogKickFn_wf k s : sys_wf env s -> sys_wf env (set_watchdogKickFn k s).
Proof. intros Hwf. by destruct Hwf; split. Qed.

(** What the kernel's task objects have no part in. *)
Definition topology s :=
  (sy_cores s, sy_backgroundTasks s, sy_backgroundTaskCount s, sy_kernelState s, sy_built s).

Lemma topology_timer tid tm s : topology (put_timer tid tm s) = topology s.
Proof. done. Qed.

Lemma topology_kick k s : topology (set_watchdogKickFn k s) = topology s.
Proof. done. Qed.

Lemma last_active_ok c cores :
  c <= length cores ->
  exists k, last_active c cores = Some k /\ (k < c \/ k = 0) /\
    (k = 0 \/ exists core, cores !! k = Some core /\ isActive core = true) /\
    (forall d core, d < c -> cores !! d = Some core -> isActive core = true -> d <= k).
Proof.
  induction c as [|c IH]; intros Hc; simpl; [exists 0; split_and!; [done|auto|auto|lia]|].
  destruct (lookup_lt_is_Some_2 cores c) as [core Hcore]; [lia|].
  unfold load. rewrite Hcore. cbn [mbind option_bind]. destruct (isActive core) eqn:Hact.
  - exists c. split; [done|]. split; [lia|]. split; [eauto|]. intros. lia.
  - destruct IH as (k & -> & Hk & Ha & Hmax); [lia|]. exists k. split; [done|]. split; [lia|]. split; [done|].
    intros d core' Hd Hlk Hact'. destruct (decide (d = c)) as [->|Hne]; [congruence|]. eapply Hmax; eauto. lia.
Qed.

(** What the kernel's own registration gives. *)
Record kernel_added (pre : nat -> list (option nat)) s s' : Prop := {
  ka_wf : sys_wf env s';
  ka_cores : cores_grown pre s s';
  ka_background : sy_backgroundTasks s' = <[sy_backgroundTaskCount s := Some diagsTask]> (sy_backgroundTasks s);
  ka_count : sy_backgroundTaskCount s' = S (sy_backgroundTaskCount s);
  ka_core : sy_backgroundCoreId s' < kCoreCount env /\
    (sy_backgroundCoreId s' = 0 \/ exists core,
      sy_cores s' !! sy_backgroundCoreId s' = Some core /\ isActive core = true) /\
    (2 <= kCoreCount env -> forall c core, sy_cores s' !! c = Some core -> isActive core = true ->
      c <= sy_backgroundCoreId s');
  ka_state : sy_kernelState s' = sy_kernelState s /\ sy_built s' = sy_built s;
}.

Lemma create_kernel_tasks_ok b s :
  sys_wf env s -> 0 < kCoreCount env -> sy_backgroundTaskCount s < length (sy_backgroundTasks s) ->
  exists s' pre, create_kernel_tasks env controlTask commsTask diagsTask b s = Some s' /\
    kernel_added pre s s' /\
    (forall c t, t ∈ pre c -> t = Some controlTask \/ t = Some commsTask) /\
    (roomy s -> forall c, pre c = kernel_tasks (core1_crunch s) c).
Proof.
  intros Hwf Hpos Hroom. unfold create_kernel_tasks.
  set (s0 := set_watchdogKickFn _ _).
  assert (Hwf0 : sys_wf env s0).
  { apply set_watchdogKickFn_wf. unfold emplace. do 3 (apply put_timer_wf; [|done]). done. }
  assert (H0 : topology s0 = topology s) by (unfold s0, emplace; by rewrite topology_kick, !topology_timer).
  clearbody s0. inversion H0 as [[Hc0 Hbg0 Hbc0 Hks0 Hb0]].
  destruct (prepend_kernel_tasks_ok s0 Hwf0 Hpos) as (s1 & pre & -> & Hwf1 & [cs ->] & Hgrown & Hin & Hctl).
  cbn [mbind option_bind]. unfold cores_grown in Hgrown. unfold roomy, core1_crunch in *. rewrite Hc0 in *.
  change (sy_backgroundTasks (set_cores cs s0)) with (sy_backgroundTasks s0).
  change (sy_backgroundTaskCount (set_cores cs s0)) with (sy_backgroundTaskCount s0).
  rewrite Hbg0, Hbc0 in *.
  rewrite store_ok by done. cbn [mbind option_bind].
  set (s2 := set_backgroundTaskCount _ _).
  assert (Hwf2 : sys_wf env s2).
  { apply set_background_wf; [done|rewrite length_insert; lia|]. simpl. lia. }
  assert (Hid : exists k, (if kMultiCore env then last_active (kCoreCount env) (sy_cores s2) else Some 0) = Some k /\
    k < kCoreCount env /\ (k = 0 \/ exists core, sy_cores s2 !! k = Some core /\ isActive core = true) /\ (2 <= kCoreCount env -> forall c core, sy_cores s2 !! c = Some core ->
      isActive core = true -> c <= k)).
  { destruct (wf_cores _ _ Hwf2) as [Hl2 _]. unfold kMultiCore. case_bool_decide as Hm.
    - destruct (last_active_ok (kCoreCount env) (sy_cores s2)) as (k & Hk & Hlt & Ha & Hmax); [lia|].
      exists k. split; [done|]. split; [lia|]. split; [done|]. intros _ c core Hc Hact. eapply Hmax; eauto.
      rewrite <- Hl2. by eapply lookup_lt_Some.
    - exists 0. split; [done|]. split; [lia|]. split; [auto|]. intros. lia. }
  destruct Hid as (k & -> & Hk & Ha & Hmax). cbn [mbind option_bind].
  eexists _, pre. split; [done|]. split; [|by split].
  split; [by apply set_backgroundCoreId_wf|exact Hgrown|done|done|by split|by rewrite <- Hks0, <- Hb0].
Qed.

(** ** Sorting *)

Definition sorted_from (c c' : CoreData) : Prop :=
  core_wf c' /\ registered c' = stable_sort env (registered c) /\ cd_taskCount c' = cd_taskCount c /\
  cd_mode c' = cd_mode c /\ cd_crunchTask c' = cd_crunchTask c.

Lemma sort_ok s :
  sys_wf env s ->
  exists cores, sortTasksByPriority env s = Some (set_cores cores s) /\
    sys_wf env (set_cores cores s) /\ Forall2 sorted_from (sy_cores s) cores.
Proof.
  intros Hwf. destruct (wf_cores _ _ Hwf) as [Hl Hcores]. unfold sortTasksByPriority.
  assert (Hmap : exists cores, mapM (sort_core env) (sy_cores s) = Some cores /\
    Forall2 sorted_from (sy_cores s) cores).
  { clear Hl. induction Hcores as [|c cs Hc _ (cores & E & IH)]; [by exists []|].
    destruct (sort_core_ok env c Hc) as (c' & E' & H). exists (c' :: cores). simpl.
    rewrite E'. cbn [mbind option_bind]. rewrite E. split; [done|]. by constructor. }
  destruct Hmap as (cores & -> & Hs). cbn [mbind option_bind]. exists cores. split; [done|]. split; [|done].
  apply set_cores_wf; [done|by rewrite <- (Forall2_length _ _ _ Hs)|].
  clear -Hs. induction Hs as [|? ? ? ? [? _]]; by constructor.
Qed.

(** ** Validation *)

Lemma any_task_spec p tasks : any_task p tasks = true <-> exists tid, Some tid ∈ tasks /\ p tid = true.
Proof.
  unfold any_task. rewrite existsb_exists. split.
  - intros ([tid|] & Hin & Hp); [|done]. exists tid. by rewrite list_elem_of_In.
  - intros (tid & Hin & Hp). exists (Some tid). by rewrite <- list_elem_of_In.
Qed.

Lemma any_task_false p tasks :
  any_task p tasks = false <-> forall tid, Some tid ∈ tasks -> p tid = false.
Proof.
  rewrite <- Bool.not_true_iff_false, any_task_spec. split.
  - intros H tid Hin. destruct (p tid) eqn:E; [|done]. exfalso. eauto.
  - intros H (tid & Hin & Hp). rewrite (H tid Hin) in Hp. done.
Qed.

Lemma elem_of_ids tid (tasks : list (option nat)) : tid ∈ omap id tasks <-> Some tid ∈ tasks.
Proof.
  rewrite list_elem_of_omap. split; [intros (x & Hx & E); simpl in E; by subst|]. intros H. by exists (Some tid).
Qed.

Lemma has_duplicate_spec tasks : has_duplicate tasks = false <-> NoDup (omap id tasks).
Proof.
  induction tasks as [|[tid|] tasks IH]; simpl; [by split; [constructor|]| |done].
  rewrite orb_false_iff, IH, any_task_false, NoDup_cons, elem_of_ids. split.
  - intros [H ?]. split; [|done]. intros Hin. specialize (H tid Hin). by rewrite bool_decide_true in H.
  - intros [H ?]. split; [|done]. intros tid' Hin. apply bool_decide_false. by intros ->.
Qed.

Lemma warn_utilization_ok cores s :
  sys_wf env s -> exists s', warn_utilization env cores s = Some s' /\ keeps env s s'.
Proof.
  revert s. induction cores as [|core cores IH]; intros s Hwf; cbn [warn_utilization];
    [by eauto using keeps_refl|].
  destruct (utilization env (registered core)) as [num n].
  assert (H : exists s1, (if decide (0 < n /\ (800 < num)%Z)
      then sys_log SENSOR_ERROR 0 (f_div (f_of_Z num) (f_of_Z 1000)) s else Some s) = Some s1 /\ keeps env s s1).
  { case_decide; [|by eauto using keeps_refl].
    destruct (sys_log_ok env SENSOR_ERROR 0 (f_div (f_of_Z num) (f_of_Z 1000)) s Hwf) as (s1 & E & Hk & _). eauto. }
  destruct H as (s1 & -> & Hk). cbn [mbind option_bind].
  destruct (IH s1 (k_wf _ _ _ Hk)) as (s2 & -> & Hk2). eauto using keeps_trans.
Qed.

(** The rules for a CRUNCH core, at index [c]. *)
Definition crunch_rules (c : nat) (core : CoreData) : Prop :=
  cd_mode core = CRUNCH ->
  c <> 0 /\ cd_taskCount core = 0 /\ 2 <= kCoreCount env /\
  exists tid, cd_crunchTask core = Some tid /\
    ~ (0 < td_crunchPeriodUs (env_desc env tid) /\
       td_crunchPeriodUs (env_desc env tid) < kMinSchedulePeriodUs env)%Z.

Lemma validate_crunch_spec c cores :
  validate_crunch env c cores = BuildOk <->
  forall i core, cores !! i = Some core -> crunch_rules (c + i) core.
Proof.
  revert c. induction cores as [|core cores IH]; intros c; simpl.
  { split; [|done]. intros _ i core. by rewrite lookup_nil. }
  assert (Hsplit : (forall i co, (core :: cores) !! i = Some co -> crunch_rules (c + i) co) <->
      crunch_rules c core /\ forall i co, cores !! i = Some co -> crunch_rules (S c + i) co).
  { split.
    - intros H. split; [specialize (H 0 core eq_refl); by rewrite Nat.add_0_r in H|].
      intros i co Hi. specialize (H (S i) co Hi). by rewrite Nat.add_succ_r in H.
    - intros [H0 H] [|i] co Hi; simpl in Hi; [simplify_eq; by rewrite Nat.add_0_r|].
      rewrite Nat.add_succ_r. by apply (H i). }
  rewrite Hsplit, <- IH. unfold crunch_rules.
  destruct (cd_mode core); [by intuition congruence|].
  case_decide as H0; [by intuition congruence|]. destruct (cd_crunchTask core) as [tid|].
  2: { split; [done|]. intros [H _]. destruct H as (_ & _ & _ & tid & ? & _); done. }
  case_decide as H1; [split; [done|]; intros [H _]; destruct H as (_ & ? & _); [done|lia]|].
  case_decide as H2; [split; [done|]; intros [H _]; destruct H as (_ & _ & ? & _); [done|lia]|].
  case_decide as Hp.
  - split; [done|]. intros [H _]. destruct H as (_ & _ & _ & tid' & E & Hn); [done|]. by simplify_eq.
  - split; [|tauto]. intros Hv. split; [|done]. intros _. split_and!; [done|lia|lia|eauto].
Qed.

(** What [build] checks. The floor of the periods is for positive ones only: the documentation
    of [validateSchedulingConstraints] has no such exception. *)
Record valid_topology (cores : list CoreData) : Prop := {
  vt_active : exists core, core ∈ cores /\ isActive core = true;
  vt_period : forall tid, Some tid ∈ mjoin (registered <$> cores) -> td_isScheduled (env_desc env tid) = true ->
    ~ (0 < td_periodUs (env_desc env tid) /\ td_periodUs (env_desc env tid) < kMinSchedulePeriodUs env)%Z;
  vt_nodup : NoDup (omap id (mjoin (registered <$> cores)));
  vt_crunch : forall c core, cores !! c = Some core -> crunch_rules c core;
  vt_deps : forall tid, Some tid ∈ mjoin (registered <$> cores) ->
    td_validateDependencies (env_desc env tid) = true;
}.

(** ** The timers *)

Definition set_timers (f : TaskTimer -> TaskTimer) (tasks : list (option nat)) s : System W :=
  foldl (fun s tsk => match tsk with
                      | Some tid => put_timer tid (f (task_timer tid s)) s
                      | None => s
                      end) s tasks.

Lemma set_timers_ok f tasks s :
  sys_wf env s -> (forall t, timer_ok t -> timer_ok (f t)) ->
  sys_wf env (set_timers f tasks s) /\ topology (set_timers f tasks s) = topology s /\
  sy_backgroundCoreId (set_timers f tasks s) = sy_backgroundCoreId s.
Proof.
  intros Hwf Hf. revert s Hwf. induction tasks as [|[tid|] tasks IH]; intros s Hwf; simpl; [done| |by apply IH].
  assert (Hwf' : sys_wf env (put_timer tid (f (task_timer tid s)) s)).
  { apply put_timer_wf; [done|]. apply Hf, (wf_timers _ _ Hwf). }
  destruct (IH _ Hwf') as (? & -> & ->). done.
Qed.

(** A property [f] establishes or keeps. *)
Lemma set_timers_all f tasks s (P : TaskTimer -> Prop) tid :
  (forall t, P (f t)) -> Some tid ∈ tasks -> P (task_timer tid (set_timers f tasks s)).
Proof.
  intros Hf. assert (Hkeep : forall tasks s, P (task_timer tid s) -> P (task_timer tid (set_timers f tasks s))).
  { clear tasks s. induction tasks as [|[tid'|] tasks IH]; intros s H; simpl; [done| |by apply IH].
    apply IH. destruct (decide (tid' = tid)) as [->|Hne]; [by rewrite task_timer_put_eq|by rewrite task_timer_put_ne]. }
  revert s. induction tasks as [|tsk tasks IH]; intros s Hin; [by apply elem_of_nil in Hin|].
  apply elem_of_cons in Hin as [<-|Hin]; simpl; [|by apply IH].
  apply Hkeep. by rewrite task_timer_put_eq.
Qed.

Lemma set_timers_keep f tasks s (P : TaskTimer -> Prop) tid :
  (forall t, P t -> P (f t)) -> P (task_timer tid s) -> P (task_timer tid (set_timers f tasks s)).
Proof.
  intros Hf. revert s. induction tasks as [|[tid'|] tasks IH]; intros s H; simpl; [done| |by apply IH].
  apply IH. destruct (decide (tid' = tid)) as [->|Hne].
  - rewrite task_timer_put_eq. auto.
  - by rewrite task_timer_put_ne.
Qed.

Lemma timed_tasks_topology s s' : topology s' = topology s -> timed_tasks s' = timed_tasks s.
Proof. unfold topology, timed_tasks, tasks_of. intros H. inversion H as [[H1 H2 H3 H4 H5]]. by rewrite H1, H2, H3. Qed.

(** The two propagation steps. *)
Lemma propagate_clock_ok s :
  sys_wf env s ->
  sys_wf env (propagate_clock env s) /\ topology (propagate_clock env s) = topology s /\
  sy_backgroundCoreId (propagate_clock env s) = sy_backgroundCoreId s /\
  (forall tid, Some tid ∈ timed_tasks s -> tt_clocked (task_timer tid (propagate_clock env s)) = true).
Proof.
  intros Hwf. unfold propagate_clock, read_clock. cbv zeta. set (s1 := set_timer _ _).
  assert (Hwf1 : sys_wf env s1).
  { destruct (read_clock_ok env s Hwf) as [H _ _ _]. unfold s1. clear s1. revert H. unfold read_clock. simpl snd.
    intros H. by destruct H; split. }
  assert (Ht1 : topology s1 = topology s) by done.
  assert (Hb1 : sy_backgroundCoreId s1 = sy_backgroundCoreId s) by done.
  clearbody s1. unfold each_timer. fold (set_timers (setClockSource true) (timed_tasks s1) s1).
  destruct (set_timers_ok (setClockSource true) (timed_tasks s1) s1) as (H1 & H2 & H3); [done|done|].
  split; [done|]. split; [congruence|]. split; [congruence|]. intros tid Hin.
  apply (set_timers_all _ _ _ (fun t => tt_clocked t = true)); [done|].
  by rewrite (timed_tasks_topology s s1 Ht1).
Qed.

Lemma set_windows_wf q h s : sys_wf env s -> sys_wf env (set_queueMonitor q (set_schedulerHealth h s)).
Proof. intros Hwf. destruct Hwf; split; auto. by apply set_health_ok. Qed.

Lemma propagate_window_ok s :
  sys_wf env s ->
  sys_wf env (propagate_window env s) /\ topology (propagate_window env s) = topology s /\
  sy_backgroundCoreId (propagate_window env s) = sy_backgroundCoreId s /\
  (forall tid, Some tid ∈ timed_tasks s ->
    tt_windowUs (task_timer tid (propagate_window env s)) = kMetricsWindowUs env) /\
  (forall tid, tt_clocked (task_timer tid s) = true ->
    tt_clocked (task_timer tid (propagate_window env s)) = true).
Proof.
  intros Hwf. unfold propagate_window, each_timer. set (f := setMetricsWindowUs (kMetricsWindowUs env)).
  fold (set_timers f (timed_tasks s) s).
  destruct (set_timers_ok f (timed_tasks s) s) as (H1 & H2 & H3); [done|done|].
  pose proof (fun tid => set_timers_all f (timed_tasks s) s
    (fun t => tt_windowUs t = kMetricsWindowUs env) tid (fun _ => eq_refl)) as Hall.
  pose proof (fun tid => set_timers_keep f (timed_tasks s) s (fun t => tt_clocked t = true) tid (fun _ H => H)) as Hkeep.
  revert H1 H2 H3 Hall Hkeep. generalize (set_timers f (timed_tasks s) s) as s1. intros s1 H1 H2 H3 Hall Hkeep.
  split; [by apply set_windows_wf|]. split; [exact H2|]. split; [exact H3|]. split; [exact Hall|exact Hkeep].
Qed.

(** What a successful build leaves. *)
Record configured (b : SystemBuilder) s : Prop := {
  cf_state : sy_kernelState s = CONFIGURED;
  cf_built : sy_built s = true;
  cf_window : forall tid, Some tid ∈ timed_tasks s -> tt_windowUs (task_timer tid s) = kMetricsWindowUs env;
  cf_clock : m_clockSource b = true ->
    forall tid, Some tid ∈ timed_tasks s -> tt_clocked (task_timer tid s) = true;
}.

Lemma collect_tasks_ok s :
  sys_wf env s ->
  sys_wf env (collect_tasks env s) /\ topology (collect_tasks env s) = topology s /\
  sy_backgroundCoreId (collect_tasks env s) = sy_backgroundCoreId s.
Proof. intros Hwf. split; [|done]. by destruct Hwf; split. Qed.

Lemma set_built_configured b s :
  sys_wf env s -> sy_kernelState s = UNCONFIGURED ->
  (forall tid, Some tid ∈ timed_tasks s -> tt_windowUs (task_timer tid s) = kMetricsWindowUs env) ->
  (m_clockSource b = true -> forall tid, Some tid ∈ timed_tasks s -> tt_clocked (task_timer tid s) = true) ->
  exists s', ('(_, s) ← transitionTo CONFIGURED (set_built true s); Some s) = Some s' /\ sys_wf env s' /\
    configured b s' /\ sy_cores s' = sy_cores s /\ sy_backgroundTasks s' = sy_backgroundTasks s /\
    sy_backgroundTaskCount s' = sy_backgroundTaskCount s /\ sy_backgroundCoreId s' = sy_backgroundCoreId s.
Proof.
  intros Hwf Hk Hw Hc. rewrite transition_valid by (by simpl; rewrite Hk). cbn [mbind option_bind].
  eexists. split; [done|]. split; [by destruct Hwf; split|]. split; [by split|done].
Qed.

Lemma finish_build_ok b s :
  sys_wf env s -> sy_kernelState s = UNCONFIGURED ->
  exists s', finish_build env b s = Some s' /\ sys_wf env s' /\ configured b s' /\
    sy_cores s' = sy_cores s /\ sy_backgroundTasks s' = sy_backgroundTasks s /\
    sy_backgroundTaskCount s' = sy_backgroundTaskCount s /\ sy_backgroundCoreId s' = sy_backgroundCoreId s.
Proof.
  intros Hwf Hk. unfold finish_build. cbv zeta.
  assert (H1 : sys_wf env (if m_app b then collect_tasks env s else s) /\
    topology (if m_app b then collect_tasks env s else s) = topology s /\
    sy_backgroundCoreId (if m_app b then collect_tasks env s else s) = sy_backgroundCoreId s)
    by (destruct (m_app b); [by apply collect_tasks_ok|done]).
  revert H1. generalize (if m_app b then collect_tasks env s else s) as s1. intros s1 (Hwf1 & Ht1 & Hb1).
  assert (H2 : let s2 := if m_clockSource b then propagate_clock env s1 else s1 in
    sys_wf env s2 /\ topology s2 = topology s1 /\ sy_backgroundCoreId s2 = sy_backgroundCoreId s1 /\
    (m_clockSource b = true -> forall tid, Some tid ∈ timed_tasks s1 -> tt_clocked (task_timer tid s2) = true)).
  { cbv zeta. destruct (m_clockSource b); [|by split_and!].
    destruct (propagate_clock_ok s1 Hwf1) as (? & ? & ? & ?). by split_and!. }
  revert H2. cbv zeta. generalize (if m_clockSource b then propagate_clock env s1 else s1) as s2.
  intros s2 (Hwf2 & Ht2 & Hb2 & Hc2).
  destruct (propagate_window_ok s2 Hwf2) as (Hwf3 & Ht3 & Hb3 & Hw3 & Hk3).
  revert Hwf3 Ht3 Hb3 Hw3 Hk3. generalize (propagate_window env s2) as s3. intros s3 Hwf3 Ht3 Hb3 Hw3 Hk3.
  assert (Ht : topology s3 = topology s) by congruence. inversion Ht as [[E1 E2 E3 E4 E5]].
  destruct (set_built_configured b s3 Hwf3) as (s' & -> & Hwf' & Hcf & F1 & F2 & F3 & F4).
  - congruence.
  - intros tid. rewrite (timed_tasks_topology s2 s3 Ht3). auto.
  - intros Hsrc tid. rewrite (timed_tasks_topology s2 s3 Ht3), (timed_tasks_topology s1 s2 Ht2). auto.
  - exists s'. split_and!; [done..|congruence|congruence|congruence|congruence].
Qed.

(** A core of the built system, [pre] being the kernel's tasks. *)
Definition built_from (pre : nat -> list (option nat)) s s' : Prop :=
  length (sy_cores s') = length (sy_cores s) /\
  forall c core, sy_cores s !! c = Some core ->
    exists core', sy_cores s' !! c = Some core' /\ core_wf core' /\
      registered core' = stable_sort env (pre c ++ registered core) /\
      cd_mode core' = cd_mode core /\ cd_crunchTask core' = cd_crunchTask core.

Lemma valid_topology_checks cores :
  valid_topology cores <->
  existsb isActive cores = true /\
  any_task (period_too_short env) (mjoin (registered <$> cores)) = false /\
  has_duplicate (mjoin (registered <$> cores)) = false /\
  validate_crunch env 0 cores = BuildOk /\
  any_task (fun tid => negb (td_validateDependencies (env_desc env tid))) (mjoin (registered <$> cores)) = false.
Proof.
  rewrite existsb_exists, !any_task_false, has_duplicate_spec, validate_crunch_spec. unfold period_too_short.
  split.
  - intros [[core [Hin Ha]] Hp Hd Hc Hv]. split_and!; [exists core; by rewrite <- list_elem_of_In| |done|done|].
    + intros tid Htid. apply andb_false_iff. destruct (td_isScheduled (env_desc env tid)) eqn:E; [right|by left].
      apply bool_decide_false. by apply Hp.
    + intros tid Htid. by rewrite Hv.
  - intros ([core [Hin Ha]] & Hp & Hd & Hc & Hv). split; [exists core; by rewrite list_elem_of_In| |done|done|].
    + intros tid Htid E. specialize (Hp tid Htid). rewrite E in Hp. simpl in Hp.
      by apply bool_decide_eq_false in Hp.
    + intros tid Htid. specialize (Hv tid Htid). by apply negb_false_iff in Hv.
Qed.

(** A check that fails: the result, and what the failed build leaves. *)
Definition rejected (r : BuildResult) s s' : Prop :=
  r <> BuildOk /\ keeps env s s'.

(** The checks, on a sorted system. *)
Lemma checks_ok b s :
  sys_wf env s -> sy_kernelState s = UNCONFIGURED ->
  exists r s', check_and_finish env b s = Some (r, s') /\
    (r = BuildOk <-> valid_topology (sy_cores s)) /\
    (rejected r s s' \/
     r = BuildOk /\ sys_wf env s' /\ configured b s' /\ sy_cores s' = sy_cores s /\
     sy_backgroundTasks s' = sy_backgroundTasks s /\
     sy_backgroundTaskCount s' = sy_backgroundTaskCount s /\ sy_backgroundCoreId s' = sy_backgroundCoreId s).
Proof.
  intros Hwf Hk. pose proof (keeps_refl env s Hwf) as Hrefl.
  assert (Hfail : forall r s1 (P : Prop), keeps env s s1 -> r <> BuildOk -> ~ P -> exists r' s',
    Some (r, s1) = Some (r', s') /\ (r' = BuildOk <-> P) /\ (rejected r' s s' \/
     r' = BuildOk /\ sys_wf env s' /\ configured b s' /\ sy_cores s' = sy_cores s /\
     sy_backgroundTasks s' = sy_backgroundTasks s /\
     sy_backgroundTaskCount s' = sy_backgroundTaskCount s /\ sy_backgroundCoreId s' = sy_backgroundCoreId s)).
  { intros r s1 P Hks Hr HP. exists r, s1. split; [done|]. split; [by split|]. by left. }
  setoid_rewrite valid_topology_checks. unfold check_and_finish, validateSchedulingConstraints.
  fold (tasks_of s).
  destruct (existsb isActive (sy_cores s)); cbn [negb]; [|apply Hfail; intuition done].
  destruct (any_task (period_too_short env) (tasks_of s)); cbn [mbind option_bind].
  { rewrite decide_False by done. apply Hfail; intuition done. }
  destruct (has_duplicate (tasks_of s)); cbn [mbind option_bind].
  { rewrite decide_False by done. apply Hfail; intuition done. }
  destruct (warn_utilization_ok (sy_cores s) s Hwf) as (s1 & -> & Hk1). cbn [mbind option_bind].
  rewrite decide_True by done.
  assert (Hc : validateCrunchConstraints env s1 = validate_crunch env 0 (sy_cores s))
    by (unfold validateCrunchConstraints; by rewrite (static_cores _ _ (k_static _ _ _ Hk1))).
  assert (Hd : validateTaskDependencies env s1 = validateTaskDependencies env s)
    by (unfold validateTaskDependencies, tasks_of; by rewrite (static_cores _ _ (k_static _ _ _ Hk1))).
  rewrite Hc, Hd. destruct (decide (validate_crunch env 0 (sy_cores s) = BuildOk)) as [E|E].
  2: { apply Hfail; [done|done|]. tauto. }
  unfold validateTaskDependencies. destruct (any_task _ (tasks_of s)) eqn:Ed.
  { rewrite decide_False by done. apply Hfail; [done|done|]. intuition done. }
  rewrite decide_True by done. destruct (static_init _ _ (k_static _ _ _ Hk1)) as (F1 & F2 & F3 & F4 & F5 & F6 & F7).
  destruct (finish_build_ok b s1 (k_wf _ _ _ Hk1)) as (s2 & -> & G1 & G2 & G3 & G4 & G5 & G6); [congruence|].
  cbn [mbind option_bind]. exists BuildOk, s2. split; [done|]. split; [done|]. right.
  split_and!; [done..|congruence|congruence|congruence|congruence].
Qed.

(** What the registration step of [build] leaves, with an application or without. *)
Definition registered_kernel (b : SystemBuilder) (pre : nat -> list (option nat)) s s' : Prop :=
  if m_app b then kernel_added pre s s' else s' = s /\ forall c, pre c = [].

Lemma registered_wf b pre s s' : registered_kernel b pre s s' -> sys_wf env s -> sys_wf env s'.
Proof. unfold registered_kernel. destruct (m_app b); [by intros []|by intros [-> _]]. Qed.

Lemma registered_cores b pre s s' : registered_kernel b pre s s' -> sys_wf env s -> cores_grown pre s s'.
Proof.
  unfold registered_kernel. destruct (m_app b); [by intros []|]. intros [-> Hpre] Hwf. split; [done|].
  intros c core Hc. exists core. split; [done|]. rewrite Hpre. apply grown_refl.
  destruct (wf_cores _ _ Hwf) as [_ Hcores]. by eapply Forall_lookup_1.
Qed.

Lemma registered_state b pre s s' :
  registered_kernel b pre s s' -> sy_kernelState s' = sy_kernelState s /\ sy_built s' = sy_built s.
Proof. unfold registered_kernel. destruct (m_app b); [by intros []|by intros [-> _]]. Qed.

Lemma built_from_sorted pre s s1 cores s' :
  cores_grown pre s s1 -> Forall2 sorted_from (sy_cores s1) cores -> sy_cores s' = cores ->
  built_from pre s s'.
Proof.
  intros [Hlen Hg] Hs Hc. split; [rewrite Hc, <- Hlen; symmetry; by eapply Forall2_length|].
  intros c core Hcore. destruct (Hg c core Hcore) as (core1 & H1 & _ & Hr & Hm & Hx).
  destruct (Forall2_lookup_l _ _ _ _ _ Hs H1) as (core2 & H2 & Hwf2 & Hr2 & _ & Hm2 & Hx2).
  exists core2. rewrite Hc. split; [done|]. split; [done|]. split; [by rewrite Hr2, Hr|]. split; congruence.
Qed.

(** The whole of [build]. *)
Record built_result (b : SystemBuilder) (r : BuildResult) (pre : nat -> list (option nat)) s s' : Prop := {
  br_wf : sys_wf env s';
  br_cores : built_from pre s s';
  br_ok : r = BuildOk <-> valid_topology (sy_cores s');
  br_state : if decide (r = BuildOk) then configured b s'
             else sy_kernelState s' = UNCONFIGURED /\ sy_built s' = false;
  br_kernel : exists s1, registered_kernel b pre s s1 /\
    sy_backgroundTasks s' = sy_backgroundTasks s1 /\
    sy_backgroundTaskCount s' = sy_backgroundTaskCount s1 /\
    sy_backgroundCoreId s' = sy_backgroundCoreId s1;
  br_only : forall c t, t ∈ pre c -> t = Some controlTask \/ t = Some commsTask;
  br_pre : roomy s -> forall c, pre c = if m_app b then kernel_tasks (core1_crunch s) c else [];
}.

Lemma build_ok b s :
  sys_wf env s -> 0 < kCoreCount env -> sy_kernelState s = UNCONFIGURED -> sy_built s = false ->
  (m_app b = true -> sy_backgroundTaskCount s < length (sy_backgroundTasks s)) ->
  exists r s' pre, build env controlTask commsTask diagsTask b s = Some (r, s') /\ built_result b r pre s s'.
Proof.
  intros Hwf Hpos Hk Hb Hroom. unfold build. rewrite Hb.
  assert (H1 : exists s1 pre, (if m_app b then create_kernel_tasks env controlTask commsTask diagsTask b s
      else Some s) = Some s1 /\ registered_kernel b pre s s1 /\
      (forall c t, t ∈ pre c -> t = Some controlTask \/ t = Some commsTask) /\
      (roomy s -> forall c, pre c = if m_app b then kernel_tasks (core1_crunch s) c else [])).
  { unfold registered_kernel. destruct (m_app b).
    - destruct (create_kernel_tasks_ok b s Hwf Hpos (Hroom eq_refl)) as (s1 & pre & H & Hka & Hin & Hctl).
      exists s1, pre. by split_and!.
    - exists s, (fun _ => []). split_and!; [done..| |done]. by intros c t ?%elem_of_nil. }
  destruct H1 as (s1 & pre & -> & Hreg & Hin & Hctl). cbn [mbind option_bind].
  pose proof (registered_wf _ _ _ _ Hreg Hwf) as Hwf1.
  destruct (registered_state _ _ _ _ Hreg) as [Hk1 Hb1].
  destruct (sort_ok s1 Hwf1) as (cores & -> & Hwf2 & Hsorted). cbn [mbind option_bind].
  destruct (checks_ok b (set_cores cores s1) Hwf2) as (r & s' & -> & Hiff & Hcase); [simpl; congruence|].
  exists r, s', pre. split; [done|].
  assert (Hsame : sy_cores s' = cores /\ sy_backgroundTasks s' = sy_backgroundTasks s1 /\
    sy_backgroundTaskCount s' = sy_backgroundTaskCount s1 /\ sy_backgroundCoreId s' = sy_backgroundCoreId s1).
  { destruct Hcase as [[_ [_ Hst _ _]]|(_ & _ & _ & ?)]; [|done].
    by destruct (static_init _ _ Hst) as (? & ? & ? & ? & ? & _). }
  destruct Hsame as (Hcs & Hbg). split; [| | | |by exists s1|done|done].
  - destruct Hcase as [[_ [? _ _ _]]|(_ & ? & _)]; done.
  - eapply built_from_sorted; [by eapply registered_cores|done|done].
  - by rewrite Hcs.
  - destruct Hcase as [[Hr [_ Hst _ _]]|(-> & _ & Hcf & _)]; [|by rewrite decide_True].
    rewrite decide_False by done. destruct (static_init _ _ Hst) as (_ & _ & _ & F4 & _ & _ & F7).
    simpl in F4, F7. split; congruence.
Qed.
End proofs.

(** ** What follows for the background core and for a second build *)

Lemma built_core {W} (env : Env W) r pre (b : SystemBuilder) ct cm dg (s s' : System W) c core :
  built_result env ct cm dg b r pre s s' -> sy_cores s !! c = Some core ->
  exists core', sy_cores s' !! c = Some core' /\ core_wf core' /\
    registered core' ≡ₚ pre c ++ registered core /\ cd_mode core' = cd_mode core /\
    cd_crunchTask core' = cd_crunchTask core.
Proof.
  intros Hbr Hc. destruct (br_cores _ _ _ _ _ _ _ _ _ Hbr) as [_ H].
  destruct (H c core Hc) as (core' & Hc' & Hwf & Hr & Hm). exists core'. split_and!; [done..| | |];
    [rewrite Hr; apply stable_sort_perm|apply Hm|apply Hm].
Qed.

Lemma topology_nodup (cores : list CoreData) c core :
  NoDup (omap id (mjoin (registered <$> cores))) -> cores !! c = Some core -> NoDup (omap id (registered core)).
Proof.
  intros Hnd Hc. rewrite <- (take_drop_middle cores c core Hc), fmap_app, join_app, omap_app in Hnd.
  apply NoDup_app in Hnd as (_ & _ & Hnd). rewrite fmap_cons in Hnd. simpl in Hnd. rewrite omap_app in Hnd.
  by apply NoDup_app in Hnd as (Hnd & _).
Qed.

(** A core with the same task once more fails the check. *)
Lemma topology_twice {W} (env : Env W) tid pre rest (cores : list CoreData) c core :
  cores !! c = Some core -> registered core ≡ₚ pre ++ rest -> Some tid ∈ pre -> Some tid ∈ rest ->
  ~ valid_topology env cores.
Proof.
  intros Hc Hr H1 H2 [_ _ Hnd _ _]. pose proof (topology_nodup _ _ _ Hnd Hc) as Hn.
  rewrite (omap_Permutation id _ _ Hr), omap_app in Hn. apply NoDup_app in Hn as (_ & Hdis & _).
  apply (Hdis tid); by apply elem_of_ids.
Qed.

Lemma control_on_core0 {W} (env : Env W) ct cm crunch1 : Some ct ∈ kernel_tasks env ct cm crunch1 0.
Proof. unfold kernel_tasks. destruct (kMultiCore env), crunch1; set_solver. Qed.

(** The background core, when the last active core is in CRUNCH mode. *)
Lemma background_core_crunch {W : Type} (env : Env W) ct cm dg r pre b (s s' : System W) k core :
  built_result env ct cm dg b r pre s s' -> m_app b = true -> roomy s -> 2 <= kCoreCount env ->
  length (sy_cores s) = kCoreCount env ->
  sy_cores s !! k = Some core -> k <> 0 -> is_Some (cd_crunchTask core) ->
  (k = 1 -> cd_mode core = CRUNCH) ->
  (forall c core', k < c -> sy_cores s !! c = Some core' -> isActive core' = false) ->
  sy_backgroundCoreId s' = k.
Proof.
  intros [_ _ _ _ (s1 & Hreg & _ & _ & ->) _ Hpre] Happ Hroom Hmulti Hlen Hcore Hk0 Htask Hk1 Habove.
  specialize (Hpre Hroom). unfold registered_kernel in Hreg. rewrite Happ in Hreg, Hpre.
  destruct Hreg as [_ [_ Hg] _ _ (Hlt & Hact & Hmax) _].
  destruct (Hg k core Hcore) as (core1 & Hcore1 & _ & _ & _ & Hx1).
  assert (Hle : k <= sy_backgroundCoreId s1).
  { eapply Hmax; [done|exact Hcore1|]. unfold isActive. rewrite Hx1, (bool_decide_true (is_Some _)) by done.
    apply orb_true_r. }
  destruct (decide (k = sy_backgroundCoreId s1)) as [|Hne]; [done|exfalso].
  destruct Hact as [|(core2 & Hcore2 & Hact)]; [lia|].
  destruct (lookup_lt_is_Some_2 (sy_cores s) (sy_backgroundCoreId s1)) as [core3 Hcore3]; [lia|].
  assert (Hlt' : k < sy_backgroundCoreId s1) by lia. pose proof (Habove _ _ Hlt' Hcore3) as Hin.
  destruct (Hg _ _ Hcore3) as (core4 & Hcore4 & Hwf4 & Hr & _ & Hx4). simplify_eq.
  destruct (sy_backgroundCoreId s1) as [|[|c]] eqn:Ec; [lia|lia|].
  rewrite Hpre in Hr. simpl in Hr. unfold isActive in Hact, Hin. rewrite Hx4 in Hact.
  apply orb_false_iff in Hin as [Hin Hnone]. rewrite Hnone, orb_false_r in Hact.
  apply bool_decide_eq_false in Hin. apply bool_decide_eq_true in Hact.
  apply (f_equal length) in Hr. rewrite registered_length in Hr by done.
  unfold registered in Hr. rewrite length_take in Hr. lia.
Qed.

(** ** Properties *)

(** C11 [build] keeps what the builder promises: on an unconfigured system with room for the
    kernel's tasks it returns and stays inside its buffers, and it succeeds exactly when the
    topology it leaves satisfies every rule that the code checks: a task somewhere, no positive
    period below the minimum, no task twice, the rules for CRUNCH cores, every task's own
    dependency check. A scheduled task with period 0 passes, although the documentation of the
    check asks every period to be at least the minimum. Each core
    then has its registered tasks and the kernel's, in priority order, and the diagnostics
    task is in the background ring; after a success the system is CONFIGURED, every
    registered task has the metrics window and, with a clock, the clock; after a failure the
    kernel is still UNCONFIGURED and unbuilt. *)
Theorem build_valid {W : Type} (env : Env W) (ct cm dg : nat) (b : SystemBuilder) (s : System W) :
  sys_wf env s -> 0 < kCoreCount env -> sy_kernelState s = UNCONFIGURED -> sy_built s = false ->
  roomy s -> sy_backgroundTaskCount s < length (sy_backgroundTasks s) ->
  exists r s', build env ct cm dg b s = Some (r, s') /\ sys_wf env s' /\
    (r = BuildOk <-> valid_topology env (sy_cores s')) /\
    (forall c core, sy_cores s !! c = Some core -> exists core', sy_cores s' !! c = Some core' /\
      registered core' ≡ₚ
        (if m_app b then kernel_tasks env ct cm (core1_crunch s) c else []) ++ registered core /\
      StronglySorted (by_priority env) (registered core') /\
      cd_mode core' = cd_mode core /\ cd_crunchTask core' = cd_crunchTask core) /\
    (if m_app b
     then sy_backgroundTasks s' = <[sy_backgroundTaskCount s := Some dg]> (sy_backgroundTasks s) /\
          sy_backgroundTaskCount s' = S (sy_backgroundTaskCount s)
     else sy_backgroundTasks s' = sy_backgroundTasks s /\
          sy_backgroundTaskCount s' = sy_backgroundTaskCount s) /\
    (if decide (r = BuildOk) then configured env b s'
     else sy_kernelState s' = UNCONFIGURED /\ sy_built s' = false).
Proof.
  intros Hwf Hpos Hk Hb Hroom Hring.
  destruct (build_ok env ct cm dg b s Hwf Hpos Hk Hb (fun _ => Hring))
    as (r & s' & pre & E & [Hwf' [_ Hcores] Hiff Hstate (s1 & Hreg & B1 & B2 & _) _ Hpre]).
  exists r, s'. do 3 (split; [done|]). split; [|split; [|done]].
  - intros c core Hc. destruct (Hcores c core Hc) as (core' & Hc' & _ & Hr & Hm & Hx).
    exists core'. rewrite Hpre in Hr by done. split; [done|].
    split; [rewrite Hr; apply stable_sort_perm|]. split; [rewrite Hr; apply stable_sort_sorted|done].
  - rewrite B1, B2. unfold registered_kernel in Hreg. destruct (m_app b).
    + by destruct Hreg.
    + destruct Hreg as [-> _]. done.
Qed.

(** C35 The tasks of each core are sorted by effective priority: the sort returns and stays
    inside the arrays, and each core has the tasks it had, in ascending order of priority,
    those of equal priority in the order of their registration. *)
Theorem sort_stable {W : Type} (env : Env W) (s : System W) :
  sys_wf env s ->
  exists cores, sortTasksByPriority env s = Some (set_cores cores s) /\ length cores = length (sy_cores s) /\
    forall c core, sy_cores s !! c = Some core -> exists core', cores !! c = Some core' /\
      registered core' ≡ₚ registered core /\ StronglySorted (by_priority env) (registered core') /\
      (forall p, filter (fun t => effectivePriority env t = p) (registered core') =
                 filter (fun t => effectivePriority env t = p) (registered core)).
Proof.
  intros Hwf. destruct (sort_ok env s Hwf) as (cores & E & _ & Hs). exists cores. split; [done|].
  split; [symmetry; by eapply Forall2_length|]. intros c core Hc.
  destruct (Forall2_lookup_l _ _ _ _ _ Hs Hc) as (core' & Hc' & _ & Hr & _). exists core'.
  split; [done|]. rewrite Hr.
  split; [apply stable_sort_perm|]. split; [apply stable_sort_sorted|intros p; apply stable_sort_stable].
Qed.

(** A failed [build] cannot be repeated: its registrations of the kernel's tasks stay, so
    that every later [build] with an application, whatever has been fixed in between, finds
    the control task twice and fails, although the builder reports itself unbuilt. *)
Theorem build_retry_fails {W : Type} (env env2 : Env W) (ct cm dg : nat) (b b2 : SystemBuilder)
    (s s1 : System W) (r : BuildResult) :
  sys_wf env s -> 0 < kCoreCount env -> sy_kernelState s = UNCONFIGURED -> sy_built s = false ->
  (forall c core, c < 2 -> sy_cores s !! c = Some core -> cd_taskCount core + 4 <= kMaxTasksPerCore) ->
  sy_backgroundTaskCount s + 2 <= length (sy_backgroundTasks s) ->
  m_app b = true -> m_app b2 = true ->
  build env ct cm dg b s = Some (r, s1) -> r <> BuildOk -> sys_wf env2 s1 ->
  exists r2 s2, build env2 ct cm dg b2 s1 = Some (r2, s2) /\ r2 <> BuildOk.
Proof.
  intros Hwf Hpos Hk Hb Hroom Hring Happ Happ2 E Hr Hwf2.
  destruct (build_ok env ct cm dg b s Hwf Hpos Hk Hb) as (r' & s' & pre & E' & Hbr); [intros _; lia|].
  rewrite E in E'. simplify_eq. pose proof Hbr as [_ [Hlen _] _ Hstate (s1 & Hreg & B1 & B2 & _) _ Hpre].
  rewrite decide_False in Hstate by done. destruct Hstate as [Hk1 Hb1].
  assert (Hpos2 : 0 < kCoreCount env2).
  { destruct (wf_cores _ _ Hwf), (wf_cores _ _ Hwf2). lia. }
  unfold registered_kernel in Hreg. rewrite Happ in Hreg, Hpre. destruct Hreg as [_ _ A1 A2 _ _].
  destruct (build_ok env2 ct cm dg b2 s' Hwf2 Hpos2 Hk1 Hb1) as (r2 & s2 & pre2 & E2 & Hbr2).
  { intros _. rewrite B1, B2, A1, A2, length_insert. lia. }
  exists r2, s2. split; [done|]. rewrite (br_ok _ _ _ _ _ _ _ _ _ Hbr2).
  specialize (Hpre ltac:(intros c core H1 H2; specialize (Hroom c core H1 H2); lia)).
  destruct (lookup_lt_is_Some_2 (sy_cores s) 0) as [core Hcore]; [destruct (wf_cores _ _ Hwf); lia|].
  destruct (built_core _ _ _ _ _ _ _ _ _ _ _ Hbr Hcore) as (core' & Hcore' & Hcwf' & Hr' & _).
  destruct (built_core _ _ _ _ _ _ _ _ _ _ _ Hbr2 Hcore') as (core2 & Hcore2 & _ & Hr2 & _).
  eapply (topology_twice env2 ct); [exact Hcore2|exact Hr2| |].
  - rewrite (br_pre _ _ _ _ _ _ _ _ _ Hbr2), Happ2; [apply control_on_core0|].
    intros c co Hc Hco. destruct (lookup_lt_is_Some_2 (sy_cores s) c) as [co0 Hco0];
      [rewrite <- Hlen; by eapply lookup_lt_Some|].
    destruct (built_core _ _ _ _ _ _ _ _ _ _ _ Hbr Hco0) as (co1 & Hco1 & Hw1 & Hr1 & _). simplify_eq.
    apply Permutation_length in Hr1. rewrite length_app, Hpre, !registered_length in Hr1;
      [|by eapply Forall_lookup_1; [apply (wf_cores _ _ Hwf)|]|done].
    specialize (Hroom c co0 Hc Hco0). unfold kernel_tasks in Hr1.
    destruct c as [|[|c]], (kMultiCore env), (core1_crunch s); simpl in Hr1; lia.
  - rewrite Hr', Hpre. apply elem_of_app. left. apply control_on_core0.
Qed.

(** When the last active core is a CRUNCH core, [build] makes it the background core,
    which only a flat loop could serve: the build succeeds, the diagnostics task is in the
    ring, and yet no [run] of any core, for as long as it may last, dispatches a background
    task. *)
Theorem background_on_crunch_core {W : Type} (env : Env W) (ct cm dg k tid : nat) (b : SystemBuilder)
    (s s1 : System W) (core : CoreData) :
  env_ok env -> sys_wf env s -> 2 <= kCoreCount env -> sy_kernelState s = UNCONFIGURED ->
  sy_built s = false -> roomy s -> sy_backgroundTaskCount s < length (sy_backgroundTasks s) ->
  m_app b = true -> build env ct cm dg b s = Some (BuildOk, s1) ->
  sy_cores s !! k = Some core -> cd_mode core = CRUNCH -> cd_crunchTask core = Some tid ->
  (forall c core', k < c -> sy_cores s !! c = Some core' -> isActive core' = false) ->
  sy_backgroundTasks s1 !! sy_backgroundTaskCount s = Some (Some dg) /\
  sy_backgroundCoreId s1 = k /\
  forall fuel coreId s2 initialized, sys_wf env s2 -> sy_built s2 = true -> coreId < kCoreCount env ->
    sy_cores s2 = sy_cores s1 -> sy_backgroundCoreId s2 = sy_backgroundCoreId s1 ->
    sy_coreInitialized s2 !! coreId = Some initialized ->
    sy_kernelState s2 = RUNNING \/ (initialized = false /\ sy_kernelState s2 = CONFIGURED) ->
    (Z.of_nat fuel < 2 ^ 32)%Z ->
    exists fin s3 calls, sys_run env fuel coreId s2 = Some (fin, s3) /\
      sy_trace s3 = sy_trace s2 ++ calls /\ backgrounds_of calls = [].
Proof.
  intros Henv Hwf Hmulti Hk Hb Hroom Hring Happ E Hcore Hmode Htask Habove.
  destruct (build_ok env ct cm dg b s Hwf ltac:(lia) Hk Hb (fun _ => Hring)) as (r & s' & pre & E' & Hbr).
  rewrite E in E'. simplify_eq. destruct (wf_cores _ _ Hwf) as [Hlen _].
  destruct (built_core _ _ _ _ _ _ _ _ _ _ _ Hbr Hcore) as (core' & Hcore' & _ & _ & Hm & Hx).
  pose proof (vt_crunch _ _ (proj1 (br_ok _ _ _ _ _ _ _ _ _ Hbr) eq_refl) k core' Hcore') as Hrules.
  destruct Hrules as (Hk0 & _); [congruence|].
  assert (Hbg : sy_backgroundCoreId s' = k).
  { by eapply background_core_crunch. }
  split; [|split; [done|]].
  { destruct Hbr as [_ _ _ _ (s1 & Hreg & -> & _ & _) _ _]. unfold registered_kernel in Hreg.
    rewrite Happ in Hreg. destruct Hreg as [_ _ -> _ _ _]. by apply list_lookup_insert_eq. }
  intros fuel coreId s2 initialized Hwf2 Hb2 Hc Hcores Hbg2 Hi Hk2 Hf.
  destruct (lookup_lt_is_Some_2 (sy_cores s2) coreId) as [core2 Hcore2];
    [destruct (wf_cores _ _ Hwf2); lia|].
  destruct (sys_run_ok env Henv fuel coreId core2 initialized s2) as
    (fin & s3 & calls & E3 & _ & _ & Ht & Hno); [done..|].
  exists fin, s3, (startup_calls coreId core2 initialized s2 ++ calls).
  split; [done|]. split; [done|]. rewrite backgrounds_of_app, startup_calls_background, Hno; [done|].
  destruct (decide (coreId = k)) as [->|Hne]; [right|left; congruence].
  rewrite Hcores in Hcore2. simplify_eq. split; congruence.
Qed.

(** ** A concrete topology, for the witnesses *)

(** Two cores. Tasks 0 and 1 are the kernel's (priority 0), 2 its diagnostics task; task 3
    is scheduled every 500 microseconds, task 4 every 50, task 5 is a crunch task;
    [deps] answers for task 3's dependencies. *)
Definition builder_env (deps : bool) : Env unit := {|
  kCoreCount := 2; kQueueCapacity := 4; kControlBudgetUs := 10000; kMaxBackgroundTasks := 4;
  kCrunchMaxOverruns := 2; kMinSchedulePeriodUs := 10; kMetricsWindowUs := 60000000;
  env_desc tid :=
    match tid with
    | 0 | 1 => Desc true false 1000 0 0 0 0 0 true
    | 3 => Desc true true 500 0 255 0 0 0 deps
    | 4 => Desc true true 50 0 255 0 0 0 true
    | _ => Desc false false 0 0 255 1000 100 50 true
    end;
  env_init _ h := h; env_tick _ _ h := h; env_onOverrun _ _ _ h := h; env_crunch _ _ h := h;
  env_onCrunchAbort _ h := h; env_stopCondition _ h := (false, h); env_watchdogKick h := h;
  env_peers _ h := h; env_clock n := Z.of_nat n; env_inv _ _ := True;
|}.

Definition blank (deps : bool) : System unit := boot (builder_env deps) (boot_shared (builder_env deps) tt).

Lemma blank_wf deps : sys_wf (builder_env deps) (blank deps).
Proof.
  split; try reflexivity.
  - split; [reflexivity|]. repeat constructor.
  - vm_compute. lia.
  - by left.
  - split; [reflexivity|]. repeat constructor.
  - split; [exists []; apply new_logger_holds|exists []; split; [apply new_queue_holds|done]|done..|
      exists []; apply new_telemetry_rep].
  - vm_compute. lia.
Qed.

Lemma builder_env_wf deps deps' s : sys_wf (builder_env deps) s -> sys_wf (builder_env deps') s.
Proof. intros [? ? ? ? ? ? ? [] ?]. by split. Qed.

Lemma builder_env_ok deps : env_ok (builder_env deps).
Proof. idle_env_ok. Qed.

(** Tasks 3 and 4 on core 0. *)
Definition two_tasks (deps : bool) : System unit :=
  default (blank deps)
    (s ← addScheduledTask (builder_env deps) 0 (Some 3) (blank deps);
     addScheduledTask (builder_env deps) 0 (Some 4) s).

(** Task 3 on core 0, the crunch task 5 on core 1. *)
Definition with_crunch : System unit :=
  default (blank true)
    (s ← addScheduledTask (builder_env true) 0 (Some 3) (blank true);
     setCrunchTask (builder_env true) 1 (Some 5) s).

Example build_two_tasks :
  (fun '(r, s) => (r, registered <$> sy_cores s, sy_backgroundTasks s, sy_backgroundCoreId s)) <$>
    build (builder_env true) 0 1 2 (new_builder true) (two_tasks true) =
  Some (BuildOk, [[Some 0; Some 4; Some 3]; [Some 1]], [Some 2; None; None; None], 1).
Proof. vm_compute. reflexivity. Qed.

(** A period of 0 is below the minimum of 10, and [build] succeeds. *)
Example zero_period_builds :
  let env := with_task (builder_env true) 6 (Desc true true 0 0 255 0 0 0 true) (fun h => h) (fun _ h => h) in
  (s ← addScheduledTask env 0 (Some 6) (blank true);
   '(r, s) ← build env 0 1 2 (new_builder true) s;
   Some (r, kMinSchedulePeriodUs env, bool_decide (Some 6 ∈ mjoin (registered <$> sy_cores s)))) = Some (BuildOk, 10%Z, true).
Proof. vm_compute. reflexivity. Qed.

(** The bands of the automatic
    priorities keep neighbouring periods in the order of registration. *)
Example bands_coarse (env : Env unit) :
  env_desc env 1 = Desc true true 900 0 255 0 0 0 true ->
  env_desc env 2 = Desc true true 200 0 255 0 0 0 true ->
  effectivePriority env (Some 1) = effectivePriority env (Some 2).
Proof. intros H1 H2. unfold effectivePriority. by rewrite H1, H2. Qed.

Lemma set_cores_computed deps cores :
  length cores = 2 -> Forall core_wf cores -> sys_wf (builder_env deps) (set_cores cores (blank deps)).
Proof. intros Hl Hc. exact (set_cores_wf (builder_env deps) cores (blank deps) (blank_wf deps) Hl Hc). Qed.

Lemma two_tasks_wf deps : sys_wf (builder_env deps) (two_tasks deps).
Proof. apply (set_cores_computed deps (sy_cores (two_tasks deps))); [done|]. vm_compute. repeat constructor. Qed.

Lemma with_crunch_wf : sys_wf (builder_env true) with_crunch.
Proof. apply (set_cores_computed true (sy_cores with_crunch)); [done|]. vm_compute. repeat constructor. Qed.

Lemma room_computed {W} n (s : System W) :
  forallb (fun core => bool_decide (cd_taskCount core + n <= kMaxTasksPerCore)) (sy_cores s) = true ->
  forall c core, c < 2 -> sy_cores s !! c = Some core -> cd_taskCount core + n <= kMaxTasksPerCore.
Proof.
  intros H c core _ Hc. apply list_elem_of_lookup_2 in Hc. apply list_elem_of_In in Hc.
  rewrite forallb_forall in H. specialize (H core Hc). by apply bool_decide_eq_true in H.
Qed.

(** The state after a build. *)
Definition after_build (deps : bool) (s : System unit) : System unit :=
  match build (builder_env deps) 0 1 2 (new_builder true) s with
  | Some (_, s') => s'
  | None => s
  end.

Lemma after_build_wf deps s :
  sys_wf (builder_env deps) s -> sy_kernelState s = UNCONFIGURED -> sy_built s = false ->
  sy_backgroundTaskCount s < length (sy_backgroundTasks s) ->
  sys_wf (builder_env deps) (after_build deps s).
Proof.
  intros Hwf Hk Hb Hroom. unfold after_build.
  destruct (build_ok (builder_env deps) 0 1 2 (new_builder true) s Hwf (Nat.lt_0_succ 1) Hk Hb)
    as (r & s' & pre & -> & Hbr); [done|]. apply Hbr.
Qed.

Lemma build_valid_witness :
  exists r s', build (builder_env true) 0 1 2 (new_builder true) (two_tasks true) = Some (r, s') /\
    sys_wf (builder_env true) s' /\ (r = BuildOk <-> valid_topology (builder_env true) (sy_cores s')).
Proof.
  destruct (build_valid (builder_env true) 0 1 2 (new_builder true) (two_tasks true) (two_tasks_wf true)
    (Nat.lt_0_succ 1) eq_refl eq_refl (room_computed 2 (two_tasks true) eq_refl) (Nat.lt_0_succ 3))
    as (r & s' & E & Hwf & Hiff & _).
  exists r, s'. split; [exact E|]. split; [exact Hwf|exact Hiff].
Defined.

Lemma sort_stable_witness :
  exists cores, sortTasksByPriority (builder_env true) (two_tasks true) =
      Some (set_cores cores (two_tasks true)) /\ length cores = 2 /\
    forall c core, sy_cores (two_tasks true) !! c = Some core -> exists core', cores !! c = Some core' /\
      registered core' ≡ₚ registered core /\
      StronglySorted (by_priority (builder_env true)) (registered core') /\
      (forall p, filter (fun t => effectivePriority (builder_env true) t = p) (registered core') =
                 filter (fun t => effectivePriority (builder_env true) t = p) (registered core)).
Proof. exact (sort_stable (builder_env true) (two_tasks true) (two_tasks_wf true)). Defined.

(** Task 3's dependency is missing at first; the second build sees it fixed. *)
Lemma build_retry_fails_witness :
  build (builder_env false) 0 1 2 (new_builder true) (two_tasks false) =
    Some (BuildFailed DependencyFailed, after_build false (two_tasks false)) /\
  exists r2 s2, build (builder_env true) 0 1 2 (new_builder true) (after_build false (two_tasks false)) =
      Some (r2, s2) /\ r2 <> BuildOk.
Proof.
  assert (E : build (builder_env false) 0 1 2 (new_builder true) (two_tasks false) =
    Some (BuildFailed DependencyFailed, after_build false (two_tasks false))) by (vm_compute; reflexivity).
  split; [exact E|].
  refine (build_retry_fails (builder_env false) (builder_env true) 0 1 2 (new_builder true)
    (new_builder true) (two_tasks false) (after_build false (two_tasks false)) _ (two_tasks_wf false)
    (Nat.lt_0_succ 1) eq_refl eq_refl (room_computed 4 (two_tasks false) eq_refl) _ eq_refl eq_refl E _ _);
    [vm_compute; lia|discriminate|].
  apply (builder_env_wf false).
  exact (after_build_wf false (two_tasks false) (two_tasks_wf false) eq_refl eq_refl (Nat.lt_0_succ 3)).
Defined.

Lemma background_on_crunch_core_witness :
  build (builder_env true) 0 1 2 (new_builder true) with_crunch = Some (BuildOk, after_build true with_crunch) /\
  sy_backgroundTasks (after_build true with_crunch) !! 0 = Some (Some 2) /\
  sy_backgroundCoreId (after_build true with_crunch) = 1 /\
  exists fin s3 calls, sys_run (builder_env true) 100 0 (after_build true with_crunch) = Some (fin, s3) /\
    sy_trace s3 = sy_trace (after_build true with_crunch) ++ calls /\ backgrounds_of calls = [].
Proof.
  assert (E : build (builder_env true) 0 1 2 (new_builder true) with_crunch =
    Some (BuildOk, after_build true with_crunch)) by (vm_compute; reflexivity).
  split; [exact E|].
  destruct (sy_cores with_crunch !! 1) as [core|] eqn:Hcore; [|discriminate].
  destruct (background_on_crunch_core (builder_env true) 0 1 2 1 5 (new_builder true) with_crunch
    (after_build true with_crunch) core (builder_env_ok true) with_crunch_wf (le_n 2) eq_refl eq_refl
    (room_computed 2 with_crunch eq_refl) (Nat.lt_0_succ 3) eq_refl E Hcore) as (H1 & H2 & H3).
  - vm_compute in Hcore. injection Hcore as <-. reflexivity.
  - vm_compute in Hcore. injection Hcore as <-. reflexivity.
  - intros c core' Hc Hlk. apply lookup_lt_Some in Hlk. exfalso.
    assert (Hl : length (sy_cores with_crunch) = 2) by reflexivity. lia.
  - split; [exact H1|]. split; [exact H2|].
    apply (H3 100 0 (after_build true with_crunch) false); try reflexivity.
    + exact (after_build_wf true with_crunch with_crunch_wf eq_refl eq_refl (Nat.lt_0_succ 3)).
    + vm_compute. lia.
    + right. split; reflexivity.
Defined.

(** With a full ring the diagnostics task is written behind the array. *)
Example full_ring_undefined :
  let env := builder_env true in
  (s ← addBackgroundTask env (Some 6) (two_tasks true);
   s ← addBackgroundTask env (Some 7) s;
   s ← addBackgroundTask env (Some 8) s;
   s ← addBackgroundTask env (Some 9) s;
   build env 0 1 2 (new_builder true) s) = None.
Proof. vm_compute. reflexivity. Qed.
