(* ===== verification/Safety.v ===== *)
(** * Safety: interlocks, the control task and the diagnostics task

    [logic/InterlockManager.h] with [src/logic/InterlockManager.cpp],
    [kernel/tasks/ScheduledControlTask.h], [kernel/tasks/BackgroundDiagnosticsTask.h] with
    [src/kernel/tasks/BackgroundDiagnosticsTask.cpp]. The control task is the kernel's own
    implementation of a task: it is verified against the queue's interface and put into
    [Env] in the place of the task it is. *)

From S2P Require Import Prelude Float32 Protocol Queue Metrics ErrorLog Sync Kernel Sched.

(** ** Interlocks *)

Inductive OpResult := OP_OK | OP_NULL_ARG | OP_FULL.

#[global] Instance OpResult_eq_dec : EqDecision OpResult.
Proof. solve_decision. Defined.

Definition kMaxConditions : nat := 8.

Record InterlockManager := Interlocks {
  m_conditions : list (option nat);
  m_conditionCount : nat;
  m_faultResponse : bool;
  m_softAbort : bool;
  m_hardFault : bool;
}.

Section interlocks.
(** The world the conditions observe and the fault response acts on. *)
Context {W : Type} (isSafe : nat -> W -> bool) (execute : W -> W).

Definition new_interlocks : InterlockManager :=
  Interlocks (replicate kMaxConditions None) 0 false false false.

Definition registerCondition (condition : option nat) (m : InterlockManager)
    : option (OpResult * InterlockManager) :=
  match condition with
  | None => Some (OP_NULL_ARG, m)
  | Some _ =>
      if decide (kMaxConditions <= m_conditionCount m) then Some (OP_FULL, m)
      else
        cs ← store (m_conditions m) (m_conditionCount m) condition;
        Some (OP_OK, Interlocks cs (S (m_conditionCount m)) (m_faultResponse m) (m_softAbort m) (m_hardFault m))
  end.

Definition setFaultResponse (response : bool) (m : InterlockManager) : InterlockManager :=
  Interlocks (m_conditions m) (m_conditionCount m) response (m_softAbort m) (m_hardFault m).

(** The loop of [checkAllInterlocks] from condition [i]; [n] are left. *)
Fixpoint check_from (m : InterlockManager) (i n : nat) (w : W) : option bool :=
  match n with
  | O => Some true
  | S n =>
      c ← load (m_conditions m) i;
      c ← c;
      if isSafe c w then check_from m (S i) n w else Some false
  end.

Definition checkAllInterlocks (m : InterlockManager) (w : W) : option bool :=
  check_from m 0 (m_conditionCount m) w.

Definition set_faults (soft hard : bool) (m : InterlockManager) : InterlockManager :=
  Interlocks (m_conditions m) (m_conditionCount m) (m_faultResponse m) soft hard.

Definition triggerSoftAbort (m : InterlockManager) : InterlockManager := set_faults true (m_hardFault m) m.

Definition triggerHardFault (m : InterlockManager) (w : W) : InterlockManager * W :=
  (set_faults (m_softAbort m) true m, if m_faultResponse m then execute w else w).

Definition hasSoftAbort (m : InterlockManager) : bool := m_softAbort m.
Definition isHardFaulted (m : InterlockManager) : bool := m_hardFault m.

Definition clearFault (m : InterlockManager) (w : W) : option (bool * InterlockManager) :=
  safe ← checkAllInterlocks m w;
  if safe : bool then Some (true, set_faults false false m) else Some (false, m).

Definition im_validateDependencies (m : InterlockManager) : bool :=
  bool_decide (0 < m_conditionCount m) && m_faultResponse m.

(** ** What the manager promises *)

(** The abstract manager: its conditions, whether a response is set, and the two faults. *)
Record interlock_spec := ISpec {
  is_conditions : list nat;
  is_response : bool;
  is_soft : bool;
  is_hard : bool;
}.

Inductive interlock_op :=
  | Register (condition : option nat)
  | SetResponse (response : bool)
  | CheckAll
  | SoftAbort
  | HardFault
  | ClearFault.

(** The answer of an operation, [true] standing for success. *)
Definition interlock_step (op : interlock_op) (m : InterlockManager) (w : W)
    : option (bool * InterlockManager * W) :=
  match op with
  | Register c => '(r, m) ← registerCondition c m; Some (bool_decide (r = OP_OK), m, w)
  | SetResponse r => Some (true, setFaultResponse r m, w)
  | CheckAll => safe ← checkAllInterlocks m w; Some (safe, m, w)
  | SoftAbort => Some (true, triggerSoftAbort m, w)
  | HardFault => let '(m, w) := triggerHardFault m w in Some (true, m, w)
  | ClearFault => '(b, m) ← clearFault m w; Some (b, m, w)
  end.

Definition all_safe (s : interlock_spec) (w : W) : bool := forallb (fun c => isSafe c w) (is_conditions s).

Definition spec_step (op : interlock_op) (s : interlock_spec) (w : W) : bool * interlock_spec * W :=
  match op with
  | Register None => (false, s, w)
  | Register (Some c) =>
      if decide (length (is_conditions s) < kMaxConditions)
      then (true, ISpec (is_conditions s ++ [c]) (is_response s) (is_soft s) (is_hard s), w)
      else (false, s, w)
  | SetResponse r => (true, ISpec (is_conditions s) r (is_soft s) (is_hard s), w)
  | CheckAll => (all_safe s w, s, w)
  | SoftAbort => (true, ISpec (is_conditions s) (is_response s) true (is_hard s), w)
  | HardFault => (true, ISpec (is_conditions s) (is_response s) (is_soft s) true,
                  if is_response s then execute w else w)
  | ClearFault =>
      if all_safe s w then (true, ISpec (is_conditions s) (is_response s) false false, w) else (false, s, w)
  end.

(** The world may change between two operations: [ops] comes with the change before each. *)
Fixpoint interlock_run (ops : list ((W -> W) * interlock_op)) (m : InterlockManager) (w : W)
    : option (list bool * InterlockManager * W) :=
  match ops with
  | [] => Some ([], m, w)
  | (change, op) :: ops =>
      '(b, m, w) ← interlock_step op m (change w);
      '(bs, m, w) ← interlock_run ops m w;
      Some (b :: bs, m, w)
  end.

Fixpoint spec_run (ops : list ((W -> W) * interlock_op)) (s : interlock_spec) (w : W)
    : list bool * interlock_spec * W :=
  match ops with
  | [] => ([], s, w)
  | (change, op) :: ops =>
      let '(b, s, w) := spec_step op s (change w) in
      let '(bs, s, w) := spec_run ops s w in
      (b :: bs, s, w)
  end.

Record interlocks_rep (m : InterlockManager) (s : interlock_spec) : Prop := {
  ir_array : length (m_conditions m) = kMaxConditions;
  ir_conditions : take (m_conditionCount m) (m_conditions m) = Some <$> is_conditions s;
  ir_count : m_conditionCount m = length (is_conditions s);
  ir_bound : length (is_conditions s) <= kMaxConditions;
  ir_flags : (m_faultResponse m, m_softAbort m, m_hardFault m) = (is_response s, is_soft s, is_hard s);
}.

Lemma new_interlocks_rep : interlocks_rep new_interlocks (ISpec [] false false false).
Proof. split; try done. simpl. lia. Qed.

Lemma set_flags_rep m s resp soft hard :
  interlocks_rep m s ->
  interlocks_rep (Interlocks (m_conditions m) (m_conditionCount m) resp soft hard)
    (ISpec (is_conditions s) resp soft hard).
Proof. intros [? ? ? ? _]. by split. Qed.

Lemma check_from_ok m w cs i :
  (forall k c, cs !! k = Some c -> m_conditions m !! (i + k) = Some (Some c)) ->
  check_from m i (length cs) w = Some (forallb (fun c => isSafe c w) cs).
Proof.
  revert i. induction cs as [|c cs IH]; intros i Hcs; simpl; [done|].
  pose proof (Hcs 0 c eq_refl) as Hc. rewrite Nat.add_0_r in Hc. unfold load. rewrite Hc.
  cbn [mbind option_bind]. destruct (isSafe c w); [|done]. simpl. apply IH.
  intros k c' Hk. specialize (Hcs (S k) c' Hk). by rewrite Nat.add_succ_r in Hcs.
Qed.

Lemma checkAll_ok m s w : interlocks_rep m s -> checkAllInterlocks m w = Some (all_safe s w).
Proof.
  intros [_ Hc Hn _ _]. unfold checkAllInterlocks. rewrite Hn. apply check_from_ok.
  intros k c Hk. assert (Hlt : k < length (is_conditions s)) by (by eapply lookup_lt_Some).
  rewrite Nat.add_0_l, <- (lookup_take_lt _ (m_conditionCount m)) by lia.
  by rewrite Hc, list_lookup_fmap, Hk.
Qed.

Lemma interlock_step_ok op m s w :
  interlocks_rep m s ->
  exists m', let '(b, s', w') := spec_step op s w in
    interlock_step op m w = Some (b, m', w') /\ interlocks_rep m' s'.
Proof.
  intros Hrep. pose proof Hrep as [Ha Hc Hn Hb Hf]. injection Hf as F1 F2 F3.
  destruct op as [[c|]|r| | | |]; simpl.
  - unfold registerCondition. rewrite Hn. destruct (decide (length (is_conditions s) < kMaxConditions)).
    + rewrite decide_False, store_ok by lia. cbn [mbind option_bind]. eexists. split; [done|].
      split; simpl; [by rewrite length_insert| | | |by rewrite F1, F2, F3].
      * rewrite (take_S_r _ _ (Some c)), take_insert_ge, fmap_app by (done || (apply list_lookup_insert_eq; lia)).
        by rewrite <- Hc, Hn.
      * rewrite length_app. simpl. lia.
      * rewrite length_app. simpl. lia.
    + rewrite decide_True by lia. by exists m.
  - by exists m.
  - eexists. split; [done|]. unfold setFaultResponse. rewrite F2, F3. by apply set_flags_rep.
  - rewrite (checkAll_ok m s w Hrep). simpl. by exists m.
  - eexists. split; [done|]. unfold triggerSoftAbort, set_faults. rewrite F1, F3. by apply set_flags_rep.
  - rewrite F1. eexists. split; [done|]. unfold set_faults. rewrite F1, F2. by apply set_flags_rep.
  - unfold clearFault. rewrite (checkAll_ok m s w Hrep). cbn [mbind option_bind].
    destruct (all_safe s w); [|by exists m].
    eexists. split; [done|]. unfold set_faults. rewrite F1. by apply set_flags_rep.
Qed.

Lemma interlock_run_ok ops m s w :
  interlocks_rep m s ->
  exists m', let '(bs, s', w') := spec_run ops s w in
    interlock_run ops m w = Some (bs, m', w') /\ interlocks_rep m' s'.
Proof.
  revert m s w. induction ops as [|[change op] ops IH]; intros m s w Hrep; simpl; [by exists m|].
  destruct (interlock_step_ok op m s (change w) Hrep) as (m1 & H1).
  destruct (spec_step op s (change w)) as [[b s1] w1]. destruct H1 as [E1 Hrep1].
  destruct (IH m1 s1 w1 Hrep1) as (m2 & H2). destruct (spec_run ops s1 w1) as [[bs s2] w2].
  destruct H2 as [E2 Hrep2]. exists m2. rewrite E1. cbn [mbind option_bind]. by rewrite E2.
Qed.

(** In the specification, a hard fault that is pending can only be cleared when every
    condition holds. *)
Definition clears (ops : list ((W -> W) * interlock_op)) (bs : list bool) : Prop :=
  exists k change, ops !! k = Some (change, ClearFault) /\ bs !! k = Some true.

Lemma spec_run_length ops s w : length (spec_run ops s w).1.1 = length ops.
Proof.
  revert s w. induction ops as [|[change op] ops IH]; intros s w; simpl; [done|].
  destruct (spec_step op s (change w)) as [[b s1] w1]. specialize (IH s1 w1).
  destruct (spec_run ops s1 w1) as [[bs s2] w2]. simpl in *. by rewrite IH.
Qed.

Lemma spec_run_latch ops s w :
  is_hard s = true -> ~ clears ops (spec_run ops s w).1.1 -> is_hard (spec_run ops s w).1.2 = true.
Proof.
  revert s w. induction ops as [|[change op] ops IH]; intros s w Hh; simpl; [done|].
  destruct (spec_step op s (change w)) as [[b s1] w1] eqn:E. specialize (IH s1 w1).
  destruct (spec_run ops s1 w1) as [[bs s2] w2]. simpl in *. intros Hno.
  apply IH; [|intros (k & ch & H1 & H2); apply Hno; by exists (S k), ch].
  destruct op as [[c|]|r| | | |]; simpl in E; repeat case_match; simplify_eq; try done.
  exfalso. apply Hno. by exists 0, change.
Qed.

Lemma spec_run_app ops1 ops2 s w :
  spec_run (ops1 ++ ops2) s w =
    let '(bs1, s1, w1) := spec_run ops1 s w in
    let '(bs2, s2, w2) := spec_run ops2 s1 w1 in (bs1 ++ bs2, s2, w2).
Proof.
  revert s w. induction ops1 as [|[change op] ops1 IH]; intros s w; simpl.
  { by destruct (spec_run ops2 s w) as [[? ?] ?]. }
  destruct (spec_step op s (change w)) as [[b s1] w1]. rewrite IH.
  destruct (spec_run ops1 s1 w1) as [[bs s2] w2]. by destruct (spec_run ops2 s2 w2) as [[? ?] ?].
Qed.

Lemma spec_run_faulted pre change post s w :
  ~ clears post (drop (S (length pre)) (spec_run (pre ++ (change, HardFault) :: post) s w).1.1) ->
  is_hard (spec_run (pre ++ (change, HardFault) :: post) s w).1.2 = true.
Proof.
  rewrite spec_run_app. pose proof (spec_run_length pre s w) as Hlen.
  destruct (spec_run pre s w) as [[bs1 s1] w1]. simpl in *. rewrite <- Hlen.
  set (s2 := ISpec _ _ _ true). set (w2 := if is_response s1 then _ else _).
  pose proof (spec_run_latch post s2 w2 eq_refl) as Hl.
  destruct (spec_run post s2 w2) as [[bs3 s3] w3]. simpl in *.
  replace (S (length bs1)) with (length bs1 + 1) by lia. rewrite <- drop_drop, drop_app_length. exact Hl.
Qed.
End interlocks.

(** ** The control task ([ScheduledControlTask.h]) *)

(** [IUserApplication]: the callbacks act on what user code can reach. *)
Class UserApplication (W : Type) := {
  app_init : Shared W -> Shared W;
  app_tick : Z -> Shared W -> Shared W;
  app_handleCommand : Command -> Shared W -> Shared W;
  app_forceSafeAbort : Shared W -> Shared W;
}.

(** A ghost: what the task asked of the application, in order. *)
Inductive app_call :=
  | AppInit
  | AppTick (now : Z)
  | AppCommand (cmd : Command)
  | AppAbort.

Section control.
Context {W : Type} `{!UserApplication W} (env : Env W).
(** [ISafetyMonitor::isSafe], and [CfgMaxCommandsPerTick]. *)
Context (monitor_isSafe : nat -> Shared W -> bool) (kMaxCommandsPerTick : nat).
Abbreviation Shared := (Shared W).

(** The members: whether queue and application are set, and the monitors. *)
Record ScheduledControlTask := ControlTask {
  sc_commandQueue : bool;
  sc_app : bool;
  sc_monitors : list (option nat);
  sc_monitorCount : nat;
}.

Definition control_init (t : ScheduledControlTask) (h : Shared) : list app_call * Shared :=
  if sc_app t then ([AppInit], app_init h) else ([], h).

(** The loop of [evaluateSafety] from monitor [i]; [n] are left. *)
Fixpoint evaluate_from (t : ScheduledControlTask) (i n : nat) (h : Shared)
    : option (bool * list app_call * Shared) :=
  match n with
  | O => Some (true, [], h)
  | S n =>
      m ← load (sc_monitors t) i;
      if match m with Some m => negb (monitor_isSafe m h) | None => false end then
        if sc_app t then Some (false, [AppAbort], signalSafetyAbort (app_forceSafeAbort h))
        else Some (false, [], signalSafetyAbort h)
      else evaluate_from t (S i) n h
  end.

Definition evaluateSafety (t : ScheduledControlTask) (h : Shared) : option (bool * list app_call * Shared) :=
  evaluate_from t 0 (sc_monitorCount t) h.

(** The loop of [processCommands]; [n] commands may still be processed. *)
Fixpoint drain_commands (n : nat) (h : Shared) : option (list app_call * Shared) :=
  match n with
  | O => Some ([], h)
  | S n =>
      '(cmd, q) ← try_pop (kQueueCapacity env) (sh_queue h);
      let h := set_queue q h in
      match cmd with
      | Some cmd =>
          '(calls, h) ← drain_commands n (app_handleCommand cmd h);
          Some (AppCommand cmd :: calls, h)
      | None => Some ([], h)
      end
  end.

Definition processCommands (t : ScheduledControlTask) (h : Shared) : option (list app_call * Shared) :=
  if sc_commandQueue t && sc_app t then drain_commands kMaxCommandsPerTick h else Some ([], h).

Definition control_tick (t : ScheduledControlTask) (systemTimeMicros : Z) (h : Shared)
    : option (list app_call * Shared) :=
  '(safe, calls, h) ← evaluateSafety t h;
  if negb safe then Some (calls, h)
  else
    '(calls', h) ← processCommands t h;
    if sc_app t then Some (calls ++ calls' ++ [AppTick systemTimeMicros], app_tick systemTimeMicros h)
    else Some (calls ++ calls', h).

Definition sc_validateDependencies (t : ScheduledControlTask) : bool := sc_commandQueue t && sc_app t.

(** ** What the control task does *)

(** The answer of the monitors in order, up to the first that is unsafe. *)
Definition all_monitors_safe (t : ScheduledControlTask) (h : Shared) : bool :=
  forallb (fun m => match m with Some m => monitor_isSafe m h | None => true end)
    (take (sc_monitorCount t) (sc_monitors t)).

Lemma evaluate_from_ok t i n h :
  i + n <= length (sc_monitors t) ->
  evaluate_from t i n h = Some
    (if forallb (fun m => match m with Some m => monitor_isSafe m h | None => true end)
       (take n (drop i (sc_monitors t)))
     then (true, [], h)
     else if sc_app t then (false, [AppAbort], signalSafetyAbort (app_forceSafeAbort h))
     else (false, [], signalSafetyAbort h)).
Proof.
  revert i. induction n as [|n IH]; intros i Hi; simpl; [done|].
  destruct (lookup_lt_is_Some_2 (sc_monitors t) i) as [m Hm]; [lia|].
  unfold load. rewrite Hm. cbn [mbind option_bind]. rewrite (drop_S _ _ _ Hm). simpl.
  destruct m as [m|]; [|apply IH; lia]. destruct (monitor_isSafe m h); simpl; [apply IH; lia|].
  by destruct (sc_app t).
Qed.

Lemma evaluateSafety_ok t h :
  sc_monitorCount t <= length (sc_monitors t) ->
  evaluateSafety t h = Some
    (if all_monitors_safe t h then (true, [], h)
     else if sc_app t then (false, [AppAbort], signalSafetyAbort (app_forceSafeAbort h))
     else (false, [], signalSafetyAbort h)).
Proof. intros H. unfold evaluateSafety. by rewrite evaluate_from_ok, drop_0 by lia. Qed.

(** The application leaves the queue to the kernel. *)
Class QuietApplication := {
  quiet_command cmd h : sh_queue (app_handleCommand cmd h) = sh_queue h;
  quiet_tick now h : sh_queue (app_tick now h) = sh_queue h;
}.

Lemma drain_commands_ok `{!QuietApplication} n h l :
  holds (kQueueCapacity env) (sh_queue h) l ->
  exists h', drain_commands n h = Some (AppCommand <$> take n l, h') /\
    holds (kQueueCapacity env) (sh_queue h') (drop n l).
Proof.
  revert h l. induction n as [|n IH]; intros h l Hq; simpl; [by exists h|].
  destruct (try_pop_ok _ _ _ Hq) as (q & -> & Hq'). cbn [mbind option_bind].
  destruct l as [|c l]; simpl; [by eexists|].
  destruct (IH (app_handleCommand c (set_queue q h)) l) as (h' & -> & Hh'); [by rewrite quiet_command|].
  simpl. by exists h'.
Qed.

(** ** The control task as one of the kernel's tasks *)

(** The application uses the public interface only, and only looks at the timers; a command
    leaves the queue before it is handed over. *)
Record application_ok : Prop := {
  ao_init : callback_ok env app_init;
  ao_tick now : callback_ok env (app_tick now);
  ao_command cmd q l h :
    shared_ok env h -> holds (kQueueCapacity env) (sh_queue h) (cmd :: l) -> holds (kQueueCapacity env) q l ->
    shared_ok env (app_handleCommand cmd (set_queue q h));
  ao_command_reads cmd h : sh_reads h <= sh_reads (app_handleCommand cmd h);
  ao_abort : callback_ok env app_forceSafeAbort;
  ao_tick_timers now h : sh_taskTimers (app_tick now h) = sh_taskTimers h;
  ao_command_timers cmd h : sh_taskTimers (app_handleCommand cmd h) = sh_taskTimers h;
  ao_abort_timers h : sh_taskTimers (app_forceSafeAbort h) = sh_taskTimers h;
}.

(** [tick] as the scheduler calls it. *)
Definition control_callback (t : ScheduledControlTask) (now : Z) (h : Shared) : Shared :=
  match control_tick t now h with Some (_, h') => h' | None => h end.

(** What the control task declares about itself. *)
Definition control_desc (t : ScheduledControlTask) : TaskDesc :=
  Desc true false (kControlBudgetUs env) 0 0 0 0 0 (sc_validateDependencies t).

(** The environment in which task [ct] is the control task. *)
Definition with_control (ct : nat) (t : ScheduledControlTask) : Env W :=
  with_task env ct (control_desc t) (fun h => (control_init t h).2) (control_callback t).

Lemma signal_ok h : shared_ok env h -> shared_ok env (signalSafetyAbort h).
Proof. by intros []; split. Qed.

Lemma set_queue_ok h q l :
  shared_ok env h -> holds (kQueueCapacity env) q l -> env_inv env l (sh_world h) -> shared_ok env (set_queue q h).
Proof. intros [] Hq Hi. split; try done. by exists l. Qed.

Lemma drain_commands_keeps n h :
  application_ok -> shared_ok env h ->
  exists calls h', drain_commands n h = Some (calls, h') /\ shared_ok env h' /\ sh_reads h <= sh_reads h'.
Proof.
  intros Happ. revert h. induction n as [|n IH]; intros h Hh; simpl; [by eexists _, h|].
  destruct (so_queue _ _ Hh) as (l & Hl & Hi). destruct (try_pop_ok _ _ _ Hl) as (q & -> & Hq).
  cbn [mbind option_bind]. destruct l as [|c l]; cbn [head tail] in *.
  { eexists _, _. split; [done|]. split; [by eapply set_queue_ok|done]. }
  destruct (IH _ (ao_command Happ c q l h Hh Hl Hq)) as (calls & h' & -> & Hh' & Hr). cbn [mbind option_bind].
  eexists _, h'. split; [done|]. split; [done|]. pose proof (ao_command_reads Happ c (set_queue q h)) as Hreads.
  simpl in Hreads. lia.
Qed.

Lemma control_tick_keeps t now h :
  application_ok -> sc_monitorCount t <= length (sc_monitors t) -> shared_ok env h ->
  exists calls h', control_tick t now h = Some (calls, h') /\ shared_ok env h' /\ sh_reads h <= sh_reads h'.
Proof.
  intros Happ Hm Hh. unfold control_tick. rewrite evaluateSafety_ok by done. cbn [mbind option_bind].
  destruct (ao_abort Happ) as [Ha Har _]. destruct (all_monitors_safe t h); cbn [negb].
  - assert (Hd : exists calls h', processCommands t h = Some (calls, h') /\ shared_ok env h' /\
      sh_reads h <= sh_reads h').
    { unfold processCommands. destruct (sc_commandQueue t && sc_app t); [by apply drain_commands_keeps|by eauto]. }
    destruct Hd as (calls & h' & -> & Hh' & Hr). cbn [mbind option_bind].
    destruct (sc_app t); [|by eauto]. destruct (ao_tick Happ now) as [Ht Htr _].
    eexists _, _. split; [done|]. split; [by apply Ht|]. specialize (Htr h'). lia.
  - destruct (sc_app t); cbn [mbind option_bind negb]; eexists _, _; split; try done;
      (split; [apply signal_ok; auto|simpl; auto]).
Qed.

(** Whatever state the tick starts in: a relation that the application's functions and the
    kernel's part of the tick stay within. *)
Section within.
Context (R : Shared -> Shared -> Prop) `{!PreOrder R}.
Hypothesis Hpop : forall q h, R h (set_queue q h).
Hypothesis Hsignal : forall h, R h (signalSafetyAbort h).
Hypothesis Hcommand : forall cmd h, R h (app_handleCommand cmd h).
Hypothesis Htick : forall now h, R h (app_tick now h).
Hypothesis Habort : forall h, R h (app_forceSafeAbort h).

Lemma drain_commands_within n h calls h' : drain_commands n h = Some (calls, h') -> R h h'.
Proof.
  revert h calls. induction n as [|n IH]; intros h calls H; simpl in H; [by simplify_eq|].
  destruct (try_pop (kQueueCapacity env) (sh_queue h)) as [[[c|] q]|]; simpl in H; [|by simplify_eq|done].
  destruct (drain_commands n (app_handleCommand c (set_queue q h))) as [[cs h1]|] eqn:E; simpl in H; [|done].
  simplify_eq. apply IH in E. etransitivity; [apply (Hpop q)|]. etransitivity; [apply Hcommand|exact E].
Qed.

Lemma evaluate_from_within t i n h b calls h' : evaluate_from t i n h = Some (b, calls, h') -> R h h'.
Proof.
  revert i. induction n as [|n IH]; intros i H; simpl in H; [by simplify_eq|].
  destruct (load (sc_monitors t) i) as [m|]; simpl in H; [|done].
  destruct (match m with Some m => negb (monitor_isSafe m h) | None => false end); [|by eapply IH].
  destruct (sc_app t); simplify_eq; [|done]. etransitivity; [apply Habort|done].
Qed.

Lemma control_tick_within t now h calls h' : control_tick t now h = Some (calls, h') -> R h h'.
Proof.
  unfold control_tick. destruct (evaluateSafety t h) as [[[b c1] h1]|] eqn:E; simpl; [|done].
  apply evaluate_from_within in E. destruct b; simpl; [|by intros; simplify_eq].
  destruct (processCommands t h1) as [[c2 h2]|] eqn:E2; simpl; [|done].
  assert (H2 : R h1 h2).
  { unfold processCommands in E2. destruct (sc_commandQueue t && sc_app t);
      [by eapply drain_commands_within|by simplify_eq]. }
  intros H. etransitivity; [exact E|]. etransitivity; [exact H2|]. destruct (sc_app t); by simplify_eq.
Qed.

Lemma control_callback_within t now h : R h (control_callback t now h).
Proof.
  unfold control_callback. destruct (control_tick t now h) as [[calls h']|] eqn:E; [|done].
  by eapply control_tick_within.
Qed.
End within.

Lemma control_callback_timers t now h :
  application_ok -> sh_taskTimers (control_callback t now h) = sh_taskTimers h.
Proof.
  intros Happ. symmetry. set (R := fun h h' : Shared => sh_taskTimers h = sh_taskTimers h').
  assert (PreOrder R) by (split; [done|intros h1 h2 h3; unfold R; congruence]).
  apply (control_callback_within R); try done.
  - intros cmd h1. symmetry. by apply ao_command_timers.
  - intros n h1. symmetry. by apply ao_tick_timers.
  - intros h1. symmetry. by apply ao_abort_timers.
Qed.

Lemma control_callback_ok t now :
  application_ok -> sc_monitorCount t <= length (sc_monitors t) -> callback_ok env (control_callback t now).
Proof.
  intros Happ Hm. split.
  - intros h Hh. unfold control_callback.
    by destruct (control_tick_keeps t now h Happ Hm Hh) as (calls & h' & -> & Hh' & _).
  - intros h. set (R := fun h h' : Shared => sh_reads h <= sh_reads h').
    assert (PreOrder R) by (split; [intros h1|intros h1 h2 h3]; unfold R; lia).
    apply (control_callback_within R); try (intros; unfold R; simpl; lia).
    + apply (ao_command_reads Happ).
    + intros n h1. apply (cb_reads _ _ (ao_tick Happ n)).
    + apply (cb_reads _ _ (ao_abort Happ)).
  - intros h tid. unfold sh_timer. by rewrite control_callback_timers.
Qed.

Lemma control_init_ok t : application_ok -> callback_ok env (fun h => (control_init t h).2).
Proof. intros Happ. unfold control_init. destruct (sc_app t); [apply Happ|by split]. Qed.
End control.

(** ** Properties *)

(** C32 The interlock manager, from its construction and under any sequence of operations,
    with the world changing between them, answers and acts as its specification: conditions
    are registered up to eight, a check is the conjunction of the registered conditions, the
    fault response runs once per hard fault if it is set, and faults are cleared only when
    every condition holds. In particular a hard fault stays latched until a [clearFault]
    succeeds. *)
Theorem interlocks_refine {W : Type} (isSafe : nat -> W -> bool) (execute : W -> W)
    (ops : list ((W -> W) * interlock_op)) (w : W) :
  exists bs m' s' w', interlock_run isSafe execute ops new_interlocks w = Some (bs, m', w') /\
    spec_run isSafe execute ops (ISpec [] false false false) w = (bs, s', w') /\
    interlocks_rep m' s' /\ hasSoftAbort m' = is_soft s' /\ isHardFaulted m' = is_hard s' /\
    (forall pre change post, ops = pre ++ (change, HardFault) :: post ->
      ~ clears post (drop (S (length pre)) bs) -> isHardFaulted m' = true).
Proof.
  destruct (interlock_run_ok isSafe execute ops _ _ w new_interlocks_rep) as (m' & H).
  destruct (spec_run isSafe execute ops (ISpec [] false false false) w) as [[bs s'] w'] eqn:E.
  destruct H as [Er Hrep]. exists bs, m', s', w'. split; [done|]. split; [done|]. split; [done|].
  pose proof (ir_flags _ _ Hrep) as Hf. injection Hf as _ Hsoft Hhard.
  split; [done|]. split; [done|]. intros pre change post -> Hno. unfold isHardFaulted. rewrite Hhard.
  pose proof (spec_run_faulted isSafe execute pre change post (ISpec [] false false false) w) as Hl.
  rewrite E in Hl. by apply Hl.
Qed.

(** C25 A tick of the control task: while every safety monitor is satisfied it takes at most
    [kMaxCommandsPerTick] commands from the queue, hands them to the application once each
    and in order, and then ticks it; as soon as one monitor is not, the application is asked
    to abort, the kernel's abort flag is raised, and no command is consumed and the
    application not ticked. *)
Theorem control_tick_spec {W : Type} `{!UserApplication W, !QuietApplication} (env : Env W)
    (monitor_isSafe : nat -> Shared W -> bool) (kMaxCommandsPerTick : nat)
    (t : ScheduledControlTask) (now : Z) (h : Shared W) (l : list Command) :
  holds (kQueueCapacity env) (sh_queue h) l -> sc_monitorCount t <= length (sc_monitors t) ->
  sc_validateDependencies t = true ->
  exists calls h', control_tick env monitor_isSafe kMaxCommandsPerTick t now h = Some (calls, h') /\
    if all_monitors_safe monitor_isSafe t h then
      calls = (AppCommand <$> take kMaxCommandsPerTick l) ++ [AppTick now] /\
      holds (kQueueCapacity env) (sh_queue h') (drop kMaxCommandsPerTick l)
    else calls = [AppAbort] /\ h' = signalSafetyAbort (app_forceSafeAbort h).
Proof.
  intros Hq Hm Hd. apply andb_true_iff in Hd as [Hcq Happ].
  unfold control_tick. rewrite evaluateSafety_ok, Happ by done. cbn [mbind option_bind].
  destruct (all_monitors_safe monitor_isSafe t h); cbn [negb]; [|by eexists _, _].
  unfold processCommands. rewrite Hcq, Happ. cbn [andb].
  destruct (drain_commands_ok env kMaxCommandsPerTick h l Hq) as (h' & -> & Hq').
  cbn [mbind option_bind]. eexists _, _. split; [done|]. split; [done|]. by rewrite quiet_tick.
Qed.

(** The kernel's own control task keeps the contract the kernel's theorems require of
    every task: put into an environment that keeps it, with an application that does, the
    environment keeps it still. *)
Theorem control_task_ok {W : Type} `{!UserApplication W} (env : Env W)
    (monitor_isSafe : nat -> Shared W -> bool) (kMaxCommandsPerTick : nat)
    (ct : nat) (t : ScheduledControlTask) :
  env_ok env -> application_ok env -> sc_monitorCount t <= length (sc_monitors t) ->
  env_ok (with_control env monitor_isSafe kMaxCommandsPerTick ct t).
Proof. intros. apply with_task_ok; auto using control_callback_ok, control_init_ok, control_callback_timers. Qed.

(** ** Concrete instances, for the witnesses *)

(** An application that does nothing; two monitors of which the second is never safe. *)
#[local] Instance idle_application : UserApplication unit :=
  {| app_init h := h; app_tick _ h := h; app_handleCommand _ h := h; app_forceSafeAbort h := h |}.

Lemma idle_quiet : @QuietApplication unit idle_application.
Proof. by split. Qed.

Lemma idle_ok : application_ok sample_env.
Proof. split; intros; try by split. { by eapply (set_queue_ok sample_env). } simpl. lia. Qed.

Definition safe_control : ScheduledControlTask := ControlTask true true [Some 0; None] 2.

(** Two commands wait. *)
Definition two_commands : Shared unit :=
  let h := boot_shared sample_env tt in
  set_queue (Ring [Cmd 1 0 0; Cmd 2 0 0; Cmd 0 0 0; Cmd 0 0 0; Cmd 0 0 0] 2 0) h.

Lemma two_commands_hold : holds (kQueueCapacity sample_env) (sh_queue two_commands) [Cmd 1 0 0; Cmd 2 0 0].
Proof.
  exists 0. split; simpl; try reflexivity; try lia.
  intros [|[|i]] x; simpl; intros; simplify_eq; done.
Qed.

Lemma control_tick_spec_witness :
  exists calls h', control_tick sample_env (fun m _ => m =? 0) 1 safe_control 7 two_commands = Some (calls, h') /\
    calls = [AppCommand (Cmd 1 0 0); AppTick 7] /\
    holds (kQueueCapacity sample_env) (sh_queue h') [Cmd 2 0 0].
Proof.
  exact (@control_tick_spec unit idle_application idle_quiet sample_env (fun m _ => m =? 0) 1 safe_control 7
    two_commands [Cmd 1 0 0; Cmd 2 0 0] two_commands_hold (le_n 2) eq_refl).
Defined.

Lemma control_task_ok_witness :
  env_ok (with_control sample_env (fun m _ => m =? 0) 4 0 safe_control).
Proof. exact (control_task_ok sample_env (fun m _ => m =? 0) 4 0 safe_control sample_env_ok idle_ok (le_n 2)). Defined.

