(* ===== verification/Diagnostics.v ===== *)
(** * The diagnostics task

    [kernel/tasks/BackgroundDiagnosticsTask.h] with [src/kernel/BackgroundDiagnosticsTask.cpp]:
    the scan of the tasks' timers, the health totals, the memory report and the telemetry
    drain; and the task in its place in the kernel, among the callbacks of [Env]. *)

From Stdlib Require String.
From S2P Require Import Prelude Float32 Protocol Queue Metrics ErrorLog Decimal Text Telemetry Sync Kernel Sched.
Import String.StringSyntax.

Definition kMaxMonitoredTasks : nat := 16.
Definition kMemCheckInterval : Z := 100.

(** The members; logger, profiler, monitored tasks and health metrics are in [Shared], and
    [dt_schedulerHealth] and [dt_drain] tell whether the pointers to the metrics and to the
    telemetry and its callback are set. *)
Record BackgroundDiagnosticsTask := DiagTask {
  dt_watchdogKick : bool;
  dt_monitoredTasks : list nat;
  dt_controlBudget : Z;
  dt_tickCount : Z;
  dt_schedulerHealth : bool;
  dt_drain : bool;
}.
Abbreviation Diag := BackgroundDiagnosticsTask.

Definition new_diag (kick : bool) (budget : Z) : Diag := DiagTask kick [] budget 0 false false.

Definition setMonitoredTasks (tasks : list nat) (d : Diag) : Diag :=
  DiagTask (dt_watchdogKick d) (take kMaxMonitoredTasks tasks) (dt_controlBudget d) (dt_tickCount d)
    (dt_schedulerHealth d) (dt_drain d).

Definition setSchedulerHealth (metrics : bool) (d : Diag) : Diag :=
  DiagTask (dt_watchdogKick d) (dt_monitoredTasks d) (dt_controlBudget d) (dt_tickCount d) metrics (dt_drain d).

Definition setTelemetryDrain (drain : bool) (d : Diag) : Diag :=
  DiagTask (dt_watchdogKick d) (dt_monitoredTasks d) (dt_controlBudget d) (dt_tickCount d)
    (dt_schedulerHealth d) drain.

Definition set_tickCount (tickCount : Z) (d : Diag) : Diag :=
  DiagTask (dt_watchdogKick d) (dt_monitoredTasks d) (dt_controlBudget d) tickCount
    (dt_schedulerHealth d) (dt_drain d).

(** Where the world keeps the task object, and what the drain callback does with a line. *)
Class DiagsHost (W : Type) := {
  the_diags : W -> Diag;
  put_diags : Diag -> W -> W;
  drain_write : list Z -> W -> W;
}.

Section diagnostics.
Context {W : Type} `{!IMutex W, !DiagsHost W} (env : Env W).
Abbreviation Shared := (Shared W).
Implicit Types h : Shared.

(** [init]: the profiler starts anew, the timers of the monitored tasks are reset. *)
Definition diag_init (d : Diag) h : Shared :=
  foldl (fun h tid => put_sh_timer tid (timer_reset (sh_timer tid h)) h) (set_memProfiler new_profiler h)
    (dt_monitoredTasks d).

Definition log_error (code : ErrorCode) (timestamp : Z) (value : float) h : option Shared :=
  l ← log code timestamp value (sh_log h);
  Some (set_log l h).

(** The scan for budget violations. *)
Fixpoint scan_budgets (budget : Z) (tasks : list nat) h : option Shared :=
  match tasks with
  | [] => Some h
  | tid :: tasks =>
      h ← (if isOverBudget budget (sh_timer tid h)
           then log_error SENSOR_ERROR 0 (f_of_Z (lastDuration (sh_timer tid h))) h else Some h);
      scan_budgets budget tasks h
  end.

(** The 32-bit sums of overruns and deadline misses. *)
Definition aggregate (tasks : list nat) h : Z * Z :=
  foldl (fun acc tid => (u32 (acc.1 + overrunCount (sh_timer tid h)),
                         u32 (acc.2 + deadlineMissCount (sh_timer tid h)))) (0%Z, 0%Z) tasks.

(** [TelemetryLogger::drain] with its callback: the lines are written under the lock. *)
Definition drain_lines h : option Shared :=
  let l := sh_telemetry h in
  let w := guard_lock l (sh_world h) in
  '(l', out) ← drain_loop (tl_count l) l new_builder [];
  let w := foldl (fun w line => drain_write line w) w out in
  Some (set_telemetry l' (set_world (guard_unlock l w) h)).

Definition diag_tick (d : Diag) h : option (Diag * Shared) :=
  let h := if dt_watchdogKick d then env_watchdogKick env h else h in
  h ← scan_budgets (dt_controlBudget d) (dt_monitoredTasks d) h;
  let h := set_memProfiler (mp_update (sh_memProfiler h)) h in
  let h := if dt_schedulerHealth d
    then let '(overruns, misses) := aggregate (dt_monitoredTasks d) h in
         set_sh_schedulerHealth (setAggregates overruns misses (sh_schedulerHealth h)) h
    else h in
  let tickCount := u32 (dt_tickCount d + 1) in
  '(tickCount, h) ←
    (if decide (kMemCheckInterval <= tickCount)%Z then
       h ← log_error WATCHDOG_KICK 0 (f_of_Z (getPeakHeapUsedBytes (sh_memProfiler h))) h;
       Some (0%Z, h)
     else Some (tickCount, h));
  h ← (if dt_drain d then drain_lines h else Some h);
  Some (set_tickCount tickCount d, h).

(** ** What a cycle reports *)

(** The entries of the scan, in the order of the tasks. *)
Definition violations (budget : Z) (tasks : list nat) h : list Entry :=
  omap (fun tid => if isOverBudget budget (sh_timer tid h)
                   then Some (LogEntry SENSOR_ERROR 0 (f_of_Z (lastDuration (sh_timer tid h))))
                   else None) tasks.

Definition push_all (es new : list Entry) : list Entry := foldl (fun es e => push_entry e es) es new.

Lemma push_all_app es xs ys : push_all es (xs ++ ys) = push_all (push_all es xs) ys.
Proof. apply foldl_app. Qed.

Lemma log_error_ok code t v h es :
  logger_holds (sh_log h) es ->
  exists l, log_error code t v h = Some (set_log l h) /\ logger_holds l (push_entry (LogEntry code t v) es).
Proof.
  intros Hes. destruct (log_ok _ _ code t v Hes) as (l & E & Hl). exists l. unfold log_error. by rewrite E.
Qed.

Lemma set_log_id h : set_log (sh_log h) h = h.
Proof. by destruct h. Qed.

Lemma scan_budgets_ok budget tasks h es :
  logger_holds (sh_log h) es ->
  exists l, scan_budgets budget tasks h = Some (set_log l h) /\
    logger_holds l (push_all es (violations budget tasks h)).
Proof.
  revert h es. induction tasks as [|tid tasks IH]; intros h es Hes; simpl.
  { exists (sh_log h). by rewrite set_log_id. }
  destruct (isOverBudget budget (sh_timer tid h)); [|by apply IH].
  destruct (log_error_ok SENSOR_ERROR 0 (f_of_Z (lastDuration (sh_timer tid h))) h es Hes) as (l & -> & Hl).
  cbn [mbind option_bind]. destruct (IH (set_log l h) _ Hl) as (l' & -> & Hl'). by exists l'.
Qed.

(** The lines of the messages that pass the logger's verbosity are written, and the ring is empty. *)
Lemma drain_lines_ok h ms :
  telemetry_rep (sh_telemetry h) ms ->
  exists l, drain_lines h = Some (set_telemetry l (set_world
      (guard_unlock (sh_telemetry h) (foldl (fun w line => drain_write line w) (guard_lock (sh_telemetry h) (sh_world h))
         (drained (tl_verbosity (sh_telemetry h)) ms))) h)) /\
    telemetry_rep l [] /\ tl_verbosity l = tl_verbosity (sh_telemetry h) /\ tl_guard l = tl_guard (sh_telemetry h).
Proof.
  intros Hms. unfold drain_lines. rewrite (tr_count _ _ Hms).
  destruct (drain_loop_ok ms (sh_telemetry h) new_builder [] [] Hms new_builder_rep) as (l & -> & Hl).
  cbn [mbind option_bind]. by exists l.
Qed.

(** ** One cycle *)

(** The report of a cycle in which the counter, now [tickCount], has reached the interval. *)
Definition memory_report (tickCount : Z) h : list Entry :=
  if decide (kMemCheckInterval <= tickCount)%Z
  then [LogEntry WATCHDOG_KICK 0 (f_of_Z (getPeakHeapUsedBytes (mp_update (sh_memProfiler h))))] else [].

Definition next_count (tickCount : Z) : Z := if decide (kMemCheckInterval <= tickCount)%Z then 0%Z else tickCount.

(** What the drain leaves of the messages, and does to the world. *)
Definition after_drain (d : Diag) (l : TelemetryLogger) (ms : list message) (w : W) : list message * W :=
  if dt_drain d
  then ([], guard_unlock l (foldl (fun w line => drain_write line w) (guard_lock l w) (drained (tl_verbosity l) ms)))
  else (ms, w).

(** The profiler and the health metrics. *)
Definition cycle_health (d : Diag) h : SchedulerHealthMetrics :=
  if dt_schedulerHealth d
  then let '(overruns, misses) := aggregate (dt_monitoredTasks d) h in setAggregates overruns misses (sh_schedulerHealth h)
  else sh_schedulerHealth h.

Definition after_metrics (d : Diag) h : Shared :=
  set_sh_schedulerHealth (cycle_health d h) (set_memProfiler (mp_update (sh_memProfiler h)) h).

Lemma memory_report_ok tickCount l es h1 h :
  logger_holds l es -> sh_memProfiler h = mp_update (sh_memProfiler h1) ->
  exists l', (if decide (kMemCheckInterval <= tickCount)%Z
     then h ← log_error WATCHDOG_KICK 0 (f_of_Z (getPeakHeapUsedBytes (sh_memProfiler h))) (set_log l h); Some (0%Z, h)
     else Some (tickCount, set_log l h)) = Some (next_count tickCount, set_log l' h) /\
    logger_holds l' (push_all es (memory_report tickCount h1)).
Proof.
  intros Hl Hm. unfold memory_report, next_count. rewrite Hm. case_decide as Hfull; [|by exists l].
  destruct (log_error_ok WATCHDOG_KICK 0 (f_of_Z (getPeakHeapUsedBytes (mp_update (sh_memProfiler h1)))) (set_log l h) es Hl)
    as (l' & -> & Hl'). by exists l'.
Qed.

Lemma diag_tick_ok d h es ms :
  let h1 := if dt_watchdogKick d then env_watchdogKick env h else h in
  logger_holds (sh_log h1) es -> telemetry_rep (sh_telemetry h1) ms ->
  exists l t, let k := u32 (dt_tickCount d + 1) in
    diag_tick d h = Some (set_tickCount (next_count k) d,
      set_telemetry t (set_world (after_drain d (sh_telemetry h1) ms (sh_world h1)).2 (set_log l (after_metrics d h1)))) /\
    logger_holds l (push_all es (violations (dt_controlBudget d) (dt_monitoredTasks d) h1 ++ memory_report k h1)) /\
    telemetry_rep t (after_drain d (sh_telemetry h1) ms (sh_world h1)).1 /\
    tl_verbosity t = tl_verbosity (sh_telemetry h1) /\ tl_guard t = tl_guard (sh_telemetry h1).
Proof.
  intros h1 Hes Hms. unfold diag_tick. fold h1. clearbody h1. cbv zeta.
  destruct (scan_budgets_ok (dt_controlBudget d) (dt_monitoredTasks d) h1 es Hes) as (l & -> & Hl). cbn [mbind option_bind].
  set (h2 := set_memProfiler _ _). set (h3 := if dt_schedulerHealth d then _ else h2).
  assert (E3 : h3 = set_log l (after_metrics d h1)).
  { unfold h3, h2, after_metrics, cycle_health. destruct (dt_schedulerHealth d); [|by destruct h1].
    change (aggregate _ (set_memProfiler _ _)) with (aggregate (dt_monitoredTasks d) h1). by destruct (aggregate _ _). }
  rewrite E3. clear E3 h3 h2.
  destruct (memory_report_ok (u32 (dt_tickCount d + 1)) l _ h1 (after_metrics d h1) Hl eq_refl) as (l' & E & Hl').
  cbn [sh_memProfiler set_log] in E |- *. rewrite E. clear E. cbn [mbind option_bind]. exists l'.
  rewrite push_all_app. unfold after_drain. destruct (dt_drain d).
  - destruct (drain_lines_ok (set_log l' (after_metrics d h1)) ms Hms) as (t & -> & Ht & Hv & Hg).
    cbn [mbind option_bind]. exists t. by split_and!.
  - exists (sh_telemetry h1). cbn [mbind option_bind]. by split_and!.
Qed.

(** The task as the scheduler calls it: its object is in the world. *)
Definition diag_callback (now : Z) h : Shared :=
  match diag_tick (the_diags (sh_world h)) h with
  | Some (d, h') => set_world (put_diags d (sh_world h')) h'
  | None => h
  end.

Definition diag_init_callback h : Shared := diag_init (the_diags (sh_world h)) h.

(** What the task declares about itself. *)
Definition diags_desc : TaskDesc := Desc false false 0 0 0 1000 0 0 true.

(** The environment in which task [dg] is the diagnostics task. *)
Definition with_diags (dg : nat) : Env W := with_task env dg diags_desc diag_init_callback diag_callback.

(** ** What a cycle leaves alone, in whatever state it starts *)

Record spares h h' : Prop := {
  sp_queue : sh_queue h' = sh_queue h;
  sp_reads : sh_reads h' = sh_reads h;
  sp_timers : sh_taskTimers h' = sh_taskTimers h;
  sp_abort : sh_safetyAbort h' = sh_safetyAbort h;
  sp_sync : sh_sync h' = sh_sync h;
  sp_watchdog : sh_watchdog h' = sh_watchdog h;
}.

#[local] Instance spares_preorder : PreOrder spares.
Proof. split; [done|]. intros h1 h2 h3 [] []. split; congruence. Qed.

Lemma log_error_spares c t v h h' : log_error c t v h = Some h' -> spares h h'.
Proof. unfold log_error. destruct (log c t v (sh_log h)); [|done]. by intros [= <-]. Qed.

Lemma scan_budgets_spares budget tasks h h' : scan_budgets budget tasks h = Some h' -> spares h h'.
Proof.
  revert h. induction tasks as [|tid tasks IH]; intros h; simpl; [by intros [= <-]|].
  destruct (isOverBudget _ _); [|by apply IH]. destruct (log_error _ _ _ h) as [h1|] eqn:E; [|done].
  intros E'%IH. etransitivity; [by eapply log_error_spares|done].
Qed.

Lemma drain_lines_spares h h' : drain_lines h = Some h' -> spares h h'.
Proof. unfold drain_lines. destruct (drain_loop _ _ _ _) as [[l out]|]; [|done]. by intros [= <-]. Qed.

Lemma diag_tick_spares d h d' h' :
  diag_tick d h = Some (d', h') -> spares (if dt_watchdogKick d then env_watchdogKick env h else h) h'.
Proof.
  unfold diag_tick. set (h1 := if dt_watchdogKick d then _ else h). cbv zeta.
  destruct (scan_budgets _ _ h1) as [h2|] eqn:E2; cbn [mbind option_bind]; [|done]. apply scan_budgets_spares in E2.
  set (h3 := if dt_schedulerHealth d then _ else _).
  assert (E3 : spares h2 h3) by (unfold h3; destruct (dt_schedulerHealth d); [destruct (aggregate _ _)|]; done).
  clearbody h3. case_decide.
  - destruct (log_error _ _ _ h3) as [h4|] eqn:E4; cbn [mbind option_bind]; [|done]. apply log_error_spares in E4.
    destruct (if dt_drain d then drain_lines h4 else Some h4) as [h5|] eqn:E5; cbn [mbind option_bind]; [|done].
    intros [= _ <-]. assert (E6 : spares h4 h5) by (destruct (dt_drain d); [by apply drain_lines_spares|by injection E5 as <-]).
    do 2 (etransitivity; [eassumption|]). by etransitivity.
  - cbn [mbind option_bind].
    destruct (if dt_drain d then drain_lines h3 else Some h3) as [h5|] eqn:E5; cbn [mbind option_bind]; [|done].
    intros [= _ <-]. assert (E6 : spares h3 h5) by (destruct (dt_drain d); [by apply drain_lines_spares|by injection E5 as <-]).
    do 2 (etransitivity; [eassumption|]). done.
Qed.

(** World and telemetry: only the drain, at the end, and the watchdog callback touch them. *)
Lemma diag_tick_parts d h d' h' :
  diag_tick d h = Some (d', h') -> let h1 := if dt_watchdogKick d then env_watchdogKick env h else h in
  exists h2, sh_world h2 = sh_world h1 /\ sh_telemetry h2 = sh_telemetry h1 /\
    if dt_drain d then drain_lines h2 = Some h' else h' = h2.
Proof.
  unfold diag_tick. set (h1 := if dt_watchdogKick d then _ else h). cbv zeta.
  assert (Hlog : forall c t v h h', log_error c t v h = Some h' -> sh_world h' = sh_world h /\ sh_telemetry h' = sh_telemetry h).
  { intros c t v h2 h3. unfold log_error. destruct (log _ _ _ _); [|done]. by intros [= <-]. }
  assert (Hscan : forall budget tasks h h', scan_budgets budget tasks h = Some h' -> sh_world h' = sh_world h /\ sh_telemetry h' = sh_telemetry h).
  { intros budget tasks. induction tasks as [|tid tasks IH]; intros h2 h3; simpl; [by intros [= <-]|].
    destruct (isOverBudget _ _); [|by apply IH]. destruct (log_error _ _ _ h2) as [h4|] eqn:E; [|done].
    intros [-> ->]%IH. by eapply Hlog. }
  destruct (scan_budgets _ _ h1) as [h2|] eqn:E2; cbn [mbind option_bind]; [|done]. apply Hscan in E2 as [W2 T2].
  set (h3 := if dt_schedulerHealth d then _ else _).
  assert (E3 : sh_world h3 = sh_world h1 /\ sh_telemetry h3 = sh_telemetry h1).
  { unfold h3. destruct (dt_schedulerHealth d); [destruct (aggregate _ _)|]; done. }
  destruct E3 as [W3 T3]. clearbody h3. destruct (decide _).
  - destruct (log_error _ _ _ h3) as [h4|] eqn:E4; cbn [mbind option_bind]; [|done]. apply Hlog in E4 as [W4 T4].
    destruct (if dt_drain d then drain_lines h4 else Some h4) as [h5|] eqn:E5; cbn [mbind option_bind]; [|done].
    intros [= _ <-]. exists h4. split; [congruence|]. split; [congruence|]. destruct (dt_drain d); [done|congruence].
  - cbn [mbind option_bind].
    destruct (if dt_drain d then drain_lines h3 else Some h3) as [h5|] eqn:E5; cbn [mbind option_bind]; [|done].
    intros [= _ <-]. exists h3. split; [done|]. split; [done|]. destruct (dt_drain d); [done|congruence].
Qed.

Lemma put_sh_timer_eq tid t h : sh_timer tid (put_sh_timer tid t h) = t.
Proof. unfold sh_timer, put_sh_timer. cbn. by rewrite lookup_insert_eq. Qed.

Lemma put_sh_timer_ne tid tid' t h : tid <> tid' -> sh_timer tid' (put_sh_timer tid t h) = sh_timer tid' h.
Proof. intros Hne. unfold sh_timer, put_sh_timer. cbn. by rewrite lookup_insert_ne. Qed.

(** A reset keeps the clock of the timer. *)
Lemma reset_timer_ok tid h :
  shared_ok env h -> shared_ok env (put_sh_timer tid (timer_reset (sh_timer tid h)) h).
Proof.
  intros []. split; try done. intros tid'. destruct (decide (tid = tid')) as [->|Hne].
  - by rewrite put_sh_timer_eq.
  - by rewrite put_sh_timer_ne.
Qed.

Lemma reset_timer_clocked tid tid' h :
  tt_clocked (sh_timer tid' (put_sh_timer tid (timer_reset (sh_timer tid h)) h)) = tt_clocked (sh_timer tid' h).
Proof.
  destruct (decide (tid = tid')) as [->|Hne]; [by rewrite put_sh_timer_eq|by rewrite put_sh_timer_ne].
Qed.

Lemma diag_init_ok d : callback_ok env (diag_init d).
Proof.
  unfold diag_init. split.
  - intros h Hh. assert (H : shared_ok env (set_memProfiler new_profiler h)) by (by destruct Hh; split). revert H.
    generalize (set_memProfiler new_profiler h). induction (dt_monitoredTasks d) as [|tid tasks IH]; intros h1 H1; [done|].
    cbn [foldl]. by apply IH, reset_timer_ok.
  - intros h. change (sh_reads h) with (sh_reads (set_memProfiler new_profiler h)). generalize (set_memProfiler new_profiler h).
    induction (dt_monitoredTasks d) as [|tid tasks IH]; intros h1; [done|]. cbn [foldl]. etransitivity; [|apply IH]. done.
  - intros h tid. change (sh_timer tid h) with (sh_timer tid (set_memProfiler new_profiler h)).
    generalize (set_memProfiler new_profiler h). induction (dt_monitoredTasks d) as [|tid' tasks IH]; intros h1; [done|].
    cbn [foldl]. by rewrite IH, reset_timer_clocked.
Qed.

(** ** The task keeps the kernel's contract *)

(** The application's promise does not depend on the task's object, nor on
    the guard and what the drain callback writes; the watchdog callback only looks at the timers. *)
Record diags_host_ok : Prop := {
  dh_put l w d : env_inv env l w -> env_inv env l (put_diags d w);
  dh_lock l w : env_inv env l w -> env_inv env l (mutex_lock 0 w).2;
  dh_unlock l w : env_inv env l w -> env_inv env l (mutex_unlock w);
  dh_write l w line : env_inv env l w -> env_inv env l (drain_write line w);
  dh_kick : callback_ok env (env_watchdogKick env);
  dh_kick_timers h : sh_taskTimers (env_watchdogKick env h) = sh_taskTimers h;
}.

Lemma after_drain_inv d tl ms l w : diags_host_ok -> env_inv env l w -> env_inv env l (after_drain d tl ms w).2.
Proof.
  intros Hd Hw. unfold after_drain. destruct (dt_drain d); [|done]. cbn [snd].
  assert (H : env_inv env l (guard_lock tl w)) by (unfold guard_lock; destruct (tl_guard tl); [by apply Hd|done]).
  revert H. generalize (guard_lock tl w). induction (drained (tl_verbosity tl) ms) as [|line lines IH]; intros w1 H1.
  - cbn. unfold guard_unlock. destruct (tl_guard tl); [by apply Hd|done].
  - cbn [foldl]. by apply IH, Hd.
Qed.

Lemma diag_callback_total h :
  diags_host_ok -> shared_ok env h ->
  exists d' h', diag_tick (the_diags (sh_world h)) h = Some (d', h') /\ shared_ok env (set_world (put_diags d' (sh_world h')) h').
Proof.
  intros Hd Hh. set (d := the_diags (sh_world h)).
  set (h1 := if dt_watchdogKick d then env_watchdogKick env h else h).
  assert (H1 : shared_ok env h1) by (unfold h1; destruct (dt_watchdogKick d); [by apply (cb_shared _ _ (dh_kick Hd))|done]).
  destruct H1 as [[es Hes] (l & Hl & Hi) Hw Hs Ht [ms Hms]].
  destruct (diag_tick_ok d h es ms Hes Hms) as (lg & t & E & Hlg & Htl & _ & _). fold h1 in E, Hlg, Htl.
  eexists _, _. split; [exact E|]. split; cbn; try done.
  - by eexists.
  - exists l. split; [done|]. apply dh_put; [done|by apply after_drain_inv].
  - by eexists.
Qed.

Lemma diag_callback_spares h :
  spares (if dt_watchdogKick (the_diags (sh_world h)) then env_watchdogKick env h else h) (diag_callback 0 h) \/
  diag_callback 0 h = h.
Proof.
  unfold diag_callback. destruct (diag_tick _ h) as [[d' h']|] eqn:E; [left|by right].
  apply diag_tick_spares in E. by destruct E; split.
Qed.

Lemma diag_callback_timers now h : diags_host_ok -> sh_taskTimers (diag_callback now h) = sh_taskTimers h.
Proof.
  intros Hd. change (diag_callback now h) with (diag_callback 0 h). destruct (diag_callback_spares h) as [Hs| ->]; [|done].
  rewrite (sp_timers _ _ Hs). destruct (dt_watchdogKick _); [apply (dh_kick_timers Hd)|done].
Qed.

Lemma diag_callback_ok now : diags_host_ok -> callback_ok env (diag_callback now).
Proof.
  intros Hd. split; intros h.
  - intros Hh. unfold diag_callback. by destruct (diag_callback_total h Hd Hh) as (d' & h' & -> & H).
  - change (diag_callback now h) with (diag_callback 0 h). destruct (diag_callback_spares h) as [Hs| ->]; [|done].
    rewrite (sp_reads _ _ Hs). destruct (dt_watchdogKick _); [apply (cb_reads _ _ (dh_kick Hd))|done].
  - intros tid. unfold sh_timer. by rewrite diag_callback_timers.
Qed.

Lemma with_diags_ok dg : env_ok env -> diags_host_ok -> env_ok (with_diags dg).
Proof.
  intros Henv Hd. apply with_task_ok; [done| | |].
  - pose proof diag_init_ok as Hi. split; intros h; apply Hi.
  - intros now. by apply diag_callback_ok.
  - intros now h. by apply diag_callback_timers.
Qed.
End diagnostics.

(** ** Properties *)

(** C30 One call of the diagnostics task does exactly this, after the watchdog callback: it logs an
    entry for every monitored task whose last run took longer than the control budget, in their
    order, and in every hundredth cycle one with the heap peak; it writes the lines of all
    telemetry messages that pass the verbosity, in order and under the lock, and leaves the ring
    empty (nothing, without a drain callback); the health totals are the sums over the monitored
    tasks, if the metrics are wired. Timers, command queue, barriers and the abort flag stay. *)
Theorem diagnostics_cycle {W : Type} `{!IMutex W, !DiagsHost W} (env : Env W) (now : Z) (h : Shared W) (es : list Entry)
    (ms : list message) :
  let d := the_diags (sh_world h) in
  let h1 := if dt_watchdogKick d then env_watchdogKick env h else h in
  let h' := diag_callback env now h in
  let k := ((dt_tickCount d + 1) mod kMemCheckInterval)%Z in
  (0 <= dt_tickCount d < kMemCheckInterval)%Z -> logger_holds (sh_log h1) es -> telemetry_rep (sh_telemetry h1) ms ->
  logger_holds (sh_log h') (push_all es (violations (dt_controlBudget d) (dt_monitoredTasks d) h1 ++ memory_report (dt_tickCount d + 1) h1)) /\
  telemetry_rep (sh_telemetry h') (if dt_drain d then [] else ms) /\
  sh_world h' = put_diags (set_tickCount k d)
    (if dt_drain d
     then guard_unlock (sh_telemetry h1) (foldl (fun w line => drain_write line w) (guard_lock (sh_telemetry h1) (sh_world h1))
            (drained (tl_verbosity (sh_telemetry h1)) ms))
     else sh_world h1) /\
  sh_schedulerHealth h' = cycle_health d h1 /\ sh_memProfiler h' = mp_update (sh_memProfiler h1) /\ spares h1 h'.
Proof.
  cbv zeta. intros Hk Hes Hms. set (d := the_diags (sh_world h)) in *.
  set (h1 := if dt_watchdogKick d then env_watchdogKick env h else h) in *.
  destruct (diag_tick_ok env d h es ms Hes Hms) as (l & t & E & Hl & Ht & _). fold h1 in E, Hl, Ht.
  rewrite wrap_id in E, Hl by (unfold in_word, kMemCheckInterval in *; lia).
  assert (Hn : next_count (dt_tickCount d + 1) = ((dt_tickCount d + 1) mod kMemCheckInterval)%Z).
  { unfold next_count, kMemCheckInterval in *. case_decide; [|by rewrite Z.mod_small by lia].
    by replace (dt_tickCount d + 1)%Z with 100%Z by lia. }
  rewrite Hn in E.
  unfold diag_callback. fold d. rewrite E. split; [exact Hl|]. split; [unfold after_drain in Ht; by destruct (dt_drain d)|].
  split; [unfold after_drain; by destruct (dt_drain d)|]. by repeat split.
Qed.

(** The object and the lines written are all there is in the world. *)
#[local] Instance sample_mutex : IMutex (Diag * list (list Z)) := {| mutex_lock _ w := (true, w); mutex_unlock w := w |}.
#[local] Instance sample_host : DiagsHost (Diag * list (list Z)) := {|
  the_diags w := w.1; put_diags d w := (d, w.2); drain_write line w := (w.1, w.2 ++ [line]) |}.

(** Task 0 ran for 20000 microseconds, one message waits, and it is the last cycle before the
    memory report. *)
Definition diag_env : Env (Diag * list (list Z)) := idle_env _ (fun _ _ => True).

Lemma sample_host_ok : diags_host_ok diag_env.
Proof.
  by split; cbn.
Qed.

Definition overdue_state : Shared (Diag * list (list Z)) :=
  let d := set_tickCount 99 (setTelemetryDrain true (setMonitoredTasks [0; 1] (new_diag false 10000))) in
  let h := boot_shared diag_env (d, []) in
  put_sh_timer 0 (Timer true 20000 0 empty_window kDefaultWindowUs 0 empty_report)
    (set_telemetry (default (sh_telemetry h) (log_entry SYSTEM (text "Pulse #1") STATUS 500000 (sh_telemetry h))) h).

Lemma overdue_message : telemetry_rep (sh_telemetry overdue_state) [message_of SYSTEM (text "Pulse #1") STATUS 500000].
Proof.
  destruct (log_entry_ok SYSTEM (text "Pulse #1") STATUS 500000 (new_telemetry false) [] (new_telemetry_rep false)
    ltac:(repeat constructor; discriminate)) as (l & E & Hl & _).
  change (sh_telemetry overdue_state) with (default (new_telemetry false) (log_entry SYSTEM (text "Pulse #1") STATUS 500000 (new_telemetry false))).
  rewrite E. exact Hl.
Qed.

Lemma diagnostics_cycle_witness :
  let h' := diag_callback diag_env 7 overdue_state in
  logger_holds (sh_log h') [LogEntry SENSOR_ERROR 0 (f_of_Z 20000); LogEntry WATCHDOG_KICK 0 (f_of_Z 0)] /\
  telemetry_rep (sh_telemetry h') [] /\ (sh_world h').2 = [text "[500][System] Pulse #1" ++ [10%Z]] /\
  dt_tickCount (sh_world h').1 = 0%Z.
Proof.
  destruct (diagnostics_cycle diag_env 7 overdue_state [] [message_of SYSTEM (text "Pulse #1") STATUS 500000])
    as (Hl & Ht & Hw & _); [vm_compute; split; [discriminate|reflexivity]|exact new_logger_holds|exact overdue_message|].
  split; [exact Hl|]. split; [exact Ht|]. rewrite Hw. split; vm_compute; reflexivity.
Defined.
