(* ===== verification/Tasks.v ===== *)
(** * The task interfaces ([osal/tasks/])

    What a task has by inheritance: the constant functions a class declares when it overrides
    nothing, the registry of its devices, and the blocking loop for a system without kernel. *)

From S2P Require Import Prelude Kernel Sched Safety.

(** ** Defaults ([IScheduledTask.h], [IBackgroundTask.h], [ICrunchTask.h]) *)

(** A scheduled task has to declare its period. *)
Definition scheduled_desc (periodUs : Z) : TaskDesc := Desc true false periodUs 0 255 0 0 0 true.

Definition background_desc : TaskDesc := Desc false false 0 0 0 1000 0 0 true.

Definition crunch_desc (crunchPeriodUs maxIterationUs : Z) : TaskDesc := Desc false false 0 0 0 0 crunchPeriodUs maxIterationUs true.

(** ** Devices ([ITask.h]) *)

Definition kMaxDevices : nat := 16.

(** A device is a number, a null pointer [None]. *)
Record Devices := DeviceTable {
  m_devices : list (option nat);
  m_deviceCount : nat;
}.

Definition new_devices : Devices := DeviceTable (replicate kMaxDevices None) 0.

Definition addDevice (device : option nat) (t : Devices) : option (OpResult * Devices) :=
  match device with
  | None => Some (OP_NULL_ARG, t)
  | Some _ =>
      if decide (kMaxDevices <= m_deviceCount t) then Some (OP_FULL, t)
      else
        devices ← store (m_devices t) (m_deviceCount t) device;
        Some (OP_OK, DeviceTable devices (S (m_deviceCount t)))
  end.

Definition device (idx : nat) (t : Devices) : option (option nat) :=
  if decide (idx < m_deviceCount t) then load (m_devices t) idx else Some None.

Definition deviceCount (t : Devices) : nat := m_deviceCount t.

(** Calls in a row. *)
Fixpoint add_devices (devices : list (option nat)) (t : Devices) : option (list OpResult * Devices) :=
  match devices with
  | [] => Some ([], t)
  | dev :: devices =>
      '(r, t) ← addDevice dev t;
      '(rs, t) ← add_devices devices t;
      Some (r :: rs, t)
  end.

(** ** The blocking loop *)

(** [run] for [n] turns of its endless loop; [getTime] is the platform's clock. *)
Fixpoint task_turns {W} (env : Env W) (tid n : nat) (h : Shared W) : Shared W :=
  match n with
  | O => h
  | S n =>
      let now := env_clock env (sh_reads h) in
      task_turns env tid n (env_tick env tid now (set_reads (S (sh_reads h)) h))
  end.

Definition task_run {W} (env : Env W) (tid n : nat) (h : Shared W) : Shared W := task_turns env tid n (env_init env tid h).

(** ** The registry holds a list *)

(** A pointer that is not null. *)
Definition pointee (dev : option nat) : list nat := match dev with Some x => [x] | None => [] end.

(** [l] are the devices that were taken. *)
Record devices_hold (t : Devices) (l : list nat) : Prop := {
  dh_count : m_deviceCount t = length l;
  dh_bound : length l <= kMaxDevices;
  dh_table : m_devices t = (Some <$> l) ++ replicate (kMaxDevices - length l) None;
}.

(** What a call answers when [n] devices are registered, and what it takes. *)
Definition device_answer (n : nat) (dev : option nat) : OpResult :=
  match dev with None => OP_NULL_ARG | Some _ => if decide (kMaxDevices <= n) then OP_FULL else OP_OK end.

Fixpoint device_answers (n : nat) (devices : list (option nat)) : list OpResult :=
  match devices with
  | [] => []
  | dev :: devices =>
      device_answer n dev :: device_answers (if decide (device_answer n dev = OP_OK) then S n else n) devices
  end.

Lemma new_devices_hold : devices_hold new_devices [].
Proof. split; [done|apply Nat.le_0_l|done]. Qed.

Lemma addDevice_ok dev t l :
  devices_hold t l ->
  exists t', addDevice dev t = Some (device_answer (length l) dev, t') /\ devices_hold t' (take kMaxDevices (l ++ pointee dev)).
Proof.
  intros [Hc Hb Ht]. destruct dev as [x|]; unfold addDevice, device_answer; cbn [pointee].
  - rewrite Hc. destruct (decide (kMaxDevices <= length l)) as [Hfull|Hroom].
    + exists t. split; [done|]. rewrite take_app_le, firstn_all2 by lia. by split.
    + rewrite Ht. replace (kMaxDevices - length l) with (S (kMaxDevices - S (length l))) by lia. cbn [replicate].
      pose proof (store_middle (Some <$> l) None (replicate (kMaxDevices - S (length l)) None) (Some x)) as E.
      rewrite length_fmap in E. rewrite E. cbn [mbind option_bind]. eexists. split; [done|].
      rewrite firstn_all2 by (rewrite length_app; simpl; lia). split; cbn [m_deviceCount m_devices];
        rewrite ?length_app; cbn [length]; try lia. rewrite fmap_app, <- app_assoc. cbn. do 3 f_equal. lia.
  - exists t. split; [done|]. rewrite app_nil_r, firstn_all2 by lia. by split.
Qed.

Lemma device_ok t l i : devices_hold t l -> device i t = Some (l !! i) /\ deviceCount t = length l.
Proof.
  intros [Hc Hb Ht]. split; [|done]. unfold device, load. rewrite Hc, Ht. case_decide as Hi.
  - rewrite lookup_app_l by (by rewrite length_fmap). rewrite list_lookup_fmap.
    by destruct (lookup_lt_is_Some_2 l i Hi) as [x ->].
  - by rewrite lookup_ge_None_2 by lia.
Qed.

Lemma take_take_app {A} n (a b : list A) : take n (take n a ++ b) = take n (a ++ b).
Proof.
  destruct (decide (length a <= n)); [by rewrite (firstn_all2 (n:=n) a) by lia|].
  rewrite (take_app_le (take n a)), (take_app_le a), take_take by len. by rewrite Nat.min_id.
Qed.

Lemma add_devices_ok devices t l :
  devices_hold t l ->
  exists t', add_devices devices t = Some (device_answers (length l) devices, t') /\
    devices_hold t' (take kMaxDevices (l ++ omap id devices)).
Proof.
  revert t l. induction devices as [|dev devices IH]; intros t l Ht.
  { exists t. split; [done|]. rewrite app_nil_r, firstn_all2 by apply Ht. done. }
  cbn [add_devices device_answers]. destruct (addDevice_ok dev t l Ht) as (t1 & -> & H1). cbn [mbind option_bind].
  destruct (IH t1 _ H1) as (t' & E & H'). cbn [omap list_omap id].
  assert (Hn : length (take kMaxDevices (l ++ pointee dev)) =
    if decide (device_answer (length l) dev = OP_OK) then S (length l) else length l).
  { pose proof (dh_bound _ _ Ht). rewrite length_take, length_app. unfold device_answer.
    destruct dev; cbn [pointee length]; [|by rewrite decide_False by done; lia].
    destruct (decide (kMaxDevices <= length l)); [rewrite decide_False by done|rewrite decide_True by done]; lia. }
  rewrite Hn in E. rewrite E. cbn [mbind option_bind]. exists t'. split; [done|].
  rewrite take_take_app, <- app_assoc in H'. by destruct dev.
Qed.

Lemma task_turns_ok {W} (env : Env W) tid n h :
  env_ok env -> shared_ok env h -> shared_ok env (task_turns env tid n h) /\ sh_reads h + n <= sh_reads (task_turns env tid n h).
Proof.
  intros Henv. revert h. induction n as [|n IH]; intros h Hh; cbn [task_turns]; [split; [done|lia]|].
  destruct (eo_tick _ Henv tid (env_clock env (sh_reads h))) as [Ht Hr _].
  destruct (IH (env_tick env tid (env_clock env (sh_reads h)) (set_reads (S (sh_reads h)) h))) as [H1 H2].
  { apply Ht. by destruct Hh; split. }
  split; [done|]. specialize (Hr (set_reads (S (sh_reads h)) h)). cbn [set_reads sh_reads] in *. lia.
Qed.

(** ** What is shown *)

(** The registry never writes outside its table: after any sequence of calls it holds the first
    sixteen devices that were not null, in order, each call answered as it should be, and
    [device] gives null from [deviceCount] on. *)
Theorem devices_registered (devices : list (option nat)) :
  exists t, add_devices devices new_devices = Some (device_answers 0 devices, t) /\
    let l := take kMaxDevices (omap id devices) in
    deviceCount t = length l /\ deviceCount t <= kMaxDevices /\ (forall i, device i t = Some (l !! i)).
Proof.
  destruct (add_devices_ok devices new_devices [] new_devices_hold) as (t & E & Ht). exists t. split; [exact E|]. cbv zeta.
  destruct (device_ok t _ 0 Ht) as [_ Hc]. rewrite Hc. split; [done|]. split; [apply Ht|]. intros i. by apply device_ok.
Qed.

(** The blocking loop keeps the shared state well formed for any number of turns, and reads the
    clock in each. *)
Theorem task_run_ok {W} (env : Env W) (tid n : nat) (h : Shared W) :
  env_ok env -> shared_ok env h ->
  shared_ok env (task_run env tid n h) /\ sh_reads h + n <= sh_reads (task_run env tid n h).
Proof.
  intros Henv Hh. destruct (eo_init _ Henv tid) as [Hi Hr _]. destruct (task_turns_ok env tid n _ Henv (Hi h Hh)) as [H1 H2].
  split; [exact H1|]. specialize (Hr h). unfold task_run. lia.
Qed.

Example seventeen_devices :
  (fun r => (drop 14 r.1, deviceCount r.2)) <$> add_devices (None :: (Some <$> seq 0 17)) new_devices =
    Some ([OP_OK; OP_OK; OP_OK; OP_FULL], 16).
Proof. vm_compute. reflexivity. Qed.
