(* ===== verification/Strto.v ===== *)
(** * [strtol] and [strtof]

    The two conversions of the C library the sources call, in the "C" locale and base 10.
    A string is the list of its characters before the terminator; [None] is "no conversion"
    (the end pointer is the start), and the list in the result is what the end pointer
    points to. A number is rounded to the nearest float, ties to even. *)

From Stdlib Require String.
From S2P Require Import Prelude Float32 Decimal.
Import String.StringSyntax.

(** ** Lexical classes *)

Definition space_char (c : Z) : bool := bool_decide (c = 32 \/ 9 <= c <= 13)%Z.
Definition digit_char (c : Z) : bool := bool_decide (48 <= c <= 57)%Z.

(** The value of a hexadecimal digit. *)
Definition hex_digit (c : Z) : option Z :=
  (if decide (48 <= c <= 57) then Some (c - 48)
   else if decide (97 <= c <= 102) then Some (c - 87)
   else if decide (65 <= c <= 70) then Some (c - 55)
   else None)%Z.

Definition lower (c : Z) : Z := if decide (65 <= c <= 90)%Z then (c + 32)%Z else c.

(** [isalnum] or an underscore. *)
Definition word_char (c : Z) : bool :=
  digit_char c || bool_decide (97 <= lower c <= 122)%Z || bool_decide (c = 95)%Z.

(** The longest prefix in a class, and the rest. *)
Fixpoint span (p : Z -> bool) (s : list Z) : list Z * list Z :=
  match s with
  | c :: s' => if p c then let '(x, y) := span p s' in (c :: x, y) else ([], s)
  | [] => ([], [])
  end.

Definition skip_space (s : list Z) : list Z := (span space_char s).2.

Definition take_sign (s : list Z) : bool * list Z :=
  match s with
  | c :: s' => if decide (c = 45)%Z then (true, s') else if decide (c = 43)%Z then (false, s') else (false, s)
  | [] => (false, [])
  end.

(** ** [strtol] with a [long] of [w] bits *)

Definition strtol (w : Z) (s : list Z) : option (Z * list Z) :=
  let '(neg, s) := take_sign (skip_space s) in
  let '(ds, rest) := span digit_char s in
  match ds with
  | [] => None
  | _ =>
      let v := dec_value 0 ds in
      Some (if neg : bool then Z.max (- 2 ^ (w - 1)) (- v) else Z.min (2 ^ (w - 1) - 1) v, rest)%Z
  end.

(** ** [strtof] *)

(** [pre] (in lower case) is dropped from [s], whatever its case. *)
Fixpoint strip_prefix (pre s : list Z) : option (list Z) :=
  match pre, s with
  | [], _ => Some s
  | p :: pre, c :: s => if decide (lower c = p) then strip_prefix pre s else None
  | _, [] => None
  end.

(** The optional parenthesised characters behind "nan". *)
Definition nan_tail (s : list Z) : list Z :=
  match s with
  | 40%Z :: s' => match span word_char s' with (_, 41%Z :: rest) => rest | _ => s end
  | _ => s
  end.

(** An optional exponent: the letter, a sign and at least one digit. *)
Definition exponent (letter : Z) (s : list Z) : Z * list Z :=
  match s with
  | c :: s' =>
      if decide (lower c = letter) then
        let '(neg, s'') := take_sign s' in
        let '(ds, rest) := span digit_char s'' in
        match ds with
        | [] => (0%Z, s)
        | _ => (if neg : bool then (- dec_value 0 ds)%Z else dec_value 0 ds, rest)
        end
      else (0%Z, s)
  | [] => (0%Z, s)
  end.

(** The fraction behind an optional point. *)
Definition fraction (p : Z -> bool) (s : list Z) : list Z * list Z :=
  match s with
  | c :: s' => if decide (c = chr_dot) then span p s' else ([], s)
  | [] => ([], [])
  end.

(** The float nearest to [m * 10 ^ e]. *)
Definition decimal_float (neg : bool) (m e : Z) : float :=
  match m with
  | Z.pos m =>
      if decide (0 <= e)%Z then binary_round 24 128 neg (m * Z.to_pos (10 ^ e)) 0
      else SFdiv 24 128 (S754_finite neg m 0) (S754_finite false (Z.to_pos (10 ^ (- e))) 0)
  | _ => S754_zero neg
  end.

Definition strtof_decimal (neg : bool) (s : list Z) : option (float * list Z) :=
  let '(ip, s1) := span digit_char s in
  let '(fp, s2) := fraction digit_char s1 in
  match ip ++ fp with
  | [] => None
  | ds => let '(e, rest) := exponent 101 s2 in
          Some (decimal_float neg (dec_value 0 ds) (e - Z.of_nat (length fp)), rest)
  end.

(** The float nearest to [m * 2 ^ e]. *)
Definition binary_float (neg : bool) (m e : Z) : float :=
  match m with Z.pos m => binary_round 24 128 neg m e | _ => S754_zero neg end.

Definition hex_value (ds : list Z) : Z := foldl (fun acc c => (16 * acc + default 0 (hex_digit c))%Z) 0%Z ds.

(** Behind "0x"; [None] when there is no digit, and then only the "0" is a number. *)
Definition strtof_hex (neg : bool) (s : list Z) : option (float * list Z) :=
  let hex c := bool_decide (is_Some (hex_digit c)) in
  let '(ip, s1) := span hex s in
  let '(fp, s2) := fraction hex s1 in
  match ip ++ fp with
  | [] => None
  | ds => let '(e, rest) := exponent 112 s2 in
          Some (binary_float neg (hex_value ds) (e - 4 * Z.of_nat (length fp)), rest)
  end.

Definition strtof (s : list Z) : option (float * list Z) :=
  let '(neg, s) := take_sign (skip_space s) in
  match strip_prefix (text "infinity") s, strip_prefix (text "inf") s, strip_prefix (text "nan") s with
  | Some rest, _, _ => Some (S754_infinity neg, rest)
  | None, Some rest, _ => Some (S754_infinity neg, rest)
  | None, None, Some rest => Some (S754_nan, nan_tail rest)
  | None, None, None =>
      match strip_prefix (text "0x") s with
      | Some h => match strtof_hex neg h with Some r => Some r | None => strtof_decimal neg s end
      | None => strtof_decimal neg s
      end
  end.

Example strtol_samples :
  strtol 32 (text " -12 x") = Some (-12, text " x")%Z /\ strtol 32 (text "9999999999") = Some (2147483647, [])%Z /\
  strtol 32 (text "+x") = None.
Proof. vm_compute. auto. Qed.

Example strtof_samples :
  strtof (text " 1.5e1 ") = Some (f_of_Z 15, text " ") /\ strtof (text "-0x1.8p1z") = Some (f_of_Z (-3), text "z") /\
  strtof (text "5.2e-3") = Some (f_div (f_of_Z 52) (f_of_Z 10000), []) /\
  strtof (text "0xg") = Some (f_zero, text "xg") /\ strtof (text "INFx") = Some (S754_infinity false, text "x") /\
  strtof (text "1e99") = Some (S754_infinity false, []) /\ strtof (text ".") = None /\
  strtof (text "16777217") = Some (f_of_Z 16777216, []).
Proof. vm_compute. repeat split. Qed.

(** ** Printed numbers are read back *)

Lemma digit_char_true c : is_digit c -> digit_char c = true.
Proof. intros H. by apply bool_decide_eq_true_2. Qed.

(** A run of digits that ends at a character of another class. *)
Lemma span_digits ds rest :
  Forall is_digit ds -> (forall c, head rest = Some c -> digit_char c = false) -> span digit_char (ds ++ rest) = (ds, rest).
Proof.
  intros Hd Hr. induction Hd as [|d ds Hd _ IH]; cbn [app span].
  - destruct rest as [|c rest]; [done|]. cbn [span]. by rewrite (Hr c eq_refl).
  - by rewrite (digit_char_true d Hd), IH.
Qed.

Lemma digits_cons val : twenty_digits val -> exists d ds, digits val = d :: ds /\ is_digit d /\ Forall is_digit ds.
Proof.
  intros Hv. pose proof (digits_length_pos val Hv) as Hl. pose proof (digits_is_digit val) as Hd.
  destruct (digits val) as [|d ds]; [simpl in Hl; lia|]. inversion Hd. eauto.
Qed.

Lemma skip_space_blank s : skip_space (chr_space :: s) = skip_space s.
Proof. unfold skip_space. cbn [span]. change (space_char chr_space) with true. cbv iota. by destruct (span space_char s). Qed.

(** A string that starts with a printed number. *)
Lemma skip_space_digit d s : is_digit d -> skip_space (d :: s) = d :: s.
Proof.
  intros Hd. unfold skip_space. cbn [span]. unfold space_char. rewrite bool_decide_eq_false_2; [done|].
  unfold is_digit in Hd. lia.
Qed.

Lemma take_sign_digit d s : is_digit d -> take_sign (d :: s) = (false, d :: s).
Proof. intros Hd. unfold take_sign, is_digit in *. rewrite !decide_False by lia. done. Qed.

Definition sign_text (neg : bool) : list Z := if neg then [chr_minus] else [].

Lemma take_sign_text neg d s :
  is_digit d -> take_sign (skip_space (sign_text neg ++ d :: s)) = (neg, d :: s).
Proof.
  intros Hd. destruct neg; simpl app; [done|]. by rewrite skip_space_digit, take_sign_digit.
Qed.

Definition clamp (w v : Z) : Z := Z.max (- 2 ^ (w - 1)) (Z.min (2 ^ (w - 1) - 1) v).

Lemma strtol_int_text w v rest :
  (0 < w)%Z -> twenty_digits (Z.abs v) -> (forall c, head rest = Some c -> digit_char c = false) ->
  strtol w (int_text v ++ rest) = Some (clamp w v, rest).
Proof.
  intros Hw Hv Hr. destruct (digits_cons (Z.abs v) Hv) as (d & ds & E & Hd & Hds).
  pose proof (dec_value_digits (Z.abs v) Hv) as Hval. rewrite E in Hval.
  assert (H2 : (0 < 2 ^ (w - 1))%Z) by (apply Z.pow_pos_nonneg; lia).
  assert (Hspan : span digit_char ((d :: ds) ++ rest) = (d :: ds, rest)) by (apply span_digits; [by constructor|done]).
  cbn [app] in Hspan. unfold strtol, int_text, clamp. rewrite E, <- app_assoc.
  destruct (decide (v < 0)%Z); [fold (sign_text true)|fold (sign_text false)]; cbn [app];
    rewrite take_sign_text, Hspan, Hval by done; do 2 f_equal; lia.
Qed.

(** What follows the digits of a fixed-point number. *)
Definition point_text (fp : list Z) : list Z := match fp with [] => [] | _ => chr_dot :: fp end.

Lemma strip_prefix_digit p pre d s : is_digit d -> (57 < p)%Z -> strip_prefix (p :: pre) (d :: s) = None.
Proof.
  intros Hd Hp. cbn [strip_prefix]. rewrite decide_False; [done|]. unfold lower, is_digit in *.
  rewrite decide_False by lia. lia.
Qed.

Lemma strip_prefix_0x d ds fp :
  is_digit d -> Forall is_digit ds -> strip_prefix (text "0x") (d :: ds ++ point_text fp) = None.
Proof.
  intros Hd Hds. change (text "0x") with [48; 120]%Z. cbn [strip_prefix]. case_decide; [|done].
  destruct (ds ++ point_text fp) as [|c s] eqn:E; [done|]. rewrite decide_False; [done|].
  assert (Hc : is_digit c \/ c = chr_dot).
  { destruct Hds as [|x xs Hx _]; [|simplify_eq/=; by left]. destruct fp; simplify_eq/=; by right. }
  unfold lower. unfold is_digit, chr_dot in Hc. rewrite decide_False by lia. lia.
Qed.

Lemma strtof_fixed neg d ds fp :
  is_digit d -> Forall is_digit ds -> Forall is_digit fp ->
  strtof (sign_text neg ++ d :: ds ++ point_text fp) =
    Some (decimal_float neg (dec_value 0 (d :: ds ++ fp)) (- Z.of_nat (length fp)), []).
Proof.
  intros Hd Hds Hfp. unfold strtof. rewrite take_sign_text by done.
  change (text "infinity") with (105 :: text "nfinity")%Z. change (text "inf") with (105 :: text "nf")%Z.
  change (text "nan") with (110 :: text "an")%Z. rewrite !strip_prefix_digit, strip_prefix_0x by (done || lia).
  unfold strtof_decimal.
  assert (E1 : span digit_char ((d :: ds) ++ point_text fp) = (d :: ds, point_text fp)).
  { apply span_digits; [by constructor|]. by destruct fp; intros c [= <-]. }
  cbn [app] in E1. rewrite E1.
  assert (E2 : fraction digit_char (point_text fp) = (fp, [])).
  { destruct fp as [|f fs]; [done|]. cbn [point_text fraction]. rewrite decide_True by done.
    pose proof (span_digits (f :: fs) [] Hfp) as Hs. rewrite app_nil_r in Hs. by apply Hs. }
  rewrite E2. cbn [app exponent]. f_equal.
Qed.
