(* ===== verification/Parser.v ===== *)
(** * The text command parser ([logic/CommandParser.h])

    Bytes are collected into a line; a newline or carriage return ends it and the line is
    parsed as "id device value". The template parameters and the width of [long] are
    variables. The value of a command is its bit pattern, as in [Protocol]. *)

From Stdlib Require String.
From S2P Require Import Prelude Protocol Float32 Decimal Text Strto.
Import String.StringSyntax.

Definition chr_return : Z := 13.
Definition chr_tab : Z := 9.

Section parser.
(** [CfgMaxLineLen], [CfgMaxValidCommandID] and the bits of [long]. *)
Context (kMaxLineLen : nat) (kMaxValidCommandID long_bits : Z).

Record CommandParser := Parser {
  p_buf : list Z;
  p_len : nat;
  p_pending : Command;
  p_hasPending : bool;
}.

(** The constructor; the buffer is not initialised by the code. *)
Definition new_parser : CommandParser := Parser (replicate kMaxLineLen 0%Z) 0 (Cmd 0 0 0) false.

Definition set_len (n : nat) (p : CommandParser) : CommandParser :=
  Parser (p_buf p) n (p_pending p) (p_hasPending p).

(** [*end != ' ' && *end != '\t'] fails: a separator follows. *)
Definition separator (rest : list Z) : bool :=
  match rest with c :: _ => bool_decide (c = chr_space \/ c = chr_tab) | [] => false end.

Definition parseLine (p : CommandParser) : option (bool * CommandParser) :=
  cursor ← c_string (p_buf p);
  match strtol long_bits cursor with
  | None => Some (false, p)
  | Some (rawId, cursor) =>
      if negb (separator cursor) then Some (false, p)
      else
        match strtol long_bits cursor with
        | None => Some (false, p)
        | Some (rawDevice, cursor) =>
            if negb (separator cursor) then Some (false, p)
            else
              match strtof cursor with
              | None => Some (false, p)
              | Some (rawValue, _) =>
                  if decide (rawId < 0 \/ kMaxValidCommandID < rawId)%Z then Some (false, p)
                  else Some (true, Parser (p_buf p) (p_len p) (Cmd (u8 rawId) (u8 rawDevice) (bits_of_float rawValue)) true)
              end
        end
  end.

Definition parser_feedByte (byte : Z) (p : CommandParser) : option (bool * CommandParser) :=
  if decide (byte = chr_newline \/ byte = chr_return) then
    if decide (0 < p_len p) then
      buf ← store (p_buf p) (p_len p) 0%Z;
      '(ok, p) ← parseLine (Parser buf (p_len p) (p_pending p) (p_hasPending p));
      Some (ok, set_len 0 p)
    else Some (false, p)
  else if decide (kMaxLineLen - 1 <= p_len p) then Some (false, set_len 0 p)
  else
    buf ← store (p_buf p) (p_len p) byte;
    Some (false, Parser buf (S (p_len p)) (p_pending p) (p_hasPending p)).

Definition parser_getCommand (p : CommandParser) : option Command * CommandParser :=
  if negb (p_hasPending p) then (None, p)
  else (Some (p_pending p), Parser (p_buf p) (p_len p) (p_pending p) false).

Definition parser_reset (p : CommandParser) : CommandParser :=
  Parser (p_buf p) 0 (p_pending p) false.

(** ** What the parser promises: lines and a pending command *)

(** The command a line denotes. *)
Definition parse_command (line : list Z) : option Command :=
  '(rawId, cursor) ← strtol long_bits line;
  if negb (separator cursor) then None
  else
    '(rawDevice, cursor) ← strtol long_bits cursor;
    if negb (separator cursor) then None
    else
      '(rawValue, _) ← strtof cursor;
      if decide (0 <= rawId <= kMaxValidCommandID)%Z then Some (Cmd (u8 rawId) (u8 rawDevice) (bits_of_float rawValue))
      else None.

(** The characters before the first NUL. *)
Fixpoint before_nul (s : list Z) : list Z :=
  match s with
  | [] => []
  | c :: s => if decide (c = 0)%Z then [] else c :: before_nul s
  end.

(** The line so far and the command that waits. *)
Record line_spec := Lines {
  ls_line : list Z;
  ls_pending : option Command;
}.

Definition line_step (byte : Z) (s : line_spec) : bool * line_spec :=
  if decide (byte = chr_newline \/ byte = chr_return) then
    match ls_line s with
    | [] => (false, s)
    | line =>
        match parse_command (before_nul line) with
        | Some c => (true, Lines [] (Some c))
        | None => (false, Lines [] (ls_pending s))
        end
    end
  else if decide (kMaxLineLen - 1 <= length (ls_line s)) then (false, Lines [] (ls_pending s))
  else (false, Lines (ls_line s ++ [byte]) (ls_pending s)).

Record parser_rep (p : CommandParser) (s : line_spec) : Prop := {
  pr_buf : length (p_buf p) = kMaxLineLen;
  pr_len : p_len p = length (ls_line s);
  pr_bound : length (ls_line s) <= kMaxLineLen - 1;
  pr_line : exists rest, p_buf p = ls_line s ++ rest;
  pr_pending : if p_hasPending p then ls_pending s = Some (p_pending p) else ls_pending s = None;
}.

Hypothesis Hmax : 0 < kMaxLineLen.

Lemma new_parser_rep : parser_rep new_parser (Lines [] None).
Proof. split; simpl; rewrite ?length_replicate; try done; [lia|by eexists]. Qed.

Lemma c_string_before_nul s rest : c_string (s ++ 0%Z :: rest) = Some (before_nul s).
Proof.
  induction s as [|c s IH]; cbn [app c_string before_nul]; [done|].
  case_decide; [done|]. by rewrite IH.
Qed.

Lemma parseLine_ok p line rest :
  p_buf p = line ++ 0%Z :: rest ->
  parseLine p = Some (match parse_command (before_nul line) with
    | Some c => (true, Parser (p_buf p) (p_len p) c true)
    | None => (false, p)
    end).
Proof.
  intros Hb. unfold parseLine, parse_command. rewrite Hb, c_string_before_nul. cbn [mbind option_bind]. rewrite <- Hb.
  destruct (strtol long_bits (before_nul line)) as [[id c1]|]; cbn [mbind option_bind]; [|done].
  destruct (separator c1); cbn [negb]; [|done].
  destruct (strtol long_bits c1) as [[dev c2]|]; cbn [mbind option_bind]; [|done].
  destruct (separator c2); cbn [negb]; [|done].
  destruct (strtof c2) as [[v c3]|]; cbn [mbind option_bind]; [|done].
  repeat case_decide; try done; lia.
Qed.

Lemma parser_feedByte_ok byte p s :
  parser_rep p s ->
  exists p', parser_feedByte byte p = Some ((line_step byte s).1, p') /\ parser_rep p' (line_step byte s).2.
Proof.
  intros [Hb Hl Hn [rest Hline] Hp]. unfold parser_feedByte, line_step. rewrite Hl.
  assert (Hrest : 0 < length rest) by (apply (f_equal length) in Hline; rewrite length_app in Hline; lia).
  destruct rest as [|x rest]; [simpl in Hrest; lia|].
  destruct (decide (byte = chr_newline \/ byte = chr_return)).
  - destruct (ls_line s) as [|c line] eqn:El.
    { exists p. rewrite decide_False by (simpl; lia). split; [done|].
      split; cbn [snd]; rewrite ?El; simpl; try done; try lia; by exists (x :: rest). }
    rewrite decide_True by (simpl; lia). rewrite Hline, store_middle. cbn [mbind option_bind].
    rewrite (parseLine_ok _ (c :: line) rest) by done. cbn [mbind option_bind].
    destruct (parse_command _) as [cmd|]; cbn [fst snd]; eexists; (split; [done|]);
      split; cbn; try done; try lia; try (by eexists);
      by rewrite <- Hb, Hline, !length_app.
  - destruct (decide (kMaxLineLen - 1 <= length (ls_line s))) as [Hfull|Hroom]; cbn [fst snd].
    + eexists. split; [done|]. split; cbn; try done; [lia|by eexists].
    + rewrite Hline, store_middle. cbn [mbind option_bind]. eexists. split; [done|].
      split; cbn; rewrite ?length_app; simpl; try done; try lia.
      * rewrite <- Hb, Hline, !length_app. simpl. lia.
      * exists rest. by rewrite <- app_assoc.
Qed.

Lemma parser_getCommand_ok p s :
  parser_rep p s -> exists p', parser_getCommand p = (ls_pending s, p') /\ parser_rep p' (Lines (ls_line s) None).
Proof.
  intros [Hb Hl Hn Hline Hp]. unfold parser_getCommand. destruct (p_hasPending p) eqn:E; cbn [negb].
  - rewrite Hp. eexists. split; [done|]. by split.
  - rewrite Hp. exists p. split; [done|]. split; try done. by rewrite E.
Qed.

Lemma parser_reset_ok p s : parser_rep p s -> parser_rep (parser_reset p) (Lines [] None).
Proof. intros [Hb _ _ _ _]. split; cbn; try done; [lia|by eexists]. Qed.

(** ** Sequences of operations *)

Inductive parser_op := FeedByte (byte : Z) | GetCommand | ResetParser.

Inductive parser_answer := AnsReady (b : bool) | AnsCommand (c : option Command) | AnsUnit.

Fixpoint parser_run (ops : list parser_op) (p : CommandParser) : option (list parser_answer * CommandParser) :=
  match ops with
  | [] => Some ([], p)
  | op :: ops =>
      '(a, p) ← match op with
        | FeedByte b => '(r, p) ← parser_feedByte b p; Some (AnsReady r, p)
        | GetCommand => let '(c, p) := parser_getCommand p in Some (AnsCommand c, p)
        | ResetParser => Some (AnsUnit, parser_reset p)
        end;
      '(answers, p) ← parser_run ops p;
      Some (a :: answers, p)
  end.

Fixpoint line_run (ops : list parser_op) (s : line_spec) : list parser_answer :=
  match ops with
  | [] => []
  | FeedByte b :: ops => AnsReady (line_step b s).1 :: line_run ops (line_step b s).2
  | GetCommand :: ops => AnsCommand (ls_pending s) :: line_run ops (Lines (ls_line s) None)
  | ResetParser :: ops => AnsUnit :: line_run ops (Lines [] None)
  end.

Lemma parser_run_ok ops p s :
  parser_rep p s -> exists p', parser_run ops p = Some (line_run ops s, p').
Proof.
  revert p s. induction ops as [|op ops IH]; intros p s Hr; cbn [parser_run line_run]; [by exists p|].
  destruct op as [b| |].
  - destruct (parser_feedByte_ok b p s Hr) as (p1 & -> & Hr1). cbn [mbind option_bind].
    destruct (IH p1 _ Hr1) as (p2 & ->). by exists p2.
  - destruct (parser_getCommand_ok p s Hr) as (p1 & -> & Hr1). cbn [mbind option_bind].
    destruct (IH p1 _ Hr1) as (p2 & ->). by exists p2.
  - destruct (IH _ _ (parser_reset_ok p s Hr)) as (p2 & E). cbn [mbind option_bind]. rewrite E. by exists p2.
Qed.
End parser.

(** ** Lines of printed fields *)

(** Characters that neither end a line nor a string. *)
Definition line_char (c : Z) : Prop := c <> 0%Z /\ c <> chr_newline /\ c <> chr_return.

Lemma digit_line_char c : is_digit c -> line_char c.
Proof. unfold is_digit, line_char, chr_newline, chr_return. lia. Qed.

Lemma digits_line_char ds : Forall is_digit ds -> Forall line_char ds.
Proof. intros H. eapply Forall_impl; [exact H|apply digit_line_char]. Qed.

Lemma int_text_line_char v : Forall line_char (int_text v).
Proof.
  apply Forall_app_2; [case_decide; repeat constructor; discriminate|]. apply digits_line_char, digits_is_digit.
Qed.

Lemma padded_is_digit k val : Forall is_digit (padded k val).
Proof.
  apply Forall_app_2; [|apply digits_is_digit]. apply Forall_replicate. unfold is_digit, chr_zero. lia.
Qed.

Lemma float_text_line_char d parts : Forall line_char (float_text d parts).
Proof.
  destruct parts as [[neg i] f]. unfold float_text. repeat apply Forall_app_2.
  - destruct neg; repeat constructor; discriminate.
  - apply digits_line_char, digits_is_digit.
  - case_decide; [|constructor]. constructor; [repeat constructor; discriminate|].
    apply digits_line_char, padded_is_digit.
Qed.

(** The line of a command, as the NACK response prints its fields. *)
Definition command_line (id dev : Z) (d : nat) (value : bool * Z * Z) : list Z :=
  int_text id ++ [chr_space] ++ int_text dev ++ [chr_space] ++ float_text d value.

Lemma command_line_chars id dev d value : Forall line_char (command_line id dev d value).
Proof.
  assert (Hs : Forall line_char [chr_space]) by (repeat constructor; discriminate).
  unfold command_line. rewrite !Forall_app. auto using int_text_line_char, float_text_line_char.
Qed.

Lemma before_nul_line s : Forall line_char s -> before_nul s = s.
Proof.
  induction 1 as [|c s [Hc _] _ IH]; cbn [before_nul]; [done|]. rewrite decide_False by done. by rewrite IH.
Qed.

(** The number a fixed-point text stands for, as a float. *)
Definition fixed_float (d : nat) (value : bool * Z * Z) : float :=
  let '(neg, i, f) := value in decimal_float neg (i * 10 ^ Z.of_nat d + f) (- Z.of_nat d).

(** The parts a text with [d] decimals can have. *)
Definition fixed_parts (d : nat) (value : bool * Z * Z) : Prop :=
  let '(_, i, f) := value in twenty_digits i /\ twenty_digits f /\ (if decide (0 < d) then (f < 10 ^ Z.of_nat d)%Z else f = 0%Z).

Lemma strtof_float_text d value :
  fixed_parts d value -> strtof (chr_space :: float_text d value) = Some (fixed_float d value, []).
Proof.
  destruct value as [[neg i] f]. intros (Hi & Hf & Hd).
  assert (Hskip : forall s, strtof (chr_space :: s) = strtof s).
  { intros s. unfold strtof. by rewrite skip_space_blank. }
  rewrite Hskip. destruct (digits_cons i Hi) as (x & xs & E & Hx & Hxs).
  pose proof (dec_value_digits i Hi) as Hv. rewrite E in Hv. unfold float_text, fixed_float. rewrite E. fold (sign_text neg).
  case_decide as Hpos.
  - assert (Hl : length (padded d f) = d) by (apply padded_length, digits_length; [done|lia|done]).
    pose proof (strtof_fixed neg x xs (padded d f) Hx Hxs (padded_is_digit d f)) as Hs.
    change (x :: xs ++ padded d f) with ((x :: xs) ++ padded d f) in Hs.
    rewrite dec_value_app, Hv, dec_value_acc, dec_value_padded, Hl in Hs by done.
    rewrite <- Hs. f_equal. f_equal. cbn [app]. f_equal. f_equal.
    destruct (padded d f); [simpl in Hl; lia|done].
  - subst f. replace d with 0 by lia.
    pose proof (strtof_fixed neg x xs [] Hx Hxs ltac:(constructor)) as Hs.
    cbn [point_text] in Hs. rewrite !app_nil_r, Hv in Hs. rewrite Z.mul_1_r, Z.add_0_r. rewrite app_nil_r. exact Hs.
Qed.

Section printed.
Context (kMaxLineLen : nat) (kMaxValidCommandID long_bits : Z).
Hypothesis Hbyte : (0 <= kMaxValidCommandID <= 255)%Z.
Hypothesis Hlong : (32 <= long_bits)%Z.

(** A [long] holds what the parser prints and reads. *)
Lemma clamp_small v : (- 2 ^ 31 <= v < 2 ^ 31)%Z -> clamp long_bits v = v.
Proof.
  intros Hv. unfold clamp. assert (2 ^ 31 <= 2 ^ (long_bits - 1))%Z by (apply Z.pow_le_mono_r; lia). lia.
Qed.

Lemma int_twenty_digits v : (- 2 ^ 31 <= v < 2 ^ 31)%Z -> twenty_digits (Z.abs v).
Proof. intros Hv. apply u32_twenty_digits. unfold in_word. lia. Qed.

Lemma parse_command_line id dev d value :
  (0 <= id <= kMaxValidCommandID)%Z -> (- 2 ^ 31 <= dev < 2 ^ 31)%Z -> fixed_parts d value ->
  parse_command kMaxValidCommandID long_bits (command_line id dev d value) =
    Some (Cmd id (u8 dev) (bits_of_float (fixed_float d value))).
Proof.
  intros Hid Hdev Hval. unfold parse_command, command_line.
  assert (Hsp : forall s c, head (chr_space :: s) = Some c -> digit_char c = false) by (by intros s c [= <-]).
  rewrite (strtol_int_text long_bits id _) by first [lia | apply int_twenty_digits; lia | apply Hsp].
  rewrite clamp_small by lia. cbn [mbind option_bind app separator].
  rewrite bool_decide_eq_true_2 by (by left). cbn [negb].
  assert (Hskip : forall s, strtol long_bits (chr_space :: s) = strtol long_bits s).
  { intros s. unfold strtol. by rewrite skip_space_blank. }
  rewrite Hskip, (strtol_int_text long_bits dev _) by first [lia | apply int_twenty_digits; lia | apply Hsp].
  rewrite clamp_small by lia. cbn [mbind option_bind separator].
  rewrite bool_decide_eq_true_2 by (by left). cbn [negb].
  rewrite strtof_float_text by done. cbn [mbind option_bind].
  rewrite decide_True by lia. rewrite (wrap_id 8 id) by (unfold in_word; lia). done.
Qed.

(** Feeding the characters of a line. *)
Lemma line_run_chars s pre pend ops :
  Forall line_char s -> length (pre ++ s) <= kMaxLineLen - 1 ->
  line_run kMaxLineLen kMaxValidCommandID long_bits ((FeedByte <$> s) ++ ops) (Lines pre pend) =
    replicate (length s) (AnsReady false) ++
    line_run kMaxLineLen kMaxValidCommandID long_bits ops (Lines (pre ++ s) pend).
Proof.
  intros Hs. revert pre. induction Hs as [|c s (H0 & Hn & Hr) Hs IH]; intros pre Hl.
  { by rewrite app_nil_r. }
  rewrite length_app in Hl. cbn [length] in Hl. cbn [fmap list_fmap app line_run].
  unfold line_step. cbn [ls_line ls_pending]. rewrite decide_False by tauto. rewrite decide_False by lia.
  cbn [fst snd length replicate app]. f_equal.
  rewrite IH by (rewrite !length_app; simpl; lia). by rewrite <- app_assoc.
Qed.
End printed.

(** ** Properties *)

(** C27 The parser is a line assembler with one waiting command: for every sequence of bytes,
    reads and resets, starting from the constructor, every answer is that of the
    specification (a line ends at a newline or carriage return and is parsed as "id device value" with an id
    up to the maximum; a command waits until it is read or replaced; a line that reaches the
    buffer's size is dropped and what follows starts a new one), and no access leaves the
    buffer. *)
Theorem parser_refines (kMaxLineLen : nat) (kMaxValidCommandID long_bits : Z) (ops : list parser_op) :
  0 < kMaxLineLen ->
  exists p, parser_run kMaxLineLen kMaxValidCommandID long_bits ops (new_parser kMaxLineLen) =
    Some (line_run kMaxLineLen kMaxValidCommandID long_bits ops (Lines [] None), p).
Proof. intros Hmax. by apply parser_run_ok, new_parser_rep. Qed.

Lemma parser_refines_witness :
  exists p, parser_run 64 3 32 (FeedByte <$> text "2 1 0.5") (new_parser 64) = Some (replicate 7 (AnsReady false), p).
Proof.
  destruct (parser_refines 64 3 32 (FeedByte <$> text "2 1 0.5")) as (p & E); [lia|].
  exists p. rewrite E. vm_compute. reflexivity.
Defined.

(** C28 A printed command is read back: from any parser at the start of a line, the fields in
    decimal (the value in fixed point), a space between them and a line end give exactly one
    command, at the line end, with this id, the device's low eight bits, and the float nearest
    to the printed value. *)
Theorem command_line_roundtrip (kMaxLineLen : nat) (kMaxValidCommandID long_bits : Z) (p : CommandParser)
    (pend : option Command) (id dev : Z) (d : nat) (value : bool * Z * Z) (term : Z) :
  0 < kMaxLineLen -> (0 <= kMaxValidCommandID <= 255)%Z -> (32 <= long_bits)%Z ->
  parser_rep kMaxLineLen p (Lines [] pend) ->
  (0 <= id <= kMaxValidCommandID)%Z -> (- 2 ^ 31 <= dev < 2 ^ 31)%Z -> fixed_parts d value ->
  term = chr_newline \/ term = chr_return ->
  let line := command_line id dev d value in
  length line < kMaxLineLen ->
  exists p', parser_run kMaxLineLen kMaxValidCommandID long_bits
      ((FeedByte <$> line) ++ [FeedByte term; GetCommand]) p =
    Some (replicate (length line) (AnsReady false) ++
          [AnsReady true; AnsCommand (Some (Cmd id (u8 dev) (bits_of_float (fixed_float d value))))], p').
Proof.
  intros Hmax Hbyte Hlong Hp Hid Hdev Hval Hterm line Hlen.
  assert (Hchars : Forall line_char line) by apply command_line_chars.
  destruct (parser_run_ok kMaxLineLen kMaxValidCommandID long_bits Hmax
    ((FeedByte <$> line) ++ [FeedByte term; GetCommand]) p _ Hp) as (p' & E).
  exists p'. rewrite E, line_run_chars by (simpl; done || lia). cbn [app line_run]. unfold line_step. cbn [ls_line].
  rewrite decide_True by done.
  destruct line as [|c l] eqn:El.
  { assert (Hnil : 0 < length (command_line id dev d value)) by (unfold command_line; rewrite !length_app; simpl; lia).
    unfold line in El. rewrite El in Hnil. simpl in Hnil. lia. }
  rewrite before_nul_line by done. rewrite <- El. unfold line.
  rewrite parse_command_line by done. done.
Qed.

Lemma command_line_roundtrip_witness :
  exists p', parser_run 64 3 32 ((FeedByte <$> text "2 300 -12.50") ++ [FeedByte 10%Z; GetCommand]) (new_parser 64) =
    Some (replicate 12 (AnsReady false) ++
          [AnsReady true; AnsCommand (Some (Cmd 2 44 (bits_of_float (f_div (f_of_Z (-25)) (f_of_Z 2)))))], p').
Proof.
  destruct (command_line_roundtrip 64 3 32 (new_parser 64) None 2 300 2 (true, 12, 50)%Z chr_newline) as (p' & E).
  all: try (vm_compute; intuition congruence || lia).
  - apply new_parser_rep. lia.
  - exists p'. exact E.
Defined.

(** The end of an overlong line is taken for a line of its own. *)
Example overlong_line_tail :
  exists p, parser_run 64 3 32 ((FeedByte <$> replicate 64 120%Z ++ text "1 0 50") ++ [FeedByte 10%Z; GetCommand])
      (new_parser 64) =
    Some (replicate 70 (AnsReady false) ++ [AnsReady true; AnsCommand (Some (Cmd 1 0 (bits_of_float (f_of_Z 50))))], p).
Proof. eexists. vm_compute. reflexivity. Qed.
