(* ===== verification/Cli.v ===== *)
(** * The dual-mode line interface ([comms/CLI.h])

    Bytes of the stream are commands in text, or frames once the host has shaken hands. The
    stream is a class over its state ([hal/devices/IStream.h]). The CLI dispatches frames to
    a handler that owns it and calls back into it: its methods work on the pair of the
    CLI and the rest of the handler's state. *)

From S2P Require Import Prelude Cobs Frame Protocol Float32 Decimal Text Strto Parser.

(** ** Streams ([IStream.h]) *)

Class IStream (T : Type) := {
  stream_available : T -> nat;
  stream_read : nat -> T -> list Z * T;
  stream_write : list Z -> T -> T;
}.

(** A read gives at most as many bytes as were asked for. *)
Class StreamLaws (T : Type) `{!IStream T} := {
  read_bound n st : length (stream_read n st).1 <= n;
}.

(** [CommsMode.h] *)
Inductive CommsMode := TEXT | FRAMED.

#[global] Instance CommsMode_eq_dec : EqDecision CommsMode.
Proof. solve_decision. Defined.

Definition kReadBufSize : nat := 64.
Definition kMaxProbeSize : nat := 64.
#[global] Arguments kReadBufSize : simpl never.
#[global] Arguments kMaxProbeSize : simpl never.

Record CLI (T : Type) := Cli {
  c_stream : option T;
  c_parser : CommandParser;
  c_builder : LightweightStringBuilder;
  c_hasPending : bool;
  c_readBuf : list Z;
  c_mode : CommsMode;
  c_frameDecoder : FrameDecoder;
  c_framedCommand : Command;
  c_hasFramedCommand : bool;
  c_framedSeqNum : Z;
  c_handler : bool;
  c_router : bool;
  c_probeBuf : list Z;
  c_probeActive : bool;
  c_probeLen : nat;
}.
#[global] Arguments Cli {T}.
#[global] Arguments c_stream {T}.
#[global] Arguments c_parser {T}.
#[global] Arguments c_builder {T}.
#[global] Arguments c_hasPending {T}.
#[global] Arguments c_readBuf {T}.
#[global] Arguments c_mode {T}.
#[global] Arguments c_frameDecoder {T}.
#[global] Arguments c_framedCommand {T}.
#[global] Arguments c_hasFramedCommand {T}.
#[global] Arguments c_framedSeqNum {T}.
#[global] Arguments c_handler {T}.
#[global] Arguments c_router {T}.
#[global] Arguments c_probeBuf {T}.
#[global] Arguments c_probeActive {T}.
#[global] Arguments c_probeLen {T}.

Section cli.
(** [CfgMaxLineLen], [CfgMaxValidCommandID], the bits of [long], and the payload limit. *)
Context (kMaxLineLen : nat) (kMaxValidCommandID long_bits : Z) (MaxPayload : nat).
Context {T : Type} `{!IStream T}.
Abbreviation CLI := (CLI T).

(** The constructor; the arrays and the framed command are not initialised by the code. *)
Definition new_cli (stream : option T) : CLI :=
  Cli stream (new_parser kMaxLineLen) new_builder false (replicate kReadBufSize 0%Z) TEXT (new_decoder MaxPayload)
    (Cmd 0 0 0) false 0 false false (replicate kMaxProbeSize 0%Z) false 0.

(** Assignments to members. *)
Definition set_stream (st : T) (c : CLI) : CLI :=
  Cli (Some st) (c_parser c) (c_builder c) (c_hasPending c) (c_readBuf c) (c_mode c) (c_frameDecoder c)
    (c_framedCommand c) (c_hasFramedCommand c) (c_framedSeqNum c) (c_handler c) (c_router c) (c_probeBuf c)
    (c_probeActive c) (c_probeLen c).
Definition set_parser (p : CommandParser) (pending : bool) (c : CLI) : CLI :=
  Cli (c_stream c) p (c_builder c) pending (c_readBuf c) (c_mode c) (c_frameDecoder c)
    (c_framedCommand c) (c_hasFramedCommand c) (c_framedSeqNum c) (c_handler c) (c_router c) (c_probeBuf c)
    (c_probeActive c) (c_probeLen c).
Definition set_builder (b : LightweightStringBuilder) (c : CLI) : CLI :=
  Cli (c_stream c) (c_parser c) b (c_hasPending c) (c_readBuf c) (c_mode c) (c_frameDecoder c)
    (c_framedCommand c) (c_hasFramedCommand c) (c_framedSeqNum c) (c_handler c) (c_router c) (c_probeBuf c)
    (c_probeActive c) (c_probeLen c).
Definition set_readBuf (buf : list Z) (c : CLI) : CLI :=
  Cli (c_stream c) (c_parser c) (c_builder c) (c_hasPending c) buf (c_mode c) (c_frameDecoder c)
    (c_framedCommand c) (c_hasFramedCommand c) (c_framedSeqNum c) (c_handler c) (c_router c) (c_probeBuf c)
    (c_probeActive c) (c_probeLen c).
Definition set_decoder (d : FrameDecoder) (c : CLI) : CLI :=
  Cli (c_stream c) (c_parser c) (c_builder c) (c_hasPending c) (c_readBuf c) (c_mode c) d
    (c_framedCommand c) (c_hasFramedCommand c) (c_framedSeqNum c) (c_handler c) (c_router c) (c_probeBuf c)
    (c_probeActive c) (c_probeLen c).
Definition set_framed (cmd : Command) (has : bool) (seq : Z) (c : CLI) : CLI :=
  Cli (c_stream c) (c_parser c) (c_builder c) (c_hasPending c) (c_readBuf c) (c_mode c) (c_frameDecoder c)
    cmd has seq (c_handler c) (c_router c) (c_probeBuf c) (c_probeActive c) (c_probeLen c).
Definition set_probe (buf : list Z) (active : bool) (len : nat) (c : CLI) : CLI :=
  Cli (c_stream c) (c_parser c) (c_builder c) (c_hasPending c) (c_readBuf c) (c_mode c) (c_frameDecoder c)
    (c_framedCommand c) (c_hasFramedCommand c) (c_framedSeqNum c) (c_handler c) (c_router c) buf active len.

Definition hasStream (c : CLI) : bool := bool_decide (is_Some (c_stream c)).
Definition getMode (c : CLI) : CommsMode := c_mode c.
Definition getLastFramedSeqNum (c : CLI) : Z := c_framedSeqNum c.

Definition setProtocolHandler (handler : bool) (c : CLI) : CLI :=
  Cli (c_stream c) (c_parser c) (c_builder c) (c_hasPending c) (c_readBuf c) (c_mode c) (c_frameDecoder c)
    (c_framedCommand c) (c_hasFramedCommand c) (c_framedSeqNum c) handler (if handler then true else false)
    (c_probeBuf c) (c_probeActive c) (c_probeLen c).

(** ** Commands *)

Definition hasCommand (c : CLI) : bool :=
  if decide (c_mode c = TEXT) then c_hasPending c else c_hasFramedCommand c.

Definition getCommand (c : CLI) : option Command * CLI :=
  if decide (c_mode c = TEXT) then
    if negb (c_hasPending c) then (None, c)
    else
      let '(cmd, p) := parser_getCommand (c_parser c) in
      match cmd with
      | Some cmd => (Some cmd, set_parser p false c)
      | None => (None, set_parser p (c_hasPending c) c)
      end
  else if negb (c_hasFramedCommand c) then (None, c)
  else (Some (c_framedCommand c), set_framed (c_framedCommand c) false (c_framedSeqNum c) c).

(** ** Output *)

Definition flush (c : CLI) : option CLI :=
  match c_stream c with
  | None => Some c
  | Some st =>
      if decide (sb_length (c_builder c) = 0) then Some c
      else
        data ← load_all (c_str (c_builder c)) 0 (sb_length (c_builder c));
        b ← sb_clear (c_builder c);
        Some (set_builder b (set_stream (stream_write data st) c))
  end.

(** A null string is [None]. *)
Definition print (str : option (list Z)) (c : CLI) : CLI :=
  match c_stream c, str with
  | Some st, Some str => set_stream (stream_write str st) c
  | _, _ => c
  end.

Definition println (str : option (list Z)) (c : CLI) : CLI :=
  let c := print str c in
  match c_stream c with Some st => set_stream (stream_write [10%Z] st) c | None => c end.

Definition sendFrame (type : MessageType) (seqNum : Z) (payload : option (list Z)) (len : nat) (c : CLI) : option CLI :=
  match c_stream c with
  | None => Some c
  | Some st =>
      '(n, wire) ← encode_frame MaxPayload type seqNum payload len (replicate (maxWireSize MaxPayload) 0%Z);
      if decide (0 < n) then
        wire ← load_all wire 0 n;
        Some (set_stream (stream_write wire st) c)
      else Some c
  end.

Definition sendFramedAck (seqNum cmdId : Z) (c : CLI) : option CLI :=
  '(pLen, payload) ← serializeAck cmdId (replicate 1 0%Z);
  sendFrame ACK seqNum (Some payload) pLen c.

Definition sendFramedNack (seqNum cmdId targetDevice value : Z) (c : CLI) : option CLI :=
  '(pLen, payload) ← serializeNack cmdId targetDevice value (replicate 6 0%Z);
  sendFrame NACK seqNum (Some payload) pLen c.

Definition sendFramedHandshakeResp (seqNum : Z) (c : CLI) : option CLI :=
  '(pLen, payload) ← serializeHandshakeResp (replicate 6 0%Z);
  sendFrame HANDSHAKE_RESP seqNum (Some payload) pLen c.

Definition sendFramedHeartbeat (seqNum : Z) (c : CLI) : option CLI := sendFrame HEARTBEAT seqNum None 0 c.

Definition sendFramedData (payload : option (list Z)) (len : nat) (c : CLI) : option CLI :=
  sendFrame DATA 0 payload len c.

Definition sendFramedLog (level : Z) (str : option (list Z)) (c : CLI) : option CLI :=
  '(pLen, payload) ← serializeLog level str (replicate MaxPayload 0%Z);
  if decide (0 < pLen) then sendFrame LOG 0 (Some payload) pLen c else Some c.

Definition sendFramedMetricsResp (seqNum : Z) (data : option (list Z)) (len : nat) (c : CLI) : option CLI :=
  sendFrame METRICS_RESP seqNum data len c.

(** ** Mode switches *)

Definition enterFramedMode (c : CLI) : CLI :=
  Cli (c_stream c) (c_parser c) (c_builder c) (c_hasPending c) (c_readBuf c) FRAMED (dec_reset (c_frameDecoder c))
    (c_framedCommand c) (c_hasFramedCommand c) (c_framedSeqNum c) (c_handler c) (c_router c) (c_probeBuf c) false 0.

Definition exitFramedMode (c : CLI) : CLI :=
  Cli (c_stream c) (parser_reset (c_parser c)) (c_builder c) false (c_readBuf c) TEXT (c_frameDecoder c)
    (c_framedCommand c) false (c_framedSeqNum c) (c_handler c) (c_router c) (c_probeBuf c)
    (c_probeActive c) (c_probeLen c).

(** ** Input *)

Section input.
Context {H : Type} `{!IProtocolHandler (CLI * H)}.
Abbreviation state := (CLI * H)%type.

Definition on_cli (f : CLI -> CLI) (x : state) : state := (f x.1, x.2).

Definition tryHandshakeProbe (x : state) : option (bool * state) :=
  if negb (c_handler x.1) || negb (c_router x.1) then Some (false, x)
  else
    bytes ← load_all (c_probeBuf x.1) 0 (c_probeLen x.1);
    '(_, d) ← feed_bytes MaxPayload (new_decoder MaxPayload) bytes;
    '(result, d) ← feedByte MaxPayload d kFrameDelimiter;
    if decide (result <> FRAME_READY) then Some (false, x)
    else if decide (m_msgType d <> HANDSHAKE_REQ) then Some (false, x)
    else
      '(ok, x) ← dispatch true (m_msgType d) (m_seqNum d) (m_payload d) (m_payloadLen d) x;
      if negb ok then Some (false, x)
      else Some (true, on_cli enterFramedMode x).

Definition handleDecodedFrame (x : state) : option state :=
  let d := c_frameDecoder x.1 in
  if decide (m_msgType d = COMMAND) then
    if decide (m_payloadLen d = 6) then
      id ← load (m_payload d) 0;
      dev ← load (m_payload d) 1;
      val ← load_all (m_payload d) 2 4;
      Some (on_cli (set_framed (Cmd id dev (le_word val)) true (m_seqNum d)) x)
    else Some x
  else if c_router x.1 then
    '(_, x) ← dispatch true (m_msgType d) (m_seqNum d) (m_payload d) (m_payloadLen d) x;
    Some x
  else Some x.

(** The loop over the received bytes from index [i]; [n] bytes are left. *)
Fixpoint processFramedBytesFrom (n i : nat) (x : state) : option state :=
  match n with
  | O => Some x
  | S n =>
      b ← load (c_readBuf x.1) i;
      '(result, d) ← feedByte MaxPayload (c_frameDecoder x.1) b;
      let x := on_cli (set_decoder d) x in
      x ← (if decide (result = FRAME_READY) then handleDecodedFrame x else Some x);
      processFramedBytesFrom n (S i) x
  end.

(** A byte for the text parser. *)
Definition feed_text (b : Z) (c : CLI) : option CLI :=
  '(ok, p) ← parser_feedByte kMaxLineLen kMaxValidCommandID long_bits b (c_parser c);
  Some (set_parser p (if ok : bool then true else c_hasPending c) c).

Fixpoint processTextBytes (n i : nat) (x : state) : option state :=
  match n with
  | O => Some x
  | S n =>
      b ← load (c_readBuf x.1) i;
      if decide (b = kFrameDelimiter) then
        '(ok, x) ← (if c_probeActive x.1 && bool_decide (0 < c_probeLen x.1) then tryHandshakeProbe x
                    else Some (false, x));
        if ok : bool then processFramedBytesFrom n (S i) x
        else processTextBytes n (S i) (on_cli (fun c => set_probe (c_probeBuf c) true 0 c) x)
      else if c_probeActive x.1 then
        if decide (c_probeLen x.1 < kMaxProbeSize) then
          buf ← store (c_probeBuf x.1) (c_probeLen x.1) b;
          processTextBytes n (S i) (on_cli (fun c => set_probe buf true (S (c_probeLen c)) c) x)
        else
          c ← feed_text b (set_probe (c_probeBuf x.1) false 0 x.1);
          processTextBytes n (S i) (c, x.2)
      else
        c ← feed_text b x.1;
        processTextBytes n (S i) (c, x.2)
  end.

Definition cli_tick (x : state) : option state :=
  match c_stream x.1 with
  | None => Some x
  | Some st =>
      let avail := stream_available st in
      let toRead := if decide (avail < kReadBufSize) then avail else kReadBufSize in
      if decide (toRead = 0) then Some x
      else
        let '(bytes, st) := stream_read toRead st in
        buf ← store_all (c_readBuf x.1) 0 bytes;
        let x := on_cli (fun c => set_readBuf buf (set_stream st c)) x in
        if decide (c_mode x.1 = TEXT) then processTextBytes (length bytes) 0 x
        else processFramedBytesFrom (length bytes) 0 x
  end.
End input.
End cli.

(** ** The invariant

    The buffers have their sizes, the parser and the decoder are well formed, a command the
    CLI has announced is there, and its fields are bytes. *)

Definition cmd_ok (c : Command) : Prop := in_word 8 (cmd_id c) /\ in_word 8 (cmd_targetDevice c).

Section invariant.
Context (kMaxLineLen : nat) (kMaxValidCommandID long_bits : Z) (MaxPayload : nat).
Context {T : Type} `{!IStream T}.
Abbreviation CLI := (CLI T).

Record cli_wf (c : CLI) : Prop := {
  cw_parser : exists s, parser_rep kMaxLineLen (c_parser c) s /\
    (forall cmd, ls_pending s = Some cmd -> cmd_ok cmd) /\
    (c_hasPending c = true -> is_Some (ls_pending s));
  cw_builder : exists s, sb_rep (c_builder c) s;
  cw_readBuf : length (c_readBuf c) = kReadBufSize;
  cw_decoder : dec_wf MaxPayload (c_frameDecoder c);
  cw_probeBuf : length (c_probeBuf c) = kMaxProbeSize;
  cw_probeLen : c_probeLen c <= kMaxProbeSize;
}.

Lemma load_all_prefix (w rest : list Z) : load_all (w ++ rest) 0 (length w) = Some w.
Proof. apply (load_all_middle [] w rest). Qed.

Lemma wire_frame_pos type seq p : 0 < length (wire_frame type seq p).
Proof. unfold wire_frame. rewrite length_app. apply Nat.add_pos_r, Nat.lt_0_1. Qed.

(** Sending a frame only changes the stream. *)
Lemma sendFrame_ok type seq payload len p c :
  payload_arg payload len p ->
  sendFrame MaxPayload type seq payload len c =
    Some (match c_stream c with
          | Some st => if decide (len <= MaxPayload) then set_stream (stream_write (wire_frame type seq p) st) c else c
          | None => c
          end).
Proof.
  intros Harg. unfold sendFrame. destruct (c_stream c) as [st|]; [|done].
  destruct (decide (len <= MaxPayload)) as [Hlen|Hlen].
  - rewrite (encode_frame_spec MaxPayload type seq payload len p); [|done|done|].
    + pose proof (wire_frame_pos type seq p) as Hpos. revert Hpos. generalize (wire_frame type seq p). intros w Hpos.
      cbn [mbind option_bind].
      destruct (decide (0 < length w)); [|contradiction]. rewrite load_all_prefix. reflexivity.
    + rewrite length_replicate. unfold maxWireSize, rawFrameSize, cobsMaxEncodedLen. divlia.
  - unfold encode_frame. rewrite decide_True by lia. done.
Qed.

Lemma set_stream_wf st c : cli_wf c -> cli_wf (set_stream st c).
Proof. by intros []; split. Qed.

Lemma sendFrame_wf type seq payload len p c :
  payload_arg payload len p -> cli_wf c ->
  exists c', sendFrame MaxPayload type seq payload len c = Some c' /\ cli_wf c'.
Proof.
  intros Harg Hw. rewrite (sendFrame_ok _ _ _ _ p) by done. eexists. split; [done|].
  destruct (c_stream c); [|done]. case_decide; [by apply set_stream_wf|done].
Qed.

Lemma enterFramedMode_wf c : cli_wf c -> cli_wf (enterFramedMode c).
Proof. intros [Hp Hb Hr Hd Hpb Hpl]. split; try done; [by apply dec_reset_wf|cbn; lia]. Qed.

Hypothesis Hline : 0 < kMaxLineLen.

Lemma exitFramedMode_wf c : cli_wf c -> cli_wf (exitFramedMode c).
Proof.
  intros [(s & Hp & _) Hb Hr Hd Hpb Hpl]. split; try done.
  exists (Lines [] None). split; [by eapply parser_reset_ok|done].
Qed.

Lemma new_cli_wf stream : cli_wf (new_cli kMaxLineLen MaxPayload stream).
Proof.
  split; cbn; rewrite ?length_replicate; try done; try lia.
  - exists (Lines [] None). split; [by apply new_parser_rep|]. done.
  - exists []. apply new_builder_rep.
  - apply new_decoder_wf.
Qed.

Lemma parse_command_ok line cmd : parse_command kMaxValidCommandID long_bits line = Some cmd -> cmd_ok cmd.
Proof.
  unfold parse_command. destruct (strtol _ _) as [[? ?]|]; cbn [mbind option_bind]; [|done].
  case_match; [done|]. destruct (strtol _ _) as [[? ?]|]; cbn [mbind option_bind]; [|done].
  case_match; [done|]. destruct (strtof _) as [[? ?]|]; cbn [mbind option_bind]; [|done].
  case_decide; [|done]. intros [= <-]. split; apply wrap_in_word; lia.
Qed.

Lemma line_step_pending b s :
  (forall cmd, ls_pending s = Some cmd -> cmd_ok cmd) ->
  let '(ok, s') := line_step kMaxLineLen kMaxValidCommandID long_bits b s in
  (forall cmd, ls_pending s' = Some cmd -> cmd_ok cmd) /\
  (ok = true \/ is_Some (ls_pending s) -> is_Some (ls_pending s')).
Proof.
  intros Hok. unfold line_step. case_decide.
  - destruct (ls_line s) as [|c line]; [by split; [|intros [?|?]]|].
    destruct (parse_command _ _ _) as [cmd|] eqn:E; cbn.
    + split; [|by eauto]. intros ? [= <-]. by eapply parse_command_ok.
    + by split; [|intros [?|?]].
  - case_decide; cbn; by split; [|intros [?|?]].
Qed.

Lemma feed_text_ok b c :
  cli_wf c -> exists c', feed_text kMaxLineLen kMaxValidCommandID long_bits b c = Some c' /\ cli_wf c' /\
    c_stream c' = c_stream c.
Proof.
  intros [(s & Hr & Hok & Hp) Hb Hrb Hd Hpb Hpl]. unfold feed_text.
  destruct (parser_feedByte_ok kMaxLineLen kMaxValidCommandID long_bits Hline b _ s Hr) as (p & -> & Hr').
  cbn [mbind option_bind]. eexists. split; [done|]. split; [|done]. split; try done.
  pose proof (line_step_pending b s Hok) as Hl.
  destruct (line_step _ _ _ b s) as [ok s']. destruct Hl as [Hok' Hsome]. cbn in *.
  exists s'. split_and!; [done..|]. intros Hpend. apply Hsome. destruct ok; [by left|right; by apply Hp].
Qed.

(** ** Input keeps the invariant, for any handler that does *)

Context {H : Type} `{!IProtocolHandler (CLI * H)}.
Abbreviation state := (CLI * H)%type.

(** What the CLI expects of the handler's callbacks; [I] is the handler's own invariant. *)
Record handler_ok (I : H -> Prop) : Prop := {
  ho_command cmd seq (x : state) : cli_wf x.1 -> I x.2 -> exists x', onCommand cmd seq x = Some x' /\ cli_wf x'.1 /\ I x'.2;
  ho_handshake v seq (x : state) : cli_wf x.1 -> I x.2 -> exists x', onHandshakeRequest v seq x = Some x' /\ cli_wf x'.1 /\ I x'.2;
  ho_exit seq (x : state) : cli_wf x.1 -> I x.2 -> exists x', onExitHandshake seq x = Some x' /\ cli_wf x'.1 /\ I x'.2;
  ho_metrics seq (x : state) : cli_wf x.1 -> I x.2 -> exists x', onMetricsRequest seq x = Some x' /\ cli_wf x'.1 /\ I x'.2;
  ho_heartbeat seq (x : state) : cli_wf x.1 -> I x.2 -> exists x', onHeartbeat seq x = Some x' /\ cli_wf x'.1 /\ I x'.2;
}.

Context (I : H -> Prop) (Hhandler : handler_ok I).

Definition state_ok (x : state) : Prop := cli_wf x.1 /\ I x.2.

(** [f] gives a good state. *)
Abbreviation keeps_ok r := (exists x', r = Some x' /\ state_ok x').

Lemma dispatch_keeps type seq payload len x :
  state_ok x -> len <= length payload ->
  exists ok x', dispatch true type seq payload len x = Some (ok, x') /\ state_ok x'.
Proof.
  intros [Hw Hi] Hlen. unfold dispatch. cbn [negb]. destruct type; try (by exists false, x).
  - unfold dispatchCommand. case_decide as Hl; [by exists false, x|]. unfold kCommandPayloadSize in Hl.
    destruct (load_ok payload 0) as [v0 ->]; [lia|]. destruct (load_ok payload 1) as [v1 ->]; [lia|].
    rewrite load_all_ok by lia. cbn [mbind option_bind].
    destruct (ho_command I Hhandler (Cmd v0 v1 (le_word (take 4 (drop 2 payload)))) seq x Hw Hi) as (x' & -> & ?).
    by exists true, x'.
  - unfold dispatchHandshake. case_decide as Hl; [by exists false, x|]. unfold kHandshakePayloadSize in Hl.
    destruct (load_ok payload 0) as [v0 ->]; [lia|]. destruct (load_ok payload 1) as [v1 ->]; [lia|].
    destruct (load_ok payload 2) as [v2 ->]; [lia|]. destruct (load_ok payload 3) as [v3 ->]; [lia|].
    destruct (load_ok payload 4) as [v4 ->]; [lia|]. destruct (load_ok payload 5) as [v5 ->]; [lia|].
    cbn [mbind option_bind]. case_decide; [by exists false, x|].
    match goal with |- context [onHandshakeRequest ?v seq x] =>
      destruct (ho_handshake I Hhandler v seq x Hw Hi) as (x' & -> & ?) end. by exists true, x'.
  - destruct (ho_metrics I Hhandler seq x Hw Hi) as (x' & -> & ?). by exists true, x'.
  - destruct (ho_exit I Hhandler seq x Hw Hi) as (x' & -> & ?). by exists true, x'.
  - destruct (ho_heartbeat I Hhandler seq x Hw Hi) as (x' & -> & ?). by exists true, x'.
Qed.

Lemma handleDecodedFrame_keeps x : state_ok x -> keeps_ok (handleDecodedFrame x).
Proof.
  intros [Hw Hi]. pose proof (cw_decoder _ Hw) as Hd. pose proof (wf_payload _ _ Hd). pose proof (wf_plen _ _ Hd).
  unfold handleDecodedFrame. case_decide as Hc.
  - case_decide as H6; [|by exists x].
    destruct (load_ok (m_payload (c_frameDecoder x.1)) 0) as [v0 ->]; [lia|].
    destruct (load_ok (m_payload (c_frameDecoder x.1)) 1) as [v1 ->]; [lia|].
    rewrite load_all_ok by lia. cbn [mbind option_bind]. eexists. split; [done|]. split; [|done].
    by destruct Hw; split.
  - destruct (c_router x.1); [|by exists x].
    destruct (dispatch_keeps (m_msgType (c_frameDecoder x.1)) (m_seqNum (c_frameDecoder x.1))
      (m_payload (c_frameDecoder x.1)) (m_payloadLen (c_frameDecoder x.1)) x) as (ok & x' & -> & ?); [done|lia|].
    by exists x'.
Qed.

Lemma processFramedBytesFrom_keeps n i x :
  state_ok x -> i + n <= kReadBufSize -> keeps_ok (processFramedBytesFrom MaxPayload n i x).
Proof.
  revert i x. induction n as [|n IH]; intros i x [Hw Hi] Hn; cbn [processFramedBytesFrom]; [by exists x|].
  destruct (load_ok (c_readBuf x.1) i) as [b ->]; [rewrite (cw_readBuf _ Hw); lia|]. cbn [mbind option_bind].
  destruct (feedByte_total MaxPayload _ b (cw_decoder _ Hw)) as (r & d & -> & Hd). cbn [mbind option_bind].
  assert (Hx : state_ok (on_cli (set_decoder d) x)) by (by destruct Hw; split).
  case_decide; cbn [mbind option_bind].
  - destruct (handleDecodedFrame_keeps _ Hx) as (x' & -> & Hx'). cbn [mbind option_bind]. apply IH; [done|lia].
  - apply IH; [done|lia].
Qed.

Lemma tryHandshakeProbe_keeps x :
  state_ok x -> exists ok x', tryHandshakeProbe MaxPayload x = Some (ok, x') /\ state_ok x'.
Proof.
  intros Hx. pose proof Hx as [Hw Hi]. unfold tryHandshakeProbe.
  case_match; [by exists false, x|].
  rewrite load_all_ok by (rewrite (cw_probeBuf _ Hw); pose proof (cw_probeLen _ Hw); lia). cbn [mbind option_bind].
  destruct (feed_bytes_total MaxPayload (new_decoder MaxPayload) (take (c_probeLen x.1) (drop 0 (c_probeBuf x.1)))
    (new_decoder_wf MaxPayload)) as (rs & d & -> & _ & Hd). cbn [mbind option_bind].
  destruct (feedByte_total MaxPayload d kFrameDelimiter Hd) as (r & d' & -> & Hd'). cbn [mbind option_bind].
  case_decide; [by exists false, x|]. case_decide; [by exists false, x|].
  destruct (dispatch_keeps (m_msgType d') (m_seqNum d') (m_payload d') (m_payloadLen d') x Hx) as (ok & x' & -> & Hx').
  { rewrite (wf_payload _ _ Hd'). apply (wf_plen _ _ Hd'). }
  cbn [mbind option_bind]. destruct ok; cbn [negb]; [|by exists false, x'].
  exists true. eexists. split; [done|]. destruct Hx'. split; [by apply enterFramedMode_wf|done].
Qed.

Lemma processTextBytes_keeps n i x :
  state_ok x -> i + n <= kReadBufSize ->
  keeps_ok (processTextBytes kMaxLineLen kMaxValidCommandID long_bits MaxPayload n i x).
Proof.
  revert i x. induction n as [|n IH]; intros i x Hx Hn; cbn [processTextBytes]; [by exists x|].
  pose proof Hx as [Hw Hi].
  destruct (load_ok (c_readBuf x.1) i) as [b ->]; [rewrite (cw_readBuf _ Hw); lia|]. cbn [mbind option_bind].
  case_decide.
  - assert (Hp : exists ok x', (if c_probeActive x.1 && bool_decide (0 < c_probeLen x.1) then tryHandshakeProbe MaxPayload x
      else Some (false, x)) = Some (ok, x') /\ state_ok x').
    { case_match; [by apply tryHandshakeProbe_keeps|by exists false, x]. }
    destruct Hp as (ok & x' & -> & Hx'). cbn [mbind option_bind].
    destruct ok; [apply processFramedBytesFrom_keeps; [done|lia]|].
    apply IH; [|lia]. destruct Hx' as [[] ?]. split; [|done]. split; try done. cbn. lia.
  - destruct (c_probeActive x.1).
    + case_decide.
      * rewrite store_ok by (rewrite (cw_probeBuf _ Hw); lia). cbn [mbind option_bind].
        apply IH; [|lia]. split; [|done]. destruct Hw. split; try done; cbn; rewrite ?length_insert; done || lia.
      * assert (Hw0 : cli_wf (set_probe (c_probeBuf x.1) false 0 x.1)) by (destruct Hw; split; try done; cbn; lia).
        destruct (feed_text_ok b _ Hw0) as (c' & -> & Hw' & _). cbn [mbind option_bind]. apply IH; [done|lia].
    + destruct (feed_text_ok b _ Hw) as (c' & -> & Hw' & _). cbn [mbind option_bind]. apply IH; [done|lia].
Qed.

Context `{!StreamLaws T}.

Lemma cli_tick_keeps x :
  state_ok x -> keeps_ok (cli_tick kMaxLineLen kMaxValidCommandID long_bits MaxPayload x).
Proof.
  intros [Hw Hi]. unfold cli_tick. destruct (c_stream x.1) as [st|] eqn:Est; [|by exists x].
  cbv zeta. set (toRead := if decide (stream_available st < kReadBufSize) then _ else _).
  destruct (decide (toRead = 0)); [by exists x|].
  pose proof (read_bound toRead st) as Hb. destruct (stream_read toRead st) as [bytes st']. simpl in Hb.
  assert (Ht : toRead <= kReadBufSize) by (unfold toRead; case_decide; lia).
  rewrite store_all_ok by (rewrite (cw_readBuf _ Hw); lia). cbn [mbind option_bind].
  set (buf := take 0 (c_readBuf x.1) ++ bytes ++ drop (0 + length bytes) (c_readBuf x.1)).
  assert (Hx : state_ok (on_cli (fun c => set_readBuf buf (set_stream st' c)) x)).
  { split; [|done]. destruct Hw as [Hp Hbl Hr Hd Hpb Hpl]. split; try done. cbn. unfold buf.
    rewrite !length_app, length_take, length_drop. lia. }
  destruct (decide (c_mode (on_cli (fun c => set_readBuf buf (set_stream st' c)) x).1 = TEXT));
    [apply processTextBytes_keeps; [done|lia]|apply processFramedBytesFrom_keeps; [done|lia]].
Qed.
End invariant.

(** ** What one tick does with the bytes it reads *)

Section ticks.
Context (kMaxLineLen : nat) (kMaxValidCommandID long_bits : Z) (MaxPayload : nat).
Context {T : Type} `{!IStream T}.
Abbreviation CLI := (CLI T).
Context {H : Type} `{!IProtocolHandler (CLI * H)}.
Abbreviation state := (CLI * H)%type.

(** The stream has exactly these bytes to read now. *)
Definition offers (st : T) (bytes : list Z) (st' : T) : Prop :=
  0 < length bytes <= kReadBufSize /\ stream_available st = length bytes /\
  stream_read (length bytes) st = (bytes, st').

(** The CLI after the read. *)
Definition received (bytes : list Z) (st' : T) (c : CLI) : CLI :=
  set_readBuf (bytes ++ drop (length bytes) (c_readBuf c)) (set_stream st' c).

Lemma cli_tick_offers x st bytes st' :
  length (c_readBuf x.1) = kReadBufSize -> c_stream x.1 = Some st -> offers st bytes st' ->
  cli_tick kMaxLineLen kMaxValidCommandID long_bits MaxPayload x =
    let y := on_cli (received bytes st') x in
    if decide (c_mode x.1 = TEXT)
    then processTextBytes kMaxLineLen kMaxValidCommandID long_bits MaxPayload (length bytes) 0 y
    else processFramedBytesFrom MaxPayload (length bytes) 0 y.
Proof.
  intros Hb Hst (Hl & Ha & Hr). unfold cli_tick. rewrite Hst, Ha. cbv zeta.
  assert (Ht : (if decide (length bytes < kReadBufSize) then length bytes else kReadBufSize) = length bytes)
    by (case_decide; lia).
  rewrite Ht, decide_False, Hr by lia. rewrite store_all_ok by (rewrite Hb; lia). done.
Qed.

(** Bytes of a frame that is not complete yet. *)
Lemma framed_quiet bs d' n pre post x :
  feed_bytes MaxPayload (c_frameDecoder x.1) bs = Some (replicate (length bs) INCOMPLETE, d') ->
  c_readBuf x.1 = pre ++ bs ++ post ->
  processFramedBytesFrom MaxPayload (length bs + n) (length pre) x =
    processFramedBytesFrom MaxPayload n (length pre + length bs) (on_cli (set_decoder d') x).
Proof.
  revert pre x. induction bs as [|b bs IH]; intros pre x Hf Hb.
  { injection Hf as <-. rewrite Nat.add_0_r. by destruct x as [[] ?]. }
  cbn [feed_bytes] in Hf. cbn [length Nat.add processFramedBytesFrom].
  rewrite Hb. cbn [app]. rewrite load_middle. cbn [mbind option_bind].
  destruct (feedByte MaxPayload (c_frameDecoder x.1) b) as [[r d1]|]; [|done]. cbn [mbind option_bind] in Hf |- *.
  destruct (feed_bytes MaxPayload d1 bs) as [[rs d2]|] eqn:E; [|done]. cbn [mbind option_bind length replicate] in Hf.
  injection Hf as -> -> ->. rewrite decide_False by done. cbn [mbind option_bind].
  specialize (IH (pre ++ [b]) (on_cli (set_decoder d1) x)). rewrite length_app, Nat.add_1_r in IH.
  rewrite IH; [|done|by rewrite <- app_assoc]. by rewrite Nat.add_succ_r.
Qed.

(** The bytes of one frame. *)
Lemma framed_frame bs d' post x :
  0 < length bs ->
  feed_bytes MaxPayload (c_frameDecoder x.1) bs = Some (replicate (length bs - 1) INCOMPLETE ++ [FRAME_READY], d') ->
  c_readBuf x.1 = bs ++ post ->
  processFramedBytesFrom MaxPayload (length bs) 0 x = handleDecodedFrame (on_cli (set_decoder d') x).
Proof.
  destruct bs as [|b bs _] using rev_ind; [simpl; lia|]. intros _ Hf Hb.
  rewrite length_app in *. cbn [length] in *. rewrite Nat.add_sub in Hf.
  apply feed_bytes_snoc in Hf as (d1 & Hf & Hlast).
  rewrite <- app_assoc in Hb. pose proof (framed_quiet bs d1 1 [] ([b] ++ post) x Hf Hb) as Hq.
  cbn [length Nat.add] in Hq. rewrite Hq. cbn [processFramedBytesFrom on_cli fst].
  change (c_readBuf (set_decoder d1 x.1)) with (c_readBuf x.1). rewrite Hb. cbn [app]. rewrite load_middle.
  cbn [mbind option_bind]. change (c_frameDecoder (set_decoder d1 x.1)) with d1. rewrite Hlast.
  cbn [mbind option_bind]. rewrite decide_True by done. by destruct (handleDecodedFrame _).
Qed.

(** A frame from the host: what its handling starts from. *)
Lemma framed_wire t seq p post x :
  (Z.of_nat MaxPayload < 65536)%Z -> dec_wf MaxPayload (c_frameDecoder x.1) -> m_cobsLen (c_frameDecoder x.1) = 0 ->
  is_named t = true -> in_word 8 seq -> bytes_ok p -> length p <= MaxPayload ->
  c_readBuf x.1 = wire_frame t seq p ++ post ->
  exists d', accepted t seq p d' /\ dec_wf MaxPayload d' /\
    processFramedBytesFrom MaxPayload (length (wire_frame t seq p)) 0 x = handleDecodedFrame (on_cli (set_decoder d') x).
Proof.
  intros Hmax Hwf H0 Ht Hs Hp Hl Hb. destruct (feed_wire MaxPayload _ t seq p Hmax Hwf H0 Ht Hs Hp Hl) as (d' & Hf & Ha & Hd).
  exists d'. split; [done|]. split; [done|]. eapply framed_frame; [apply wire_frame_pos|exact Hf|exact Hb].
Qed.

(** The payload of an accepted frame, as its buffer starts with it. *)
Lemma accepted_payload t seq p d :
  accepted t seq p d -> dec_wf MaxPayload d -> exists rest, m_payload d = p ++ rest.
Proof.
  intros (_ & _ & Hp & Hl & _) Hwf. exists (drop (length p) (m_payload d)).
  unfold getPayload in Hp. rewrite Hl in Hp. rewrite <- Hp at 1. by rewrite take_drop.
Qed.

(** Characters of a line, outside a probe. *)
Lemma text_quiet bs n pre post x line pend :
  0 < kMaxLineLen -> Forall line_char bs -> c_probeActive x.1 = false ->
  parser_rep kMaxLineLen (c_parser x.1) (Lines line pend) -> length (line ++ bs) <= kMaxLineLen - 1 ->
  c_readBuf x.1 = pre ++ bs ++ post ->
  exists p', parser_rep kMaxLineLen p' (Lines (line ++ bs) pend) /\
    processTextBytes kMaxLineLen kMaxValidCommandID long_bits MaxPayload (length bs + n) (length pre) x =
    processTextBytes kMaxLineLen kMaxValidCommandID long_bits MaxPayload n (length pre + length bs)
      (on_cli (fun c => set_parser p' (c_hasPending c) c) x).
Proof.
  intros Hmax Hbs. revert pre x line. induction Hbs as [|b bs (H0 & Hn & Hr) Hbs IH]; intros pre x line Ha Hp Hlen Hb.
  { exists (c_parser x.1). rewrite app_nil_r, Nat.add_0_r. split; [done|]. by destruct x as [[] ?]. }
  rewrite length_app in Hlen. cbn [length] in Hlen.
  destruct (parser_feedByte_ok kMaxLineLen kMaxValidCommandID long_bits Hmax b _ _ Hp) as (p1 & E & Hp1).
  unfold line_step in E, Hp1. cbn [ls_line ls_pending] in E, Hp1.
  rewrite (decide_False (P := b = chr_newline \/ b = chr_return)) in E, Hp1 by tauto.
  rewrite decide_False in E, Hp1 by lia. cbn [fst snd] in E, Hp1.
  specialize (IH (pre ++ [b]) (on_cli (fun c => set_parser p1 (c_hasPending c) c) x) (line ++ [b])).
  destruct IH as (p' & Hp' & Hrun).
  { done. }
  { done. }
  { rewrite !length_app. simpl. lia. }
  { by rewrite <- app_assoc. }
  exists p'. rewrite <- app_assoc in Hp'. split; [done|].
  cbn [length Nat.add processTextBytes]. rewrite Hb. cbn [app]. rewrite load_middle. cbn [mbind option_bind].
  rewrite decide_False by done. rewrite Ha. unfold feed_text. rewrite E. cbn [mbind option_bind].
  rewrite length_app, Nat.add_1_r in Hrun. unfold on_cli in Hrun at 1. rewrite Hrun. by rewrite Nat.add_succ_r.
Qed.

(** A line with its end, outside a probe. *)
Lemma text_line bs term cmd post x pend :
  0 < kMaxLineLen -> Forall line_char bs -> c_probeActive x.1 = false ->
  parser_rep kMaxLineLen (c_parser x.1) (Lines [] pend) -> 0 < length bs < kMaxLineLen ->
  term = chr_newline \/ term = chr_return -> c_readBuf x.1 = (bs ++ [term]) ++ post ->
  parse_command kMaxValidCommandID long_bits bs = cmd ->
  exists p', parser_rep kMaxLineLen p' (Lines [] (match cmd with Some _ => cmd | None => pend end)) /\
    processTextBytes kMaxLineLen kMaxValidCommandID long_bits MaxPayload (length (bs ++ [term])) 0 x =
    Some (on_cli (fun c => set_parser p' (match cmd with Some _ => true | None => c_hasPending c end) c) x).
Proof.
  intros Hmax Hbs Ha Hp Hlen Hterm Hb Hcmd. rewrite <- app_assoc in Hb.
  destruct (text_quiet bs 1 [] ([term] ++ post) x [] pend) as (p1 & Hp1 & Hrun); [done..|cbn; lia|done|].
  rewrite length_app. cbn [length Nat.add app] in *. rewrite Hrun. cbn [processTextBytes].
  set (y := on_cli _ x). change (c_readBuf y.1) with (c_readBuf x.1). rewrite Hb, load_middle. cbn [mbind option_bind].
  rewrite decide_False by (destruct Hterm as [-> | ->]; done).
  change (c_probeActive y.1) with (c_probeActive x.1). rewrite Ha. unfold feed_text.
  change (c_parser y.1) with p1.
  destruct (parser_feedByte_ok kMaxLineLen kMaxValidCommandID long_bits Hmax term _ _ Hp1) as (p2 & -> & Hp2).
  cbn [mbind option_bind]. unfold line_step in Hp2 |- *. cbn [ls_line ls_pending] in Hp2 |- *.
  rewrite decide_True in Hp2 |- * by done. destruct bs as [|b bs]; [simpl in Hlen; lia|].
  rewrite before_nul_line in Hp2 |- * by done. rewrite Hcmd in Hp2 |- *. exists p2.
  destruct cmd; cbn [fst snd] in Hp2 |- *; done.
Qed.

(** Bytes of a probe. *)
Lemma probe_quiet bs n pre post x :
  Forall (fun b => b <> 0%Z) bs -> c_probeActive x.1 = true -> length (c_probeBuf x.1) = kMaxProbeSize ->
  c_probeLen x.1 + length bs <= kMaxProbeSize -> c_readBuf x.1 = pre ++ bs ++ post ->
  processTextBytes kMaxLineLen kMaxValidCommandID long_bits MaxPayload (length bs + n) (length pre) x =
  processTextBytes kMaxLineLen kMaxValidCommandID long_bits MaxPayload n (length pre + length bs)
    (on_cli (fun c => set_probe (take (c_probeLen c) (c_probeBuf c) ++ bs ++ drop (c_probeLen c + length bs) (c_probeBuf c))
       true (c_probeLen c + length bs) c) x).
Proof.
  intros Hbs. revert pre x. induction Hbs as [|b bs Hb Hbs IH]; intros pre x Ha Hlb Hlen Hbuf.
  { rewrite Nat.add_0_r. destruct x as [[] ?]. cbn in *. subst. unfold on_cli, set_probe. cbn.
    by rewrite !Nat.add_0_r, take_drop. }
  cbn [length] in Hlen. cbn [length Nat.add processTextBytes]. rewrite Hbuf. cbn [app]. rewrite load_middle.
  cbn [mbind option_bind]. rewrite decide_False by done. rewrite Ha. rewrite decide_True by lia.
  rewrite store_ok by lia. cbn [mbind option_bind].
  set (y := on_cli _ x).
  specialize (IH (pre ++ [b]) y). rewrite length_app, Nat.add_1_r in IH.
  rewrite IH; [|done|cbn; by rewrite length_insert|cbn; lia|by rewrite <- app_assoc].
  cbn [Nat.add]. rewrite Nat.add_succ_r. f_equal. unfold y, on_cli, set_probe. cbn. f_equal.
  f_equal; [|lia].
  rewrite (take_S_r _ _ b) by (rewrite list_lookup_insert_eq; [done|lia]).
  rewrite take_insert_ge, drop_insert_lt by lia. rewrite <- app_assoc. cbn [app].
  by rewrite Nat.add_succ_r.
Qed.
End ticks.
