(* ===== verification/Comms.v ===== *)
(** * The communications task ([kernel/tasks/ScheduledCommsTask.h])

    The handler of the CLI it owns: it moves commands from the host to the command queue,
    answers each in the mode of the line, and serves the protocol's requests. The queue is
    any implementation of the interface of [Queue]. *)

From Stdlib Require String.
From S2P Require Import Prelude Cobs Frame Protocol Queue Float32 Decimal Text Strto Parser Cli.
Import String.StringSyntax.

(** The members beside the CLI: the producer side of the queue, and the snapshot callback
    as what it answers now. *)
Record CommsTask (Q : Type) := Comms {
  ct_commandQueue : option Q;
  ct_snapshotFn : option PerformanceSnapshot;
}.
#[global] Arguments Comms {Q}.
#[global] Arguments ct_commandQueue {Q}.
#[global] Arguments ct_snapshotFn {Q}.

Section comms.
Context (kMaxLineLen : nat) (kMaxValidCommandID long_bits : Z) (MaxPayload : nat).
Context {T Q : Type} `{!IStream T, !MessageQueue Q Command}.
Abbreviation comms := (CLI T * CommsTask Q)%type.

(** [f] on the CLI of the task. *)
Definition with_cli (f : CLI T -> option (CLI T)) (x : comms) : option comms :=
  c ← f x.1; Some (c, x.2).

Definition set_commandQueue (q : Q) (t : CommsTask Q) : CommsTask Q := Comms (Some q) (ct_snapshotFn t).

(** The constructor. *)
Definition new_comms (stream : option T) (queue : option Q) : comms :=
  (new_cli kMaxLineLen MaxPayload stream, Comms queue None).

Definition setMetricsSnapshotFn (fn : option PerformanceSnapshot) (x : comms) : comms :=
  (x.1, Comms (ct_commandQueue x.2) fn).

Definition comms_validateDependencies (x : comms) : bool :=
  hasStream x.1 && bool_decide (is_Some (ct_commandQueue x.2)).

(** ** The protocol handler *)

Definition comms_onMetricsRequest (seqNum : Z) (x : comms) : option comms :=
  match ct_snapshotFn x.2 with
  | None => with_cli (sendFramedMetricsResp MaxPayload seqNum None 0) x
  | Some snap =>
      '(len, buf) ← serializeMetrics snap (replicate (kMetricsHeaderSize + kMaxSnapshotTasks * kMetricsTaskSize) 0%Z);
      with_cli (sendFramedMetricsResp MaxPayload seqNum (Some buf) len) x
  end.

Definition comms_onExitHandshake (seqNum : Z) (x : comms) : option comms :=
  c ← sendFramedAck MaxPayload seqNum (type_byte EXIT_HANDSHAKE) x.1;
  Some (exitFramedMode c, x.2).

#[export] Instance comms_handler : IProtocolHandler comms := {
  onCommand _ _ x := Some x;
  onHandshakeRequest _ seqNum x := with_cli (sendFramedHandshakeResp MaxPayload seqNum) x;
  onExitHandshake := comms_onExitHandshake;
  onMetricsRequest := comms_onMetricsRequest;
  onHeartbeat seqNum x := with_cli (sendFramedHeartbeat MaxPayload seqNum) x;
}.

(** ** Responses in text mode *)

Definition sendTextAck (cmd : Command) (c : CLI T) : option (CLI T) :=
  b ← sb_clear (c_builder c);
  b ← append_str (Some (text "ACK ")) b;
  b ← append_i32 (cmd_id cmd) b;
  b ← append_char chr_newline b;
  flush (set_builder b c).

Definition sendTextNack (cmd : Command) (c : CLI T) : option (CLI T) :=
  b ← sb_clear (c_builder c);
  b ← append_str (Some (text "NACK ")) b;
  b ← append_i32 (cmd_id cmd) b;
  b ← append_char chr_space b;
  b ← append_i32 (cmd_targetDevice cmd) b;
  b ← append_char chr_space b;
  b ← append_float (float_of_bits (cmd_value cmd)) 3 b;
  b ← append_char chr_newline b;
  flush (set_builder b c).

(** ** The task *)

Definition comms_init (x : comms) : option comms :=
  cli_tick kMaxLineLen kMaxValidCommandID long_bits MaxPayload (on_cli (setProtocolHandler true) x).

(** What happens to one command. *)
Definition serve_command (cmd : Command) (x : comms) : option comms :=
  match ct_commandQueue x.2 with
  | None => Some x
  | Some q =>
      '(pushed, q) ← mq_try_push cmd q;
      let x := (x.1, set_commandQueue q x.2) in
      if pushed : bool then
        if decide (getMode x.1 = FRAMED) then
          with_cli (sendFramedAck MaxPayload (getLastFramedSeqNum x.1) (u8 (cmd_id cmd))) x
        else with_cli (sendTextAck cmd) x
      else
        if decide (getMode x.1 = FRAMED) then
          with_cli (sendFramedNack MaxPayload (getLastFramedSeqNum x.1) (u8 (cmd_id cmd)) (cmd_targetDevice cmd)
            (cmd_value cmd)) x
        else with_cli (sendTextNack cmd) x
  end.

(** [while (m_cli.hasCommand())] *)
Fixpoint comms_loop (fuel : nat) (x : comms) : option comms :=
  if hasCommand x.1 then
    match fuel with
    | O => None
    | S fuel =>
        let '(cmd, c) := getCommand x.1 in
        x ← match cmd with Some cmd => serve_command cmd (c, x.2) | None => Some (c, x.2) end;
        comms_loop fuel x
    end
  else Some x.

(** One turn is enough (see [comms_tick_safe]). *)
Definition comms_tick (systemTimeMicros : Z) (x : comms) : option comms :=
  x ← cli_tick kMaxLineLen kMaxValidCommandID long_bits MaxPayload x;
  comms_loop 1 x.
End comms.

(** ** What is sent *)

Section sending.
Context (MaxPayload : nat) {T : Type} `{!IStream T}.
Abbreviation CLI := (CLI T).

(** The CLI after a frame: the stream has the frame's bytes, if there is a stream and the
    payload is not too long. *)
Definition sent (type : MessageType) (seq : Z) (p : list Z) (c : CLI) : CLI :=
  match c_stream c with
  | Some st => if decide (length p <= MaxPayload) then set_stream (stream_write (wire_frame type seq p) st) c else c
  | None => c
  end.

Lemma sent_ok type seq payload len p c :
  payload_arg payload len p -> sendFrame MaxPayload type seq payload len c = Some (sent type seq p c).
Proof. intros Harg. rewrite (sendFrame_ok MaxPayload type seq payload len p c Harg). by destruct Harg as [<- _]. Qed.

Lemma whole_payload p : payload_arg (Some p) (length p) p.
Proof. split; [done|]. exists []. by rewrite app_nil_r. Qed.

Lemma sendFramedAck_ok seq id c : sendFramedAck MaxPayload seq id c = Some (sent ACK seq [id] c).
Proof. apply (sent_ok ACK seq (Some [id]) 1 [id]), (whole_payload [id]). Qed.

Definition nack_payload (id dev v : Z) : list Z := id :: dev :: le_bytes 4 v.

Lemma sendFramedNack_ok seq id dev v c :
  sendFramedNack MaxPayload seq id dev v c = Some (sent NACK seq (nack_payload id dev v) c).
Proof. apply (sent_ok NACK seq (Some (nack_payload id dev v)) 6), (whole_payload (nack_payload id dev v)). Qed.

Definition handshake_payload : list Z := [1; 0; 0x53; 0x4F; 0x50; 0x53]%Z.

Lemma sendFramedHandshakeResp_ok seq c :
  sendFramedHandshakeResp MaxPayload seq c = Some (sent HANDSHAKE_RESP seq handshake_payload c).
Proof. apply (sent_ok HANDSHAKE_RESP seq (Some handshake_payload) 6), (whole_payload handshake_payload). Qed.

Lemma sendFramedHeartbeat_ok seq c : sendFramedHeartbeat MaxPayload seq c = Some (sent HEARTBEAT seq [] c).
Proof. by apply (sent_ok HEARTBEAT seq None 0 []). Qed.

Lemma sent_some type seq p c st :
  c_stream c = Some st -> length p <= MaxPayload ->
  sent type seq p c = set_stream (stream_write (wire_frame type seq p) st) c.
Proof. intros Hs Hl. unfold sent. by rewrite Hs, decide_True. Qed.

Lemma sent_wf kMaxLineLen type seq p c : cli_wf kMaxLineLen MaxPayload c -> cli_wf kMaxLineLen MaxPayload (sent type seq p c).
Proof. intros Hw. unfold sent. destruct (c_stream c); [|done]. case_decide; [by apply set_stream_wf|done]. Qed.

(** *** Text *)

(** A command's fields as the responses print them. *)
Definition ack_text (id : Z) : list Z := text "ACK " ++ int_text id ++ [chr_newline].

Definition nack_text (id dev : Z) (value : bool * Z * Z) : list Z :=
  text "NACK " ++ command_line id dev 3 value ++ [chr_newline].

(** The CLI after [str] has been built and flushed. *)
Definition flushed (str : list Z) (b : LightweightStringBuilder) (c : CLI) : CLI :=
  match c_stream c with
  | Some st => set_builder b (set_stream (stream_write str st) c)
  | None => set_builder b c
  end.

Lemma flush_ok str b c :
  sb_rep b str -> str <> [] ->
  exists b' s, flush (set_builder b c) = Some (flushed str b' c) /\ sb_rep b' s.
Proof.
  intros Hb Hne. unfold flush, flushed. cbn [c_stream set_builder c_builder].
  destruct (c_stream c) as [st|]; [|by exists b, str].
  rewrite decide_False by (unfold sb_length; rewrite (sr_len _ _ Hb), length_zero_iff_nil; done).
  rewrite (sb_rep_chars _ _ Hb). cbn [mbind option_bind].
  destruct (sb_clear_ok _ _ Hb) as (b' & -> & Hb'). by exists b', [].
Qed.

Lemma flushed_wf kMaxLineLen str b s c :
  sb_rep b s -> cli_wf kMaxLineLen MaxPayload c -> cli_wf kMaxLineLen MaxPayload (flushed str b c).
Proof. intros Hb Hw. unfold flushed. destruct (c_stream c); destruct Hw; split; try done; by exists s. Qed.

Lemma byte_int32 v : in_word 8 v -> op_text (TI32 v) = Some (int_text v).
Proof. intros Hv. unfold in_word in Hv. apply decide_True. lia. Qed.

Lemma int_text_length v : in_word 8 v -> length (int_text v) <= 10.
Proof.
  intros Hv. unfold in_word in Hv. unfold int_text. rewrite decide_False, Z.abs_eq by lia.
  apply digits_length_u32. unfold in_word. lia.
Qed.

(** Appends whose text fits give that text. *)
Lemma appends_fit ops xs b0 str :
  Forall2 (fun op x => op_text op = Some x) ops xs -> concat xs = str -> length str <= kCapacity - 1 ->
  sb_rep b0 [] -> exists b, append_ops ops b0 = Some b /\ sb_rep b str.
Proof.
  intros Hx Hc Hl R0. destruct (append_ops_ok ops xs b0 [] Hx R0) as (b & E & R).
  rewrite app_nil_l, Hc, fit_id in R by done. by exists b.
Qed.

(** Clear, append and flush. *)
Lemma build_and_flush ops xs str s c :
  sb_rep (c_builder c) s -> Forall2 (fun op x => op_text op = Some x) ops xs -> concat xs = str ->
  length str <= kCapacity - 1 -> str <> [] ->
  exists b s', (b ← sb_clear (c_builder c); b ← append_ops ops b; flush (set_builder b c)) = Some (flushed str b c) /\
    sb_rep b s'.
Proof.
  intros Hs Hx Hc Hl Hne. destruct (sb_clear_ok _ _ Hs) as (b0 & -> & R0). cbn [mbind option_bind].
  destruct (appends_fit ops xs b0 str Hx Hc Hl R0) as (b & -> & R). cbn [mbind option_bind].
  destruct (flush_ok str b c R Hne) as (b' & s' & E & R'). by exists b', s'.
Qed.

Lemma sendTextAck_ok s cmd c :
  sb_rep (c_builder c) s -> cmd_ok cmd ->
  exists b s', sendTextAck cmd c = Some (flushed (ack_text (cmd_id cmd)) b c) /\ sb_rep b s'.
Proof.
  intros Hs [Hid _]. pose proof (int_text_length _ Hid) as Hl.
  destruct (build_and_flush [TStr (text "ACK "); TI32 (cmd_id cmd); TChar chr_newline]
    [text "ACK "; int_text (cmd_id cmd); [chr_newline]] (ack_text (cmd_id cmd)) s c) as (b & s' & E & R); try done.
  - repeat (apply Forall2_cons; split; [first [reflexivity|by apply byte_int32]|]). by apply Forall2_nil.
  - unfold ack_text. rewrite !length_app. simpl. unfold kCapacity. lia.
  - exists b, s'. split; [|done]. rewrite <- E. unfold sendTextAck. run_appends. done.
Qed.

Lemma sendTextNack_ok s cmd parts c :
  sb_rep (c_builder c) s -> cmd_ok cmd -> float_parts (float_of_bits (cmd_value cmd)) 3 = Some parts ->
  exists b s', sendTextNack cmd c = Some (flushed (nack_text (cmd_id cmd) (cmd_targetDevice cmd) parts) b c) /\ sb_rep b s'.
Proof.
  intros Hs [Hid Hdev] Hp. pose proof (int_text_length _ Hid) as Hl1. pose proof (int_text_length _ Hdev) as Hl2.
  pose proof (float_text_length _ 3 _ ltac:(lia) Hp) as Hl3.
  destruct (build_and_flush [TStr (text "NACK "); TI32 (cmd_id cmd); TChar chr_space; TI32 (cmd_targetDevice cmd);
      TChar chr_space; TFloat (float_of_bits (cmd_value cmd)) 3; TChar chr_newline]
    [text "NACK "; int_text (cmd_id cmd); [chr_space]; int_text (cmd_targetDevice cmd); [chr_space];
     float_text 3 parts; [chr_newline]] (nack_text (cmd_id cmd) (cmd_targetDevice cmd) parts) s c) as (b & s' & E & R); try done.
  - repeat (apply Forall2_cons; split; [first [reflexivity|by apply byte_int32|idtac]|]).
    + cbn [op_text]. rewrite decide_True by lia. by rewrite Hp.
    + by apply Forall2_nil.
  - unfold nack_text, command_line. cbn [concat]. by rewrite app_nil_r, <- !app_assoc.
  - unfold nack_text, command_line. rewrite !length_app. simpl length. unfold kCapacity. lia.
  - exists b, s'. split; [|done]. rewrite <- E. unfold sendTextNack. run_appends. done.
Qed.
End sending.

(** ** The task keeps its invariant *)

Section invariant.
Context (kMaxLineLen : nat) (kMaxValidCommandID long_bits : Z) (MaxPayload : nat).
Context {T Q : Type} `{!IStream T, !MessageQueue Q Command, !MessageQueueSpec Q Command}.
Abbreviation comms := (CLI T * CommsTask Q)%type.

(** The queue is well formed and the snapshot has its sizes. *)
Definition task_ok (t : CommsTask Q) : Prop :=
  (forall q, ct_commandQueue t = Some q -> exists l, mq_holds q l) /\
  (forall s, ct_snapshotFn t = Some s -> snapshot_ok s).

Definition comms_ok (x : comms) : Prop := state_ok kMaxLineLen MaxPayload task_ok x.

Lemma with_cli_keeps f x c :
  f x.1 = Some c -> cli_wf kMaxLineLen MaxPayload c -> task_ok x.2 -> exists x', with_cli f x = Some x' /\ comms_ok x'.
Proof. intros Hf Hc Ht. exists (c, x.2). unfold with_cli. rewrite Hf. done. Qed.

(** The answer to a metrics request. *)
Lemma metrics_ok seq (x : comms) s :
  ct_snapshotFn x.2 = Some s -> snapshot_ok s ->
  comms_onMetricsRequest MaxPayload seq x =
    Some (sent MaxPayload METRICS_RESP seq (fields_bytes (snapshot_fields s)) x.1, x.2).
Proof.
  intros Hs Hok. pose proof (snapshot_bytes_length s Hok) as Hl. pose proof (so_count _ Hok) as Hn.
  unfold comms_onMetricsRequest. rewrite Hs, serializeMetrics_ok.
  - cbn [mbind option_bind]. unfold with_cli, sendFramedMetricsResp.
    rewrite (sent_ok MaxPayload METRICS_RESP seq _ _ (fields_bytes (snapshot_fields s))); [done|].
    split; [done|]. by eexists.
  - done.
  - rewrite length_replicate. unfold kMaxSnapshotTasks, kMetricsHeaderSize, kMetricsTaskSize in *. lia.
Qed.

Hypothesis Hline : 0 < kMaxLineLen.

Lemma comms_handler_ok :
  @handler_ok kMaxLineLen MaxPayload T (CommsTask Q) (comms_handler MaxPayload) task_ok.
Proof.
  split; cbn [onCommand onHandshakeRequest onExitHandshake onMetricsRequest onHeartbeat comms_handler].
  - intros cmd seq x Hw Ht. by exists x.
  - intros v seq x Hw Ht. eapply with_cli_keeps; [apply sendFramedHandshakeResp_ok|by apply sent_wf|done].
  - intros seq x Hw Ht. unfold comms_onExitHandshake. rewrite sendFramedAck_ok. cbn [mbind option_bind].
    eexists. split; [done|]. split; [|done]. by apply exitFramedMode_wf, sent_wf.
  - intros seq x Hw [Hq Hs]. destruct (ct_snapshotFn x.2) as [s|] eqn:E.
    + rewrite (metrics_ok seq x s E (Hs s eq_refl)). eexists. split; [done|]. split; [by apply sent_wf|]. split; [done|].
      intros s' Hs'. apply Hs. by rewrite <- Hs'.
    + unfold comms_onMetricsRequest. rewrite E. eapply with_cli_keeps; [by apply (sent_ok _ _ _ None 0 [])|by apply sent_wf|].
      split; [done|]. intros s Hs'. congruence.
  - intros seq x Hw Ht. eapply with_cli_keeps; [apply sendFramedHeartbeat_ok|by apply sent_wf|done].
Qed.

(** A command that is taken is in range, and is no longer announced. *)
Lemma getCommand_ok (c : CLI T) cmd c' :
  cli_wf kMaxLineLen MaxPayload c -> hasCommand c = true -> getCommand c = (cmd, c') ->
  exists cmd', cmd = Some cmd' /\ (c_mode c = TEXT -> cmd_ok cmd') /\ cli_wf kMaxLineLen MaxPayload c' /\
    hasCommand c' = false /\ c_mode c' = c_mode c /\ c_stream c' = c_stream c.
Proof.
  intros [(s & Hr & Hok & Hp) Hb Hrb Hd Hpb Hpl] Hh. unfold getCommand, hasCommand in *.
  destruct (decide (c_mode c = TEXT)) as [Hm|Hm].
  - rewrite Hh. cbn [negb]. destruct (Hp Hh) as [cmd0 Hpend].
    destruct (parser_getCommand_ok kMaxLineLen (c_parser c) s Hr) as (p' & E & Hr'). rewrite E, Hpend.
    intros [= <- <-]. exists cmd0. split; [done|]. split; [auto|]. split; [|split_and!; [|done..]].
    + split; try done. cbn. exists (Lines (ls_line s) None). split; [done|]. done.
    + by rewrite decide_True.
  - rewrite Hh. cbn [negb]. intros [= <- <-]. eexists. split; [done|]. split; [done|]. split; [|split_and!; [|done..]].
    + split; try done. by exists s.
    + by rewrite decide_False.
Qed.

(** Why serving a command can fail: a text NACK whose value the string builder cannot
    convert. *)
Definition nack_undefined (x : comms) : Prop :=
  exists cmd c q q', getCommand x.1 = (Some cmd, c) /\ c_mode c = TEXT /\
    ct_commandQueue x.2 = Some q /\ mq_try_push cmd q = Some (false, q') /\
    float_parts (float_of_bits (cmd_value cmd)) 3 = None.

Lemma set_commandQueue_ok q l t : mq_holds q l -> task_ok t -> task_ok (set_commandQueue q t).
Proof. intros Hq [_ Hs]. split; [|done]. intros q' [= <-]. by exists l. Qed.

Lemma with_cli_serves f (x x' : comms) c :
  f x.1 = Some c -> cli_wf kMaxLineLen MaxPayload c -> hasCommand c = hasCommand x.1 -> task_ok x.2 ->
  exists x', with_cli f x = Some x' /\ comms_ok x' /\ hasCommand x'.1 = hasCommand x.1.
Proof. intros Hf Hc Hh Ht. exists (c, x.2). unfold with_cli. rewrite Hf. done. Qed.

Lemma hasCommand_sent type seq p (c : CLI T) : hasCommand (sent MaxPayload type seq p c) = hasCommand c.
Proof. unfold sent. destruct (c_stream c); [|done]. by case_decide. Qed.

Lemma hasCommand_flushed str b (c : CLI T) : hasCommand (flushed str b c) = hasCommand c.
Proof. unfold flushed. by destruct (c_stream c). Qed.

Lemma serve_command_ok cmd (x : comms) :
  comms_ok x -> (c_mode x.1 = TEXT -> cmd_ok cmd) ->
  (exists x', serve_command MaxPayload cmd x = Some x' /\ comms_ok x' /\ hasCommand x'.1 = hasCommand x.1) \/
  (exists q q', c_mode x.1 = TEXT /\ ct_commandQueue x.2 = Some q /\ mq_try_push cmd q = Some (false, q') /\
    float_parts (float_of_bits (cmd_value cmd)) 3 = None).
Proof.
  intros [Hw Ht] Hcmd. unfold serve_command. destruct (ct_commandQueue x.2) as [q|] eqn:Eq; [|by left; exists x].
  destruct (proj1 Ht q Eq) as [l Hl]. destruct (mq_push_spec q l cmd Hl) as (q' & E & Hq'). rewrite E.
  cbn [mbind option_bind]. set (y := (x.1, set_commandQueue q' x.2)).
  pose proof (set_commandQueue_ok _ _ x.2 Hq' Ht) as Hty. destruct (cw_builder _ _ _ Hw) as [sb Hsb].
  case_bool_decide as Hroom; (destruct (decide (getMode y.1 = FRAMED)) as [Hm|Hm]).
  - left. eapply (with_cli_serves _ y y); [apply sendFramedAck_ok|by apply sent_wf|apply hasCommand_sent|done].
  - left. assert (Hm' : c_mode x.1 = TEXT) by (unfold getMode in Hm; cbn in Hm; by destruct (c_mode x.1)).
    destruct (sendTextAck_ok sb cmd y.1 Hsb (Hcmd Hm')) as (b & s' & Es & Hb).
    eapply (with_cli_serves _ y y); [exact Es|by eapply flushed_wf|apply hasCommand_flushed|done].
  - left. eapply (with_cli_serves _ y y); [apply sendFramedNack_ok|by apply sent_wf|apply hasCommand_sent|done].
  - assert (Hm' : c_mode x.1 = TEXT) by (unfold getMode in Hm; cbn in Hm; by destruct (c_mode x.1)).
    destruct (float_parts (float_of_bits (cmd_value cmd)) 3) as [parts|] eqn:Ep.
    + left. destruct (sendTextNack_ok sb cmd parts y.1 Hsb (Hcmd Hm') Ep) as (b & s' & Es & Hb).
      eapply (with_cli_serves _ y y); [exact Es|by eapply flushed_wf|apply hasCommand_flushed|done].
    + right. by exists q, q'.
Qed.

Lemma comms_loop_ok (x : comms) :
  comms_ok x ->
  (exists x', comms_loop MaxPayload 1 x = Some x' /\ comms_ok x' /\ hasCommand x'.1 = false) \/ nack_undefined x.
Proof.
  intros [Hw Ht]. cbn [comms_loop]. destruct (hasCommand x.1) eqn:Eh; [|left; exists x; by rewrite Eh].
  destruct (getCommand x.1) as [cmd c] eqn:Eg.
  destruct (getCommand_ok x.1 cmd c Hw Eh Eg) as (cmd' & -> & Hok & Hc & Hno & Hm & _).
  destruct (serve_command_ok cmd' (c, x.2)) as [(x' & E & Hx' & Hh)|(q & q' & Hmode & Hq & Hpush & Hp)].
  - done.
  - cbn. rewrite Hm. exact Hok.
  - left. rewrite E. cbn [mbind option_bind]. cbn [fst] in Hh. rewrite Hh, Hno. exists x'. by rewrite Hh.
  - right. exists cmd', c, q, q'. done.
Qed.
End invariant.

(** ** One tick on one message *)

Section messages.
Context (kMaxLineLen : nat) (kMaxValidCommandID long_bits : Z) (MaxPayload : nat).
Context {T Q : Type} `{!IStream T, !MessageQueue Q Command, !MessageQueueSpec Q Command}.
Abbreviation comms := (CLI T * CommsTask Q)%type.
#[local] Hint Extern 0 (IProtocolHandler (Cli.CLI _ * CommsTask _)) => exact (comms_handler MaxPayload) : typeclass_instances.

(** The task with a stream that offers [bytes]. *)
Record serving (x : comms) (st : T) (bytes : list Z) (st' : T) : Prop := {
  sv_ok : comms_ok kMaxLineLen MaxPayload x;
  sv_stream : c_stream x.1 = Some st;
  sv_offers : offers st bytes st';
}.

Lemma serving_tick x st bytes st' :
  serving x st bytes st' ->
  cli_tick kMaxLineLen kMaxValidCommandID long_bits MaxPayload x =
    let y := on_cli (received bytes st') x in
    if decide (c_mode x.1 = TEXT)
    then processTextBytes kMaxLineLen kMaxValidCommandID long_bits MaxPayload (length bytes) 0 y
    else processFramedBytesFrom MaxPayload (length bytes) 0 y.
Proof. intros [[Hw _] Hs Ho]. apply (cli_tick_offers _ _ _ _ x st); [apply Hw|done|done]. Qed.

(** A queue with room takes the command at its end; a full one stays. *)
Definition queue_after (cmd : Command) (l : list Command) : list Command :=
  if decide (length l < mq_capacity) then l ++ [cmd] else l.

(** The loop on a state that announces one command. *)
Lemma loop_serves (x : comms) cmd c x' :
  hasCommand x.1 = true -> getCommand x.1 = (Some cmd, c) -> serve_command MaxPayload cmd (c, x.2) = Some x' ->
  hasCommand x'.1 = false -> comms_loop MaxPayload 1 x = Some x'.
Proof. intros Hh Hg Hs Hn. cbn [comms_loop]. rewrite Hh, Hg, Hs. cbn [mbind option_bind]. by rewrite Hn. Qed.

(** *** A command frame *)

Lemma command_frame_decoded (x : comms) seq id dev v (d : FrameDecoder) :
  accepted COMMAND seq (id :: dev :: le_bytes 4 v) d -> dec_wf MaxPayload d -> in_word 32 v ->
  handleDecodedFrame (on_cli (set_decoder d) x) =
    Some (on_cli (fun c => set_framed (Cmd id dev v) true seq (set_decoder d c)) x).
Proof.
  intros Ha Hd Hv. destruct (accepted_payload MaxPayload _ _ _ _ Ha Hd) as [rest Hr].
  destruct Ha as (Ht & Hs & _ & Hl & _). unfold handleDecodedFrame. cbn [on_cli fst snd c_frameDecoder set_decoder].
  rewrite Ht, Hl, Hs, Hr. rewrite decide_True by done. rewrite decide_True by (by rewrite !length_cons, le_bytes_length).
  cbn [app]. change (load (id :: ?l) 0) with (Some id). cbn [mbind option_bind].
  pose proof (load_all_middle [id; dev] (le_bytes 4 v) rest) as Hload. rewrite le_bytes_length in Hload.
  cbn [app length] in Hload. rewrite Hload. change (load (id :: dev :: ?l) 1) with (Some dev). cbn [mbind option_bind].
  rewrite le_word_le_bytes. change (8 * Z.of_nat 4)%Z with 32%Z. by rewrite (wrap_id 32) by done.
Qed.

(** What the host reads: the frame that answers a command. *)
Definition command_answer (room : bool) (seq id dev v : Z) : list Z :=
  if room then wire_frame ACK seq [id] else wire_frame NACK seq (nack_payload id dev v).

Lemma serve_framed (x : comms) st cmd q l :
  c_mode x.1 = FRAMED -> c_stream x.1 = Some st -> ct_commandQueue x.2 = Some q -> mq_holds q l ->
  in_word 8 (cmd_id cmd) -> 6 <= MaxPayload ->
  exists q', mq_holds q' (queue_after cmd l) /\
    serve_command MaxPayload cmd x =
      Some (set_stream (stream_write (command_answer (bool_decide (length l < mq_capacity)) (c_framedSeqNum x.1)
              (cmd_id cmd) (cmd_targetDevice cmd) (cmd_value cmd)) st) x.1, set_commandQueue q' x.2).
Proof.
  intros Hm Hst Hq Hl Hid H6. destruct (mq_push_spec q l cmd Hl) as (q' & E & Hq'). exists q'. split; [done|].
  unfold serve_command. rewrite Hq, E. cbn [mbind option_bind fst snd]. unfold getMode, getLastFramedSeqNum.
  rewrite Hm, (wrap_id 8) by done. unfold with_cli. cbn [fst snd].
  case_bool_decide; rewrite decide_True by done.
  - rewrite sendFramedAck_ok. cbn [mbind option_bind]. unfold sent. rewrite Hst, decide_True by (simpl; lia). done.
  - rewrite sendFramedNack_ok. cbn [mbind option_bind]. unfold sent.
    rewrite Hst, decide_True by (cbn [nack_payload length]; rewrite le_bytes_length; lia). done.
Qed.

(** *** A handshake *)

Lemma handshake_dispatched {H} `{!IProtocolHandler H} seq v0 v1 rest (x : H) :
  in_word 8 v0 -> in_word 8 v1 ->
  dispatch true HANDSHAKE_REQ seq ([v0; v1; 0x53; 0x4F; 0x50; 0x53]%Z ++ rest) 6 x =
    (x ← onHandshakeRequest (le_word [v0; v1]) seq x; Some (true, x)).
Proof. intros H0 H1. rewrite <- word_of_bytes by done. reflexivity. Qed.
(** The probe buffer holds a handshake frame. *)
Lemma probe_handshake (x : comms) seq v0 v1 w rest :
  (Z.of_nat MaxPayload < 65536)%Z -> 6 <= MaxPayload -> in_word 8 seq -> in_word 8 v0 -> in_word 8 v1 ->
  c_handler x.1 = true -> c_router x.1 = true -> c_probeBuf x.1 = w ++ rest -> c_probeLen x.1 = length w ->
  w ++ [kFrameDelimiter] = wire_frame HANDSHAKE_REQ seq [v0; v1; 0x53; 0x4F; 0x50; 0x53]%Z ->
  tryHandshakeProbe MaxPayload x = Some (true, (enterFramedMode (sent MaxPayload HANDSHAKE_RESP seq handshake_payload x.1), x.2)).
Proof.
  intros Hmax H6 Hseq Hv0 Hv1 Hh Hr Hbuf Hlen Hw. set (p := [v0; v1; 0x53; 0x4F; 0x50; 0x53]%Z) in *.
  assert (Hp : bytes_ok p) by (repeat apply Forall_cons_2; try done; by constructor).
  unfold tryHandshakeProbe. rewrite Hh, Hr, Hbuf, Hlen, load_all_prefix. cbn [negb orb mbind option_bind].
  destruct (feed_wire MaxPayload (new_decoder MaxPayload) HANDSHAKE_REQ seq p Hmax (new_decoder_wf _) eq_refl eq_refl
    Hseq Hp ltac:(simpl; lia)) as (d & Hf & Ha & Hd).
  rewrite <- Hw in Hf. apply feed_bytes_snoc in Hf as (d1 & Hf & Hlast). rewrite Hf. cbn [mbind option_bind].
  rewrite Hlast. cbn [mbind option_bind]. rewrite decide_False by tauto.
  destruct (accepted_payload MaxPayload _ _ _ _ Ha Hd) as [r Hpay]. destruct Ha as (Ht & Hs & _ & Hl & _).
  rewrite Ht, decide_False by tauto. rewrite Hs, Hl, Hpay. unfold p. cbn [length].
  rewrite handshake_dispatched by done. cbn [onHandshakeRequest comms_handler]. unfold with_cli.
  rewrite sendFramedHandshakeResp_ok. reflexivity.
Qed.

(** What the other requests are answered with; a snapshot that does not fit is not sent. *)
Definition request_answer (t : MessageType) (seq : Z) (snap : option PerformanceSnapshot) : option (list Z) :=
  match t with
  | HEARTBEAT => Some (wire_frame HEARTBEAT seq [])
  | EXIT_HANDSHAKE => Some (wire_frame ACK seq [type_byte EXIT_HANDSHAKE])
  | METRICS_REQ =>
      match snap with
      | None => Some (wire_frame METRICS_RESP seq [])
      | Some s =>
          if decide (66 + 26 * ps_taskCount s <= MaxPayload)
          then Some (wire_frame METRICS_RESP seq (fields_bytes (snapshot_fields s))) else None
      end
  | _ => None
  end.

Definition answered (st : T) (answer : option (list Z)) : T :=
  match answer with Some bytes => stream_write bytes st | None => st end.

Lemma request_handled (x : comms) st t seq p d :
  t = HEARTBEAT \/ t = EXIT_HANDSHAKE \/ t = METRICS_REQ -> 1 <= MaxPayload -> task_ok x.2 ->
  c_stream x.1 = Some st -> c_router x.1 = true -> accepted t seq p d ->
  exists c, handleDecodedFrame (on_cli (set_decoder d) x) = Some (c, x.2) /\
    c_stream c = Some (answered st (request_answer t seq (ct_snapshotFn x.2))) /\
    c_mode c = (if decide (t = EXIT_HANDSHAKE) then TEXT else c_mode x.1) /\
    c_hasFramedCommand c = (if decide (t = EXIT_HANDSHAKE) then false else c_hasFramedCommand x.1) /\
    c_hasPending c = (if decide (t = EXIT_HANDSHAKE) then false else c_hasPending x.1).
Proof.
  intros Ht Hmax [_ Hsnap] Hst Hr (Hty & Hs & _). unfold handleDecodedFrame.
  cbn [on_cli fst snd c_frameDecoder set_decoder c_router]. rewrite Hty, Hs, Hr.
  destruct Ht as [-> | [-> | ->]]; (rewrite decide_False by done); unfold dispatch; cbn [negb].
  - cbn [onHeartbeat comms_handler]. unfold with_cli. cbn [fst snd]. rewrite sendFramedHeartbeat_ok. cbn [mbind option_bind].
    rewrite (sent_some MaxPayload _ _ _ _ st) by (done || simpl; lia). by eexists.
  - cbn [onExitHandshake comms_handler]. unfold comms_onExitHandshake. cbn [fst snd]. rewrite sendFramedAck_ok.
    cbn [mbind option_bind]. rewrite (sent_some MaxPayload _ _ _ _ st) by (done || simpl; lia). by eexists.
  - cbn [onMetricsRequest comms_handler request_answer]. destruct (ct_snapshotFn x.2) as [s|] eqn:Es.
    + rewrite (metrics_ok MaxPayload seq (set_decoder d x.1, x.2) s Es (Hsnap s eq_refl)). cbn [mbind option_bind]. eexists. split; [done|].
      unfold sent. cbn [fst c_stream set_decoder]. rewrite Hst. rewrite snapshot_bytes_length by auto. case_decide; done.
    + unfold comms_onMetricsRequest. cbn [snd on_cli fst]. rewrite Es. unfold with_cli, sendFramedMetricsResp.
      rewrite (sent_ok MaxPayload METRICS_RESP seq None 0 []) by done. cbn [mbind option_bind].
      rewrite (sent_some MaxPayload _ _ _ _ st) by (done || simpl; lia). by eexists.
Qed.

(** *** A command in text *)

Definition text_answer (room : bool) (cmd : Command) (parts : bool * Z * Z) : list Z :=
  if room then ack_text (cmd_id cmd) else nack_text (cmd_id cmd) (cmd_targetDevice cmd) parts.

Lemma serve_text (x : comms) st cmd q l parts s :
  c_mode x.1 = TEXT -> c_stream x.1 = Some st -> ct_commandQueue x.2 = Some q -> mq_holds q l -> cmd_ok cmd ->
  sb_rep (c_builder x.1) s -> float_parts (float_of_bits (cmd_value cmd)) 3 = Some parts ->
  exists q' b, mq_holds q' (queue_after cmd l) /\
    serve_command MaxPayload cmd x =
      Some (set_builder b (set_stream (stream_write (text_answer (bool_decide (length l < mq_capacity)) cmd parts) st) x.1),
            set_commandQueue q' x.2).
Proof.
  intros Hm Hst Hq Hl Hcmd Hsb Hp. destruct (mq_push_spec q l cmd Hl) as (q' & E & Hq').
  unfold serve_command. rewrite Hq, E. cbn [mbind option_bind fst snd]. unfold getMode. rewrite Hm. unfold with_cli. cbn [fst snd].
  case_bool_decide; rewrite decide_False by done.
  - destruct (sendTextAck_ok s cmd x.1 Hsb Hcmd) as (b & s' & -> & _). exists q', b. split; [done|].
    unfold flushed. rewrite Hst. done.
  - destruct (sendTextNack_ok s cmd parts x.1 Hsb Hcmd Hp) as (b & s' & -> & _). exists q', b. split; [done|].
    unfold flushed. rewrite Hst. done.
Qed.
(** *** A tick on a command frame *)

(** A tick that does not end in text mode keeps the invariant. *)
Lemma tick_keeps_framed `{!StreamLaws T} (now : Z) (x x' : comms) :
  0 < kMaxLineLen -> comms_ok kMaxLineLen MaxPayload x ->
  (forall y, cli_tick kMaxLineLen kMaxValidCommandID long_bits MaxPayload x = Some y -> c_mode y.1 = FRAMED) ->
  comms_tick kMaxLineLen kMaxValidCommandID long_bits MaxPayload now x = Some x' -> comms_ok kMaxLineLen MaxPayload x'.
Proof.
  intros Hline Hx Hm. unfold comms_tick.
  destruct (cli_tick_keeps kMaxLineLen kMaxValidCommandID long_bits MaxPayload Hline task_ok
    (comms_handler_ok kMaxLineLen MaxPayload Hline) x Hx) as (y & E & Hy). rewrite E. cbn [mbind option_bind].
  destruct (comms_loop_ok kMaxLineLen MaxPayload y Hy) as [(x'' & -> & Hx'' & _)|(cmd & c & q & q' & Hg & Hc & _)].
  - by intros [= <-].
  - unfold getCommand in Hg. rewrite decide_False in Hg by (by rewrite (Hm y E)).
    specialize (Hm y E). destruct (c_hasFramedCommand y.1); injection Hg as _ <-; cbn in Hc; congruence.
Qed.

(** Reading the frame leaves its command announced. *)
Lemma command_frame_cli (x : comms) (st st' : T) (seq id dev v : Z) :
  6 <= MaxPayload -> (Z.of_nat MaxPayload < 65536)%Z ->
  in_word 8 seq -> in_word 8 id -> in_word 8 dev -> in_word 32 v ->
  serving x st (wire_frame COMMAND seq (id :: dev :: le_bytes 4 v)) st' ->
  c_mode x.1 = FRAMED -> m_cobsLen (c_frameDecoder x.1) = 0 ->
  exists z, cli_tick kMaxLineLen kMaxValidCommandID long_bits MaxPayload x = Some z /\ z.2 = x.2 /\
    c_stream z.1 = Some st' /\ c_mode z.1 = FRAMED /\ m_cobsLen (c_frameDecoder z.1) = 0 /\
    c_hasFramedCommand z.1 = true /\ c_framedCommand z.1 = Cmd id dev v /\ c_framedSeqNum z.1 = seq /\
    c_handler z.1 = c_handler x.1 /\ c_router z.1 = c_router x.1.
Proof.
  intros H6 Hmax Hseq Hid Hdev Hv Hx Hm H0. pose proof (serving_tick _ _ _ _ Hx) as Hcli. cbv zeta in Hcli.
  rewrite decide_False in Hcli by (by rewrite Hm).
  set (p := id :: dev :: le_bytes 4 v) in *. set (y := on_cli (received _ st') x) in *.
  assert (Hp : bytes_ok p) by (apply Forall_cons_2; [done|]; apply Forall_cons_2; [done|apply le_bytes_ok]).
  assert (Hpl : length p = 6) by (unfold p; by rewrite !length_cons, le_bytes_length).
  pose proof Hx as [[Hw Htask] _ _].
  destruct (framed_wire (IProtocolHandler0 := comms_handler MaxPayload) MaxPayload COMMAND seq p _ y Hmax (cw_decoder _ _ _ Hw) H0
    eq_refl Hseq Hp ltac:(lia) eq_refl) as (d & Ha & Hd & Eframe).
  rewrite Eframe, (command_frame_decoded y seq id dev v d Ha Hd Hv) in Hcli.
  eexists. split; [exact Hcli|]. split_and!; try reflexivity; [exact Hm|apply Ha].
Qed.

(** The loop serves the announced command. *)
Lemma pending_served (z : comms) (st : T) (cmd : Command) (q : Q) (l : list Command) :
  6 <= MaxPayload -> in_word 8 (cmd_id cmd) -> c_mode z.1 = FRAMED -> c_hasFramedCommand z.1 = true -> c_framedCommand z.1 = cmd ->
  c_stream z.1 = Some st -> ct_commandQueue z.2 = Some q -> mq_holds q l ->
  exists q', mq_holds q' (queue_after cmd l) /\ comms_loop MaxPayload 1 z =
    Some (set_stream (stream_write (command_answer (bool_decide (length l < mq_capacity)) (c_framedSeqNum z.1)
            (cmd_id cmd) (cmd_targetDevice cmd) (cmd_value cmd)) st) (set_framed cmd false (c_framedSeqNum z.1) z.1),
          set_commandQueue q' z.2).
Proof.
  intros H6 Hid Hm Hh Hc Hst Hq Hl.
  destruct (serve_framed (set_framed cmd false (c_framedSeqNum z.1) z.1, z.2) st cmd q l) as (q' & Hq' & Es); [done..|].
  exists q'. split; [done|]. eapply (loop_serves z cmd); [| |exact Es|].
  - unfold hasCommand. by rewrite decide_False by (by rewrite Hm).
  - unfold getCommand. rewrite decide_False by (by rewrite Hm). by rewrite Hh, Hc.
  - unfold hasCommand. by rewrite decide_False by (cbn; by rewrite Hm).
Qed.

Lemma framed_command_tick `{!StreamLaws T} (now : Z) (x : comms) (st st' : T) (q : Q) (l : list Command) (seq id dev v : Z) :
  0 < kMaxLineLen -> 6 <= MaxPayload -> (Z.of_nat MaxPayload < 65536)%Z ->
  in_word 8 seq -> in_word 8 id -> in_word 8 dev -> in_word 32 v ->
  serving x st (wire_frame COMMAND seq (id :: dev :: le_bytes 4 v)) st' ->
  c_mode x.1 = FRAMED -> m_cobsLen (c_frameDecoder x.1) = 0 -> ct_commandQueue x.2 = Some q -> mq_holds q l ->
  exists x' q', comms_tick kMaxLineLen kMaxValidCommandID long_bits MaxPayload now x = Some x' /\
    c_stream x'.1 = Some (stream_write (command_answer (bool_decide (length l < mq_capacity)) seq id dev v) st') /\
    ct_commandQueue x'.2 = Some q' /\ mq_holds q' (queue_after (Cmd id dev v) l) /\
    c_mode x'.1 = FRAMED /\ m_cobsLen (c_frameDecoder x'.1) = 0 /\ hasCommand x'.1 = false /\
    comms_ok kMaxLineLen MaxPayload x' /\ ct_snapshotFn x'.2 = ct_snapshotFn x.2.
Proof.
  intros Hline H6 Hmax Hseq Hid Hdev Hv Hx Hm H0 Hq Hl.
  destruct (command_frame_cli x st st' seq id dev v) as (z & Hcli & Hz2 & Hst & Hzm & Hz0 & Hzh & Hzc & Hzs & _); try done.
  destruct (pending_served z st' (Cmd id dev v) q l) as (q' & Hq' & Eloop); try done; [by rewrite Hz2|]. rewrite Hzs in Eloop.
  match type of Eloop with _ = Some ?x1 => assert (Etick : comms_tick kMaxLineLen kMaxValidCommandID long_bits MaxPayload now x = Some x1) end.
  { unfold comms_tick. rewrite Hcli. exact Eloop. }
  eexists _, q'. split; [exact Etick|]. cbn [fst snd]. split_and!; try done.
  - unfold hasCommand. by rewrite decide_False by (cbn; by rewrite Hzm).
  - eapply (tick_keeps_framed now x); [done|apply (sv_ok _ _ _ _ Hx)| |exact Etick]. intros y' Hy'. rewrite Hcli in Hy'. by injection Hy' as <-.
  - cbn. by rewrite Hz2.
Qed.

(** *** A tick on a handshake *)

Lemma handshake_cli (x : comms) (st st' : T) (seq v0 v1 : Z) :
  6 <= MaxPayload -> (Z.of_nat MaxPayload < 65536)%Z -> in_word 8 seq -> in_word 8 v0 -> in_word 8 v1 ->
  serving x st (0%Z :: wire_frame HANDSHAKE_REQ seq [v0; v1; 0x53; 0x4F; 0x50; 0x53]%Z) st' ->
  c_mode x.1 = TEXT -> c_probeActive x.1 = false -> c_handler x.1 = true -> c_router x.1 = true ->
  exists c, cli_tick kMaxLineLen kMaxValidCommandID long_bits MaxPayload x = Some (c, x.2) /\
    c_stream c = Some (stream_write (wire_frame HANDSHAKE_RESP seq handshake_payload) st') /\
    c_mode c = FRAMED /\ m_cobsLen (c_frameDecoder c) = 0 /\ c_hasFramedCommand c = c_hasFramedCommand x.1 /\
    c_handler c = c_handler x.1 /\ c_router c = c_router x.1.
Proof.
  intros H6 Hmax Hseq Hv0 Hv1 Hx Hm Hprobe Hh Hr.
  rewrite (serving_tick _ _ _ _ Hx). cbv zeta. rewrite decide_True by done.
  assert (Hp : bytes_ok [v0; v1; 0x53; 0x4F; 0x50; 0x53]%Z) by (repeat apply Forall_cons_2; try done; by constructor).
  destruct (wire_frame_split HANDSHAKE_REQ seq _ eq_refl Hseq Hp) as (w & Hwire & Hw & Hpos).
  rewrite Hwire in Hx |- *. change (0%Z :: w ++ [kFrameDelimiter]) with ([0%Z] ++ w ++ [kFrameDelimiter]) in *.
  pose proof (proj1 (sv_ok _ _ _ _ Hx)) as Hwf. destruct (sv_offers _ _ _ _ Hx) as (Hlen & _).
  set (y := on_cli (received _ st') x). set (post := drop (length ([0%Z] ++ w ++ [kFrameDelimiter])) (c_readBuf x.1)).
  assert (Hbuf : c_readBuf y.1 = [0%Z] ++ w ++ [kFrameDelimiter] ++ post).
  { change (([0%Z] ++ w ++ [kFrameDelimiter]) ++ post = [0%Z] ++ w ++ [kFrameDelimiter] ++ post). by rewrite <- !app_assoc. }
  rewrite !length_app in Hlen |- *. cbn [length] in Hlen |- *.
  cbn [Nat.add processTextBytes]. rewrite Hbuf. change (load ([0%Z] ++ ?l) 0) with (Some 0%Z).
  cbn [mbind option_bind]. rewrite decide_True by done. change (c_probeActive y.1) with (c_probeActive x.1). rewrite Hprobe.
  cbn [andb mbind option_bind]. set (z := on_cli _ y).
  pose proof (probe_quiet (IProtocolHandler0 := comms_handler MaxPayload) kMaxLineLen kMaxValidCommandID long_bits MaxPayload
    w 1 [0%Z] ([kFrameDelimiter] ++ post) z) as Hq.
  cbn [length] in Hq.
  rewrite Hq; [|eapply Forall_impl; [exact Hw|unfold nz_byte; intros; lia]|done|apply Hwf|cbn; unfold kReadBufSize, kMaxProbeSize in *; lia|done].
  cbn [z on_cli fst snd c_probeLen set_probe c_probeBuf Nat.add]. set (u := on_cli _ z).
  cbn [processTextBytes length]. change (c_readBuf u.1) with (c_readBuf y.1). rewrite Hbuf.
  change ([0%Z] ++ w ++ [kFrameDelimiter] ++ post) with ((0%Z :: w) ++ kFrameDelimiter :: post).
  change (S (length w)) with (length (0%Z :: w)). rewrite load_middle. cbn [mbind option_bind].
  rewrite decide_True by done. change (c_probeActive u.1) with true. change (c_probeLen u.1) with (length w).
  rewrite bool_decide_eq_true_2 by done. cbn [andb].
  rewrite (probe_handshake u seq v0 v1 w (drop (length w) (c_probeBuf x.1)));
    [|done|done|done|done|done|done|done|reflexivity|reflexivity|by rewrite Hwire].
  rewrite (sent_some MaxPayload _ _ _ _ st') by (done || simpl; lia).
  cbn [mbind option_bind processFramedBytesFrom on_cli fst snd]. eexists. split; [reflexivity|]. by split_and!.
Qed.
End messages.

(** ** Properties *)

(** C10 The task survives any host: from a well-formed state a tick returns (so its command
    loop ends), stays inside its buffers, keeps the state well formed and leaves no command
    announced, whatever bytes the stream delivers in either mode; the one exception is the
    text NACK of a command whose value has no conversion in the string builder. *)
Theorem comms_tick_safe {T Q : Type} `{!IStream T, !StreamLaws T, !MessageQueue Q Command, !MessageQueueSpec Q Command}
    (kMaxLineLen : nat) (kMaxValidCommandID long_bits : Z) (MaxPayload : nat) (now : Z) (x : CLI T * CommsTask Q) :
  0 < kMaxLineLen -> comms_ok kMaxLineLen MaxPayload x ->
  (exists x', comms_tick kMaxLineLen kMaxValidCommandID long_bits MaxPayload now x = Some x' /\
     comms_ok kMaxLineLen MaxPayload x' /\ hasCommand x'.1 = false) \/
  (exists y, cli_tick (IProtocolHandler0 := comms_handler MaxPayload) kMaxLineLen kMaxValidCommandID long_bits MaxPayload x =
     Some y /\ nack_undefined y).
Proof.
  intros Hline Hx. unfold comms_tick.
  destruct (cli_tick_keeps kMaxLineLen kMaxValidCommandID long_bits MaxPayload Hline task_ok
    (comms_handler_ok kMaxLineLen MaxPayload Hline) x Hx) as (y & E & Hy). rewrite E. cbn [mbind option_bind].
  destruct (comms_loop_ok kMaxLineLen MaxPayload y Hy) as [H|H]; [by left|right; by exists y].
Qed.

(** C9 A command frame is served in one tick: in framed mode, when the stream delivers the
    frame of a COMMAND, the command is put at the end of the queue and the host gets an ACK
    frame with its sequence number and id; when the queue is full it stays as it was and the
    host gets a NACK frame with the command's fields. The decoder is ready for the next frame. *)
Theorem framed_command_served {T Q : Type} `{!IStream T, !StreamLaws T, !MessageQueue Q Command, !MessageQueueSpec Q Command}
    (kMaxLineLen : nat) (kMaxValidCommandID long_bits : Z) (MaxPayload : nat) (now : Z) (x : CLI T * CommsTask Q)
    (st st' : T) (q : Q) (l : list Command) (seq id dev v : Z) :
  0 < kMaxLineLen -> 6 <= MaxPayload -> (Z.of_nat MaxPayload < 65536)%Z ->
  in_word 8 seq -> in_word 8 id -> in_word 8 dev -> in_word 32 v ->
  serving kMaxLineLen MaxPayload x st (wire_frame COMMAND seq (id :: dev :: le_bytes 4 v)) st' ->
  c_mode x.1 = FRAMED -> m_cobsLen (c_frameDecoder x.1) = 0 -> ct_commandQueue x.2 = Some q -> mq_holds q l ->
  exists x' q', comms_tick kMaxLineLen kMaxValidCommandID long_bits MaxPayload now x = Some x' /\
    c_stream x'.1 = Some (stream_write (command_answer (bool_decide (length l < mq_capacity)) seq id dev v) st') /\
    ct_commandQueue x'.2 = Some q' /\ mq_holds q' (queue_after (Cmd id dev v) l) /\
    c_mode x'.1 = FRAMED /\ m_cobsLen (c_frameDecoder x'.1) = 0 /\ hasCommand x'.1 = false /\
    comms_ok kMaxLineLen MaxPayload x'.
Proof.
  intros Hline H6 Hmax Hseq Hid Hdev Hv Hx Hm H0 Hq Hl.
  destruct (framed_command_tick kMaxLineLen kMaxValidCommandID long_bits MaxPayload now x st st' q l seq id dev v)
    as (x' & q' & H); [done..|]. exists x', q'. tauto.
Qed.

(** C29 The other requests are answered in one tick: in framed mode a HEARTBEAT is echoed,
    EXIT_HANDSHAKE is acknowledged and switches to text, and METRICS_REQ gets the current
    snapshot, or an empty response when no snapshot is wired; a snapshot whose encoding of
    66 + 26 bytes per task exceeds the payload limit gets no answer at all. *)
Theorem requests_answered {T Q : Type} `{!IStream T, !MessageQueue Q Command, !MessageQueueSpec Q Command}
    (kMaxLineLen : nat) (kMaxValidCommandID long_bits : Z) (MaxPayload : nat) (now : Z) (x : CLI T * CommsTask Q)
    (st st' : T) (t : MessageType) (seq : Z) (p : list Z) :
  t = HEARTBEAT \/ t = EXIT_HANDSHAKE \/ t = METRICS_REQ ->
  1 <= MaxPayload -> (Z.of_nat MaxPayload < 65536)%Z -> in_word 8 seq -> bytes_ok p -> length p <= MaxPayload ->
  serving kMaxLineLen MaxPayload x st (wire_frame t seq p) st' ->
  c_mode x.1 = FRAMED -> m_cobsLen (c_frameDecoder x.1) = 0 -> c_hasFramedCommand x.1 = false -> c_router x.1 = true ->
  exists x', comms_tick kMaxLineLen kMaxValidCommandID long_bits MaxPayload now x = Some x' /\
    c_stream x'.1 = Some (answered st' (request_answer MaxPayload t seq (ct_snapshotFn x.2))) /\
    c_mode x'.1 = (if decide (t = EXIT_HANDSHAKE) then TEXT else FRAMED) /\
    x'.2 = x.2 /\ hasCommand x'.1 = false.
Proof.
  intros Ht H1 Hmax Hseq Hp Hpl Hx Hm H0 Hno Hr. unfold comms_tick.
  rewrite (serving_tick _ _ _ _ _ _ _ _ Hx). cbv zeta. rewrite decide_False by (by rewrite Hm).
  set (y := on_cli (received _ st') x). destruct Hx as [[Hw Htask] Hst Ho].
  destruct (framed_wire (IProtocolHandler0 := comms_handler MaxPayload) MaxPayload t seq p _ y Hmax (cw_decoder _ _ _ Hw) H0
    ltac:(by destruct Ht as [-> | [-> | ->]]) Hseq Hp Hpl eq_refl) as (d & Ha & Hd & ->).
  destruct (request_handled MaxPayload y st' t seq p d Ht H1 Htask eq_refl Hr Ha) as (c & -> & Hs & Hmode & Hf & Hpend).
  cbn [mbind option_bind]. change (c_mode y.1) with (c_mode x.1) in Hmode. rewrite Hm in Hmode.
  change (c_hasFramedCommand y.1) with (c_hasFramedCommand x.1) in Hf. rewrite Hno in Hf.
  assert (Hh : hasCommand c = false).
  { unfold hasCommand. rewrite Hmode, Hf, Hpend. destruct (decide (t = EXIT_HANDSHAKE)); done. }
  exists (c, x.2). cbn [comms_loop fst]. rewrite Hh. done.
Qed.

(** The handshake: in text mode, a zero byte and the frame of a HANDSHAKE_REQ with the magic
    number make the task answer with its version and the magic and switch to framed mode, with a
    decoder that is ready for the first frame. *)
Theorem handshake_switches_mode {T Q : Type} `{!IStream T, !MessageQueue Q Command, !MessageQueueSpec Q Command}
    (kMaxLineLen : nat) (kMaxValidCommandID long_bits : Z) (MaxPayload : nat) (now : Z) (x : CLI T * CommsTask Q)
    (st st' : T) (seq v0 v1 : Z) :
  6 <= MaxPayload -> (Z.of_nat MaxPayload < 65536)%Z -> in_word 8 seq -> in_word 8 v0 -> in_word 8 v1 ->
  serving kMaxLineLen MaxPayload x st
    (0%Z :: wire_frame HANDSHAKE_REQ seq [v0; v1; 0x53; 0x4F; 0x50; 0x53]%Z) st' ->
  c_mode x.1 = TEXT -> c_probeActive x.1 = false -> c_handler x.1 = true -> c_router x.1 = true ->
  c_hasFramedCommand x.1 = false ->
  exists x', comms_tick kMaxLineLen kMaxValidCommandID long_bits MaxPayload now x = Some x' /\
    c_stream x'.1 = Some (stream_write (wire_frame HANDSHAKE_RESP seq handshake_payload) st') /\
    c_mode x'.1 = FRAMED /\ m_cobsLen (c_frameDecoder x'.1) = 0 /\ x'.2 = x.2 /\ hasCommand x'.1 = false.
Proof.
  intros H6 Hmax Hseq Hv0 Hv1 Hx Hm Hprobe Hh Hr Hno.
  destruct (handshake_cli kMaxLineLen kMaxValidCommandID long_bits MaxPayload x st st' seq v0 v1)
    as (c & E & Hs & Hmode & H0 & Hf & _); [done..|].
  assert (Hn : hasCommand c = false) by (unfold hasCommand; rewrite decide_False by (by rewrite Hmode); congruence).
  exists (c, x.2). unfold comms_tick. rewrite E. cbn [mbind option_bind comms_loop fst]. rewrite Hn. done.
Qed.

(** C26 A command line is served in one tick: in text mode, when the stream delivers the printed
    fields of a command and a line end, the command is put at the end of the queue and the host
    reads "ACK id"; when the queue is full it stays as it was and the host reads
    "NACK id device value", with the value as the string builder prints it. *)
Theorem text_command_served {T Q : Type} `{!IStream T, !MessageQueue Q Command, !MessageQueueSpec Q Command}
    (kMaxLineLen : nat) (kMaxValidCommandID long_bits : Z) (MaxPayload : nat) (now : Z) (x : CLI T * CommsTask Q)
    (st st' : T) (q : Q) (l : list Command) (pend : option Command) (id dev : Z) (d : nat)
    (value parts : bool * Z * Z) (term : Z) :
  0 < kMaxLineLen -> (0 <= kMaxValidCommandID <= 255)%Z -> (32 <= long_bits)%Z ->
  (0 <= id <= kMaxValidCommandID)%Z -> (- 2 ^ 31 <= dev < 2 ^ 31)%Z -> fixed_parts d value ->
  term = chr_newline \/ term = chr_return ->
  let line := command_line id dev d value in
  let cmd := Cmd id (u8 dev) (bits_of_float (fixed_float d value)) in
  length line < kMaxLineLen -> float_parts (float_of_bits (cmd_value cmd)) 3 = Some parts ->
  serving kMaxLineLen MaxPayload x st (line ++ [term]) st' ->
  c_mode x.1 = TEXT -> c_probeActive x.1 = false -> parser_rep kMaxLineLen (c_parser x.1) (Lines [] pend) ->
  ct_commandQueue x.2 = Some q -> mq_holds q l ->
  exists x' q', comms_tick kMaxLineLen kMaxValidCommandID long_bits MaxPayload now x = Some x' /\
    c_stream x'.1 = Some (stream_write (text_answer (bool_decide (length l < mq_capacity)) cmd parts) st') /\
    ct_commandQueue x'.2 = Some q' /\ mq_holds q' (queue_after cmd l) /\
    c_mode x'.1 = TEXT /\ hasCommand x'.1 = false.
Proof.
  intros Hmax Hbyte Hlong Hid Hdev Hval Hterm line cmd Hlen Hparts Hx Hm Hprobe Hpr Hq Hl. unfold comms_tick.
  rewrite (serving_tick _ _ _ _ _ _ _ _ Hx). cbv zeta. rewrite decide_True by done.
  set (y := on_cli (received _ st') x). pose proof (proj1 (sv_ok _ _ _ _ _ _ Hx)) as Hwf.
  destruct (text_line (IProtocolHandler0 := comms_handler MaxPayload) kMaxLineLen kMaxValidCommandID long_bits MaxPayload
    line term (Some cmd) (drop (length (line ++ [term])) (c_readBuf x.1)) y pend) as (p' & Hp' & ->); try done.
  { apply command_line_chars. }
  { split; [|done]. unfold line, command_line. rewrite !length_app. simpl. lia. }
  { by apply parse_command_line. }
  cbn [mbind option_bind]. set (z := on_cli _ y).
  destruct (parser_getCommand_ok kMaxLineLen p' _ Hp') as (p2 & Eg & _). cbn [ls_pending] in Eg.
  destruct (cw_builder _ _ _ Hwf) as [s Hs].
  destruct (serve_text MaxPayload (set_parser p2 false z.1, z.2) st' cmd q l parts s) as (q' & b & Hq' & Es); try done.
  { split; [unfold in_word; simpl; lia|]. simpl. apply wrap_in_word. lia. }
  assert (Hno : hasCommand (set_parser p2 false z.1) = false) by (unfold hasCommand; by rewrite decide_True).
  eexists _, q'. split; [|split_and!].
  - eapply (loop_serves MaxPayload z cmd); [|unfold getCommand; rewrite decide_True by done|exact Es|].
    + unfold hasCommand. by rewrite decide_True.
    + change (c_hasPending z.1) with true. change (c_parser z.1) with p'. cbn [negb]. by rewrite Eg.
    + exact Hno.
  - reflexivity.
  - reflexivity.
  - done.
  - exact Hm.
  - exact Hno.
Qed.

(** ** Witnesses: a host that has sent some bytes and collects what is written *)

Definition host := (list Z * list (list Z))%type.

#[local] Instance host_stream : IStream host := {
  stream_available h := length h.1;
  stream_read n h := (take n h.1, (drop n h.1, h.2));
  stream_write bytes h := (h.1, h.2 ++ [bytes]);
}.

#[local] Instance host_laws : StreamLaws host.
Proof. split. intros n h. cbn. rewrite length_take. lia. Qed.

#[local] Instance small_queue : MessageQueue (ring Command) Command := LockFreeQueue 1.
#[local] Instance small_queue_spec : MessageQueueSpec (ring Command) Command := LockFreeQueue_spec 1.

(** The task after [init] with bytes waiting, in framed mode if [framed]. *)
Definition sample_comms (framed : bool) (bytes : list Z) : CLI host * CommsTask (ring Command) :=
  on_cli (fun c => let c := setProtocolHandler true c in if framed then enterFramedMode c else c)
    (new_comms 64 16 (Some (bytes, [])) (Some (new_queue 1 (Cmd 0 0 0)))).

Lemma sample_comms_ok framed bytes : comms_ok 64 16 (sample_comms framed bytes).
Proof.
  split.
  - assert (Hw : cli_wf 64 16 (setProtocolHandler true (new_cli 64 16 (Some (bytes, []) : option host)))).
    { destruct (new_cli_wf 64 16 ltac:(lia) (Some (bytes, []) : option host)). by split. }
    destruct framed; [by apply enterFramedMode_wf|done].
  - split; [|done]. intros q [= <-]. exists []. apply (new_queue_holds 1).
Qed.

Lemma sample_serving framed bytes :
  0 < length bytes <= 64 -> serving 64 16 (sample_comms framed bytes) (bytes, []) bytes ([], []).
Proof.
  intros Hl. split; [apply sample_comms_ok|by destruct framed|]. split; [done|]. split; [done|]. cbn.
  by rewrite firstn_all, drop_all.
Qed.

Lemma comms_tick_safe_witness :
  (exists x', comms_tick 64 3 32 16 0 (sample_comms true [3; 255; 0; 7]%Z) = Some x' /\ comms_ok 64 16 x' /\
     hasCommand x'.1 = false) \/
  (exists y, cli_tick (IProtocolHandler0 := comms_handler 16) 64 3 32 16 (sample_comms true [3; 255; 0; 7]%Z) = Some y /\
     nack_undefined y).
Proof. apply (comms_tick_safe 64 3 32 16 0); [lia|apply sample_comms_ok]. Defined.

Lemma framed_command_served_witness :
  exists x' q', comms_tick 64 3 32 16 0 (sample_comms true (wire_frame COMMAND 7 [3; 1; 0; 0; 128; 63]%Z)) = Some x' /\
    c_stream x'.1 = Some ([], [wire_frame ACK 7 [3%Z]]) /\
    ct_commandQueue x'.2 = Some q' /\ mq_holds q' [Cmd 3 1 0x3F800000].
Proof.
  destruct (framed_command_served 64 3 32 16 0 (sample_comms true (wire_frame COMMAND 7 [3; 1; 0; 0; 128; 63]%Z))
    (wire_frame COMMAND 7 [3; 1; 0; 0; 128; 63]%Z, []) ([], []) (new_queue 1 (Cmd 0 0 0)) [] 7 3 1 0x3F800000)
    as (x' & q' & E & Hs & Hq & Hh & _); try (unfold in_word; lia); try reflexivity.
  - apply (sample_serving true). vm_compute. lia.
  - apply (new_queue_holds 1).
  - exists x', q'. split_and!; [exact E|exact Hs|exact Hq|exact Hh].
Defined.

Lemma requests_answered_witness :
  exists x', comms_tick 64 3 32 16 0 (sample_comms true (wire_frame EXIT_HANDSHAKE 9 [])) = Some x' /\
    c_stream x'.1 = Some ([], [wire_frame ACK 9 [4%Z]]) /\ c_mode x'.1 = TEXT.
Proof.
  destruct (requests_answered 64 3 32 16 0 (sample_comms true (wire_frame EXIT_HANDSHAKE 9 []))
    (wire_frame EXIT_HANDSHAKE 9 [], []) ([], []) EXIT_HANDSHAKE 9 []) as (x' & E & Hs & Hm & _);
    try (unfold in_word; simpl; lia); try reflexivity; try apply Forall_nil_2.
  - right. left. reflexivity.
  - apply (sample_serving true). vm_compute. lia.
  - exists x'. split_and!; [exact E|exact Hs|exact Hm].
Defined.

Lemma handshake_switches_mode_witness :
  exists x', comms_tick 64 3 32 16 0
      (sample_comms false (0%Z :: wire_frame HANDSHAKE_REQ 1 [1; 0; 0x53; 0x4F; 0x50; 0x53]%Z)) = Some x' /\
    c_stream x'.1 = Some ([], [wire_frame HANDSHAKE_RESP 1 [1; 0; 0x53; 0x4F; 0x50; 0x53]%Z]) /\ c_mode x'.1 = FRAMED.
Proof.
  destruct (handshake_switches_mode 64 3 32 16 0
    (sample_comms false (0%Z :: wire_frame HANDSHAKE_REQ 1 [1; 0; 0x53; 0x4F; 0x50; 0x53]%Z))
    (0%Z :: wire_frame HANDSHAKE_REQ 1 [1; 0; 0x53; 0x4F; 0x50; 0x53]%Z, []) ([], []) 1 1 0)
    as (x' & E & Hs & Hm & _); try (unfold in_word; lia); try reflexivity.
  - apply (sample_serving false). vm_compute. lia.
  - exists x'. split_and!; [exact E|exact Hs|exact Hm].
Defined.

Lemma text_command_served_witness :
  exists x' q', comms_tick 64 3 32 16 0 (sample_comms false (text "2 1 0.5" ++ [10%Z])) = Some x' /\
    c_stream x'.1 = Some ([], [text "ACK 2" ++ [10%Z]]) /\
    ct_commandQueue x'.2 = Some q' /\ mq_holds q' [Cmd 2 1 0x3F000000].
Proof.
  destruct (text_command_served 64 3 32 16 0 (sample_comms false (text "2 1 0.5" ++ [10%Z]))
    (text "2 1 0.5" ++ [10%Z], []) ([], []) (new_queue 1 (Cmd 0 0 0)) [] None 2 1 1 (false, 0, 5)%Z (false, 0, 500)%Z 10)
    as (x' & q' & E & Hs & Hq & Hh & _); try lia; try reflexivity.
  - vm_compute. intuition congruence.
  - left. reflexivity.
  - vm_compute. lia.
  - apply (sample_serving false). vm_compute. lia.
  - apply new_parser_rep. lia.
  - apply (new_queue_holds 1).
  - exists x', q'. split_and!; [exact E|exact Hs|exact Hq|exact Hh].
Defined.

(** ** What a host can lose *)

(** Two command lines in one read: the first is overwritten before it is looked at. *)
Example first_command_lost :
  exists x', comms_tick 64 3 32 16 0 (sample_comms false (text "1 0 1" ++ [10%Z] ++ text "2 0 2" ++ [10%Z])) = Some x' /\
    c_stream x'.1 = Some ([], [text "ACK 2" ++ [10%Z]]).
Proof. eexists. split; vm_compute; reflexivity. Qed.

(** A stray zero byte: the command behind it is taken for a frame. *)
Example command_after_zero_lost :
  exists x', comms_tick 64 3 32 16 0 (sample_comms false (0%Z :: text "1 0 1" ++ [10%Z])) = Some x' /\
    c_stream x'.1 = Some ([], []) /\ c_probeLen x'.1 = 6.
Proof. eexists. split; vm_compute; auto. Qed.

(** A value that cannot be printed, when the queue is full. *)
Definition after_first : option (CLI host * CommsTask (ring Command)) :=
  Eval vm_compute in comms_tick 64 3 32 16 0 (sample_comms false (text "1 0 1" ++ [10%Z])).

Example text_nack_fails :
  (x ← after_first; comms_tick 64 3 32 16 0 (on_cli (fun c => set_stream (text "1 0 5e6" ++ [10%Z], []) c) x)) = None /\
  is_Some after_first.
Proof. split; [vm_compute; reflexivity|by eexists]. Qed.
