(* ===== verification/Pipeline.v ===== *)
(** * From the host to the application

    The communications task and the control task on the queue they share: command frames that
    arrive on a line, the ticks of the two tasks in any order, and the application's calls.
    On the device the tasks may run on different cores; each uses one end of the queue, whose
    accesses are atomic in this sense ([Queue.spsc_fifo]). *)

From S2P Require Import Prelude Cobs Frame Protocol Queue Kernel Safety Cli Comms.

(** ** The line *)

(** Bytes on their way to the device, and what the device has written, write by write. *)
Definition line := (list Z * list (list Z))%type.

#[export] Instance line_stream : IStream line := {
  stream_available h := length h.1;
  stream_read n h := (take n h.1, (drop n h.1, h.2));
  stream_write bytes h := (h.1, h.2 ++ [bytes]);
}.

#[export] Instance line_laws : StreamLaws line.
Proof. split. intros n h. cbn. rewrite length_take. lia. Qed.

(** ** The two tasks *)

Section pipeline.
Context {W : Type} `{!UserApplication W} (env : Env W).
Context (monitor_isSafe : nat -> Shared W -> bool) (kMaxCommandsPerTick : nat) (ctl : ScheduledControlTask).
Context (kMaxLineLen : nat) (kMaxValidCommandID long_bits : Z) (MaxPayload : nat).

#[local] Instance queue : MessageQueue (ring Command) Command := LockFreeQueue (kQueueCapacity env).
#[local] Instance queue_spec : MessageQueueSpec (ring Command) Command := LockFreeQueue_spec (kQueueCapacity env).

(** The communications task's CLI and snapshot, and what the control task can reach; the queue
    is in the latter. *)
Record pipe := Pipe {
  p_cli : CLI line;
  p_snapshot : option PerformanceSnapshot;
  p_shared : Shared W;
}.

(** A frame arrives and the communications task runs, or the control task does. *)
Inductive event :=
  | HostCommand (now seq : Z) (cmd : Command)
  | ControlTick (now : Z).

Definition command_frame (seq : Z) (cmd : Command) : list Z :=
  wire_frame COMMAND seq (cmd_id cmd :: cmd_targetDevice cmd :: le_bytes 4 (cmd_value cmd)).

Definition deliver (bytes : list Z) (c : CLI line) : CLI line :=
  match c_stream c with Some (inbox, out) => set_stream (T := line) (inbox ++ bytes, out) c | None => c end.

Definition pipe_step (ev : event) (s : pipe) : option (list app_call * pipe) :=
  match ev with
  | HostCommand now seq cmd =>
      let t := Comms (Some (sh_queue (p_shared s))) (p_snapshot s) in
      '(c, t) ← comms_tick kMaxLineLen kMaxValidCommandID long_bits MaxPayload now (deliver (command_frame seq cmd) (p_cli s), t);
      q ← ct_commandQueue t;
      Some ([], Pipe c (ct_snapshotFn t) (set_queue q (p_shared s)))
  | ControlTick now =>
      '(calls, h) ← control_tick env monitor_isSafe kMaxCommandsPerTick ctl now (p_shared s);
      Some (calls, Pipe (p_cli s) (p_snapshot s) h)
  end.

Fixpoint pipe_run (evs : list event) (s : pipe) : option (list app_call * pipe) :=
  match evs with
  | [] => Some ([], s)
  | ev :: evs =>
      '(calls, s) ← pipe_step ev s;
      '(calls', s) ← pipe_run evs s;
      Some (calls ++ calls', s)
  end.

(** ** What the host and the application see *)

Definition frame_ok (seq : Z) (cmd : Command) : Prop :=
  in_word 8 seq /\ in_word 8 (cmd_id cmd) /\ in_word 8 (cmd_targetDevice cmd) /\ in_word 32 (cmd_value cmd).

Definition event_ok (ev : event) : Prop :=
  match ev with HostCommand _ seq cmd => frame_ok seq cmd | ControlTick _ => True end.

(** The commands sent, with their sequence numbers. *)
Definition commands_sent (evs : list event) : list (Z * Command) :=
  omap (fun ev => match ev with HostCommand _ seq cmd => Some (seq, cmd) | ControlTick _ => None end) evs.

(** The answers to them, given which were accepted, and the accepted ones. *)
Definition answers (acks : list bool) (cmds : list (Z * Command)) : list (list Z) :=
  zip_with (fun ack '(seq, cmd) => command_answer ack seq (cmd_id cmd) (cmd_targetDevice cmd) (cmd_value cmd)) acks cmds.

Definition accepted_commands (acks : list bool) (cmds : list (Z * Command)) : list Command :=
  mjoin (zip_with (fun ack '(_, cmd) => if ack : bool then [cmd] else []) acks cmds).

(** The commands the application was given. *)
Definition commands_handled (calls : list app_call) : list Command :=
  omap (fun c => match c with AppCommand cmd => Some cmd | _ => None end) calls.

(** The line is idle in framed mode with [out] written, and [l] waits in the queue. *)
Record pipe_ok (s : pipe) (out : list (list Z)) (l : list Command) : Prop := {
  po_cli : cli_wf kMaxLineLen MaxPayload (p_cli s);
  po_mode : c_mode (p_cli s) = FRAMED;
  po_decoder : m_cobsLen (c_frameDecoder (p_cli s)) = 0;
  po_stream : c_stream (p_cli s) = Some ([], out);
  po_snapshot : forall snap, p_snapshot s = Some snap -> snapshot_ok snap;
  po_queue : holds (kQueueCapacity env) (sh_queue (p_shared s)) l;
}.

(** ** One step *)

(** A command frame fits the read buffer. *)
Lemma command_frame_length seq cmd : 0 < length (command_frame seq cmd) <= kReadBufSize.
Proof.
  unfold command_frame. set (p := _ :: _ :: _). assert (Hp : length p = 6) by (unfold p; by rewrite !length_cons, le_bytes_length).
  split; [apply wire_frame_pos|]. pose proof (raw_frame_capacity COMMAND seq p) as Hc. rewrite Hp in Hc.
  unfold wire_frame. rewrite length_app. etransitivity; [apply Nat.add_le_mono_r, Hc|]. vm_compute. lia.
Qed.

Lemma line_offers bytes (out : list (list Z)) : 0 < length bytes <= kReadBufSize -> offers (bytes, out) bytes ([], out).
Proof. intros Hl. split; [done|]. split; [done|]. cbn. by rewrite firstn_all, drop_all. Qed.

Lemma comms_pipe_step now seq cmd s out l :
  0 < kMaxLineLen -> 6 <= MaxPayload -> (Z.of_nat MaxPayload < 65536)%Z -> frame_ok seq cmd -> pipe_ok s out l ->
  exists s', pipe_step (HostCommand now seq cmd) s = Some ([], s') /\
    let ack := bool_decide (length l < kQueueCapacity env) in
    pipe_ok s' (out ++ answers [ack] [(seq, cmd)]) (l ++ accepted_commands [ack] [(seq, cmd)]).
Proof.
  intros Hline H6 Hmax (Hseq & Hid & Hdev & Hv) [Hw Hm H0 Hst Hsnap Hq]. destruct cmd as [id dev v].
  unfold pipe_step, deliver. rewrite Hst. cbn [app].
  set (x := (set_stream (T := line) (command_frame seq (Cmd id dev v), out) (p_cli s), Comms (Some (sh_queue (p_shared s))) (p_snapshot s))).
  destruct (framed_command_tick kMaxLineLen kMaxValidCommandID long_bits MaxPayload now x
    (command_frame seq (Cmd id dev v), out) ([], out) (sh_queue (p_shared s)) l seq id dev v)
    as (x' & q' & -> & Hs & Hq' & Hl' & Hm' & H0' & _ & [Hw' Ht'] & Hsn); try done.
  { split; [|done|].
    - split; [by apply set_stream_wf|]. split; [|done]. intros q [= <-]. by exists l.
    - exact (line_offers _ out (command_frame_length seq (Cmd id dev v))). }
  destruct x' as [c t]. cbn [fst snd] in *. cbn [mbind option_bind]. rewrite Hq'. cbn [mbind option_bind].
  eexists. split; [done|]. cbv zeta. cbn [answers zip_with accepted_commands mjoin list_join].
  split; cbn [p_cli p_snapshot p_shared]; try done.
  - intros snap Hsnap'. apply Hsnap. rewrite Hsn in Hsnap'. exact Hsnap'.
  - cbn [sh_queue set_queue]. unfold queue_after in Hl'. cbn [mq_capacity queue LockFreeQueue] in Hl'. unfold capacity in Hl'.
    rewrite !app_nil_r. destruct (decide (length l < kQueueCapacity env)) as [Hr|Hr].
    + rewrite bool_decide_true by done. exact Hl'.
    + rewrite bool_decide_false, app_nil_r by done. exact Hl'.
Qed.

(** The application leaves the queue to the kernel, also when it aborts. *)
Context `{!QuietApplication} (quiet_abort : forall h, sh_queue (app_forceSafeAbort h) = sh_queue h).

Lemma commands_handled_app c1 c2 : commands_handled (c1 ++ c2) = commands_handled c1 ++ commands_handled c2.
Proof. apply omap_app. Qed.

Lemma commands_handled_commands l : commands_handled (AppCommand <$> l) = l.
Proof. unfold commands_handled. induction l as [|c l IH]; [done|]. cbn. by f_equal. Qed.

Lemma control_pipe_step now s out l :
  sc_monitorCount ctl <= length (sc_monitors ctl) -> pipe_ok s out l ->
  exists calls s' l', pipe_step (ControlTick now) s = Some (calls, s') /\ pipe_ok s' out l' /\
    l = commands_handled calls ++ l'.
Proof.
  intros Hmon [Hw Hm H0 Hst Hsnap Hq]. unfold pipe_step, control_tick. rewrite evaluateSafety_ok by done. cbn [mbind option_bind].
  destruct (all_monitors_safe monitor_isSafe ctl (p_shared s)); cbn [negb].
  - unfold processCommands. destruct (sc_commandQueue ctl && sc_app ctl).
    + destruct (drain_commands_ok env kMaxCommandsPerTick (p_shared s) l Hq) as (h' & -> & Hq'). cbn [mbind option_bind].
      destruct (sc_app ctl); cbn [mbind option_bind];
        (eexists _, _, (drop kMaxCommandsPerTick l); split; [done|]; split; [by split; cbn; rewrite ?quiet_tick|]);
        cbn [app]; rewrite ?commands_handled_app, commands_handled_commands; cbn; by rewrite ?app_nil_r, take_drop.
    + cbn [mbind option_bind]. destruct (sc_app ctl); cbn [mbind option_bind];
        (eexists _, _, l; split; [done|]; split; [by split; cbn; rewrite ?quiet_tick|done]).
  - destruct (sc_app ctl); cbn [mbind option_bind negb];
      (eexists _, _, l; split; [done|]; split; [by split; cbn; rewrite ?quiet_abort|done]).
Qed.

(** ** Any schedule *)

Lemma pipe_run_ok evs s out l :
  0 < kMaxLineLen -> 6 <= MaxPayload -> (Z.of_nat MaxPayload < 65536)%Z ->
  sc_monitorCount ctl <= length (sc_monitors ctl) -> Forall event_ok evs -> pipe_ok s out l ->
  exists calls s' acks l', pipe_run evs s = Some (calls, s') /\ length acks = length (commands_sent evs) /\
    pipe_ok s' (out ++ answers acks (commands_sent evs)) l' /\
    l ++ accepted_commands acks (commands_sent evs) = commands_handled calls ++ l'.
Proof.
  intros Hline H6 Hmax Hmon. revert s out l. induction evs as [|ev evs IH]; intros s out l Hevs Hs.
  { exists [], s, [], l. cbn. by rewrite !app_nil_r. }
  apply Forall_cons in Hevs as [Hev Hevs]. cbn [pipe_run]. destruct ev as [now seq cmd|now].
  - destruct (comms_pipe_step now seq cmd s out l Hline H6 Hmax Hev Hs) as (s1 & -> & H1). cbn [mbind option_bind].
    cbv zeta in H1. set (ack := bool_decide _) in H1.
    destruct (IH s1 _ _ Hevs H1) as (calls & s' & acks & l' & -> & Hlen & Hs' & Heq). cbn [mbind option_bind].
    exists calls, s', (ack :: acks), l'. split; [done|]. split; [cbn; by f_equal|]. cbn [commands_sent omap list_omap] in *.
    rewrite <- app_assoc in Hs', Heq. split; [exact Hs'|].
    rewrite <- Heq. cbn [accepted_commands zip_with mjoin list_join]. by rewrite app_nil_r.
  - destruct (control_pipe_step now s out l Hmon Hs) as (calls1 & s1 & l1 & -> & H1 & E1). cbn [mbind option_bind].
    destruct (IH s1 _ _ Hevs H1) as (calls & s' & acks & l' & -> & Hlen & Hs' & Heq). cbn [mbind option_bind].
    exists (calls1 ++ calls), s', acks, l'. split; [done|]. split; [done|]. split; [done|].
    by rewrite E1, commands_handled_app, <- !app_assoc, <- Heq.
Qed.

Lemma control_ticks_drain nows s out l :
  sc_monitorCount ctl <= length (sc_monitors ctl) -> sc_validateDependencies ctl = true ->
  (forall h, all_monitors_safe monitor_isSafe ctl h = true) -> pipe_ok s out l ->
  exists calls s', pipe_run (ControlTick <$> nows) s = Some (calls, s') /\
    commands_handled calls = take (length nows * kMaxCommandsPerTick) l /\
    pipe_ok s' out (drop (length nows * kMaxCommandsPerTick) l).
Proof.
  intros Hmon [Hcq Happ]%andb_true_iff Hsafe. revert s l. induction nows as [|now nows IH]; intros s l Hs.
  { by exists [], s. }
  pose proof Hs as [Hw Hm H0 Hst Hsnap Hq]. cbn [fmap list_fmap pipe_run pipe_step length Nat.mul].
  unfold control_tick. rewrite evaluateSafety_ok, Hsafe by done. cbn [mbind option_bind negb].
  unfold processCommands. rewrite Hcq, Happ. cbn [andb].
  destruct (drain_commands_ok env kMaxCommandsPerTick (p_shared s) l Hq) as (h' & -> & Hq'). cbn [mbind option_bind].
  destruct (IH (Pipe (p_cli s) (p_snapshot s) (app_tick now h')) (drop kMaxCommandsPerTick l)) as (calls & s' & -> & Hc & Hs').
  { by split; cbn; rewrite ?quiet_tick. }
  cbn [mbind option_bind]. eexists _, s'. split; [done|]. rewrite drop_drop in Hs'. split; [|done].
  cbn [app]. rewrite !commands_handled_app, commands_handled_commands, Hc. cbn. rewrite app_nil_r.
  apply take_take_drop.
Qed.
End pipeline.

(** ** Properties *)

(** Exactly once and in order: whatever the order of command frames and control ticks, every
    frame is answered, and the commands that are acknowledged, behind those that waited before,
    are exactly those the application is given, in order and once, followed by those that still
    wait; a command that is not acknowledged never reaches the application, and a failed safety
    check loses none. *)
Theorem pipeline_exactly_once {W : Type} `{!UserApplication W, !QuietApplication} (env : Env W)
    (monitor_isSafe : nat -> Shared W -> bool) (kMaxCommandsPerTick : nat) (ctl : ScheduledControlTask)
    (kMaxLineLen : nat) (kMaxValidCommandID long_bits : Z) (MaxPayload : nat)
    (evs : list event) (s : pipe) (out : list (list Z)) (l : list Command) :
  (forall h, sh_queue (app_forceSafeAbort h) = sh_queue h) ->
  0 < kMaxLineLen -> 6 <= MaxPayload -> (Z.of_nat MaxPayload < 65536)%Z ->
  sc_monitorCount ctl <= length (sc_monitors ctl) -> Forall event_ok evs -> pipe_ok env kMaxLineLen MaxPayload s out l ->
  exists calls s' acks l',
    pipe_run env monitor_isSafe kMaxCommandsPerTick ctl kMaxLineLen kMaxValidCommandID long_bits MaxPayload evs s =
      Some (calls, s') /\
    length acks = length (commands_sent evs) /\
    pipe_ok env kMaxLineLen MaxPayload s' (out ++ answers acks (commands_sent evs)) l' /\
    l ++ accepted_commands acks (commands_sent evs) = commands_handled calls ++ l'.
Proof. intros Hquiet. by apply pipe_run_ok. Qed.

(** Acknowledged commands are delivered: while the monitors find the system safe, a queue of
    [l] commands is handed to the application, oldest first, [CfgMaxCommandsPerTick] per control
    tick, so it is empty after [length l / CfgMaxCommandsPerTick] ticks, rounded up. *)
Theorem pipeline_drains {W : Type} `{!UserApplication W, !QuietApplication} (env : Env W)
    (monitor_isSafe : nat -> Shared W -> bool) (kMaxCommandsPerTick : nat) (ctl : ScheduledControlTask)
    (kMaxLineLen : nat) (kMaxValidCommandID long_bits : Z) (MaxPayload : nat)
    (nows : list Z) (s : pipe) (out : list (list Z)) (l : list Command) :
  sc_monitorCount ctl <= length (sc_monitors ctl) -> sc_validateDependencies ctl = true ->
  (forall h, all_monitors_safe monitor_isSafe ctl h = true) -> pipe_ok env kMaxLineLen MaxPayload s out l ->
  length l <= length nows * kMaxCommandsPerTick ->
  exists calls s',
    pipe_run env monitor_isSafe kMaxCommandsPerTick ctl kMaxLineLen kMaxValidCommandID long_bits MaxPayload
      (ControlTick <$> nows) s = Some (calls, s') /\
    commands_handled calls = l /\ pipe_ok env kMaxLineLen MaxPayload s' out [].
Proof.
  intros Hmon Hd Hsafe Hs Hn.
  destruct (control_ticks_drain env monitor_isSafe kMaxCommandsPerTick ctl kMaxLineLen kMaxValidCommandID long_bits MaxPayload
    nows s out l Hmon Hd Hsafe Hs) as (calls & s' & E & Hc & Hs').
  rewrite firstn_all2 in Hc by done. rewrite drop_ge in Hs' by done. by exists calls, s'.
Qed.

(** ** Witnesses *)

#[local] Instance idle : UserApplication unit :=
  {| app_init h := h; app_tick _ h := h; app_handleCommand _ h := h; app_forceSafeAbort h := h |}.

#[local] Instance idle_is_quiet : QuietApplication.
Proof. by split. Qed.

(** Two commands wait, and the line has been switched to frames. *)
Definition sample_pipe : pipe :=
  Pipe (enterFramedMode (setProtocolHandler true (new_cli 64 16 (Some ([], []) : option line)))) None two_commands.

Lemma sample_pipe_ok : pipe_ok sample_env 64 16 sample_pipe [] [Cmd 1 0 0; Cmd 2 0 0].
Proof.
  split; try done; [|exact two_commands_hold]. apply enterFramedMode_wf.
  destruct (new_cli_wf 64 16 ltac:(lia) (Some ([], []) : option line)). by split.
Qed.

(** The queue of four takes two more commands; the fifth is refused, until the control task has
    run. *)
Definition sample_events : list event :=
  [HostCommand 0 1 (Cmd 3 0 0); HostCommand 1 2 (Cmd 4 0 0); HostCommand 2 3 (Cmd 5 0 0); ControlTick 3; HostCommand 4 4 (Cmd 6 0 0)].

Lemma pipeline_exactly_once_witness :
  exists calls s' acks l', pipe_run sample_env (fun m _ => m =? 0) 1 safe_control 64 3 32 16 sample_events sample_pipe = Some (calls, s') /\
    length acks = 4 /\ pipe_ok sample_env 64 16 s' (answers acks (commands_sent sample_events)) l' /\
    [Cmd 1 0 0; Cmd 2 0 0] ++ accepted_commands acks (commands_sent sample_events) = commands_handled calls ++ l'.
Proof.
  apply (pipeline_exactly_once sample_env (fun m _ => m =? 0) 1 safe_control 64 3 32 16 sample_events sample_pipe [] [Cmd 1 0 0; Cmd 2 0 0]);
    try lia; try done; [|exact sample_pipe_ok].
  repeat (apply Forall_cons; split; [unfold event_ok, frame_ok, in_word; cbn; try lia; done|]). by apply Forall_nil.
Defined.

Lemma pipeline_drains_witness :
  exists calls s', pipe_run sample_env (fun m _ => m =? 0) 1 safe_control 64 3 32 16 (ControlTick <$> [5; 6]%Z) sample_pipe = Some (calls, s') /\
    commands_handled calls = [Cmd 1 0 0; Cmd 2 0 0] /\ pipe_ok sample_env 64 16 s' [] [].
Proof.
  apply (pipeline_drains sample_env (fun m _ => m =? 0) 1 safe_control 64 3 32 16 [5; 6]%Z sample_pipe [] [Cmd 1 0 0; Cmd 2 0 0]);
    try lia; try done. exact sample_pipe_ok.
Defined.

(** The same schedule, evaluated. *)
Example sample_schedule :
  fst <$> pipe_run sample_env (fun m _ => m =? 0) 1 safe_control 64 3 32 16 sample_events sample_pipe =
    Some [AppCommand (Cmd 1 0 0); AppTick 3] /\
  (s ← pipe_run sample_env (fun m _ => m =? 0) 1 safe_control 64 3 32 16 sample_events sample_pipe; c_stream (p_cli s.2)) =
    Some ([], answers [true; true; false; true] (commands_sent sample_events)).
Proof. vm_compute. auto. Qed.
