(* ===== verification/DoubleBuffer.v ===== *)
(** * The latest-value double buffer ([osal/sync/AtomicDoubleBuffer.h])

    First the operations of one context, then one writer and one reader on two cores. A value
    is copied word by word, so that a step of the machine is one access to shared memory: a
    load or store of the index, or one word of a slot. The cache policy is [NoCachePolicy]. *)

From S2P Require Import Prelude.

(** ** The operations *)

Section buffer.
Context {A : Type}.

Record AtomicDoubleBuffer := DBuf {
  m_buffers : list A;
  m_writeIndex : nat;
}.

(** Both slots start as [T{}]. *)
Definition new_buffer (zero : A) : AtomicDoubleBuffer := DBuf [zero; zero] 0.

(** [index ^ 1U] *)
Definition other (index : nat) : nat := Nat.lxor index 1.

Definition buffer_write (value : A) (b : AtomicDoubleBuffer) : option AtomicDoubleBuffer :=
  let next := other (m_writeIndex b) in
  buffers ← store (m_buffers b) next value;
  Some (DBuf buffers next).

Definition buffer_read (b : AtomicDoubleBuffer) : option A := load (m_buffers b) (m_writeIndex b).
End buffer.
#[global] Arguments AtomicDoubleBuffer A : clear implicits.
#[global] Arguments other : simpl never.

(** ** Writer and reader *)

Section concurrent.
Context {W : Type} (kWords : nat) (zero : list W).
Abbreviation value := (list W).

(** Where [write] stands: the slot it fills, the value and the words already copied. *)
Inductive writer := WIdle | WCopy (next : nat) (v : value) (k : nat).

(** Where [read] stands: the slot it copies and the words it has. Two ghosts: how many writes
    it has overlapped, and the value that was published when it loaded the index. *)
Inductive reader := RIdle | RCopy (idx : nat) (acc : value) (overlap : nat) (latest : value).

(** The values still to be written, and what the reads returned, with their ghosts. *)
Record machine := Machine {
  d_buf : AtomicDoubleBuffer value;
  d_writer : writer;
  d_todo : list value;
  d_reader : reader;
  d_reads : list (value * nat * value);
  d_published : list value;
}.

Definition machine_init (todo : list value) : machine := Machine (new_buffer zero) WIdle todo RIdle [] [zero].

Definition set_slot (i : nat) (v : value) (b : AtomicDoubleBuffer value) : option (AtomicDoubleBuffer value) :=
  buffers ← store (m_buffers b) i v; Some (DBuf buffers (m_writeIndex b)).

(** A write that begins is one more the running read overlaps. *)
Definition note_write (r : reader) : reader :=
  match r with RCopy idx acc ov latest => RCopy idx acc (S ov) latest | RIdle => RIdle end.

Inductive actor := Writer | Reader.

(** One access of the writer: the load of the index, a word of the value, or the store that
    publishes it. *)
Definition writer_step (s : machine) : option machine :=
  match d_writer s with
  | WIdle =>
      match d_todo s with
      | [] => Some s
      | v :: todo =>
          Some (Machine (d_buf s) (WCopy (other (m_writeIndex (d_buf s))) v 0) todo (note_write (d_reader s))
            (d_reads s) (d_published s))
      end
  | WCopy next v k =>
      if decide (k < kWords) then
        slot ← load (m_buffers (d_buf s)) next;
        w ← load v k;
        slot ← store slot k w;
        b ← set_slot next slot (d_buf s);
        Some (Machine b (WCopy next v (S k)) (d_todo s) (d_reader s) (d_reads s) (d_published s))
      else
        Some (Machine (DBuf (m_buffers (d_buf s)) next) WIdle (d_todo s) (d_reader s) (d_reads s) (d_published s ++ [v]))
  end.

(** One access of the reader: the load of the index or a word of the slot; the last word
    ends the read. *)
Definition reader_step (s : machine) : option machine :=
  match d_reader s with
  | RIdle =>
      latest ← last (d_published s);
      Some (Machine (d_buf s) (d_writer s) (d_todo s)
        (RCopy (m_writeIndex (d_buf s)) [] (match d_writer s with WIdle => 0 | _ => 1 end) latest)
        (d_reads s) (d_published s))
  | RCopy idx acc ov latest =>
      if decide (length acc < kWords) then
        slot ← load (m_buffers (d_buf s)) idx;
        w ← load slot (length acc);
        Some (Machine (d_buf s) (d_writer s) (d_todo s) (RCopy idx (acc ++ [w]) ov latest) (d_reads s) (d_published s))
      else
        Some (Machine (d_buf s) (d_writer s) (d_todo s) RIdle (d_reads s ++ [(acc, ov, latest)]) (d_published s))
  end.

Definition machine_step (a : actor) (s : machine) : option machine :=
  match a with Writer => writer_step s | Reader => reader_step s end.

Fixpoint machine_run (schedule : list actor) (s : machine) : option machine :=
  match schedule with
  | [] => Some s
  | a :: schedule => s ← machine_step a s; machine_run schedule s
  end.

(** ** The invariant *)

(** The writer fills the slot that is not published, from its first word on. *)
Definition writer_ok (b : AtomicDoubleBuffer value) (w : writer) : Prop :=
  match w with
  | WIdle => True
  | WCopy next v k =>
      next = other (m_writeIndex b) /\ length v = kWords /\ k <= kWords /\
      exists slot, m_buffers b !! next = Some slot /\ length slot = kWords /\ take k slot = take k v
  end.

(** Until a second write begins, the reader's slot is not touched. *)
Definition reader_ok (b : AtomicDoubleBuffer value) (w : writer) (r : reader) (published : list value) : Prop :=
  match r with
  | RIdle => True
  | RCopy idx acc ov latest =>
      idx < 2 /\ latest ∈ published /\ length acc <= kWords /\
      (ov = 0 -> w = WIdle /\ m_writeIndex b = idx) /\
      (ov <= 1 -> m_buffers b !! idx = Some latest /\ acc = take (length acc) latest /\
        (match w with WCopy next _ _ => next <> idx | WIdle => True end))
  end.

Record machine_ok (s : machine) : Prop := {
  mo_index : m_writeIndex (d_buf s) < 2;
  mo_slots : exists s0 s1, m_buffers (d_buf s) = [s0; s1] /\ length s0 = kWords /\ length s1 = kWords;
  mo_todo : Forall (fun v => length v = kWords) (d_todo s);
  mo_latest : exists pre latest, d_published s = pre ++ [latest] /\ m_buffers (d_buf s) !! m_writeIndex (d_buf s) = Some latest;
  mo_writer : writer_ok (d_buf s) (d_writer s);
  mo_reader : reader_ok (d_buf s) (d_writer s) (d_reader s) (d_published s);
  mo_reads : Forall (fun r => r.1.2 <= 1 -> r.1.1 = r.2) (d_reads s) /\ Forall (fun r => r.2 ∈ d_published s) (d_reads s);
}.

Lemma other_other i : i < 2 -> other i < 2 /\ other i <> i /\ other (other i) = i.
Proof. destruct i as [|[|]]; vm_compute; lia. Qed.

Lemma machine_init_ok (todo : list value) :
  length zero = kWords -> Forall (fun v => length v = kWords) todo -> machine_ok (machine_init todo).
Proof.
  intros Hz Htodo. constructor; cbn; auto with lia.
  - by exists zero, zero.
  - by exists [], zero.
Qed.

Lemma slots_two (bufs : list value) :
  (exists s0 s1, bufs = [s0; s1] /\ length s0 = kWords /\ length s1 = kWords) <->
  length bufs = 2 /\ Forall (fun slot => length slot = kWords) bufs.
Proof.
  split.
  - intros (s0 & s1 & -> & ? & ?). split; [done|]. by repeat constructor.
  - intros [Hl Hall]. destruct bufs as [|s0 [|s1 [|]]]; simplify_eq/=.
    decompose_Forall_hyps. eauto.
Qed.

(** A word more of the copy is correct. *)
Lemma copy_word (slot v : value) k w :
  v !! k = Some w -> k < length slot -> take k slot = take k v -> take (S k) (<[k := w]> slot) = take (S k) v.
Proof.
  intros Hw Hk Heq. rewrite (take_S_r v k w Hw), <- Heq, (take_S_r _ k w), take_insert_ge by (try lia; by apply list_lookup_insert_eq).
  done.
Qed.

Lemma writer_step_ok s : machine_ok s -> exists s', writer_step s = Some s' /\ machine_ok s'.
Proof.
  intros [Hidx Hslots Htodo (pre & latest & Hpub & Hlatest) Hw Hr Hreads].
  apply slots_two in Hslots as [Hlen Hall].
  destruct s as [[bufs idx] w todo r reads pub]. cbn in *. unfold writer_step. cbn.
  pose proof (other_other idx Hidx) as (Ho & Hne & Hoo).
  destruct w as [|next v k].
  - destruct todo as [|v todo]; [eexists; split; [done|]; constructor; cbn; eauto; by apply slots_two|].
    apply Forall_cons in Htodo as [Hv Htodo].
    eexists; split; [done|]. constructor; cbn; eauto; [by apply slots_two| |].
    + destruct (lookup_lt_is_Some_2 bufs (other idx)) as [slot Hslot]; [lia|].
      split_and!; try done; [lia|]. exists slot. rewrite Forall_lookup in Hall. eauto.
    + destruct r as [|ridx acc ov lat]; cbn in *; [done|].
      destruct Hr as (? & ? & ? & H0 & H1). split_and!; try done. intros Hov.
      destruct (H0 ltac:(lia)) as [_ ->]. destruct (H1 ltac:(lia)) as (? & ? & _). done.
  - destruct Hw as (-> & Hv & Hk & slot & Hslot & Hls & Htake). cbn in Hslot |- *.
    destruct (decide (k < kWords)) as [Hlt|].
    + unfold load, set_slot. rewrite Hslot. cbn [mbind option_bind].
      destruct (lookup_lt_is_Some_2 v k) as [word Hword]; [lia|]. rewrite Hword. cbn [mbind option_bind].
      rewrite store_ok by lia. cbn [mbind option_bind]. cbn. rewrite store_ok by lia. cbn [mbind option_bind m_writeIndex].
      eexists; split; [done|].
      assert (Hin : forall i, i <> other idx -> <[other idx := <[k := word]> slot]> bufs !! i = bufs !! i)
        by (intros; by rewrite list_lookup_insert_ne).
      constructor; cbn; eauto.
      * apply slots_two. cbn. split; [by rewrite length_insert|].
        apply Forall_insert; [done|]. by rewrite length_insert.
      * exists pre, latest. by rewrite Hin.
      * split_and!; auto. exists (<[k := word]> slot).
        rewrite list_lookup_insert_eq by lia. rewrite length_insert. split_and!; try done.
        apply copy_word; auto with lia.
      * destruct r as [|ridx acc ov lat]; cbn in *; [done|].
        destruct Hr as (? & ? & ? & H0 & H1). split_and!; try done.
        { intros Hov. by destruct (H0 Hov). }
        intros Hov. destruct (H1 Hov) as (? & ? & ?). by rewrite Hin.
    + eexists; split; [done|]. assert (slot = v) as ->.
      { rewrite <- (firstn_all2 slot (n := k)), Htake, firstn_all2; auto with lia. }
      constructor; cbn; eauto; [by apply slots_two| |destruct Hreads; split; auto].
      * destruct r as [|ridx acc ov lat]; cbn in *; [done|].
        destruct Hr as (? & ? & ? & H0 & H1). split_and!; try done; [set_solver| |].
        { intros Hov. by destruct (H0 Hov). }
        intros Hov. by destruct (H1 Hov) as (? & ? & ?).
      * eapply Forall_impl; [done|]. set_solver.
Qed.

Lemma reader_step_ok s : machine_ok s -> exists s', reader_step s = Some s' /\ machine_ok s'.
Proof.
  intros [Hidx Hslots Htodo (pre & latest & Hpub & Hlatest) Hw Hr [Hwhole Hold]].
  pose proof Hslots as [Hlen Hall]%slots_two.
  destruct s as [[bufs idx] w todo r reads pub]. cbn in *. unfold reader_step. cbn.
  destruct r as [|ridx acc ov lat].
  - assert (last pub = Some latest) as -> by (by rewrite Hpub, last_snoc). cbn [mbind option_bind].
    eexists; split; [done|]. constructor; cbn; eauto.
    split_and!; auto with lia; [subst; set_solver|by destruct w|].
    intros _. split_and!; [done..|].
    destruct w as [|next v k]; [done|]. destruct Hw as (-> & _). by apply other_other.
  - destruct Hr as (Hridx & Hin & Hacc & H0 & H1). destruct (decide (length acc < kWords)).
    + unfold load. destruct (lookup_lt_is_Some_2 bufs ridx) as [slot Hslot]; [lia|].
      rewrite Hslot. cbn [mbind option_bind].
      assert (length slot = kWords) as Hls by (rewrite Forall_lookup in Hall; eauto).
      destruct (lookup_lt_is_Some_2 slot (length acc)) as [word Hword]; [lia|]. rewrite Hword. cbn [mbind option_bind].
      eexists; split; [done|]. constructor; cbn; eauto.
      split_and!; try done; [rewrite length_app; cbn; lia|].
      intros Hov. destruct (H1 Hov) as (Hs & Ha & Hn). split_and!; try done.
      cbn in Hs. rewrite Hslot in Hs. injection Hs as ->.
      rewrite length_app. cbn. rewrite Nat.add_1_r, (take_S_r lat _ word Hword). by rewrite <- Ha.
    + eexists; split; [done|]. constructor; cbn; eauto.
      split; apply Forall_app; split; try done; apply Forall_singleton; cbn; [|done].
      intros Hov. destruct (H1 Hov) as (Hs & Ha & _). rewrite Ha.
      assert (length lat = kWords) as Hl by (rewrite Forall_lookup in Hall; eauto).
      apply firstn_all2. lia.
Qed.

Lemma machine_run_ok schedule : forall s, machine_ok s -> exists s', machine_run schedule s = Some s' /\ machine_ok s'.
Proof.
  induction schedule as [|a schedule IH]; intros s Hs; [by exists s|].
  assert (exists s', machine_step a s = Some s' /\ machine_ok s') as (s' & Hstep & Hs')
    by (destruct a; [by apply writer_step_ok|by apply reader_step_ok]).
  cbn [machine_run]. rewrite Hstep. cbn [mbind option_bind]. by apply IH.
Qed.
End concurrent.

(** ** One context *)

(** Between two calls: what [read] returns. *)
Record latest {A : Type} (b : AtomicDoubleBuffer A) (v : A) : Prop := {
  la_slots : length (m_buffers b) = 2;
  la_index : m_writeIndex b < 2;
  la_read : buffer_read b = Some v;
}.

Lemma new_buffer_latest {A : Type} (zero : A) : latest (new_buffer zero) zero.
Proof. split; [done|cbn; lia|done]. Qed.

Lemma buffer_write_latest {A : Type} (b : AtomicDoubleBuffer A) v v' :
  latest b v -> exists b', buffer_write v' b = Some b' /\ latest b' v'.
Proof.
  intros [Hlen Hidx _]. destruct (other_other _ Hidx) as (Ho & _ & _). unfold buffer_write.
  rewrite store_ok by lia. eexists. split; [done|]. split; cbn; [by rewrite length_insert|done|].
  unfold buffer_read, load. cbn. by rewrite list_lookup_insert_eq by lia.
Qed.

(** In one context the buffer holds the last value: after any sequence of writes [read]
    returns the last one, or [T{}] when there was none, and no index leaves the two slots. *)
Theorem double_buffer_latest {A : Type} (zero : A) (values : list A) :
  (b ← foldl (fun b v => b ≫= buffer_write v) (Some (new_buffer zero)) values; buffer_read b) =
  Some (default zero (last values)).
Proof.
  enough (exists b, foldl (fun b v => b ≫= buffer_write v) (Some (new_buffer zero)) values = Some b /\
    latest b (default zero (last values))) as (b & -> & Hb) by by apply la_read.
  induction values as [|v values (b & Hb & Hl)] using rev_ind; [exists (new_buffer zero); split; [done|apply new_buffer_latest]|].
  rewrite foldl_app, last_snoc, Hb. by eapply buffer_write_latest.
Qed.

(** ** Two cores *)

(** C40 Under any interleaving of the accesses of one writer and one reader, no access leaves the
    buffer, and a read that overlapped at most one write returns, whole, the value that was the
    latest one published when the read began. *)
Theorem double_buffer_whole {W : Type} (kWords : nat) (zero : list W) (todo : list (list W)) (schedule : list actor) :
  length zero = kWords -> Forall (fun v => length v = kWords) todo ->
  exists s, machine_run kWords schedule (machine_init zero todo) = Some s /\
    forall v overlap latest, (v, overlap, latest) ∈ d_reads s ->
      latest ∈ d_published s /\ (overlap <= 1 -> v = latest).
Proof.
  intros Hz Htodo.
  destruct (machine_run_ok kWords schedule (machine_init zero todo)) as (s & Hrun & Hs); [by apply machine_init_ok|].
  exists s. split; [done|]. intros v ov latest Hin. destruct (mo_reads _ _ Hs) as [Hwhole Hold].
  rewrite Forall_forall in Hwhole, Hold. split; [apply (Hold _ Hin)|apply (Hwhole _ Hin)].
Qed.

(** A read that one write overlaps, from its first word to its publication. *)
Lemma double_buffer_whole_witness :
  exists s, machine_run 2 ([Reader; Reader] ++ replicate 4 Writer ++ [Reader; Reader]) (machine_init [0; 0] [[1; 1]]) = Some s /\
    d_reads s = [([0; 0], 1, [0; 0])] /\ [0; 0] ∈ d_published s.
Proof.
  destruct (double_buffer_whole 2 [0; 0] [[1; 1]] ([Reader; Reader] ++ replicate 4 Writer ++ [Reader; Reader]))
    as (s & Hrun & Hread); [done|by repeat constructor|].
  exists s. split; [done|]. vm_compute in Hrun. injection Hrun as <-. split; [done|].
  apply (Hread [0; 0] 1 [0; 0]). by left.
Defined.

(** A second write during a read goes to the slot being copied: there is a schedule of two
    writes and one read in which the read returns a value that was never written. *)
Theorem double_buffer_tears :
  exists schedule s v, machine_run 2 schedule (machine_init [0; 0] [[1; 1]; [2; 2]]) = Some s /\
    d_reads s = [(v, 2, [0; 0])] /\ v ∉ [[0; 0]; [1; 1]; [2; 2]].
Proof.
  exists ([Reader; Reader] ++ replicate 8 Writer ++ [Reader; Reader]).
  eexists _, _. split; [by vm_compute|]. split; [done|]. set_solver.
Qed.
