(* ===== verification/Formatter.v ===== *)
(** * The snapshot formatter ([utils/PerformanceFormatter.h] and [src/utils/PerformanceFormatter.cpp])

    A snapshot as text, key by key or as comma-separated rows. The code threads a position
    through appends that stop one character before the end of the buffer; the reference is
    the text itself, built from lines and rows. The floats of a snapshot are bit patterns
    ([Protocol]). *)

From Stdlib Require String.
From S2P Require Import Prelude Float32 Protocol Metrics Decimal.
Import String.StringSyntax.

(** ** The appends *)

Section formatter.
Context (bufLen : nat).

(** What an append answers: the number of characters written, and the buffer. *)
Abbreviation count := (nat * list Z)%type.

Fixpoint appendStr_loop (str buf : list Z) (pos written : nat) : option count :=
  match str with
  | [] => Some (written, buf)
  | c :: str =>
      if decide (pos + written + 1 < bufLen) then
        buf ← store buf (pos + written) c;
        appendStr_loop str buf pos (S written)
      else Some (written, buf)
  end.

Definition appendStr (str buf : list Z) (pos : nat) : option count := appendStr_loop str buf pos 0.

Definition appendChar (c : Z) (buf : list Z) (pos : nat) : option count :=
  if decide (pos + 1 < bufLen) then
    buf ← store buf pos c;
    Some (1, buf)
  else Some (0, buf).

(** [while (val > 0)]; a 64-bit number has at most twenty digits, the fuel. *)
Fixpoint digit_loop (fuel idx : nat) (val : Z) (tmp : list Z) : option (nat * list Z) :=
  if decide (0 < val)%Z then
    match fuel with
    | O => None
    | S fuel =>
        tmp ← store tmp idx (chr_zero + val mod 10)%Z;
        digit_loop fuel (S idx) (val / 10)%Z tmp
    end
  else Some (idx, tmp).

(** From [tmp[i - 1]] down to [tmp[0]]. *)
Fixpoint reverse_loop (i : nat) (tmp buf : list Z) (pos written : nat) : option count :=
  match i with
  | O => Some (written, buf)
  | S i =>
      if decide (bufLen <= pos + written + 1) then Some (written, buf)
      else
        c ← load tmp i;
        buf ← store buf (pos + written) c;
        reverse_loop i tmp buf pos (S written)
  end.

Definition appendU64 (val : Z) (buf : list Z) (pos : nat) : option count :=
  let tmp := replicate 21 0%Z in
  '(idx, tmp) ← (if decide (val = 0)%Z then tmp ← store tmp 0 chr_zero; Some (1, tmp) else digit_loop 20 0 val tmp);
  reverse_loop idx tmp buf pos 0.

Definition appendU32 (val : Z) (buf : list Z) (pos : nat) : option count := appendU64 val buf pos.

(** [written += append...(buf, base + written, ...)]; at the top level [base] is 0 and the
    count is the position. *)
Definition grow (base : nat) (append : list Z -> nat -> option count) (c : count) : option count :=
  let '(written, buf) := c in
  '(n, buf) ← append buf (base + written);
  Some (written + n, buf).

Definition appendFloat (val : float) (buf : list Z) (pos : nat) : option count :=
  '(val, c) ← (if f_lt val f_zero then c ← grow pos (appendChar chr_minus) (0, buf); Some (f_neg val, c)
               else Some (val, (0, buf)));
  intPart ← f_to_u32 val;
  c ← grow pos (appendU32 intPart) c;
  c ← grow pos (appendChar chr_dot) c;
  let frac := f_sub val (f_of_Z intPart) in
  fracInt ← f_to_u32 (f_add (f_mul frac (f_of_Z 1000)) f_half);
  let fracInt := if decide (1000 <= fracInt)%Z then 999%Z else fracInt in
  c ← (if decide (fracInt < 100)%Z then grow pos (appendChar chr_zero) c else Some c);
  c ← (if decide (fracInt < 10)%Z then grow pos (appendChar chr_zero) c else Some c);
  grow pos (appendU32 fracInt) c.

(** [pos += append...(buf, pos, ...)] *)
Abbreviation put_str s := (grow 0 (appendStr s)).
Abbreviation put_char c := (grow 0 (appendChar c)).
Abbreviation put_u64 v := (grow 0 (appendU64 v)).
Abbreviation put_u32 v := (grow 0 (appendU32 v)).
Abbreviation put_float bits := (grow 0 (appendFloat (float_of_bits bits))).

(** [for (i = i; cond(i) && i < i + n; ++i)] *)
Fixpoint for_loop (n i : nat) (cond : nat -> bool) (body : nat -> count -> option count) (c : count) : option count :=
  match n with
  | O => Some c
  | S n => if cond i then c ← body i c; for_loop n (S i) cond body c else Some c
  end.

(** ** Key and value *)

Definition KV_U64 (key : list Z) (val : Z) (c : count) : option count :=
  c ← put_str (key ++ text "=") c; c ← put_u64 (u64 val) c; put_char chr_newline c.

Definition KV_U32 (key : list Z) (val : Z) (c : count) : option count :=
  c ← put_str (key ++ text "=") c; c ← put_u32 (u32 val) c; put_char chr_newline c.

Definition KV_FLOAT (key : list Z) (bits : Z) (c : count) : option count :=
  c ← put_str (key ++ text "=") c; c ← put_float bits c; put_char chr_newline c.

(** The body of the loop over the cores. *)
Definition kv_core (us : list Z) (i : nat) (c : count) : option count :=
  c ← put_str (text "core") c;
  c ← put_u32 (u32 (Z.of_nat i)) c;
  c ← put_str (text "_util=") c;
  u ← load us i;
  c ← put_float u c;
  put_char chr_newline c.

(** The array [prefix], read back as a C string. *)
Definition task_prefix (i : nat) : option (list Z) :=
  prefix ← store (replicate 8 0%Z) 0 116%Z;
  '(pLen, prefix) ← (if decide (10 <= i) then
      prefix ← store prefix 1 (chr_zero + Z.of_nat (i / 10))%Z; Some (2, prefix)
    else Some (1, prefix));
  prefix ← store prefix pLen (chr_zero + Z.of_nat (i mod 10))%Z;
  prefix ← store prefix (S pLen) 95%Z;
  prefix ← store prefix (S (S pLen)) 0%Z;
  c_string prefix.

(** One of the four appends' blocks for a task: prefix, key, value, end of line. *)
Definition kv_field (prefix key : list Z) (value : count -> option count) (c : count) : option count :=
  c ← put_str prefix c; c ← put_str key c; c ← value c; put_char chr_newline c.

Definition kv_bucket (t : TaskSnapshot) (b : nat) (c : count) : option count :=
  c ← (if decide (0 < b) then put_char chr_comma c else Some c);
  h ← load (ts_histogram t) b;
  put_u32 h c.

(** The body of the loop over the tasks. *)
Definition kv_task (tasks : list TaskSnapshot) (i : nat) (c : count) : option count :=
  t ← load tasks i;
  prefix ← task_prefix i;
  c ← kv_field prefix (text "core=") (put_u32 (u32 (ts_coreId t))) c;
  c ← kv_field prefix (text "last=") (put_u64 (ts_lastUs t)) c;
  c ← kv_field prefix (text "min=") (put_u64 (ts_minUs t)) c;
  c ← kv_field prefix (text "max=") (put_u64 (ts_maxUs t)) c;
  c ← kv_field prefix (text "avg=") (put_float (ts_avgUs t)) c;
  c ← kv_field prefix (text "samples=") (put_u32 (ts_samples t)) c;
  c ← kv_field prefix (text "overruns=") (put_u32 (ts_overruns t)) c;
  c ← kv_field prefix (text "misses=") (put_u32 (ts_misses t)) c;
  kv_field prefix (text "hist=") (for_loop kHistogramBuckets 0 (fun _ => true) (kv_bucket t)) c.

Definition kv_body (snap : PerformanceSnapshot) (c : count) : option count :=
  c ← KV_U64 (text "timestamp") (ps_timestamp snap) c;
  c ← KV_U32 (text "cores") (ps_coreCount snap) c;
  c ← for_loop kMaxSnapshotCores 0 (fun i => bool_decide (Z.of_nat i < ps_coreCount snap)%Z) (kv_core (ps_coreUtilization snap)) c;
  c ← KV_U64 (text "queue_depth") (ps_queueDepth snap) c;
  c ← KV_U64 (text "queue_max") (ps_queueMaxDepth snap) c;
  c ← KV_FLOAT (text "queue_avg") (ps_queueAvgDepth snap) c;
  c ← KV_U64 (text "heap_peak") (ps_peakHeapUsed snap) c;
  c ← KV_U64 (text "heap_free") (ps_freeHeap snap) c;
  c ← KV_U64 (text "stack_hw") (ps_stackHighWater snap) c;
  c ← KV_U64 (text "gap_total") (ps_totalGapUs snap) c;
  c ← KV_U64 (text "gap_max") (ps_maxGapUs snap) c;
  c ← KV_FLOAT (text "gap_avg") (ps_avgGapUs snap) c;
  c ← KV_U32 (text "sched_ticks") (ps_schedulerTickCount snap) c;
  c ← KV_U32 (text "overruns") (ps_totalOverruns snap) c;
  c ← KV_U32 (text "deadline_misses") (ps_totalDeadlineMisses snap) c;
  c ← KV_U32 (text "task_count") (Z.of_nat (ps_taskCount snap)) c;
  for_loop kMaxSnapshotTasks 0 (fun i => bool_decide (i < ps_taskCount snap)) (kv_task (ps_tasks snap)) c.

(** The terminator. *)
Definition finish (c : count) : option count :=
  let '(pos, buf) := c in
  buf ← (if decide (pos < bufLen) then store buf pos 0%Z
         else if decide (0 < bufLen) then store buf (bufLen - 1) 0%Z else Some buf);
  Some (pos, buf).

(** The guard of both formats: a null buffer is [None]. *)
Definition format (body : count -> option count) (buf : option (list Z)) : option (nat * option (list Z)) :=
  match buf with
  | None => Some (0, None)
  | Some b =>
      if decide (bufLen < 2) then Some (0, buf)
      else c ← body (0, b); '(pos, b) ← finish c; Some (pos, Some b)
  end.

Definition formatKeyValue (snap : PerformanceSnapshot) : option (list Z) -> option (nat * option (list Z)) :=
  format (kv_body snap).

(** ** Comma-separated values *)

Definition csv_header : list Z :=
  text "timestamp,cores,queue_depth,queue_max,queue_avg," ++ text "heap_peak,heap_free,stack_hw," ++
  text "gap_total,gap_max,gap_avg,sched_ticks,overruns,deadline_misses" ++ [chr_newline].

(** An append and the comma behind it. *)
Definition then_comma (value : count -> option count) (c : count) : option count :=
  c ← value c; put_char chr_comma c.

Definition csv_system (snap : PerformanceSnapshot) (c : count) : option count :=
  c ← then_comma (put_u64 (ps_timestamp snap)) c;
  c ← then_comma (put_u32 (u32 (ps_coreCount snap))) c;
  c ← then_comma (put_u64 (u64 (ps_queueDepth snap))) c;
  c ← then_comma (put_u64 (u64 (ps_queueMaxDepth snap))) c;
  c ← then_comma (put_float (ps_queueAvgDepth snap)) c;
  c ← then_comma (put_u64 (u64 (ps_peakHeapUsed snap))) c;
  c ← then_comma (put_u64 (u64 (ps_freeHeap snap))) c;
  c ← then_comma (put_u64 (u64 (ps_stackHighWater snap))) c;
  c ← then_comma (put_u64 (ps_totalGapUs snap)) c;
  c ← then_comma (put_u64 (ps_maxGapUs snap)) c;
  c ← then_comma (put_float (ps_avgGapUs snap)) c;
  c ← then_comma (put_u32 (ps_schedulerTickCount snap)) c;
  c ← then_comma (put_u32 (ps_totalOverruns snap)) c;
  c ← put_u32 (ps_totalDeadlineMisses snap) c;
  put_char chr_newline c.

Definition csv_task_header (c : count) : option count :=
  c ← put_str (text "task_idx,core,last,min,max,avg,samples,overruns,misses") c;
  c ← for_loop kHistogramBuckets 0 (fun _ => true)
        (fun b c => c ← put_str (text ",h") c; put_u32 (u32 (Z.of_nat b)) c) c;
  put_char chr_newline c.

Definition csv_bucket (t : TaskSnapshot) (b : nat) (c : count) : option count :=
  c ← put_char chr_comma c;
  h ← load (ts_histogram t) b;
  put_u32 h c.

(** The body of the loop over the tasks. *)
Definition csv_task (tasks : list TaskSnapshot) (i : nat) (c : count) : option count :=
  t ← load tasks i;
  c ← then_comma (put_u32 (u32 (ts_taskIndex t))) c;
  c ← then_comma (put_u32 (u32 (ts_coreId t))) c;
  c ← then_comma (put_u64 (ts_lastUs t)) c;
  c ← then_comma (put_u64 (ts_minUs t)) c;
  c ← then_comma (put_u64 (ts_maxUs t)) c;
  c ← then_comma (put_float (ts_avgUs t)) c;
  c ← then_comma (put_u32 (ts_samples t)) c;
  c ← then_comma (put_u32 (ts_overruns t)) c;
  c ← put_u32 (ts_misses t) c;
  c ← for_loop kHistogramBuckets 0 (fun _ => true) (csv_bucket t) c;
  put_char chr_newline c.

Definition csv_body (snap : PerformanceSnapshot) (c : count) : option count :=
  c ← put_str csv_header c;
  c ← csv_system snap c;
  c ← csv_task_header c;
  for_loop kMaxSnapshotTasks 0 (fun i => bool_decide (i < ps_taskCount snap)) (csv_task (ps_tasks snap)) c.

Definition formatCSV (snap : PerformanceSnapshot) : option (list Z) -> option (nat * option (list Z)) :=
  format (csv_body snap).

End formatter.

(** ** The reference texts

    A text is [None] where the code does not define it: a number that is not of its type, or
    a float whose integral part does not fit 32 bits. *)

Definition rtext := option (list Z).

Definition cat (a b : rtext) : rtext := x ← a; y ← b; Some (x ++ y).
Definition flat (l : list rtext) : rtext := foldr cat (Some []) l.

Definition lit (s : String.string) : rtext := Some (text s).
#[global] Arguments lit s%_string_scope.
Definition newline : rtext := Some [chr_newline].
Definition dec (n : Z) : rtext := if decide (in_word 64 n) then Some (digits n) else None.

(** Three decimals, rounded half up, but never up to the next integer. *)
Definition decimals3 (v : float) : rtext :=
  let a := if f_lt v f_zero then f_neg v else v in
  i ← f_to_u32 a;
  f ← f_to_u32 (f_add (f_mul (f_sub a (f_of_Z i)) (f_of_Z 1000)) f_half);
  Some ((if f_lt v f_zero then [chr_minus] else []) ++ digits i ++ chr_dot :: padded 3 (Z.min f 999)).
Definition dec3 (bits : Z) : rtext := decimals3 (float_of_bits bits).

Definition line (key : list Z) (value : rtext) : rtext := flat [Some (key ++ text "="); value; newline].

Definition core_line (i : nat) (u : Z) : rtext := line (text "core" ++ digits (Z.of_nat i) ++ text "_util") (dec3 u).

(** Fields with commas between them. *)
Definition separate (fields : list rtext) : list rtext :=
  match fields with
  | [] => []
  | f :: fields => f :: mjoin ((fun g => [Some [chr_comma]; g]) <$> fields)
  end.

Definition task_lines (i : nat) (t : TaskSnapshot) : rtext :=
  let prefix := text "t" ++ digits (Z.of_nat i) ++ text "_" in
  flat
  [line (prefix ++ text "core") (dec (u32 (ts_coreId t))); line (prefix ++ text "last") (dec (ts_lastUs t));
   line (prefix ++ text "min") (dec (ts_minUs t)); line (prefix ++ text "max") (dec (ts_maxUs t));
   line (prefix ++ text "avg") (dec3 (ts_avgUs t)); line (prefix ++ text "samples") (dec (ts_samples t));
   line (prefix ++ text "overruns") (dec (ts_overruns t)); line (prefix ++ text "misses") (dec (ts_misses t));
   line (prefix ++ text "hist") (flat (separate (dec <$> ts_histogram t)))].

Definition kv_text (snap : PerformanceSnapshot) : rtext :=
  flat
  [line (text "timestamp") (dec (u64 (ps_timestamp snap))); line (text "cores") (dec (u32 (ps_coreCount snap)));
   flat (imap core_line (take (Z.to_nat (ps_coreCount snap)) (ps_coreUtilization snap)));
   line (text "queue_depth") (dec (u64 (ps_queueDepth snap))); line (text "queue_max") (dec (u64 (ps_queueMaxDepth snap)));
   line (text "queue_avg") (dec3 (ps_queueAvgDepth snap));
   line (text "heap_peak") (dec (u64 (ps_peakHeapUsed snap))); line (text "heap_free") (dec (u64 (ps_freeHeap snap)));
   line (text "stack_hw") (dec (u64 (ps_stackHighWater snap)));
   line (text "gap_total") (dec (u64 (ps_totalGapUs snap))); line (text "gap_max") (dec (u64 (ps_maxGapUs snap)));
   line (text "gap_avg") (dec3 (ps_avgGapUs snap)); line (text "sched_ticks") (dec (u32 (ps_schedulerTickCount snap)));
   line (text "overruns") (dec (u32 (ps_totalOverruns snap)));
   line (text "deadline_misses") (dec (u32 (ps_totalDeadlineMisses snap)));
   line (text "task_count") (dec (u32 (Z.of_nat (ps_taskCount snap))));
   flat (imap task_lines (take (ps_taskCount snap) (ps_tasks snap)))].

Definition row (fields : list rtext) : rtext := flat (separate fields ++ [newline]).

Definition system_row (snap : PerformanceSnapshot) : rtext :=
  row [dec (ps_timestamp snap); dec (u32 (ps_coreCount snap)); dec (u64 (ps_queueDepth snap));
       dec (u64 (ps_queueMaxDepth snap)); dec3 (ps_queueAvgDepth snap); dec (u64 (ps_peakHeapUsed snap));
       dec (u64 (ps_freeHeap snap)); dec (u64 (ps_stackHighWater snap)); dec (ps_totalGapUs snap); dec (ps_maxGapUs snap);
       dec3 (ps_avgGapUs snap); dec (ps_schedulerTickCount snap); dec (ps_totalOverruns snap);
       dec (ps_totalDeadlineMisses snap)].

Definition task_row (t : TaskSnapshot) : rtext :=
  row ([dec (u32 (ts_taskIndex t)); dec (u32 (ts_coreId t)); dec (ts_lastUs t); dec (ts_minUs t); dec (ts_maxUs t);
        dec3 (ts_avgUs t); dec (ts_samples t); dec (ts_overruns t); dec (ts_misses t)] ++ (dec <$> ts_histogram t)).

Definition csv_text (snap : PerformanceSnapshot) : rtext :=
  flat
  [row [lit "timestamp"; lit "cores"; lit "queue_depth"; lit "queue_max"; lit "queue_avg"; lit "heap_peak"; lit "heap_free";
        lit "stack_hw"; lit "gap_total"; lit "gap_max"; lit "gap_avg"; lit "sched_ticks"; lit "overruns";
        lit "deadline_misses"];
   system_row snap;
   row [lit "task_idx"; lit "core"; lit "last"; lit "min"; lit "max"; lit "avg"; lit "samples"; lit "overruns"; lit "misses";
        lit "h0"; lit "h1"; lit "h2"; lit "h3"; lit "h4"; lit "h5"; lit "h6"; lit "h7"];
   flat (task_row <$> take (ps_taskCount snap) (ps_tasks snap))].

(** ** Texts *)

Lemma cat_nil_r a : cat a (Some []) = a.
Proof. destruct a; [|done]. cbn. by rewrite app_nil_r. Qed.

Lemma cat_nil_l a : cat (Some []) a = a.
Proof. by destruct a. Qed.

Lemma cat_assoc a b c : cat (cat a b) c = cat a (cat b c).
Proof. destruct a, b, c; cbn; try done. by rewrite app_assoc. Qed.

Lemma flat_app l1 l2 : flat (l1 ++ l2) = cat (flat l1) (flat l2).
Proof.
  induction l1 as [|a l1 IH]; [symmetry; apply cat_nil_l|].
  change (cat a (flat (l1 ++ l2)) = cat (cat a (flat l1)) (flat l2)). by rewrite IH, cat_assoc.
Qed.

Lemma flat_join ll : flat (mjoin ll) = flat (flat <$> ll).
Proof.
  induction ll as [|l ll IH]; [done|].
  change (flat (l ++ mjoin ll) = cat (flat l) (flat (flat <$> ll))). by rewrite flat_app, IH.
Qed.

(** A list with indices, as a loop over the indices produces it. *)
Lemma imap_seq_load {A} (f : nat -> A -> rtext) (g : nat -> rtext) (l : list A) :
  (forall i x, l !! i = Some x -> g i = f i x) -> g <$> seq 0 (length l) = imap f l.
Proof.
  intros Hg. apply list_eq. intros i. rewrite list_lookup_fmap, list_lookup_imap.
  destruct (l !! i) as [x|] eqn:E; cbn.
  - rewrite lookup_seq_lt by (by eapply lookup_lt_Some). cbn. f_equal. by apply Hg.
  - rewrite lookup_seq_ge; [done|]. by apply lookup_ge_None_1.
Qed.

(** ** What the buffer holds *)

Section proofs.
Context (bufLen : nat) (beyond : list Z).

(** What fits of [s]. *)
Definition clip (s : list Z) : list Z := take (bufLen - 1) s.

(** The buffer starts with what fits of [s], the position is behind it, and what follows the
    first [bufLen] places is [beyond]. *)
Record holds (pos : nat) (buf s : list Z) : Prop := {
  ho_pos : pos = length (clip s);
  ho_nul : no_nul s;
  ho_buf : exists rest, buf = clip s ++ rest;
  ho_len : bufLen <= length buf;
  ho_beyond : drop bufLen buf = beyond;
}.

Lemma drop_beyond (l : list Z) x y rest : length l < bufLen -> drop bufLen (l ++ x :: rest) = drop bufLen (l ++ y :: rest).
Proof.
  intros Hl. rewrite !drop_app_ge by lia. destruct (bufLen - length l) as [|k] eqn:E; [lia|done].
Qed.

Lemma clip_length s : length (clip s) = Nat.min (bufLen - 1) (length s).
Proof. apply length_take. Qed.

(** A character for which there is room, and a text for which there is none. *)
Lemma put_ok pos buf s c :
  holds pos buf s -> pos + 1 < bufLen -> c <> 0%Z ->
  exists buf', store buf pos c = Some buf' /\ holds (S pos) buf' (s ++ [c]).
Proof.
  intros [Hp Hn (rest & ->) Hl Hbeyond] Hroom Hc. rewrite clip_length in Hp.
  assert (Hs : clip s = s) by (apply firstn_all2; lia).
  assert (Hsc : clip (s ++ [c]) = s ++ [c]) by (apply firstn_all2; rewrite length_app; cbn [length]; lia).
  rewrite Hs in *. rewrite length_app in Hl. destruct rest as [|x rest]; [cbn [length] in Hl; lia|].
  assert (pos = length s) as -> by lia. rewrite store_middle. eexists; split; [done|]. split.
  - rewrite Hsc, length_app. cbn [length]. lia.
  - apply no_nul_app; [done|]. by apply Forall_singleton.
  - exists rest. by rewrite Hsc, <- app_assoc.
  - rewrite length_app. cbn [length] in *. lia.
  - rewrite <- Hbeyond. apply drop_beyond. lia.
Qed.

Lemma full_ok pos buf s x : holds pos buf s -> ~ pos + 1 < bufLen -> no_nul x -> holds pos buf (s ++ x).
Proof.
  intros [Hp Hn (rest & ->) Hl Hbeyond] Hfull Hx. rewrite clip_length in Hp.
  assert (E : clip (s ++ x) = clip s) by (apply take_app_le; lia).
  split; [by rewrite E, clip_length|by apply no_nul_app|exists rest; by rewrite E|done|done].
Qed.

(** ** What an append writes *)

(** [f] appends the text [x], as far as it fits. *)
Definition writes (f : list Z -> nat -> option (nat * list Z)) (x : rtext) : Prop :=
  forall pos buf s y, x = Some y -> holds pos buf s ->
    exists n buf', f buf pos = Some (n, buf') /\ holds (pos + n) buf' (s ++ y).

(** The same of a sequence of appends with the position [base + written]. *)
Definition chain (base : nat) (g : nat * list Z -> option (nat * list Z)) (x : rtext) : Prop :=
  forall written buf s y, x = Some y -> holds (base + written) buf s ->
    exists n buf', g (written, buf) = Some (n, buf') /\ holds (base + n) buf' (s ++ y).

Lemma appendStr_loop_ok str buf pos written s :
  no_nul str -> holds (pos + written) buf s ->
  exists n buf', appendStr_loop bufLen str buf pos written = Some (n, buf') /\ holds (pos + n) buf' (s ++ str).
Proof.
  intros Hstr. revert written buf s. induction Hstr as [|c str Hc Hstr IH]; intros written buf s Hs; cbn [appendStr_loop].
  { exists written, buf. by rewrite app_nil_r. }
  case_decide as Hroom.
  - destruct (put_ok _ _ _ c Hs Hroom Hc) as (buf1 & -> & H1). cbn [mbind option_bind].
    rewrite <- Nat.add_succ_r in H1. destruct (IH _ _ _ H1) as (n & buf2 & -> & H2).
    exists n, buf2. by rewrite <- app_assoc in H2.
  - exists written, buf. split; [done|]. apply full_ok; [done..|]. by constructor.
Qed.

Lemma writes_str str : no_nul str -> writes (appendStr bufLen str) (Some str).
Proof.
  intros Hstr pos buf s y [= <-] Hs. apply appendStr_loop_ok; [done|]. by rewrite Nat.add_0_r.
Qed.

Lemma writes_char c : c <> 0%Z -> writes (appendChar bufLen c) (Some [c]).
Proof.
  intros Hc pos buf s y [= <-] Hs. unfold appendChar. case_decide as Hroom.
  - destruct (put_ok _ _ _ c Hs Hroom Hc) as (buf' & -> & H'). exists 1, buf'. by rewrite Nat.add_1_r.
  - exists 0, buf. rewrite Nat.add_0_r. split; [done|]. apply full_ok; [done..|]. by apply Forall_singleton.
Qed.

Lemma digit_loop_ok n val pre rest :
  n <= length rest -> (0 <= val < 10 ^ Z.of_nat n)%Z ->
  digit_loop n (length pre) val (pre ++ rest) =
    Some (length pre + length (low_digits n val), pre ++ low_digits n val ++ drop (length (low_digits n val)) rest).
Proof.
  revert val pre rest. induction n as [|n IH]; intros val pre rest Hn Hv.
  { assert (val = 0)%Z as -> by (simpl in Hv; lia). cbn. by rewrite Nat.add_0_r. }
  rewrite Nat2Z.inj_succ, Z.pow_succ_r in Hv by lia. cbn [digit_loop]. rewrite low_digits_step.
  case_decide; [|by rewrite Nat.add_0_r].
  destruct rest as [|x rest]; [cbn in Hn; lia|]. rewrite store_middle. cbn [mbind option_bind].
  specialize (IH (val / 10)%Z (pre ++ [chr_zero + val mod 10]%Z) rest ltac:(by simpl in Hn; lia)).
  rewrite length_app, Nat.add_1_r, <- !app_assoc in IH. simpl in IH. rewrite IH.
  - simpl. f_equal. f_equal. lia.
  - split; [apply Z.div_pos; lia|]. apply Z.div_lt_upper_bound; lia.
Qed.

Lemma reverse_loop_ok i tmp buf pos written s :
  i <= length tmp -> no_nul (take i tmp) -> holds (pos + written) buf s ->
  exists n buf', reverse_loop bufLen i tmp buf pos written = Some (n, buf') /\
    holds (pos + n) buf' (s ++ reverse (take i tmp)).
Proof.
  revert written buf s. induction i as [|i IH]; intros written buf s Hi Hn Hs; cbn [reverse_loop].
  { exists written, buf. cbn. by rewrite app_nil_r. }
  destruct (lookup_lt_is_Some_2 tmp i) as [c Hc]; [lia|].
  rewrite (take_S_r _ _ _ Hc), ?reverse_snoc in *. apply Forall_app in Hn as [Hn Hc0]. apply (Forall_singleton _ c) in Hc0.
  case_decide as Hfull.
  - exists written, buf. split; [done|]. apply full_ok; [done|lia|]. constructor; [done|]. by apply Forall_reverse.
  - unfold load. rewrite Hc. cbn [mbind option_bind].
    destruct (put_ok _ _ _ c Hs ltac:(lia) Hc0) as (buf1 & -> & H1). cbn [mbind option_bind].
    rewrite <- Nat.add_succ_r in H1. destruct (IH _ _ _ ltac:(lia) Hn H1) as (n & buf2 & -> & H2).
    exists n, buf2. by rewrite <- app_assoc in H2.
Qed.

Lemma writes_u64 val : writes (appendU64 bufLen val) (dec val).
Proof.
  intros pos buf s y Hy Hs. unfold dec in Hy. case_decide as Hv; [|done]. injection Hy as <-.
  pose proof (u64_twenty_digits val Hv) as H20. unfold appendU64.
  assert (Hs0 : holds (pos + 0) buf s) by (by rewrite Nat.add_0_r).
  assert (Hlow : exists idx tmp, (if decide (val = 0)%Z then tmp ← store (replicate 21 0%Z) 0 chr_zero; Some (1, tmp)
      else digit_loop 20 0 val (replicate 21 0%Z)) = Some (idx, tmp) /\ idx <= length tmp /\ reverse (take idx tmp) = digits val).
  { unfold digits. case_decide; [by eexists _, _; split; [done|]; split; [cbn; lia|]|].
    pose proof (digit_loop_ok 20 val [] (replicate 21 0%Z) ltac:(cbn; lia) H20) as E.
    cbn [app length Nat.add] in E. rewrite E. eexists _, _; split; [done|].
    split; [rewrite length_app; lia|]. by rewrite take_app_length. }
  destruct Hlow as (idx & tmp & -> & Hidx & Hrev). cbn [mbind option_bind]. rewrite <- Hrev.
  apply reverse_loop_ok; [done| |done]. apply Forall_reverse. rewrite Hrev. apply digits_no_nul.
Qed.

Lemma writes_u32 val : writes (appendU32 bufLen val) (dec val).
Proof. apply writes_u64. Qed.

(** *** Sequences *)

Lemma chain_grow base f x : writes f x -> chain base (grow base f) x.
Proof.
  intros Hf written buf s y Hy Hs. destruct (Hf _ _ _ _ Hy Hs) as (n & buf' & E & H').
  unfold grow. rewrite E. cbn [mbind option_bind]. exists (written + n), buf'. by rewrite Nat.add_assoc.
Qed.

Lemma chain_nil base : chain base (fun c => Some c) (Some []).
Proof. intros written buf s y [= <-] Hs. exists written, buf. by rewrite app_nil_r. Qed.

Lemma chain_cat base g h x y : chain base g x -> chain base h y -> chain base (fun c => c ← g c; h c) (cat x y).
Proof.
  intros Hg Hh written buf s z Hz Hs. destruct x as [x|]; [|done]. destruct y as [y|]; [|done].
  injection Hz as <-. destruct (Hg _ _ _ _ eq_refl Hs) as (n1 & buf1 & -> & H1). cbn [mbind option_bind].
  destruct (Hh _ _ _ _ eq_refl H1) as (n2 & buf2 & -> & H2). exists n2, buf2. by rewrite app_assoc.
Qed.

Lemma chain_cons base g h x l :
  chain base g x -> chain base h (flat l) -> chain base (fun c => c ← g c; h c) (flat (x :: l)).
Proof. apply chain_cat. Qed.

Lemma chain_last base g x : chain base g x -> chain base g (flat [x]).
Proof. intros Hg. cbn [flat foldr]. by rewrite cat_nil_r. Qed.

Lemma chain_app base g h l1 l2 :
  chain base g (flat l1) -> chain base h (flat l2) -> chain base (fun c => c ← g c; h c) (flat (l1 ++ l2)).
Proof. rewrite flat_app. apply chain_cat. Qed.

Lemma chain_eq base g x y : chain base g x -> x = y -> chain base g y.
Proof. by intros ? <-. Qed.

(** A loop over the first [k] indices writes their texts one after the other. *)
Lemma chain_loop base cond body g n i k :
  k <= n -> (forall j, i <= j < i + n -> cond j = bool_decide (j < i + k)) ->
  (forall j, i <= j < i + k -> chain base (body j) (g j)) ->
  chain base (for_loop n i cond body) (flat (g <$> seq i k)).
Proof.
  revert i k. induction n as [|n IH]; intros i k Hk Hcond Hbody.
  { assert (k = 0) as -> by lia. apply chain_nil. }
  assert (Hi : cond i = bool_decide (i < i + k)) by (apply Hcond; lia).
  destruct k as [|k].
  { rewrite bool_decide_false in Hi by lia. intros written buf s y Hy Hs. cbn [for_loop]. rewrite Hi.
    by apply (chain_nil base written buf s y). }
  rewrite bool_decide_true in Hi by lia. intros written buf s y Hy Hs. cbn [for_loop]. rewrite Hi. revert written buf s y Hy Hs.
  apply (chain_cons base (body i)); [apply Hbody; lia|]. apply IH; [lia| |].
  - intros j Hj. rewrite Hcond by lia. apply bool_decide_ext. lia.
  - intros j Hj. apply Hbody. lia.
Qed.

(** A loop over the first [k] elements of an array. *)
Lemma chain_array {A} base cond body (f : nat -> A -> rtext) (l : list A) n k :
  length l = n -> (forall j, j < n -> cond j = bool_decide (j < k)) ->
  (forall j x, l !! j = Some x -> chain base (body j) (f j x)) ->
  chain base (for_loop n 0 cond body) (flat (imap f (take k l))).
Proof.
  intros Hn Hcond Hbody.
  rewrite <- (imap_seq_load f (fun j => default (Some []) (f j <$> l !! j))).
  2: { intros i x [Hi _]%lookup_take_Some. by rewrite Hi. }
  apply chain_loop; [rewrite length_take; lia| |]; rewrite length_take.
  - intros j Hj. rewrite Hcond by lia. apply bool_decide_ext. lia.
  - intros j Hj. destruct (lookup_lt_is_Some_2 l j) as [x Hx]; [lia|]. rewrite Hx. by apply Hbody.
Qed.

Lemma flat_merge a b l : flat (Some a :: Some b :: l) = flat (Some (a ++ b) :: l).
Proof. cbn [flat foldr]. by rewrite <- cat_assoc. Qed.

(** One append, as a link of a chain. *)
Ltac one_append :=
  match goal with
  | |- chain _ (grow _ (appendStr _ _)) _ => apply chain_grow, writes_str; first [assumption|closed_text]
  | |- chain _ (grow _ (appendChar _ _)) _ => apply chain_grow, writes_char; done
  | |- chain _ (grow _ (appendU64 _ _)) _ => apply chain_grow, writes_u64
  | |- chain _ (grow _ (appendU32 _ _)) _ => apply chain_grow, writes_u32
  end.

Lemma chain_if base P `{!Decision P} g x :
  chain base g x -> chain base (fun c => if decide P then g c else Some c) (if decide P then x else Some []).
Proof. intros Hg. destruct (decide P); [exact Hg|apply chain_nil]. Qed.

Lemma dec_word n : in_word 64 n -> dec n = Some (digits n).
Proof. intros Hn. unfold dec. by rewrite decide_True. Qed.

(** The leading zeros. *)
Lemma pad3 fr :
  (0 <= fr < 1000)%Z ->
  flat [if decide (fr < 100)%Z then Some [chr_zero] else Some []; if decide (fr < 10)%Z then Some [chr_zero] else Some [];
        dec fr] = Some (padded 3 fr).
Proof.
  intros Hfr. assert (H20 : twenty_digits fr) by (apply u32_twenty_digits; unfold in_word; lia).
  rewrite dec_word by (unfold in_word; lia). unfold padded.
  pose proof (digits_length_pos fr H20). pose proof (digits_length fr 1 H20 ltac:(lia)) as H1.
  pose proof (digits_length fr 2 H20 ltac:(lia)) as H2. pose proof (digits_length fr 3 H20 ltac:(lia)) as H3.
  change (10 ^ Z.of_nat 1)%Z with 10%Z in H1. change (10 ^ Z.of_nat 2)%Z with 100%Z in H2.
  change (10 ^ Z.of_nat 3)%Z with 1000%Z in H3.
  destruct (decide (fr < 100)%Z), (decide (fr < 10)%Z); try lia; cbn; rewrite app_nil_r.
  - by replace (3 - length (digits fr)) with 2 by lia.
  - by replace (3 - length (digits fr)) with 1 by lia.
  - by replace (3 - length (digits fr)) with 0 by lia.
Qed.

Lemma writes_float v : writes (appendFloat bufLen v) (decimals3 v).
Proof.
  intros pos buf s y Hy Hs. unfold appendFloat, decimals3 in *.
  set (neg := f_lt v f_zero) in *. clearbody neg. set (a := if neg then f_neg v else v) in *.
  assert (Hsign : exists w b0, (if neg then c ← grow pos (appendChar bufLen chr_minus) (0, buf); Some (f_neg v, c)
      else Some (v, (0, buf))) = Some (a, (w, b0)) /\ holds (pos + w) b0 (s ++ if neg then [chr_minus] else [])).
  { assert (H0 : holds (pos + 0) buf s) by (by rewrite Nat.add_0_r).
    destruct neg; [|exists 0, buf; by rewrite app_nil_r].
    destruct (chain_grow pos _ _ (writes_char chr_minus ltac:(done)) 0 buf s _ eq_refl H0) as (w & b0 & -> & Hb0).
    by exists w, b0. }
  destruct Hsign as (w & b0 & -> & Hb0). cbn [mbind option_bind]. clearbody a.
  destruct (f_to_u32 a) as [ip|] eqn:Eip; cbn [mbind option_bind] in *; [|done].
  destruct (f_to_u32 (f_add _ _)) as [f|] eqn:Ef; cbn [mbind option_bind] in *; [|done].
  apply f_to_u32_word in Eip, Ef. injection Hy as <-. unfold in_word in Ef, Eip.
  replace (if decide (1000 <= f)%Z then 999%Z else f) with (Z.min f 999) by (case_decide; lia).
  set (fr := Z.min f 999). assert (Hfr : (0 <= fr < 1000)%Z) by lia. clearbody fr.
  enough (Hc : chain pos (fun c => c ← grow pos (appendU32 bufLen ip) c; c ← grow pos (appendChar bufLen chr_dot) c;
      c ← (if decide (fr < 100)%Z then grow pos (appendChar bufLen chr_zero) c else Some c);
      c ← (if decide (fr < 10)%Z then grow pos (appendChar bufLen chr_zero) c else Some c);
      grow pos (appendU32 bufLen fr) c) (Some (digits ip ++ chr_dot :: padded 3 fr))).
  { destruct (Hc w b0 _ _ eq_refl Hb0) as (n & b' & E & Hb'). exists n, b'. split; [exact E|]. by rewrite app_assoc. }
  eapply chain_eq.
  - eapply (chain_cons _ _ _ (dec ip)); [one_append|]. eapply (chain_cons _ _ _ (Some [chr_dot])); [one_append|].
    eapply chain_cons; [apply (chain_if pos (fr < 100)%Z); one_append|].
    eapply chain_cons; [apply (chain_if pos (fr < 10)%Z); one_append|].
    apply chain_last. one_append.
  - etransitivity; [apply (f_equal (fun x => cat (dec ip) (cat (Some [chr_dot]) x)) (pad3 fr Hfr))|].
    by rewrite dec_word by (unfold in_word; lia).
Qed.

Lemma writes_float_bits bits : writes (appendFloat bufLen (float_of_bits bits)) (dec3 bits).
Proof. apply writes_float. Qed.

(** *** Key and value *)

Ltac one_append ::=
  match goal with
  | |- chain _ (grow _ (appendStr _ _)) _ => apply chain_grow, writes_str; first [assumption|closed_text]
  | |- chain _ (grow _ (appendChar _ _)) _ => apply chain_grow, writes_char; done
  | |- chain _ (grow _ (appendU64 _ _)) _ => apply chain_grow, writes_u64
  | |- chain _ (grow _ (appendU32 _ _)) _ => apply chain_grow, writes_u32
  | |- chain _ (grow _ (appendFloat _ (float_of_bits _))) _ => apply chain_grow, writes_float_bits
  end.

(** One append after the other. *)
Ltac appends := repeat (eapply chain_cons; [one_append|]); eapply chain_last; one_append.

Lemma chain_KV_U64 key v : no_nul (key ++ text "=") -> chain 0 (KV_U64 bufLen key v) (line key (dec (u64 v))).
Proof. intros Hkey. unfold KV_U64, line. appends. Qed.

Lemma chain_KV_U32 key v : no_nul (key ++ text "=") -> chain 0 (KV_U32 bufLen key v) (line key (dec (u32 v))).
Proof. intros Hkey. unfold KV_U32, line. appends. Qed.

Lemma chain_KV_FLOAT key v : no_nul (key ++ text "=") -> chain 0 (KV_FLOAT bufLen key v) (line key (dec3 v)).
Proof. intros Hkey. unfold KV_FLOAT, line. appends. Qed.

Lemma chain_kv_core us i u :
  us !! i = Some u -> i < kMaxSnapshotCores -> chain 0 (kv_core bufLen us i) (core_line i u).
Proof.
  intros Hu Hi. unfold kv_core, core_line, line, load. rewrite Hu. cbn [mbind option_bind]. eapply chain_eq; [appends|].
  rewrite wrap_id, dec_word by (unfold in_word, kMaxSnapshotCores in *; lia). by rewrite !flat_merge, <- !app_assoc.
Qed.

Lemma task_prefix_ok i : i < kMaxSnapshotTasks -> task_prefix i = Some (text "t" ++ digits (Z.of_nat i) ++ text "_").
Proof. intros Hi. do 16 (destruct i as [|i]; [by vm_compute|]). unfold kMaxSnapshotTasks in Hi. lia. Qed.

Lemma chain_kv_field prefix key key' value x :
  no_nul prefix -> no_nul key' -> key' = key ++ text "=" -> chain 0 value x ->
  chain 0 (kv_field bufLen prefix key' value) (line (prefix ++ key) x).
Proof.
  intros Hp Hk -> Hv. unfold kv_field, line. rewrite <- app_assoc, <- flat_merge.
  do 2 (eapply chain_cons; [one_append|]). eapply chain_cons; [exact Hv|]. eapply chain_last. one_append.
Qed.

(** The comma before every bucket but the first. *)
Lemma separate_imap (l : list Z) :
  flat (imap (fun b h => flat [if decide (0 < b) then Some [chr_comma] else Some []; dec h]) l) = flat (separate (dec <$> l)).
Proof.
  destruct l as [|h l]; [done|]. rewrite imap_cons. cbn [fmap list_fmap separate flat foldr]. rewrite cat_nil_l, cat_nil_r.
  f_equal. fold (flat (mjoin ((fun g => [Some [chr_comma]; g]) <$> (dec <$> l)))). rewrite flat_join. unfold flat at 1. f_equal.
  apply list_eq. intros b. rewrite list_lookup_imap, !list_lookup_fmap. by destruct (l !! b).
Qed.

(** A loop over the whole array. *)
Lemma chain_whole {A} base body (f : nat -> A -> rtext) (l : list A) n :
  length l = n -> (forall j x, l !! j = Some x -> chain base (body j) (f j x)) ->
  chain base (for_loop n 0 (fun _ => true) body) (flat (imap f l)).
Proof.
  intros Hn Hbody. rewrite <- (firstn_all l), Hn. apply chain_array; [done| |done].
  intros j Hj. by rewrite bool_decide_true.
Qed.

Lemma chain_kv_buckets t :
  length (ts_histogram t) = kHistogramBuckets ->
  chain 0 (for_loop kHistogramBuckets 0 (fun _ => true) (kv_bucket bufLen t)) (flat (separate (dec <$> ts_histogram t))).
Proof.
  intros Hl. rewrite <- separate_imap. apply chain_whole; [done|]. intros j h Hh. unfold kv_bucket, load. rewrite Hh.
  cbn [mbind option_bind]. eapply chain_cons; [apply (chain_if 0 (0 < j)); one_append|]. apply chain_last. one_append.
Qed.

Lemma chain_kv_task tasks i t :
  tasks !! i = Some t -> i < kMaxSnapshotTasks -> length (ts_histogram t) = kHistogramBuckets ->
  chain 0 (kv_task bufLen tasks i) (task_lines i t).
Proof.
  intros Ht Hi Hl. unfold kv_task, task_lines, load. rewrite Ht, task_prefix_ok by done. cbn [mbind option_bind].
  assert (Hp : no_nul (text "t" ++ digits (Z.of_nat i) ++ text "_")).
  { repeat apply no_nul_app; [closed_text|apply digits_no_nul|closed_text]. }
  set (prefix := text "t" ++ digits (Z.of_nat i) ++ text "_") in *. clearbody prefix. cbv zeta.
  repeat (eapply chain_cons; [apply chain_kv_field; [done|closed_text|done|one_append]|]).
  eapply chain_last. apply chain_kv_field; [done|closed_text|done|]. by apply chain_kv_buckets.
Qed.

(** The arrays have their declared sizes. *)
Record arrays_ok (snap : PerformanceSnapshot) : Prop := {
  ao_snapshot : snapshot_ok snap;
  ao_histograms : Forall (fun t => length (ts_histogram t) = kHistogramBuckets) (ps_tasks snap);
}.

Lemma chain_kv_body snap : arrays_ok snap -> chain 0 (kv_body bufLen snap) (kv_text snap).
Proof.
  intros [[Hcores Htasks Hcount] Hhist]. unfold kv_body, kv_text.
  repeat first
    [ eapply chain_cons; [first [apply chain_KV_U64|apply chain_KV_U32|apply chain_KV_FLOAT]; closed_text|]
    | eapply chain_cons; [apply chain_array; [done| |]|] | eapply chain_last, chain_array; [done| |] ].
  - intros j Hj. apply bool_decide_ext. lia.
  - intros j u Hu. apply chain_kv_core; [done|]. apply lookup_lt_Some in Hu. by rewrite Hcores in Hu.
  - intros j Hj. done.
  - intros j t Ht. rewrite Forall_lookup in Hhist. apply chain_kv_task; [done| |by eapply Hhist].
    apply lookup_lt_Some in Ht. by rewrite Htasks in Ht.
Qed.

(** *** Rows *)

(** A field and its comma. *)
Lemma chain_comma base g h x l :
  chain 0 g x -> chain base h (flat l) -> base = 0 ->
  chain base (fun c => c ← then_comma bufLen g c; h c) (flat (x :: Some [chr_comma] :: l)).
Proof.
  intros Hg Hh ->. apply (chain_app 0 _ _ [x; Some [chr_comma]]); [|done].
  unfold then_comma. eapply chain_cons; [exact Hg|]. apply chain_last. one_append.
Qed.

Lemma chain_csv_system snap : chain 0 (csv_system bufLen snap) (system_row snap).
Proof.
  unfold csv_system, system_row, row. cbn [separate fmap list_fmap mjoin list_join app].
  repeat (apply chain_comma; [one_append| |done]). appends.
Qed.

Lemma chain_csv_task_header :
  chain 0 (csv_task_header bufLen)
    (row [lit "task_idx"; lit "core"; lit "last"; lit "min"; lit "max"; lit "avg"; lit "samples"; lit "overruns"; lit "misses";
        lit "h0"; lit "h1"; lit "h2"; lit "h3"; lit "h4"; lit "h5"; lit "h6"; lit "h7"]).
Proof.
  unfold csv_task_header. eapply chain_eq.
  - eapply chain_cons; [one_append|]. eapply chain_cons.
    + apply (chain_loop _ _ _ (fun b => flat [lit ",h"; dec (u32 (Z.of_nat b))]) _ 0 8); [done| |].
      * intros j Hj. by rewrite bool_decide_true by (unfold kHistogramBuckets in Hj; lia).
      * intros j Hj. unfold lit. appends.
    + apply chain_last. one_append.
  - vm_compute. reflexivity.
Qed.

Lemma commas_imap (l : list Z) :
  flat (imap (fun _ h => flat [Some [chr_comma]; dec h]) l) = flat (mjoin ((fun g => [Some [chr_comma]; g]) <$> (dec <$> l))).
Proof.
  rewrite flat_join. f_equal. apply list_eq. intros b. rewrite list_lookup_imap, !list_lookup_fmap. by destruct (l !! b).
Qed.

Lemma chain_csv_task tasks i t :
  tasks !! i = Some t -> length (ts_histogram t) = kHistogramBuckets -> chain 0 (csv_task bufLen tasks i) (task_row t).
Proof.
  intros Ht Hl. unfold csv_task, task_row, row, load. rewrite Ht. cbn [mbind option_bind].
  cbn [separate fmap list_fmap mjoin list_join app].
  repeat (apply chain_comma; [one_append| |done]).
  eapply chain_cons; [one_append|]. apply chain_app.
  - rewrite <- commas_imap. apply chain_whole; [done|]. intros j h Hh. unfold csv_bucket, load. rewrite Hh.
    cbn [mbind option_bind]. appends.
  - apply chain_last. one_append.
Qed.

Lemma chain_csv_body snap : arrays_ok snap -> chain 0 (csv_body bufLen snap) (csv_text snap).
Proof.
  intros [[Hcores Htasks Hcount] Hhist]. unfold csv_body, csv_text.
  eapply chain_cons; [eapply chain_eq; [one_append|vm_compute; reflexivity]|].
  eapply chain_cons; [apply chain_csv_system|]. eapply chain_cons; [apply chain_csv_task_header|]. apply chain_last.
  assert (E : forall l, task_row <$> l = imap (fun _ => task_row) l).
  { intros l. apply list_eq. intros i. rewrite list_lookup_imap, list_lookup_fmap. done. }
  rewrite E. apply chain_array; [done|done|]. intros j t Ht. rewrite Forall_lookup in Hhist.
  apply chain_csv_task; [done|by eapply Hhist].
Qed.

(** ** The whole call *)

Lemma finish_ok pos buf s :
  2 <= bufLen -> holds pos buf s ->
  exists buf', finish bufLen (pos, buf) = Some (pos, buf') /\ pos = Nat.min (length s) (bufLen - 1) /\
    c_string buf' = Some (clip s) /\ drop bufLen buf' = beyond /\ length buf' = length buf.
Proof.
  intros H2 [Hp Hn (rest & ->) Hl Hbeyond]. unfold finish. rewrite clip_length in Hp.
  rewrite decide_True by lia. rewrite length_app, clip_length in Hl.
  destruct rest as [|x rest]; [cbn [length] in Hl; lia|]. rewrite Hp, <- clip_length, store_middle. cbn [mbind option_bind].
  eexists. split; [done|]. split; [rewrite clip_length; lia|].
  split; [by apply c_string_app, no_nul_take|]. split; [|by rewrite !length_app].
  rewrite <- Hbeyond. apply drop_beyond. rewrite clip_length. lia.
Qed.

Lemma format_ok body txt buf :
  2 <= bufLen <= length buf -> drop bufLen buf = beyond -> chain 0 body (Some txt) ->
  exists buf', format bufLen body (Some buf) = Some (Nat.min (length txt) (bufLen - 1), Some buf') /\
    c_string buf' = Some (clip txt) /\ drop bufLen buf' = beyond /\ length buf' = length buf.
Proof.
  intros [H2 Hl] Hd Hbody. unfold format. rewrite decide_False by lia.
  assert (H0 : holds (0 + 0) buf []).
  { split; [rewrite clip_length; cbn; lia|constructor|exists buf; unfold clip; by rewrite take_nil|done|done]. }
  destruct (Hbody 0 buf [] txt eq_refl H0) as (pos & buf1 & -> & H1). cbn [mbind option_bind app] in *.
  destruct (finish_ok pos buf1 txt H2 H1) as (buf2 & -> & -> & Hs & Hb & Hlen). cbn [mbind option_bind].
  exists buf2. split_and!; try done. rewrite Hlen. apply (f_equal length) in Hd. pose proof (ho_len _ _ _ H1).
  pose proof (f_equal length (ho_beyond _ _ _ H1)) as Hd1. rewrite length_drop in Hd, Hd1. lia.
Qed.
End proofs.

(** ** Properties *)

(** C36 Both formats write the reference text of the snapshot, cut to the buffer: for any buffer
    of at least two characters they answer the number of characters written, leave the text, or
    its first [bufLen - 1] characters, as a C string, and touch nothing behind the first
    [bufLen] characters. *)
Theorem formats_refine (snap : PerformanceSnapshot) (kv csv buf : list Z) (bufLen : nat) :
  arrays_ok snap -> kv_text snap = Some kv -> csv_text snap = Some csv -> 2 <= bufLen <= length buf ->
  (exists buf', formatKeyValue bufLen snap (Some buf) = Some (Nat.min (length kv) (bufLen - 1), Some buf') /\
    c_string buf' = Some (take (bufLen - 1) kv) /\ drop bufLen buf' = drop bufLen buf /\ length buf' = length buf) /\
  (exists buf', formatCSV bufLen snap (Some buf) = Some (Nat.min (length csv) (bufLen - 1), Some buf') /\
    c_string buf' = Some (take (bufLen - 1) csv) /\ drop bufLen buf' = drop bufLen buf /\ length buf' = length buf).
Proof.
  intros Harr Hkv Hcsv Hlen. split; eapply format_ok; try done.
  - rewrite <- Hkv. by apply chain_kv_body.
  - rewrite <- Hcsv. by apply chain_csv_body.
Qed.

Definition zero_task : TaskSnapshot := TaskSnap 0 0 0 0 0 0 0 0 0 (replicate 8 0%Z).

(** One core at a quarter of its time, one task. *)
Definition sample_snapshot : PerformanceSnapshot :=
  Snapshot 123456 1 [0x3E800000; 0; 0; 0]%Z 3 7 0x40200000 1024 0 0 50000 200 0x42480000 1000 0 0 1
    (TaskSnap 5 0 100 80 150 0x42DC0000 12 1 0 [10; 2; 0; 0; 0; 0; 0; 0]%Z :: replicate 15 zero_task).

Lemma formats_refine_witness :
  (exists buf', formatKeyValue 33 sample_snapshot (Some (replicate 40 1%Z)) = Some (32, Some buf') /\
    c_string buf' = Some (text "timestamp=123456" ++ [10%Z] ++ text "cores=1" ++ [10%Z] ++ text "core0_u")) /\
  (exists buf', formatCSV 33 sample_snapshot (Some (replicate 40 1%Z)) = Some (32, Some buf') /\
    c_string buf' = Some (text "timestamp,cores,queue_depth,queu")).
Proof.
  assert (Harr : arrays_ok sample_snapshot) by (split; [split; cbn; auto with lia|]; apply (bool_decide_eq_true_1 _); vm_compute; reflexivity).
  destruct (kv_text sample_snapshot) as [kv|] eqn:Hkv; [|vm_compute in Hkv; discriminate Hkv].
  destruct (csv_text sample_snapshot) as [csv|] eqn:Hcsv; [|vm_compute in Hcsv; discriminate Hcsv].
  destruct (formats_refine sample_snapshot kv csv (replicate 40 1%Z) 33 Harr Hkv Hcsv) as [(b1 & E1 & S1 & _) (b2 & E2 & S2 & _)].
  { split; [lia|]. rewrite length_replicate. lia. }
  vm_compute in Hkv, Hcsv. injection Hkv as <-. injection Hcsv as <-.
  split; [exists b1|exists b2]; split; [exact E1|exact S1|exact E2|exact S2].
Defined.

(** A null buffer, or one without room for a character, is left alone; a shorter buffer than
    the header needs is not: it gets the cut text. *)
Lemma format_guard bufLen snap buf :
  formatKeyValue bufLen snap None = Some (0, None) /\ formatCSV bufLen snap None = Some (0, None) /\
  (bufLen < 2 -> formatKeyValue bufLen snap (Some buf) = Some (0, Some buf) /\
    formatCSV bufLen snap (Some buf) = Some (0, Some buf)).
Proof. split_and!; [done..|]. intros H. unfold formatKeyValue, formatCSV, format. by rewrite !decide_True by done. Qed.

(** The lines of a task, the row of a task, and rounding: 0.9996 is printed as 0.999. *)
Example sample_texts :
  task_lines 0 (TaskSnap 5 0 100 80 150 0x42DC0000 12 1 0 [10; 2; 0; 0; 0; 0; 0; 0]%Z) =
    flat [lit "t0_core=0"; newline; lit "t0_last=100"; newline; lit "t0_min=80"; newline; lit "t0_max=150"; newline;
      lit "t0_avg=110.000"; newline; lit "t0_samples=12"; newline; lit "t0_overruns=1"; newline; lit "t0_misses=0"; newline; lit "t0_hist=10,2,0,0,0,0,0,0"; newline] /\
  task_row (TaskSnap 5 0 100 80 150 0x42DC0000 12 1 0 [10; 2; 0; 0; 0; 0; 0; 0]%Z) =
    flat [lit "5,0,100,80,150,110.000,12,1,0,10,2,0,0,0,0,0,0"; newline] /\
  dec3 0x3F7FE5C9 = lit "0.999".
Proof. vm_compute. auto. Qed.

(** An average of 2^32 microseconds (71 minutes) or more has no defined text. *)
Example average_undefined : dec3 (bits_of_float (f_of_Z (2 ^ 32))) = None.
Proof. vm_compute. reflexivity. Qed.
