(* ===== verification/Config.v ===== *)
(** * The configuration ([ConfigTraits.h])

    A user's configuration struct is a record whose optional members may be missing. A trait
    is a function of it: the member, or the default. *)

From S2P Require Import Prelude Kernel.

Record UserConfig := UserCfg {
  uc_State_is_enum : bool;
  uc_CmdID_is_enum : bool;
  uc_Command_size : nat;
  uc_kCoreCount : nat;
  uc_kQueueCapacity : nat;
  uc_kMaxCommandsPerTick : option Z;
  uc_kMaxValidCommandID : option Z;
  uc_kControlBudgetUs : option Z;
  uc_kErrorLogCapacity : option nat;
  uc_kTelemetryLogCapacity : option nat;
  uc_kMaxInterlockConditions : option nat;
  uc_kMaxLineLen : option nat;
  uc_kMaxFramePayload : option nat;
  uc_kMaxSlotsPerCore : option nat;
  uc_kMaxBackgroundTasks : option nat;
  uc_kCommsBudgetUs : option Z;
  uc_kDiagsBudgetUs : option Z;
  uc_kMinGapSliceUs : option Z;
  uc_kMinSchedulePeriodUs : option Z;
  uc_kStrictWCET : option bool;
  uc_kIsrContextBudgetUs : option (list Z);
  uc_kMetricsWindowUs : option Z;
  uc_kCrunchMaxOverruns : option Z;
}.

(** Every [static_assert]; the compiler refuses a configuration for which this is false. *)
Definition ConfigValidator (c : UserConfig) : bool :=
  uc_State_is_enum c && uc_CmdID_is_enum c && bool_decide (0 < uc_Command_size c) &&
  bool_decide (1 <= uc_kCoreCount c) && bool_decide (0 < uc_kQueueCapacity c).

Definition CfgMaxCommandsPerTick (c : UserConfig) : Z := default 8%Z (uc_kMaxCommandsPerTick c).
Definition CfgMaxValidCommandID (c : UserConfig) : Z := default 255%Z (uc_kMaxValidCommandID c).
Definition CfgControlBudgetUs (c : UserConfig) : Z := default 10000%Z (uc_kControlBudgetUs c).
Definition CfgErrorLogCapacity (c : UserConfig) : nat := default 32 (uc_kErrorLogCapacity c).
Definition CfgTelemetryLogCapacity (c : UserConfig) : nat := default 32 (uc_kTelemetryLogCapacity c).
Definition CfgMaxInterlockConditions (c : UserConfig) : nat := default 8 (uc_kMaxInterlockConditions c).
Definition CfgMaxLineLen (c : UserConfig) : nat := default 64 (uc_kMaxLineLen c).
Definition CfgMaxFramePayload (c : UserConfig) : nat := default 256 (uc_kMaxFramePayload c).
Definition CfgMaxSlotsPerCore (c : UserConfig) : nat := default 32 (uc_kMaxSlotsPerCore c).
Definition CfgMaxBackgroundTasks (c : UserConfig) : nat := default 16 (uc_kMaxBackgroundTasks c).
Definition CfgCommsBudgetUs (c : UserConfig) : Z := default 1000%Z (uc_kCommsBudgetUs c).
Definition CfgDiagsBudgetUs (c : UserConfig) : Z := default 10000%Z (uc_kDiagsBudgetUs c).
Definition CfgMinGapSliceUs (c : UserConfig) : Z := default 10%Z (uc_kMinGapSliceUs c).
Definition CfgMinSchedulePeriodUs (c : UserConfig) : Z := default 10%Z (uc_kMinSchedulePeriodUs c).
Definition CfgStrictWCET (c : UserConfig) : bool := default false (uc_kStrictWCET c).
Definition CfgIsrContextBudgetUs (c : UserConfig) : list Z := default [0%Z; 0%Z] (uc_kIsrContextBudgetUs c).
Definition CfgMetricsWindowUs (c : UserConfig) : Z := default 60000000%Z (uc_kMetricsWindowUs c).
Definition CfgCrunchMaxOverruns (c : UserConfig) : Z := default 10%Z (uc_kCrunchMaxOverruns c).

(** [int] as a bound of a loop: a negative limit admits no turn. *)
Definition commands_per_tick (c : UserConfig) : nat := Z.to_nat (CfgMaxCommandsPerTick c).

(** The communications task's CLI keeps its own default payload, whatever the configuration
    says ([CLI<Cfg>] in ScheduledCommsTask.h). *)
Definition kCliMaxPayload : nat := 256.
#[global] Arguments kCliMaxPayload : simpl never.

(** The kernel of a configuration, with the application's code. *)
Definition configured_env {W} (c : UserConfig) (app : Env W) : Env W := {|
  kCoreCount := uc_kCoreCount c; kQueueCapacity := uc_kQueueCapacity c;
  kControlBudgetUs := CfgControlBudgetUs c; kMaxBackgroundTasks := CfgMaxBackgroundTasks c;
  kCrunchMaxOverruns := CfgCrunchMaxOverruns c; kMinSchedulePeriodUs := CfgMinSchedulePeriodUs c;
  kMetricsWindowUs := CfgMetricsWindowUs c;
  env_desc := env_desc app; env_init := env_init app; env_tick := env_tick app;
  env_onOverrun := env_onOverrun app; env_crunch := env_crunch app; env_onCrunchAbort := env_onCrunchAbort app;
  env_stopCondition := env_stopCondition app; env_watchdogKick := env_watchdogKick app;
  env_peers := env_peers app; env_clock := env_clock app; env_inv := env_inv app;
|}.

(** The members' types, and the sizes of the arrays that are made of them, which the compiler
    does not accept when they are zero. *)
Record config_typed (c : UserConfig) : Prop := {
  ty_maxValidCommandID : in_word 8 (CfgMaxValidCommandID c);
  ty_maxLineLen : 0 < CfgMaxLineLen c;
  ty_maxBackgroundTasks : 0 < CfgMaxBackgroundTasks c;
}.

Lemma ConfigValidator_ok c : ConfigValidator c = true -> 1 <= uc_kCoreCount c /\ 0 < uc_kQueueCapacity c.
Proof. unfold ConfigValidator. rewrite !andb_true_iff, !bool_decide_eq_true. tauto. Qed.

Lemma kCliMaxPayload_ok : 6 <= kCliMaxPayload /\ (Z.of_nat kCliMaxPayload < 65536)%Z.
Proof. unfold kCliMaxPayload. lia. Qed.

(** The smallest configuration: nothing optional. *)
Definition required_config (cores capacity : nat) : UserConfig :=
  UserCfg true true 8 cores capacity None None None None None None None None None None None None None None None None None None.

Example required_config_defaults :
  let c := required_config 2 16 in
  ConfigValidator c = true /\ config_typed c /\ CfgMaxLineLen c = 64 /\ commands_per_tick c = 8 /\ CfgControlBudgetUs c = 10000%Z.
Proof. split_and!; try done. split; vm_compute; intuition (lia || discriminate). Qed.
