(* ===== verification/Device.v ===== *)
(** * From power-on to shutdown

    The life of a core: the static initialisers, the registration calls of [main], [build] and
    [System::run], for any accepted configuration. *)

From S2P Require Import Prelude Float32 Queue Metrics ErrorLog Telemetry Sync Kernel Sched Crunch Run Builder Config.

(** ** Registration *)

(** The calls of [main] on the builder that change the kernel's state; [None] and [false] are
    null pointers. *)
Inductive registration :=
  | AddScheduled (coreId : nat) (task : option nat)
  | SetCrunch (coreId : nat) (task : option nat)
  | AddBackground (task : option nat)
  | AddStop (fn : option nat)
  | SetDrain (writeFn : bool)
  | SetMutex (mutex : bool).

Section device.
Context {W : Type} (env : Env W).
Context (controlTask commsTask diagsTask : nat).
Implicit Types s : System W.

Definition register (op : registration) (s : System W) : option (System W) :=
  match op with
  | AddScheduled coreId task => addScheduledTask env coreId task s
  | SetCrunch coreId task => setCrunchTask env coreId task s
  | AddBackground task => addBackgroundTask env task s
  | AddStop fn => addStopCondition fn s
  | SetDrain writeFn => Some (b_setTelemetryDrain writeFn s)
  | SetMutex mutex => Some (setTelemetryMutex mutex s)
  end.

Fixpoint register_all (ops : list registration) (s : System W) : option (System W) :=
  match ops with
  | [] => Some s
  | op :: ops => s ← register op s; register_all ops s
  end.

Definition background_count (ops : list registration) : nat :=
  length (omap (fun op => match op with AddBackground task => task | _ => None end) ops).

(** ** Registration keeps the kernel well formed *)

Hypothesis Hcores : 0 < kCoreCount env.

(** Before [build]: no core has been initialised. *)
Record unconfigured (s : System W) : Prop := {
  un_wf : sys_wf env s;
  un_state : sy_kernelState s = UNCONFIGURED;
  un_built : sy_built s = false;
  un_inits : Forall (fun i => i = false) (sy_coreInitialized s);
  un_stops : length (sy_stopConditions s) = kMaxStopConditions;
  un_background : length (sy_backgroundTasks s) = kMaxBackgroundTasks env;
}.

Lemma boot_unconfigured h : shared_ok env h -> unconfigured (boot env h).
Proof.
  intros Hh. split; try done; [|by apply Forall_replicate|apply length_replicate].
  split; cbn; rewrite ?length_replicate; try done; try lia.
  - split; [done|]. apply Forall_replicate, new_core_wf.
  - split; [done|]. apply Forall_replicate. by rewrite length_replicate.
Qed.

Lemma boot_shared_ok (w : W) : env_inv env [] w -> shared_ok env (boot_shared env w).
Proof.
  intros Hw. split; cbn; [exists []; apply new_logger_holds|exists []; split; [apply new_queue_holds|done]| | |done|].
  - split; apply length_replicate.
  - apply length_replicate.
  - exists []. apply new_telemetry_rep.
Qed.

Lemma core_index_lt coreId : core_index env coreId < kCoreCount env.
Proof. unfold core_index. case_decide; lia. Qed.

Lemma addTask_total tid c : core_wf c -> exists c', addTask tid c = Some c' /\ core_wf c'.
Proof.
  intros Hc. destruct tid as [tid|]; [|by exists c]. destruct (decide (cd_taskCount c < kMaxTasksPerCore)) as [Hroom|Hfull].
  - destruct (addTask_spec tid c Hc Hroom) as (c' & E & Hc' & _). by exists c'.
  - exists c. unfold addTask. by rewrite decide_False.
Qed.

Lemma with_core_unconfigured coreId f s :
  unconfigured s -> (forall c, core_wf c -> exists c', f c = Some c' /\ core_wf c') ->
  exists s', with_core (core_index env coreId) f s = Some s' /\ unconfigured s' /\ sy_backgroundTaskCount s' = sy_backgroundTaskCount s.
Proof.
  intros [Hwf Hk Hb Hi Hst Hbg] Hf. destruct (with_core_ok env _ f s Hwf (core_index_lt coreId) Hf)
    as (core & core' & _ & _ & _ & -> & Hwf'). eexists. split; [done|]. by split; [split|].
Qed.

Lemma register_ok op s :
  unconfigured s -> exists s', register op s = Some s' /\ unconfigured s' /\
    sy_backgroundTaskCount s' <= sy_backgroundTaskCount s + background_count [op].
Proof.
  intros Hs. destruct op as [coreId task|coreId [task|]|[task|]|[fn|]|writeFn|mutex]; cbn [register]; try (exists s; split_and!; [done|done|lia]).
  - destruct (with_core_unconfigured coreId (addTask task) s Hs) as (s' & E & Hs' & Hn); [apply addTask_total|].
    exists s'. split_and!; [done|done|lia].
  - destruct (with_core_unconfigured coreId (fun c => Some (Core (cd_tasks c) (cd_taskCount c) CRUNCH (Some task))) s Hs)
      as (s' & E & Hs' & Hn); [by intros c [? ?]; eexists|]. exists s'. split_and!; [done|done|lia].
  - destruct Hs as [Hwf Hk Hb Hi Hst Hbg]. unfold addBackgroundTask. case_decide as Hroom; [|by exists s; split_and!; [|split|lia]].
    rewrite store_ok by lia. cbn [mbind option_bind]. eexists. split; [done|]. split; [|cbn; lia].
    split; cbn; try done; [|by rewrite length_insert].
    apply set_background_wf; [done|rewrite length_insert; lia|lia].
  - destruct Hs as [Hwf Hk Hb Hi Hst Hbg]. unfold addStopCondition. case_decide as Hroom; [|by exists s; split_and!; [|split|lia]].
    rewrite store_ok by lia. cbn [mbind option_bind]. eexists. split; [done|]. split; [|cbn; lia].
    split; cbn; try done; [|by rewrite length_insert].
    destruct Hwf. split; try done. cbn. rewrite length_insert. lia.
  - destruct Hs as [Hwf Hk Hb Hi Hst Hbg]. eexists. split; [done|]. split; [|cbn; lia]. split; try done. by destruct Hwf; split.
  - destruct Hs as [Hwf Hk Hb Hi Hst Hbg]. eexists. split; [done|]. split; [|cbn; lia]. split; try done.
    destruct Hwf as [? ? ? ? ? ? ? [? ? ? ? ? [ms Hms]] ?]. split; try done. split; try done. exists ms. by apply setMutex_rep.
Qed.

Lemma register_all_ok ops s :
  unconfigured s -> exists s', register_all ops s = Some s' /\ unconfigured s' /\
    sy_backgroundTaskCount s' <= sy_backgroundTaskCount s + background_count ops.
Proof.
  revert s. induction ops as [|op ops IH]; intros s Hs; cbn [register_all]; [exists s; split_and!; [done|done|lia]|].
  destruct (register_ok op s Hs) as (s1 & -> & H1 & N1). cbn [mbind option_bind].
  destruct (IH s1 H1) as (s' & -> & H' & N'). exists s'. split_and!; [done|done|].
  assert (E : background_count (op :: ops) = background_count [op] + background_count ops).
  { unfold background_count. change (op :: ops) with ([op] ++ ops). by rewrite omap_app, length_app. }
  lia.
Qed.

(** ** [build] initialises no core *)

Lemma with_core_inits coreId f s s' : with_core coreId f s = Some s' -> sy_coreInitialized s' = sy_coreInitialized s.
Proof. unfold with_core. intros. by simplify_option_eq. Qed.

Lemma sys_log_inits code t v s s' : sys_log code t v s = Some s' -> sy_coreInitialized s' = sy_coreInitialized s.
Proof. unfold sys_log. intros. by simplify_option_eq. Qed.

Lemma create_kernel_tasks_inits b s s' :
  create_kernel_tasks env controlTask commsTask diagsTask b s = Some s' -> sy_coreInitialized s' = sy_coreInitialized s.
Proof.
  unfold create_kernel_tasks. set (s0 := set_watchdogKickFn _ _). intros H.
  destruct (prepend_kernel_tasks env controlTask commsTask s0) as [s1|] eqn:E; simplify_option_eq.
  cbn. change (sy_coreInitialized s) with (sy_coreInitialized s0). clearbody s0. unfold prepend_kernel_tasks in E.
  destruct (kMultiCore env).
  - destruct (with_core 0 (prependTask (Some controlTask)) s0) as [s2|] eqn:E2; simplify_option_eq;
      apply with_core_inits in E2; apply with_core_inits in E; congruence.
  - destruct (with_core 0 (prependTask (Some commsTask)) s0) as [s2|] eqn:E2; simplify_option_eq.
    apply with_core_inits in E2. apply with_core_inits in E. congruence.
Qed.

Lemma each_timer_inits f s : sy_coreInitialized (each_timer f s) = sy_coreInitialized s.
Proof.
  unfold each_timer. generalize (timed_tasks s). intros tasks. revert s.
  induction tasks as [|[tid|] tasks IH]; intros s; cbn [foldl]; [done|by rewrite IH|apply IH].
Qed.

Lemma warn_utilization_inits cores s s' : warn_utilization env cores s = Some s' -> sy_coreInitialized s' = sy_coreInitialized s.
Proof.
  revert s. induction cores as [|core cores IH]; intros s; cbn [warn_utilization]; [by intros [= <-]|].
  destruct (utilization env (registered core)) as [n k]. case_decide; cbn [mbind option_bind]; [|apply IH].
  destruct (sys_log _ _ _ s) as [s1|] eqn:E; cbn [mbind option_bind]; [|done]. intros E1%IH. by rewrite E1, (sys_log_inits _ _ _ _ _ E).
Qed.

Lemma finish_build_inits b s s' : finish_build env b s = Some s' -> sy_coreInitialized s' = sy_coreInitialized s.
Proof.
  unfold finish_build. set (s1 := if m_app b then _ else _).
  assert (E1 : sy_coreInitialized s1 = sy_coreInitialized s) by (unfold s1; by destruct (m_app b)). clearbody s1.
  set (s2 := if m_clockSource b then _ else _).
  assert (E2 : sy_coreInitialized s2 = sy_coreInitialized s1).
  { unfold s2. destruct (m_clockSource b); [|done]. unfold propagate_clock, read_clock. by rewrite each_timer_inits. }
  clearbody s2. unfold transitionTo, propagate_window. case_match.
  - cbn [mbind option_bind]. intros [= <-]. cbn. rewrite each_timer_inits. congruence.
  - destruct (sys_log _ _ _ _) as [s3|] eqn:E3; cbn [mbind option_bind]; [|done]. intros [= <-].
    apply sys_log_inits in E3. rewrite E3. cbn. rewrite each_timer_inits. congruence.
Qed.

Lemma build_inits b s r s' :
  build env controlTask commsTask diagsTask b s = Some (r, s') -> sy_coreInitialized s' = sy_coreInitialized s.
Proof.
  unfold build. destruct (sy_built s); [by intros [= _ <-]|].
  destruct (if m_app b then _ else _) as [s1|] eqn:E1; cbn [mbind option_bind]; [|done].
  assert (H1 : sy_coreInitialized s1 = sy_coreInitialized s).
  { destruct (m_app b); [by eapply create_kernel_tasks_inits|by injection E1 as <-]. }
  rewrite <- H1. clear H1 E1. unfold sortTasksByPriority. destruct (mapM _ _) as [cores|]; cbn [mbind option_bind]; [|done].
  change (sy_coreInitialized s1) with (sy_coreInitialized (set_cores cores s1)). generalize (set_cores cores s1). clear s1 cores.
  intros s1. unfold check_and_finish. destruct (negb _); [by intros [= _ <-]|]. unfold validateSchedulingConstraints.
  destruct (any_task _ _); [by intros [= _ <-]|]. destruct (has_duplicate _); [by intros [= _ <-]|].
  destruct (warn_utilization env _ s1) as [s2|] eqn:E2; cbn [mbind option_bind]; [|done].
  apply warn_utilization_inits in E2. rewrite <- E2. rewrite decide_True by done.
  destruct (decide _); [|by intros [= _ <-]]. destruct (decide _); [|by intros [= _ <-]].
  destruct (finish_build env b s2) as [s3|] eqn:E3; cbn [mbind option_bind]; [|done]. intros [= _ <-].
  by apply finish_build_inits in E3.
Qed.
End device.

(** From power-on through [build]. *)
Lemma device_builds {W : Type} (cfg : UserConfig) (app : Env W) (w : W) (ct cm dg : nat) (b : SystemBuilder)
    (ops : list registration) :
  let env := configured_env cfg app in
  ConfigValidator cfg = true -> env_inv app [] w -> (m_app b = true -> background_count ops < CfgMaxBackgroundTasks cfg) ->
  exists s1 r s2, register_all env ops (boot env (boot_shared env w)) = Some s1 /\
    build env ct cm dg b s1 = Some (r, s2) /\ (r = BuildOk <-> valid_topology env (sy_cores s2)) /\ sys_wf env s2 /\
    Forall (fun i => i = false) (sy_coreInitialized s2) /\
    (sy_kernelState s2, sy_built s2) = (if decide (r = BuildOk) then (CONFIGURED, true) else (UNCONFIGURED, false)).
Proof.
  intros env [Hcores _]%ConfigValidator_ok Hinv Hbg. assert (Hpos : 0 < kCoreCount env) by done.
  destruct (register_all_ok env Hpos ops (boot env (boot_shared env w)))
    as (s1 & E1 & [Hwf Hk Hb Hi _ Hring] & Hn); [by apply boot_unconfigured, boot_shared_ok|].
  destruct (build_ok env ct cm dg b s1 Hwf Hpos Hk Hb) as (r & s2 & pre & E2 & Hbr).
  { intros Happ. specialize (Hbg Happ). rewrite Hring. cbn in Hn |- *. lia. }
  exists s1, r, s2. do 2 (split; [done|]). destruct Hbr as [Hwf2 _ Hiff Hstate _ _ _]. split; [done|]. split; [done|]. split.
  - by rewrite (build_inits env ct cm dg b s1 r s2 E2).
  - destruct (decide (r = BuildOk)); [by destruct Hstate as [-> -> _ _]|by destruct Hstate as [-> ->]].
Qed.

(** And to the run of a core. *)
Lemma device_runs {W : Type} (cfg : UserConfig) (app : Env W) (w : W) (ct cm dg : nat) (b : SystemBuilder)
    (ops : list registration) :
  let env := configured_env cfg app in
  ConfigValidator cfg = true -> env_ok env -> env_inv app [] w -> (m_app b = true -> background_count ops < CfgMaxBackgroundTasks cfg) ->
  exists s1 r s2, register_all env ops (boot env (boot_shared env w)) = Some s1 /\
    build env ct cm dg b s1 = Some (r, s2) /\ (r = BuildOk <-> valid_topology env (sy_cores s2)) /\
    (r <> BuildOk -> sy_kernelState s2 = UNCONFIGURED /\ sy_built s2 = false) /\
    (r = BuildOk -> forall coreId fuel, coreId < kCoreCount env -> (Z.of_nat fuel < 2 ^ 32)%Z ->
      exists fin s3, sys_run env fuel coreId s2 = Some (fin, s3) /\ sys_wf env s3 /\
        sy_kernelState s3 = (if fin then SHUTDOWN else RUNNING)).
Proof.
  intros env Hcfg Henv Hinv Hbg.
  destruct (device_builds cfg app w ct cm dg b ops Hcfg Hinv Hbg) as (s1 & r & s2 & E1 & E2 & Hiff & Hwf2 & Hi & Hst).
  exists s1, r, s2. do 3 (split; [done|]). split; [intros Hr; rewrite decide_False in Hst by done; by injection Hst|].
  intros -> coreId fuel Hc Hf. rewrite decide_True in Hst by done. injection Hst as Hk2 Hb2.
  destruct (lookup_lt_is_Some_2 (sy_cores s2) coreId) as [core Hcore]; [by destruct (wf_cores env s2 Hwf2) as [-> _]|].
  destruct (lookup_lt_is_Some_2 (sy_coreInitialized s2) coreId) as [i Hinit]; [by rewrite (wf_inits _ _ Hwf2)|].
  assert (i = false) as -> by (rewrite Forall_lookup in Hi; by eapply Hi).
  destruct (sys_run_ok env Henv fuel coreId core false s2) as (fin & s3 & calls & E3 & Hwf3 & Hs3 & _); [done..|by right|done|].
  by exists fin, s3.
Qed.

(** ** Properties *)

(** From power-on to shutdown nothing is undefined: with a configuration the validator accepts,
    whatever tasks are registered on whatever cores (fewer background tasks than the ring has
    places when there is an application), [build] returns and succeeds exactly on the valid
    topologies; after a success every core can be run, any number of iterations, and leaves a
    well-formed kernel, in SHUTDOWN if the loop ended; after a failure the kernel is still
    unconfigured. *)
Theorem device_life {W : Type} (cfg : UserConfig) (app : Env W) (w : W) (ct cm dg : nat) (b : SystemBuilder)
    (ops : list registration) :
  let env := configured_env cfg app in
  ConfigValidator cfg = true -> env_ok env -> env_inv app [] w -> (m_app b = true -> background_count ops < CfgMaxBackgroundTasks cfg) ->
  exists s1 r s2, register_all env ops (boot env (boot_shared env w)) = Some s1 /\
    build env ct cm dg b s1 = Some (r, s2) /\ (r = BuildOk <-> valid_topology env (sy_cores s2)) /\
    (r <> BuildOk -> sy_kernelState s2 = UNCONFIGURED /\ sy_built s2 = false) /\
    (r = BuildOk -> forall coreId fuel, coreId < kCoreCount env -> (Z.of_nat fuel < 2 ^ 32)%Z ->
      exists fin s3, sys_run env fuel coreId s2 = Some (fin, s3) /\ sys_wf env s3 /\
        sy_kernelState s3 = (if fin then SHUTDOWN else RUNNING)).
Proof. apply device_runs. Qed.

(** Two cores, a task on each, a background task and a stop condition. *)
Definition sample_config : UserConfig := required_config 2 4.
Definition sample_topology : list registration :=
  [AddScheduled 0 (Some 0); AddScheduled 1 (Some 2); AddBackground (Some 1); AddStop (Some 0)].

Lemma sample_app_ok : env_ok (configured_env sample_config sample_env).
Proof. idle_env_ok. Qed.

Lemma device_life_witness :
  let env := configured_env sample_config sample_env in
  exists s1 r s2, register_all env sample_topology (boot env (boot_shared env tt)) = Some s1 /\
    build env 10 11 12 (Builder true true false true) s1 = Some (r, s2) /\
    (r = BuildOk -> exists fin s3, sys_run env 3 1 s2 = Some (fin, s3) /\ sys_wf env s3).
Proof.
  destruct (device_life sample_config sample_env tt 10 11 12 (Builder true true false true) sample_topology eq_refl sample_app_ok I)
    as (s1 & r & s2 & E1 & E2 & _ & _ & Hrun); [intros _; vm_compute; lia|].
  exists s1, r, s2. split; [exact E1|]. split; [exact E2|]. intros Hr.
  destruct (Hrun Hr 1 3) as (fin & s3 & E3 & Hwf & _); [vm_compute; lia|lia|]. exists fin, s3. split; [exact E3|exact Hwf].
Defined.

(** The same, evaluated: the build succeeds, the core runs its three iterations. *)
Example sample_device :
  let env := configured_env sample_config sample_env in
  (s ← register_all env sample_topology (boot env (boot_shared env tt));
   '(r, s) ← build env 10 11 12 (Builder true true false true) s;
   '(fin, s) ← sys_run env 3 1 s;
   Some (r, fin, sy_kernelState s)) = Some (BuildOk, false, RUNNING).
Proof. vm_compute. reflexivity. Qed.
