(* ===== verification/KernelTasks.v ===== *)
(** * The kernel's own tasks ([SystemBuilder::build], osal/tasks/ and kernel/tasks/)

    What [build] makes of the dependencies it was given: the three tasks with their
    constructors' arguments and setters, what they declare about themselves, and the topology
    they form when the application registers nothing else. *)

From S2P Require Import Prelude Queue Metrics ErrorLog Sync Kernel Sched Crunch Run Builder Safety Diagnostics Frame Protocol Cli Comms Config Device.

(** The builder's members. *)
Record Dependencies (T : Type) := Deps {
  ud_app : bool;
  ud_monitors : list (option nat);
  ud_monitorCount : nat;
  ud_stream : option T;
  ud_watchdogKick : bool;
  ud_clockSource : bool;
}.
#[global] Arguments Deps {T}.
#[global] Arguments ud_app {T}.
#[global] Arguments ud_monitors {T}.
#[global] Arguments ud_monitorCount {T}.
#[global] Arguments ud_stream {T}.
#[global] Arguments ud_watchdogKick {T}.
#[global] Arguments ud_clockSource {T}.

Section kernel_tasks.
Context {W T : Type} (cfg : UserConfig) (app : Env W) (d : Dependencies T).
Context (controlTask commsTask diagsTask : nat).

(** The members that decide in [build]. *)
Definition the_builder : SystemBuilder :=
  Builder (ud_app d) (bool_decide (is_Some (ud_stream d))) (ud_watchdogKick d) (ud_clockSource d).

(** [emplace]: the queue is the kernel's own, so its pointer is never null. *)
Definition make_control : ScheduledControlTask := ControlTask true (ud_app d) (ud_monitors d) (ud_monitorCount d).

Definition make_comms (queue : ring Command) (snapshot : PerformanceSnapshot) : CLI T * CommsTask (ring Command) :=
  setMetricsSnapshotFn (Some snapshot) (new_comms (CfgMaxLineLen cfg) kCliMaxPayload (ud_stream d) (Some queue)).

Definition make_diags : BackgroundDiagnosticsTask := new_diag (ud_watchdogKick d) (CfgControlBudgetUs cfg).

(** [if (S::s_drainFn)] *)
Definition wire_drain (s : System W) (t : BackgroundDiagnosticsTask) : BackgroundDiagnosticsTask :=
  if sy_drainFn s then setTelemetryDrain true t else t.

(** The object [build] leaves in the state [s]: what it monitors is the list of all tasks. *)
Definition built_diags (s : System W) : BackgroundDiagnosticsTask := setMonitoredTasks (sy_allTasks s) (wire_drain s make_diags).

(** The constant virtual functions ([schedulePriority], [periodUs], [maxBudgetUs],
    [validateDependencies]); the queue and the snapshot are not looked at. *)
Definition comms_desc (x : CLI T * CommsTask (ring Command)) : TaskDesc :=
  Desc true false (CfgCommsBudgetUs cfg) 0 1 0 0 0 (comms_validateDependencies x).

(** The kernel of the configuration with its own tasks declared as they are. *)
Definition kernel_env (queue : ring Command) (snapshot : PerformanceSnapshot) : Env W :=
  let env := configured_env cfg app in {|
  kCoreCount := kCoreCount env; kQueueCapacity := kQueueCapacity env;
  kControlBudgetUs := kControlBudgetUs env; kMaxBackgroundTasks := kMaxBackgroundTasks env;
  kCrunchMaxOverruns := kCrunchMaxOverruns env; kMinSchedulePeriodUs := kMinSchedulePeriodUs env;
  kMetricsWindowUs := kMetricsWindowUs env;
  env_desc tid :=
    if decide (tid = controlTask) then control_desc env make_control
    else if decide (tid = commsTask) then comms_desc (make_comms queue snapshot)
    else if decide (tid = diagsTask) then diags_desc
    else env_desc env tid;
  env_init := env_init env; env_tick := env_tick env; env_onOverrun := env_onOverrun env;
  env_crunch := env_crunch env; env_onCrunchAbort := env_onCrunchAbort env;
  env_stopCondition := env_stopCondition env; env_watchdogKick := env_watchdogKick env;
  env_peers := env_peers env; env_clock := env_clock env; env_inv := env_inv env;
|}.

(** ** The order of the kernel's tasks *)

Context (queue : ring Command) (snapshot : PerformanceSnapshot).
Hypothesis Hdistinct : controlTask <> commsTask.
Abbreviation env := (kernel_env queue snapshot).

Lemma control_priority : effectivePriority env (Some controlTask) = 0%Z.
Proof. unfold effectivePriority. cbn [env_desc kernel_env]. rewrite decide_True by done. reflexivity. Qed.

Lemma comms_priority : effectivePriority env (Some commsTask) = 1%Z.
Proof.
  unfold effectivePriority. cbn [env_desc kernel_env]. rewrite decide_False by done. rewrite decide_True by done. reflexivity.
Qed.

(** In which order the builder registers them does not matter: the control task is first. *)
Lemma kernel_tasks_sorted crunch1 c :
  stable_sort env (kernel_tasks env controlTask commsTask crunch1 c) =
    match c with
    | 0 => if kMultiCore env then if crunch1 then [Some controlTask; Some commsTask] else [Some controlTask]
           else [Some controlTask; Some commsTask]
    | 1 => if kMultiCore env && negb crunch1 then [Some commsTask] else []
    | _ => []
    end.
Proof.
  unfold kernel_tasks, stable_sort, insert_task. pose proof control_priority as Hc. pose proof comms_priority as Hm.
  destruct c as [|[|c]]; [|by destruct (kMultiCore env && negb crunch1)|done].
  destruct (kMultiCore env); [destruct crunch1|]; cbn [foldl reverse rev_append insert_back]; [|done|].
  - cbn [insert_back reverse rev_append]. unfold reverse; cbn [rev_append insert_back]. rewrite Hc, Hm, decide_True by lia. done.
  - unfold reverse; cbn [rev_append insert_back]. rewrite Hc, Hm, decide_False by lia. done.
Qed.

Definition core_tasks (c : nat) : list (option nat) :=
  match c with
  | 0 => if kMultiCore env then [Some controlTask] else [Some controlTask; Some commsTask]
  | 1 => if kMultiCore env then [Some commsTask] else []
  | _ => []
  end.

Lemma all_core_tasks cores :
  length cores = uc_kCoreCount cfg -> 0 < uc_kCoreCount cfg ->
  (forall c core, cores !! c = Some core -> registered core = core_tasks c) ->
  mjoin (registered <$> cores) = [Some controlTask; Some commsTask].
Proof.
  intros Hlen Hpos Hcores. destruct cores as [|c0 cores]; [cbn in Hlen; lia|].
  pose proof (Hcores 0 c0 eq_refl) as H0. unfold core_tasks, kMultiCore in *. cbn [kCoreCount kernel_env configured_env] in *.
  destruct cores as [|c1 rest].
  - cbn. rewrite H0, bool_decide_false by (cbn in Hlen; lia). done.
  - pose proof (Hcores 1 c1 eq_refl) as H1. assert (E : bool_decide (2 <= uc_kCoreCount cfg) = true)
      by (apply bool_decide_eq_true; cbn in Hlen; lia).
    cbn. rewrite H0, H1, E. cbn. do 2 f_equal.
    assert (Hrest : forall c core, rest !! c = Some core -> registered core = []).
    { intros c core Hc. exact (Hcores (S (S c)) core Hc). }
    clear -Hrest. induction rest as [|core rest IH]; [done|]. cbn. rewrite (Hrest 0 core eq_refl). apply IH.
    intros c core' Hc. exact (Hrest (S c) core' Hc).
Qed.

(** What [build] asks of the kernel's tasks. *)
Definition kernel_tasks_fit : Prop :=
  is_Some (ud_stream d) /\ ud_app d = true /\
  ~ (0 < CfgControlBudgetUs cfg < CfgMinSchedulePeriodUs cfg)%Z /\ ~ (0 < CfgCommsBudgetUs cfg < CfgMinSchedulePeriodUs cfg)%Z.

Lemma control_env_desc : env_desc env controlTask = control_desc env make_control.
Proof. cbn [env_desc kernel_env]. by rewrite decide_True. Qed.

Lemma comms_env_desc : env_desc env commsTask = comms_desc (make_comms queue snapshot).
Proof. cbn [env_desc kernel_env]. rewrite decide_False by done. by rewrite decide_True. Qed.

Lemma comms_deps : comms_validateDependencies (make_comms queue snapshot) = bool_decide (is_Some (ud_stream d)).
Proof. unfold comms_validateDependencies, hasStream. cbn. by rewrite andb_true_r. Qed.

Lemma kernel_topology cores :
  length cores = uc_kCoreCount cfg -> 0 < uc_kCoreCount cfg ->
  (forall c core, cores !! c = Some core -> core_wf core /\ registered core = core_tasks c /\ cd_mode core = FLAT_LOOP) ->
  valid_topology env cores <-> kernel_tasks_fit.
Proof.
  intros Hlen Hpos Hcores. assert (Hall : mjoin (registered <$> cores) = [Some controlTask; Some commsTask]).
  { apply all_core_tasks; [done|done|]. intros c core Hc. by apply Hcores. }
  unfold kernel_tasks_fit. split.
  - intros [_ Hperiod _ _ Hdeps]. rewrite Hall in Hperiod, Hdeps.
    pose proof (Hdeps commsTask ltac:(set_solver)) as Hd. rewrite comms_env_desc in Hd. cbn [td_validateDependencies comms_desc] in Hd.
    rewrite comms_deps, bool_decide_eq_true in Hd. split; [done|].
    pose proof (Hdeps controlTask ltac:(set_solver)) as Hd2. rewrite control_env_desc in Hd2. cbn in Hd2. split; [done|].
    pose proof (Hperiod controlTask ltac:(set_solver)) as Hp1. rewrite control_env_desc in Hp1.
    pose proof (Hperiod commsTask ltac:(set_solver)) as Hp2. rewrite comms_env_desc in Hp2. cbn in Hp1, Hp2. auto.
  - intros (Hs & Happ & Hp1 & Hp2). split; rewrite ?Hall.
    + destruct (lookup_lt_is_Some_2 cores 0) as [core Hc]; [lia|]. exists core. split; [by eapply list_elem_of_lookup_2|].
      destruct (Hcores 0 core Hc) as (Hwf & Hr & _). unfold isActive. pose proof (registered_length core Hwf) as Hl.
      rewrite Hr in Hl. unfold core_tasks in Hl. apply orb_true_iff. left. apply bool_decide_eq_true.
      destruct (kMultiCore env); cbn in Hl; lia.
    + intros tid Htid _. assert (tid = controlTask \/ tid = commsTask) as [-> | ->] by set_solver.
      * rewrite control_env_desc. exact Hp1.
      * rewrite comms_env_desc. exact Hp2.
    + cbn. apply NoDup_cons. split; [set_solver|]. apply NoDup_singleton.
    + intros c core Hc Hmode. destruct (Hcores c core Hc) as (_ & _ & Hm). congruence.
    + intros tid Htid. assert (tid = controlTask \/ tid = commsTask) as [-> | ->] by set_solver.
      * rewrite control_env_desc. cbn. by rewrite Happ.
      * rewrite comms_env_desc. cbn [td_validateDependencies comms_desc]. by rewrite comms_deps, bool_decide_eq_true.
Qed.
(** The diagnostics task runs on the last core that has a task. *)
Lemma kernel_background_core pre s0 s1 :
  0 < uc_kCoreCount cfg -> length (sy_cores s0) = uc_kCoreCount cfg ->
  (forall c core, sy_cores s0 !! c = Some core -> core = new_core) -> kernel_added env diagsTask pre s0 s1 ->
  (forall c, pre c = kernel_tasks env controlTask commsTask false c) ->
  sy_backgroundCoreId s1 = (if decide (uc_kCoreCount cfg = 1) then 0 else 1).
Proof.
  intros Hpos Hlen0 Hnew [_ [Hl1 Hg1] _ _ (Hid & Hidact & Hidmax) _] Hpre.
  assert (Hactive : forall c core, sy_cores s1 !! c = Some core -> isActive core = bool_decide (0 < length (pre c))).
  { intros c core Hc. destruct (lookup_lt_is_Some_2 (sy_cores s0) c) as [core0 H0]; [rewrite <- Hl1; by eapply lookup_lt_Some|].
    destruct (Hg1 c core0 H0) as (core' & Hc' & Hw & Hr & _ & Hx). rewrite (Hnew c core0 H0) in *.
    rewrite Hc in Hc'. injection Hc' as <-. unfold isActive. rewrite Hx, <- (registered_length core Hw), Hr. cbn.
    by rewrite app_nil_r, orb_false_r. }
  change (kCoreCount env) with (uc_kCoreCount cfg) in *. destruct (decide (uc_kCoreCount cfg = 1)) as [H1|Hn]; [lia|].
  assert (Hmulti : kMultiCore env = true) by (apply bool_decide_eq_true; cbn; lia).
  destruct (lookup_lt_is_Some_2 (sy_cores s1) 1) as [core1 Hcore1]; [lia|].
  pose proof (Hidmax ltac:(lia) 1 core1 Hcore1) as Hge. rewrite (Hactive 1 core1 Hcore1), Hpre in Hge. cbn in Hge.
  rewrite Hmulti in Hge. specialize (Hge eq_refl). destruct Hidact as [H0|(core & Hc & Ha)]; [lia|].
  rewrite (Hactive _ core Hc), Hpre in Ha. destruct (sy_backgroundCoreId s1) as [|[|k]]; [lia|done|done].
Qed.
End kernel_tasks.

(** ** Properties *)

(** An application without tasks of its own: [build] succeeds exactly if the application and a
    stream were given and the periods of the control and the communications task are not below
    the minimum. In every case the control task is the first task of core 0; the communications
    task is behind it on a single core, and the only task of core 1 otherwise; the diagnostics
    task is alone in the background ring, on the last of these cores. *)
Theorem kernel_only_builds {W T : Type} (cfg : UserConfig) (app : Env W) (d : Dependencies T) (w : W)
    (ct cm dg : nat) (queue : ring Command) (snapshot : PerformanceSnapshot) :
  let env := kernel_env cfg app d ct cm dg queue snapshot in
  ConfigValidator cfg = true -> config_typed cfg -> env_inv app [] w -> ct <> cm -> ud_app d = true ->
  exists r s, build env ct cm dg (the_builder d) (boot env (boot_shared env w)) = Some (r, s) /\ sys_wf env s /\
    (r = BuildOk <-> kernel_tasks_fit cfg d) /\
    (forall c core, sy_cores s !! c = Some core -> registered core =
      match c with
      | 0 => if decide (uc_kCoreCount cfg = 1) then [Some ct; Some cm] else [Some ct]
      | 1 => [Some cm]
      | _ => []
      end) /\
    take (sy_backgroundTaskCount s) (sy_backgroundTasks s) = [Some dg] /\
    sy_backgroundCoreId s = (if decide (uc_kCoreCount cfg = 1) then 0 else 1).
Proof.
  intros env [Hcores _]%ConfigValidator_ok [_ _ Hring] Hinv Hne Happ. assert (Hpos : 0 < kCoreCount env) by done.
  set (s0 := boot env (boot_shared env w)).
  assert (Hun : unconfigured env s0) by (apply boot_unconfigured, boot_shared_ok; done). destruct Hun as [Hwf Hk Hb _ _ Hbg].
  destruct (build_ok env ct cm dg (the_builder d) s0 Hwf Hpos Hk Hb) as (r & s & pre & E & Hbr).
  { intros _. rewrite Hbg. exact Hring. }
  destruct Hbr as [Hwf' [Hlen Hfrom] Hiff _ (s1 & Hreg & B1 & B2 & B3) _ Hpre].
  assert (Hroomy : roomy s0).
  { intros c core _ Hc. unfold s0 in Hc. cbn in Hc. apply lookup_replicate in Hc as [-> _]. cbn. unfold kMaxTasksPerCore. lia. }
  specialize (Hpre Hroomy).
  assert (Hcrunch : core1_crunch s0 = false).
  { unfold core1_crunch. destruct (sy_cores s0 !! 1) as [core|] eqn:Ec; [|done]. unfold s0 in Ec. cbn in Ec.
    apply lookup_replicate in Ec as [-> _]. done. }
  assert (Hlen0 : length (sy_cores s0) = uc_kCoreCount cfg) by apply length_replicate.
  assert (Htasks : forall c core, sy_cores s !! c = Some core ->
    core_wf core /\ registered core = core_tasks cfg app d ct cm dg queue snapshot c /\ cd_mode core = FLAT_LOOP).
  { intros c core Hc. assert (Hlt : c < uc_kCoreCount cfg) by (rewrite <- Hlen0, <- Hlen; by eapply lookup_lt_Some).
    destruct (Hfrom c new_core) as (core' & Hc' & Hw & Hr & Hm & _); [by apply lookup_replicate|].
    rewrite Hc in Hc'. injection Hc' as <-. split; [done|]. split; [|done].
    rewrite Hr, Hpre. cbn [m_app the_builder]. rewrite Happ, Hcrunch. cbn [registered new_core cd_taskCount take]. rewrite app_nil_r.
    etransitivity; [apply (kernel_tasks_sorted cfg app d ct cm dg queue snapshot Hne false c)|].
    unfold core_tasks. destruct c as [|[|c]]; by try destruct (kMultiCore _). }
  exists r, s. split; [exact E|]. split; [done|]. split.
  { rewrite Hiff. apply (kernel_topology cfg app d ct cm dg queue snapshot Hne); [congruence|done|done]. }
  split.
  { intros c core Hc. destruct (Htasks c core Hc) as (_ & -> & _). apply lookup_lt_Some in Hc. rewrite Hlen, Hlen0 in Hc.
    unfold core_tasks, kMultiCore. cbn [kCoreCount kernel_env configured_env]. destruct c as [|[|c]]; [|by rewrite bool_decide_true by lia|done].
    destruct (decide (uc_kCoreCount cfg = 1)); [by rewrite bool_decide_false by lia|by rewrite bool_decide_true by lia]. }
  unfold registered_kernel in Hreg. cbn [m_app the_builder] in Hreg. rewrite Happ in Hreg. split.
  { destruct Hreg as [_ _ Hbt Hbc _ _]. rewrite B1, B2, Hbt, Hbc.
    change (take 1 (<[0 := Some dg]> (replicate (CfgMaxBackgroundTasks cfg) None)) = [Some dg]). destruct (CfgMaxBackgroundTasks cfg) as [|n]; [lia|]. done. }
  rewrite B3. eapply (kernel_background_core cfg app d ct cm dg queue snapshot Hne pre s0 s1); [done|done| |done|].
  - intros c core Hc. unfold s0 in Hc. cbn in Hc. by apply lookup_replicate in Hc as [-> _].
  - intros c. rewrite Hpre. cbn. by rewrite Happ, Hcrunch.
Qed.

(** Two cores, an application, and a stream. *)
Definition sample_deps : Dependencies unit := Deps true [] 0 (Some tt) false true.
Definition sample_snap : PerformanceSnapshot := Snapshot 0 0 [0; 0; 0; 0]%Z 0 0 0 0 0 0 0 0 0 0 0 0 0 [].

Lemma kernel_only_builds_witness :
  let env := kernel_env sample_config sample_env sample_deps 10 11 12 (new_queue 4 (Cmd 0 0 0)) sample_snap in
  exists s, build env 10 11 12 (the_builder sample_deps) (boot env (boot_shared env tt)) = Some (BuildOk, s) /\
    (forall core, sy_cores s !! 1 = Some core -> registered core = [Some 11]) /\ sy_backgroundCoreId s = 1.
Proof.
  destruct (kernel_only_builds sample_config sample_env sample_deps tt 10 11 12 (new_queue 4 (Cmd 0 0 0)) sample_snap)
    as (r & s & E & _ & Hok & Hr & _ & Hb); [reflexivity|split; vm_compute; intuition (lia || discriminate)|exact I|discriminate|reflexivity|].
  assert (Hr0 : r = BuildOk).
  { apply Hok. split; [by exists tt|]. split; [reflexivity|]. split; vm_compute; intros [H1 H2]; discriminate H2. }
  exists s. split; [rewrite <- Hr0; exact E|]. split; [exact (Hr 1)|exact Hb].
Defined.

(** Without a stream the build fails. *)
Example no_stream_fails :
  let d : Dependencies unit := Deps true [] 0 None false true in
  let env := kernel_env sample_config sample_env d 10 11 12 (new_queue 4 (Cmd 0 0 0)) sample_snap in
  fst <$> build env 10 11 12 (the_builder d) (boot env (boot_shared env tt)) = Some (BuildFailed DependencyFailed).
Proof. vm_compute. reflexivity. Qed.
