(* ===== verification/Session.v ===== *)
(** * A session between a host and a running device

    The control task and the communications task as the callbacks the kernel calls, in a world
    that holds the line and the application, and a host that shakes hands and then sends one
    command frame at a time. What is shown holds for the whole life of the device, from
    power-on through the builder and the run loop. *)

From S2P Require Import Prelude Cobs Frame Protocol Queue ErrorLog Telemetry Kernel Sched Run Builder Safety Diagnostics Cli Comms Pipeline Config Device KernelTasks.

(** ** The world *)

(** The CLI of the communications task, what the snapshot callback answers, the application's
    own state, and two ghosts: the command frames the host has sent, and the commands the
    application was given. *)
Record World (A : Type) := MkWorld {
  w_cli : CLI line;
  w_snapshot : option PerformanceSnapshot;
  w_app : A;
  w_sent : list (Z * Command);
  w_handled : list Command;
}.
#[global] Arguments MkWorld {A}.
#[global] Arguments w_cli {A}.
#[global] Arguments w_snapshot {A}.
#[global] Arguments w_app {A}.
#[global] Arguments w_sent {A}.
#[global] Arguments w_handled {A}.

Section session.
Context {A : Type}.
Abbreviation World := (World A).
Abbreviation Shared := (Shared World).
Context (env : Env World) (kMaxLineLen : nat) (kMaxValidCommandID long_bits : Z) (MaxPayload : nat).

#[local] Instance task_queue : MessageQueue (ring Command) Command := LockFreeQueue (kQueueCapacity env).
#[local] Instance task_queue_spec : MessageQueueSpec (ring Command) Command := LockFreeQueue_spec (kQueueCapacity env).

(** ** The communications task as one of the kernel's tasks *)

(** Its members: the CLI is its own, the queue is the kernel's. *)
Definition comms_state (h : Shared) : CLI line * CommsTask (ring Command) :=
  (w_cli (sh_world h), Comms (Some (sh_queue h)) (w_snapshot (sh_world h))).

Definition put_comms (x : CLI line * CommsTask (ring Command)) (h : Shared) : Shared :=
  let w := sh_world h in
  set_world (MkWorld x.1 (ct_snapshotFn x.2) (w_app w) (w_sent w) (w_handled w))
    (set_queue (default (sh_queue h) (ct_commandQueue x.2)) h).

(** [init] and [tick] as the kernel calls them. *)
Definition comms_init_callback (h : Shared) : Shared :=
  match comms_init kMaxLineLen kMaxValidCommandID long_bits MaxPayload (comms_state h) with
  | Some x => put_comms x h
  | None => h
  end.

Definition comms_callback (now : Z) (h : Shared) : Shared :=
  match comms_tick kMaxLineLen kMaxValidCommandID long_bits MaxPayload now (comms_state h) with
  | Some x => put_comms x h
  | None => h
  end.

(** ** The course of a session *)

Definition handshake_request (seq v0 v1 : Z) : list Z :=
  0%Z :: wire_frame HANDSHAKE_REQ seq [v0; v1; 0x53; 0x4F; 0x50; 0x53]%Z.

Definition handshake_response (seq : Z) : list Z := wire_frame HANDSHAKE_RESP seq handshake_payload.

(** Where the session stands, given the bytes that wait in the line, what was written in the
    handshake, and the commands that were answered and those that were sent: the host is
    silent; or it calls, once the task listens; it is connected and waits for nothing; or its
    last command is on the line, or in the CLI. *)
Inductive stage (c : CLI line) : list Z -> list (list Z) -> list (Z * Command) -> list (Z * Command) -> Prop :=
  | Silent :
      c_mode c = TEXT -> c_probeActive c = false -> c_hasPending c = false -> c_hasFramedCommand c = false ->
      stage c [] [] [] []
  | Calling seq v0 v1 :
      c_mode c = TEXT -> c_probeActive c = false -> c_hasPending c = false -> c_hasFramedCommand c = false ->
      c_handler c = true -> c_router c = true -> in_word 8 seq -> in_word 8 v0 -> in_word 8 v1 ->
      stage c (handshake_request seq v0 v1) [] [] []
  | Connected seq done :
      c_mode c = FRAMED -> m_cobsLen (c_frameDecoder c) = 0 -> c_hasFramedCommand c = false ->
      stage c [] [handshake_response seq] done done
  | InFlight seq done n cmd :
      c_mode c = FRAMED -> m_cobsLen (c_frameDecoder c) = 0 -> c_hasFramedCommand c = false -> frame_ok n cmd ->
      stage c (command_frame n cmd) [handshake_response seq] done (done ++ [(n, cmd)])
  | Announced seq done n cmd :
      c_mode c = FRAMED -> m_cobsLen (c_frameDecoder c) = 0 -> c_hasFramedCommand c = true ->
      c_framedCommand c = cmd -> c_framedSeqNum c = n -> frame_ok n cmd ->
      stage c [] [handshake_response seq] done (done ++ [(n, cmd)]).

(** The promise: with [l] waiting in the queue, the commands that were acknowledged are the
    ones the application was given, followed by [l]; every answered command has its answer on
    the line, in order. *)
Record session_inv (l : list Command) (w : World) : Prop := {
  si_cli : cli_wf kMaxLineLen MaxPayload (w_cli w);
  si_snapshot : forall snap, w_snapshot w = Some snap -> snapshot_ok snap;
  si_course : exists inbox hello acks done,
    c_stream (w_cli w) = Some (inbox, hello ++ answers acks done) /\ length acks = length done /\
    stage (w_cli w) inbox hello done (w_sent w) /\ accepted_commands acks done = w_handled w ++ l;
}.

Lemma stage_hello c inbox hello done sent :
  stage c inbox hello done sent -> length hello <= 1 /\ (sent <> [] -> length hello = 1) /\ done `prefix_of` sent.
Proof. intros []; cbn; split_and!; try done; try lia; by apply prefix_app_r. Qed.

(** ** One turn of the communications task *)

Abbreviation comms := (CLI line * CommsTask (ring Command))%type.
#[local] Hint Extern 0 (IProtocolHandler (Cli.CLI _ * CommsTask _)) => exact (comms_handler MaxPayload) : typeclass_instances.
Abbreviation tick_cli := (cli_tick kMaxLineLen kMaxValidCommandID long_bits MaxPayload).

Hypothesis Hline : 0 < kMaxLineLen.
Hypothesis H6 : 6 <= MaxPayload.
Hypothesis Hmax : (Z.of_nat MaxPayload < 65536)%Z.

Lemma cli_tick_idle (x : comms) out : c_stream x.1 = Some ([], out) -> tick_cli x = Some x.
Proof. intros Hs. unfold cli_tick. rewrite Hs. reflexivity. Qed.

Lemma handshake_request_length seq v0 v1 : 0 < length (handshake_request seq v0 v1) <= kReadBufSize.
Proof.
  unfold handshake_request. set (p := [v0; v1; _; _; _; _]%Z). split; [simpl; lia|].
  pose proof (raw_frame_capacity HANDSHAKE_REQ seq p) as Hc. change (length p) with 6 in Hc. cbn [length].
  unfold wire_frame. rewrite length_app. etransitivity; [apply le_n_S, Nat.add_le_mono_r, Hc|]. vm_compute. lia.
Qed.

(** What is waiting is read: a call is answered, a command is announced. *)
Lemma cli_tick_stage (x : comms) inbox hello acks done sent :
  comms_ok kMaxLineLen MaxPayload x -> length acks = length done ->
  c_stream x.1 = Some (inbox, hello ++ answers acks done) -> stage x.1 inbox hello done sent ->
  exists y hello', tick_cli x = Some y /\ y.2 = x.2 /\ c_stream y.1 = Some ([], hello' ++ answers acks done) /\
    stage y.1 [] hello' done sent /\ hello `prefix_of` hello' /\ (hello = hello' \/ acks = []).
Proof.
  intros Hx Hl Hs Hst. destruct Hst as [Hm Hp Hpend Hf|seq v0 v1 Hm Hp Hpend Hf Hh Hr Hseq H0 H1|seq done Hm H0 Hf|seq done n cmd Hm H0 Hf Hok|].
  - exists x, []. split; [by eapply cli_tick_idle|]. split_and!; try done; [by constructor|by left].
  - destruct (handshake_cli kMaxLineLen kMaxValidCommandID long_bits MaxPayload x (handshake_request seq v0 v1, [] ++ answers acks []) ([], [] ++ answers acks []) seq v0 v1)
      as (c & E & Hs' & Hm' & H0' & Hf' & _); try done.
    { split; [done|exact Hs|]. apply line_offers, handshake_request_length. }
    exists (c, x.2), [handshake_response seq]. split; [exact E|]. split; [done|].
    destruct acks; [|done]. split; [exact Hs'|]. split; [|split; [apply prefix_nil|by right]].
    constructor; [done|done|]. exact (eq_trans Hf' Hf).
  - exists x, [handshake_response seq]. split; [by eapply cli_tick_idle|]. split_and!; try done; [by constructor|by left].
  - destruct cmd as [id dev v]. destruct Hok as (Hn & Hid & Hdev & Hv).
    destruct (command_frame_cli kMaxLineLen kMaxValidCommandID long_bits MaxPayload x
      (command_frame n (Cmd id dev v), [handshake_response seq] ++ answers acks done) ([], [handshake_response seq] ++ answers acks done) n id dev v)
      as (z & E & Hz2 & Hzs & Hzm & Hz0 & Hzh & Hzc & Hzn & _); try done.
    { split; [done|exact Hs|]. exact (line_offers _ _ (command_frame_length n (Cmd id dev v))). }
    exists z, [handshake_response seq]. split; [exact E|]. split_and!; try done; [by constructor|by left].
  - exists x, [handshake_response seq]. split; [by eapply cli_tick_idle|]. split_and!; try done; [by constructor|by left].
Qed.

Lemma answers_snoc acks cmds ack seq cmd :
  length acks = length cmds -> answers (acks ++ [ack]) (cmds ++ [(seq, cmd)]) = answers acks cmds ++ answers [ack] [(seq, cmd)].
Proof. intros Hl. unfold answers. by rewrite zip_with_app. Qed.

Lemma accepted_snoc acks cmds ack seq cmd :
  length acks = length cmds ->
  accepted_commands (acks ++ [ack]) (cmds ++ [(seq, cmd)]) = accepted_commands acks cmds ++ (if ack : bool then [cmd] else []).
Proof. intros Hl. unfold accepted_commands. rewrite zip_with_app, join_app by done. cbn. by rewrite app_nil_r. Qed.

(** An announced command is taken and answered. *)
Lemma comms_loop_stage (y : comms) hello acks done sent q l handled :
  length acks = length done -> c_stream y.1 = Some ([], hello ++ answers acks done) -> stage y.1 [] hello done sent ->
  ct_commandQueue y.2 = Some q -> mq_holds q l -> accepted_commands acks done = handled ++ l ->
  exists x' q' l' acks' done', comms_loop MaxPayload 1 y = Some x' /\ ct_commandQueue x'.2 = Some q' /\ mq_holds q' l' /\
    ct_snapshotFn x'.2 = ct_snapshotFn y.2 /\ length acks' = length done' /\
    c_stream x'.1 = Some ([], hello ++ answers acks' done') /\ stage x'.1 [] hello done' sent /\
    accepted_commands acks' done' = handled ++ l' /\ done' = sent /\ answers acks done `prefix_of` answers acks' done' /\ l `prefix_of` l'.
Proof.
  intros Hl Hs Hst Hq Hh Hacc. remember [] as inbox eqn:Ei in Hst.
  assert (Hidle : hasCommand y.1 = false -> comms_loop MaxPayload 1 y = Some y) by (intros Hn; cbn [comms_loop]; by rewrite Hn).
  destruct Hst as [Hm Hp Hpend Hf| |seq done Hm H0 Hf|seq done n cmd|seq done n cmd Hm H0 Hf Hc Hn Hok].
  - exists y, q, l, acks, []. split; [apply Hidle; unfold hasCommand; by rewrite decide_True|]. split_and!; try done. by constructor.
  - discriminate.
  - exists y, q, l, acks, done. split; [apply Hidle; unfold hasCommand; by rewrite decide_False by (by rewrite Hm)|].
    split_and!; try done. by constructor.
  - pose proof (command_frame_length n cmd) as Hlen. rewrite Ei in Hlen. simpl in Hlen. lia.
  - destruct (pending_served MaxPayload y _ cmd q l H6 ltac:(apply Hok) Hm Hf Hc Hs Hq Hh) as (q' & Hq' & E). rewrite Hn in E.
    set (ack := bool_decide (length l < mq_capacity)) in *. unfold queue_after in Hq'.
    eexists _, q', _, (acks ++ [ack]), (done ++ [(n, cmd)]). split; [exact E|]. cbn [fst snd]. split; [done|]. split; [exact Hq'|].
    split; [done|]. split; [by rewrite !length_app, Hl|]. rewrite answers_snoc, accepted_snoc by done. split; [|split].
    + rewrite app_assoc. reflexivity.
    + by constructor.
    + rewrite Hacc, <- app_assoc. split; [unfold ack; case_bool_decide; [by rewrite decide_True|by rewrite decide_False, app_nil_r]|].
      split; [done|]. split; [by apply prefix_app_r|]. case_decide; [by apply prefix_app_r|done].
Qed.

(** ** The task's callbacks keep the promise *)

Hypothesis Hinv : env_inv env = session_inv.

Lemma comms_state_ok h l :
  holds (kQueueCapacity env) (sh_queue h) l -> session_inv l (sh_world h) -> comms_ok kMaxLineLen MaxPayload (comms_state h).
Proof. intros Hq [Hw Hsnap _]. split; [exact Hw|]. split; [intros q [= <-]; by exists l|exact Hsnap]. Qed.

(** The promise at a state. *)
Definition good (h : Shared) : Prop := exists l, holds (kQueueCapacity env) (sh_queue h) l /\ session_inv l (sh_world h).

(** The rest of [shared_ok] is about what the task does not touch. *)
Lemma good_callback_ok f :
  (forall h, exists q w, f h = set_world w (set_queue q h)) -> (forall h, good h -> good (f h)) -> callback_ok env f.
Proof.
  intros Hf Hg. split; intros h; pose proof (Hg h) as Hgh; destruct (Hf h) as (q & w & E); rewrite E in *; try done.
  intros []. split; try done. rewrite Hinv in *. by apply Hgh.
Qed.

Lemma put_comms_shape h r : exists q w,
  match r with Some x => put_comms x h | None => h end = set_world w (set_queue q h).
Proof. destruct r as [x|]; [unfold put_comms; eauto|]. exists (sh_queue h), (sh_world h). by destruct h. Qed.

Lemma put_comms_good h (x : comms) q l inbox hello acks done :
  ct_commandQueue x.2 = Some q -> holds (kQueueCapacity env) q l ->
  cli_wf kMaxLineLen MaxPayload x.1 -> (forall snap, ct_snapshotFn x.2 = Some snap -> snapshot_ok snap) ->
  c_stream x.1 = Some (inbox, hello ++ answers acks done) -> length acks = length done ->
  stage x.1 inbox hello done (w_sent (sh_world h)) -> accepted_commands acks done = w_handled (sh_world h) ++ l ->
  good (put_comms x h).
Proof.
  intros Hq Hl Hw Hsnap Hs Hlen Hst Hacc. exists l. unfold put_comms. rewrite Hq. split; [exact Hl|]. split; cbn; [done|done|]. by exists inbox, hello, acks, done.
Qed.

Lemma stage_convertible (y : comms) hello done sent : stage y.1 [] hello done sent -> ~ nack_undefined y.
Proof.
  intros Hst (cmd & c & q & q' & Hg & Hc & _). unfold getCommand in Hg. destruct (decide (c_mode y.1 = TEXT)) as [Hm|Hm].
  - assert (Hp : c_hasPending y.1 = false) by (destruct Hst; congruence). by rewrite Hp in Hg.
  - destruct (c_hasFramedCommand y.1); injection Hg as _ <-; cbn in Hc; congruence.
Qed.

(** The writes so far. *)
Definition line_out (w : World) : list (list Z) := match c_stream (w_cli w) with Some (_, out) => out | None => [] end.

(** All that was sent is answered. *)
Definition all_answered (w : World) : Prop :=
  exists hello acks, c_stream (w_cli w) = Some ([], hello ++ answers acks (w_sent w)) /\
    length acks = length (w_sent w) /\ (w_sent w <> [] -> length hello = 1).

Lemma comms_callback_step now h l :
  session_inv l (sh_world h) -> holds (kQueueCapacity env) (sh_queue h) l ->
  let h' := comms_callback now h in
  good h' /\ w_sent (sh_world h') = w_sent (sh_world h) /\ w_handled (sh_world h') = w_handled (sh_world h) /\
    line_out (sh_world h) `prefix_of` line_out (sh_world h') /\ all_answered (sh_world h') /\
    exists l', holds (kQueueCapacity env) (sh_queue h') l' /\ l `prefix_of` l'.
Proof.
  intros Hi Hl.
  pose proof (comms_state_ok h l Hl Hi) as Hx. destruct Hi as [_ _ (inbox & hello & acks & done & Hs & Hlen & Hst & Hacc)].
  destruct (cli_tick_stage (comms_state h) inbox hello acks done _ Hx Hlen Hs Hst)
    as (y & hello' & Ey & Hy2 & Hys & Hyst & Hpre & Hnew).
  destruct (cli_tick_keeps kMaxLineLen kMaxValidCommandID long_bits MaxPayload Hline task_ok
    (comms_handler_ok kMaxLineLen MaxPayload Hline) _ Hx) as (y1 & Ey1 & Hyok). rewrite Ey in Ey1. injection Ey1 as <-.
  assert (Hyq : ct_commandQueue y.2 = Some (sh_queue h)) by (by rewrite Hy2).
  destruct (comms_loop_stage y hello' acks done _ _ l _ Hlen Hys Hyst Hyq Hl Hacc)
    as (x' & q' & l' & acks' & done' & Ex & Hxq & Hl' & Hsn & Hlen' & Hxs & Hxst & Hacc' & Hall & Hans & Hll).
  destruct (comms_loop_ok kMaxLineLen MaxPayload y Hyok) as [(x1 & Ex1 & [Hw' [_ Hsnap']] & _)|Hn]; [|by eapply stage_convertible in Hn].
  rewrite Ex in Ex1. injection Ex1 as <-. unfold comms_callback, comms_tick. rewrite Ey. cbn [mbind option_bind]. rewrite Ex.
  split; [by eapply (put_comms_good h x' q' l' [] hello' acks' done')|]. split; [done|]. split; [done|]. split.
  - unfold line_out. cbn [put_comms set_world set_queue sh_world w_cli]. rewrite Hs, Hxs. destruct Hnew as [<-| ->].
    + by apply prefix_app.
    + change (answers [] done) with (@nil (list Z)). rewrite app_nil_r. by apply prefix_app_r.
  - split; [|exists l'; unfold put_comms; cbn; by rewrite Hxq]. exists hello', acks'. cbn [put_comms set_world set_queue sh_world w_cli w_sent].
    rewrite <- Hall at 1 2. split; [exact Hxs|]. split; [done|]. apply (stage_hello _ _ _ _ _ Hxst).
Qed.

Lemma put_comms_timers h r :
  sh_taskTimers (match r with Some x => put_comms x h | None => h end) = sh_taskTimers h.
Proof. by destruct r. Qed.

Lemma comms_callback_ok now : callback_ok env (comms_callback now).
Proof.
  apply good_callback_ok; intros h; [apply put_comms_shape|]. intros (l & Hl & Hi).
  by apply (comms_callback_step now h l).
Qed.

Lemma handler_stage c inbox hello done sent : stage c inbox hello done sent -> stage (setProtocolHandler true c) inbox hello done sent.
Proof. intros []; by constructor. Qed.

Lemma comms_init_step h l :
  session_inv l (sh_world h) -> holds (kQueueCapacity env) (sh_queue h) l ->
  let h' := comms_init_callback h in
  good h' /\ w_sent (sh_world h') = w_sent (sh_world h) /\ w_handled (sh_world h') = w_handled (sh_world h) /\
    line_out (sh_world h) `prefix_of` line_out (sh_world h') /\ sh_queue h' = sh_queue h.
Proof.
  intros Hi Hl. pose proof (comms_state_ok h l Hl Hi) as [Hw Ht].
  destruct Hi as [_ _ (inbox & hello & acks & done & Hs & Hlen & Hst & Hacc)].
  set (x := on_cli (setProtocolHandler true) (comms_state h)).
  assert (Hx : comms_ok kMaxLineLen MaxPayload x) by (split; [by destruct Hw; split|exact Ht]).
  destruct (cli_tick_stage x inbox hello acks done _ Hx Hlen Hs (handler_stage _ _ _ _ _ Hst))
    as (y & hello' & Ey & Hy2 & Hys & Hyst & Hpre & Hnew).
  destruct (cli_tick_keeps kMaxLineLen kMaxValidCommandID long_bits MaxPayload Hline task_ok
    (comms_handler_ok kMaxLineLen MaxPayload Hline) _ Hx) as (y1 & Ey1 & [Hyw [_ Hsnap]]). rewrite Ey in Ey1. injection Ey1 as <-.
  unfold comms_init_callback, comms_init. fold x. rewrite Ey.
  split; [eapply (put_comms_good h y (sh_queue h) l [] hello' acks done); try done; by rewrite Hy2|].
  split; [done|]. split; [done|]. split; [|unfold put_comms; cbn; by rewrite Hy2].
  unfold line_out. cbn [put_comms set_world set_queue sh_world w_cli]. rewrite Hs, Hys. destruct Hnew as [<-| ->]; [done|].
  change (answers [] done) with (@nil (list Z)). rewrite !app_nil_r. exact Hpre.
Qed.

Lemma comms_init_callback_ok : callback_ok env comms_init_callback.
Proof.
  apply good_callback_ok; intros h; [apply put_comms_shape|]. intros (l & Hl & Hi).
  by apply (comms_init_step h l).
Qed.

(** ** The application *)

(** A function of the application: it leaves the line, the queue and the sent commands alone,
    uses the public interface, and notes the commands it was given. *)
Record notes (cmds : list Command) (f : Shared -> Shared) : Prop := {
  nt_reads h : sh_reads h <= sh_reads (f h);
  nt_log h : (exists es, logger_holds (sh_log h) es) -> exists es, logger_holds (sh_log (f h)) es;
  nt_watchdog h : length (wd_lastKick (sh_watchdog (f h))) = length (wd_lastKick (sh_watchdog h)) /\
    length (wd_alive (sh_watchdog (f h))) = length (wd_alive (sh_watchdog h));
  nt_sync h : length (sh_sync (f h)) = length (sh_sync h);
  nt_queue h : sh_queue (f h) = sh_queue h;
  nt_timers h : sh_taskTimers (f h) = sh_taskTimers h;
  nt_telemetry h : (exists ms, telemetry_rep (sh_telemetry h) ms) -> exists ms, telemetry_rep (sh_telemetry (f h)) ms;
  nt_world h : let w := sh_world h in let w' := sh_world (f h) in
    w_cli w' = w_cli w /\ w_snapshot w' = w_snapshot w /\ w_sent w' = w_sent w /\ w_handled w' = w_handled w ++ cmds;
}.

Lemma notes_inv cmds f h l : notes cmds f -> session_inv (cmds ++ l) (sh_world h) -> session_inv l (sh_world (f h)).
Proof.
  intros Hf [Hw Hsnap (inbox & hello & acks & done & Hs & Hlen & Hst & Hacc)]. destruct (nt_world _ _ Hf h) as (E1 & E2 & E3 & E4).
  split; rewrite ?E1, ?E2; [done|done|]. exists inbox, hello, acks, done. rewrite E3, E4, <- app_assoc. done.
Qed.

Lemma notes_ok cmds f h q l :
  notes cmds f -> shared_ok env h -> holds (kQueueCapacity env) q l -> session_inv (cmds ++ l) (sh_world h) ->
  shared_ok env (f (set_queue q h)).
Proof.
  intros Hf [S1 _ S3 S4 S5 S6] Hl Hi. pose proof (nt_watchdog _ _ Hf (set_queue q h)) as N3. pose proof (nt_sync _ _ Hf (set_queue q h)) as N4.
  cbn [set_queue sh_watchdog sh_sync] in N3, N4.
  split; [by apply (nt_log _ _ Hf (set_queue q h))| |destruct N3, S3; split; congruence|congruence| |].
  2: { intros tid. unfold sh_timer. rewrite (nt_timers _ _ Hf). exact (S5 tid). }
  2: by apply (nt_telemetry _ _ Hf (set_queue q h)).
  exists l. rewrite (nt_queue _ _ Hf), Hinv. split; [done|]. by apply (notes_inv cmds f (set_queue q h)).
Qed.

Lemma notes_callback_ok f : notes [] f -> callback_ok env f.
Proof.
  intros Hf. split; [|apply Hf|intros h tid; unfold sh_timer; by rewrite (nt_timers _ _ Hf)]. intros h Hh. destruct (so_queue _ _ Hh) as (l & Hl & Hi). rewrite Hinv in Hi.
  pose proof (notes_ok [] f h (sh_queue h) l Hf Hh Hl Hi) as H. by destruct h.
Qed.

Context `{!UserApplication World}.

Record session_application : Prop := {
  sa_init : notes [] app_init;
  sa_tick now : notes [] (app_tick now);
  sa_command cmd : notes [cmd] (app_handleCommand cmd);
  sa_abort : notes [] app_forceSafeAbort;
}.

Lemma session_application_ok : session_application -> application_ok env.
Proof.
  intros [Hi Ht Hc Ha]. split; auto using notes_callback_ok.
  2: intros cmd; apply (Hc cmd). 2: intros now; apply (Ht now). 2: intros cmd; apply (Hc cmd). 2: apply Ha.
  intros cmd q l h Hh Hl Hq. destruct (so_queue _ _ Hh) as (l' & Hl' & Hi'). rewrite Hinv in Hi'.
  rewrite (holds_unique _ _ _ _ Hl' Hl) in Hi'. by eapply (notes_ok [cmd] _ h q l).
Qed.
End session.

(** ** The device *)

Section device.
Context {A : Type} `{!UserApplication (World A)}.
Context (cfg : UserConfig) (app : Env (World A)) (long_bits : Z) (monitor_isSafe : nat -> Shared (World A) -> bool).
Context (d : Dependencies line) (snap : PerformanceSnapshot) (ct cm : nat).

(** The communications task as [build] constructs it. *)
Definition session_comms : CLI line * CommsTask (ring Command) :=
  make_comms cfg d (new_queue (uc_kQueueCapacity cfg) (Cmd 0 0 0)) snap.

(** The application's world, in which two tasks are the kernel's own. *)
Definition session_app : Env (World A) :=
  let env := configured_env cfg app in
  with_task
    (with_task app cm (comms_desc cfg session_comms)
       (comms_init_callback (CfgMaxLineLen cfg) (CfgMaxValidCommandID cfg) long_bits kCliMaxPayload)
       (comms_callback env (CfgMaxLineLen cfg) (CfgMaxValidCommandID cfg) long_bits kCliMaxPayload))
    ct (control_desc env (make_control d)) (fun h => (control_init (make_control d) h).2)
    (control_callback env monitor_isSafe (commands_per_tick cfg) (make_control d)).

Definition session_boot (a : A) : World A := MkWorld session_comms.1 (Some snap) a [] [].

Hypothesis Hline : 0 < CfgMaxLineLen cfg.
Hypothesis Hstream : ud_stream d = Some ([], []).
Hypothesis Hmonitors : ud_monitorCount d <= length (ud_monitors d).
Hypothesis Hsnap : snapshot_ok snap.
Hypothesis Henv : env_ok (configured_env cfg app).
Hypothesis Hinv : env_inv app = session_inv (CfgMaxLineLen cfg) kCliMaxPayload.
Hypothesis Happ : session_application.

Lemma session_env_ok : env_ok (configured_env cfg session_app).
Proof.
  assert (H6 : 6 <= kCliMaxPayload) by (apply Nat.leb_le; reflexivity).
  assert (Hmax : (Z.of_nat kCliMaxPayload < 65536)%Z) by reflexivity.
  set (env := configured_env cfg app) in *.
  pose proof (session_application_ok env _ _ Hinv Happ) as Happ'.
  apply (with_task_ok (with_task env cm _ _ _)); [apply with_task_ok; [done| | |]| | |].
  - by apply comms_init_callback_ok.
  - intros now. by apply comms_callback_ok.
  - intros now h. apply put_comms_timers.
  - apply (callback_ok_same env); try reflexivity. by apply control_init_ok.
  - intros now. apply (callback_ok_same env); try reflexivity. by apply control_callback_ok.
  - intros now h. by eapply control_callback_timers.
Qed.

Lemma session_boot_inv a : session_inv (CfgMaxLineLen cfg) kCliMaxPayload [] (session_boot a).
Proof.
  split; cbn.
  - by apply new_cli_wf.
  - by intros s [= <-].
  - rewrite Hstream. exists [], [], [], []. split; [done|]. split; [done|]. split; [by constructor|done].
Qed.
End device.

(** ** Properties *)

(** No acknowledged command is lost, repeated or reordered while the device lives: with the
    kernel's own control and communications tasks among any others, on a configuration the
    validator accepts, from power-on through the builder and any number of iterations of any
    core, and a host that shakes hands and then sends a command when the last one was answered:
    what is written on the line is the handshake and then the answers to the commands sent, in
    order, one of them perhaps still unanswered; and the commands that were acknowledged are
    those the application was given, once and in order, followed by those in the queue. *)
Theorem session_exactly_once {A : Type} `{!UserApplication (World A)} (cfg : UserConfig) (app : Env (World A)) (long_bits : Z)
    (monitor_isSafe : nat -> Shared (World A) -> bool) (d : Dependencies line) (snap : PerformanceSnapshot)
    (a : A) (ct cm dg : nat) (ops : list registration) :
  let env := configured_env cfg (session_app cfg app long_bits monitor_isSafe d snap ct cm) in
  ConfigValidator cfg = true -> config_typed cfg -> ud_stream d = Some ([], []) -> ud_monitorCount d <= length (ud_monitors d) ->
  snapshot_ok snap -> background_count ops < CfgMaxBackgroundTasks cfg -> @session_application A _ ->
  env_ok (configured_env cfg app) -> env_inv app = session_inv (CfgMaxLineLen cfg) kCliMaxPayload ->
  exists s1 r s2, register_all env ops (boot env (boot_shared env (session_boot cfg d snap a))) = Some s1 /\
    build env ct cm dg (the_builder d) s1 = Some (r, s2) /\
    (r = BuildOk -> forall coreId fuel, coreId < kCoreCount env -> (Z.of_nat fuel < 2 ^ 32)%Z ->
      exists fin s3, sys_run env fuel coreId s2 = Some (fin, s3) /\
        let w := sh_world (sy_shared s3) in
        exists inbox hello acks done l, c_stream (w_cli w) = Some (inbox, hello ++ answers acks done) /\
          (hello = [] \/ exists seq, hello = [handshake_response seq]) /\
          (w_sent w = done \/ exists last, w_sent w = done ++ [last]) /\ length acks = length done /\
          holds (kQueueCapacity env) (sh_queue (sy_shared s3)) l /\ accepted_commands acks done = w_handled w ++ l).
Proof.
  intros env Hcfg [_ Hline _] Hstream Hmon Hsnap Hbg Happ Henv Hinv.
  destruct (device_runs cfg (session_app cfg app long_bits monitor_isSafe d snap ct cm) (session_boot cfg d snap a) ct cm dg
    (the_builder d) ops) as (s1 & r & s2 & E1 & E2 & _ & _ & Hrun); [done|by apply session_env_ok| |done|].
  { cbn [env_inv session_app with_task]. rewrite Hinv. by apply session_boot_inv. }
  exists s1, r, s2. do 2 (split; [done|]). intros Hr coreId fuel Hc Hf.
  destruct (Hrun Hr coreId fuel Hc Hf) as (fin & s3 & E3 & Hwf & _). exists fin, s3. split; [exact E3|].
  destruct (so_queue _ _ (wf_shared _ _ Hwf)) as (l & Hl & Hi). cbn [env_inv configured_env session_app with_task] in Hi.
  rewrite Hinv in Hi. destruct Hi as [_ _ (inbox & hello & acks & done & Hs & Hlen & Hst & Hacc)].
  exists inbox, hello, acks, done, l. split; [exact Hs|]. split; [destruct Hst; eauto|]. split; [destruct Hst; eauto|]. done.
Qed.

(** ** A host *)

(** An application that only notes its commands. *)
#[local] Instance noting {A} : UserApplication (World A) := {|
  app_init h := h; app_tick _ h := h; app_forceSafeAbort h := h;
  app_handleCommand cmd h :=
    let w := sh_world h in
    set_world (MkWorld (w_cli w) (w_snapshot w) (w_app w) (w_sent w) (w_handled w ++ [cmd])) h
|}.

Lemma noting_ok {A} : @session_application A noting.
Proof. split; intros; split; intros h; try done; cbn; rewrite ?app_nil_r; done. Qed.

#[local] Instance frame_ok_dec seq cmd : Decision (frame_ok seq cmd).
Proof. unfold frame_ok. apply _. Defined.

(** The host puts [bytes] on the line, and goes on with [script]. *)
Definition put_line (bytes : list Z) (out : list (list Z)) (script sent : list (Z * Command)) (w : World (list (Z * Command))) :=
  MkWorld (set_stream (T := line) (bytes, out) (w_cli w)) (w_snapshot w) script sent (w_handled w).

(** The host's turn: it calls until it is answered, and then sends the next command of its
    script whenever as many answers have come as commands were sent. *)
Definition host_turn (w : World (list (Z * Command))) : World (list (Z * Command)) :=
  match c_stream (w_cli w) with
  | Some ([], []) =>
      if c_handler (w_cli w) && c_router (w_cli w) then put_line (handshake_request 1 1 0) [] (w_app w) (w_sent w) w else w
  | Some ([], out) =>
      if decide (length out = S (length (w_sent w))) then
        match w_app w with
        | (n, cmd) :: script =>
            if decide (frame_ok n cmd) then put_line (command_frame n cmd) out script (w_sent w ++ [(n, cmd)]) w else w
        | [] => w
        end
      else w
  | _ => w
  end.

Lemma put_line_stage bytes out (c : CLI line) inbox hello done sent :
  stage c inbox hello done sent -> stage (set_stream (bytes, out) c) inbox hello done sent.
Proof. intros []; by constructor. Qed.

Lemma host_turn_inv kMaxLineLen MaxPayload l w :
  session_inv kMaxLineLen MaxPayload l w -> session_inv kMaxLineLen MaxPayload l (host_turn w).
Proof.
  intros Hw. pose proof Hw as [Hc Hsnap (inbox & hello & acks & done & Hs & Hlen & Hst & Hacc)]. unfold host_turn. rewrite Hs.
  assert (Ha : length (answers acks done) = length done) by (unfold answers; rewrite length_zip_with; lia).
  destruct Hst as [Hm Hp Hpend Hf|seq v0 v1 Hm Hp Hpend Hf Hh Hr Hseq H0 H1|seq done Hm H0 Hf|seq done n cmd Hm H0 Hf Hok|seq done n cmd Hm H0 Hf Hfc Hn Hok].
  - destruct acks; [|done]. cbn [answers zip_with app]. destruct (c_handler (w_cli w)) eqn:Eh; [|done].
    destruct (c_router (w_cli w)) eqn:Er; [|done]. cbn [andb]. split; [by apply set_stream_wf|exact Hsnap|].
    exists (handshake_request 1 1 0), [], [], []. split; [done|]. split; [done|]. split; [|done]. apply put_line_stage. by constructor.
  - done.
  - destruct (decide _); [|done]. destruct (w_app w) as [|[n cmd] script]; [done|].
    destruct (decide (frame_ok n cmd)) as [Hok|]; [|done]. split; [by apply set_stream_wf|exact Hsnap|].
    exists (command_frame n cmd), [handshake_response seq], acks, done. split; [done|]. split; [done|]. split; [|done].
    apply put_line_stage. by constructor.
  - pose proof (command_frame_length n cmd) as Hb. by destruct (command_frame n cmd); [simpl in Hb; lia|].
  - rewrite decide_False; [done|]. cbn [app length]. rewrite length_app, Ha. cbn [length]. lia.
Qed.

(** A world in which nothing happens but the host, who has its turn in a stop condition. *)
Definition host_env : Env (World (list (Z * Command))) := {|
  kCoreCount := 1; kQueueCapacity := 4; kControlBudgetUs := 10000; kMaxBackgroundTasks := 4;
  kCrunchMaxOverruns := 2; kMinSchedulePeriodUs := 10; kMetricsWindowUs := 60000000;
  env_desc _ := diags_desc;
  env_init _ h := h; env_tick _ _ h := h; env_onOverrun _ _ _ h := h; env_crunch _ _ h := h;
  env_onCrunchAbort _ h := h; env_watchdogKick h := h; env_peers _ h := h;
  env_stopCondition _ h := (false, set_world (host_turn (sh_world h)) h);
  env_clock n := Z.of_nat n; env_inv := session_inv 64 kCliMaxPayload;
|}.

Definition session_config : UserConfig := required_config 1 4.
Definition session_deps : Dependencies line := Deps true [] 0 (Some ([], [])) false true.

Lemma host_env_ok : env_ok (configured_env session_config host_env).
Proof.
  split; intros; split; intros h; try done. intros [H1 (l & Hl & Hi) H3 H4 H5 H6]. split; try done.
  exists l. split; [done|]. by apply host_turn_inv.
Qed.

Definition session_snap : PerformanceSnapshot :=
  Snapshot 0 0 [0; 0; 0; 0]%Z 0 0 0 0 0 0 0 0 0 0 0 0 0 (replicate kMaxSnapshotTasks (TaskSnap 0 0 0 0 0 0 0 0 0 [])).

Definition session_script : list (Z * Command) := [(7, Cmd 1 2 3); (8, Cmd 2 0 4096)]%Z.

(** The device of [host_env], built, and run for some iterations. *)
Definition session_run (fuel : nat) : option (bool * System (World (list (Z * Command)))) :=
  let env := configured_env session_config (session_app session_config host_env 32 (fun _ _ => true) session_deps session_snap 10 11) in
  s ← register_all env [AddStop (Some 0)] (boot env (boot_shared env (session_boot session_config session_deps session_snap session_script)));
  '(r, s) ← build env 10 11 12 (the_builder session_deps) s;
  if decide (r = BuildOk) then sys_run env fuel 0 s else None.

Lemma session_exactly_once_witness :
  let env := configured_env session_config (session_app session_config host_env 32 (fun _ _ => true) session_deps session_snap 10 11) in
  exists s1 r s2, register_all env [AddStop (Some 0)] (boot env (boot_shared env (session_boot session_config session_deps session_snap session_script))) = Some s1 /\
    build env 10 11 12 (the_builder session_deps) s1 = Some (r, s2) /\
    (r = BuildOk -> exists fin s3, sys_run env 5 0 s2 = Some (fin, s3) /\
      exists acks done l, holds 4 (sh_queue (sy_shared s3)) l /\
        accepted_commands acks done = w_handled (sh_world (sy_shared s3)) ++ l).
Proof.
  destruct (session_exactly_once session_config host_env 32 (fun _ _ => true) session_deps session_snap session_script 10 11 12
    [AddStop (Some 0)]) as (s1 & r & s2 & E1 & E2 & Hrun); try reflexivity.
  - split; vm_compute; intuition (lia || discriminate).
  - split; [reflexivity|reflexivity|apply Nat.leb_le; reflexivity].
  - apply Nat.ltb_lt. reflexivity.
  - exact noting_ok.
  - exact host_env_ok.
  - exists s1, r, s2. split; [exact E1|]. split; [exact E2|]. intros Hr.
    destruct (Hrun Hr 0 5) as (fin & s3 & E3 & inbox & hello & acks & done & l & _ & _ & _ & _ & Hl & Hacc);
      [apply Nat.ltb_lt; reflexivity|apply Z.ltb_lt; reflexivity|].
    exists fin, s3. split; [exact E3|]. exists acks, done, l. split; [exact Hl|exact Hacc].
Defined.

(** The session in full: within five iterations the host has shaken hands and both commands of
    its script are acknowledged and with the application. *)
Example session_completes :
  (fun r => let w := sh_world (sy_shared r.2) in (w_handled w, w_sent w, c_stream (w_cli w))) <$> session_run 5 =
    Some ([Cmd 1 2 3; Cmd 2 0 4096], session_script,
      Some ([], [handshake_response 1; wire_frame ACK 7 [1%Z]; wire_frame ACK 8 [2%Z]])).
Proof. vm_compute. reflexivity. Qed.
