(* ===== verification/Effects.v ===== *)
(** * What a running kernel does to the state it shares with its tasks

    The ghost trace lists the calls the kernel made of its tasks. Here it is shown to be the whole
    story, together with the stop conditions the kernel asks and the watchdog callback: a run
    changes the command queue and the world of the tasks by these events and no others, in their
    order. *)

From stdpp Require Import sorting.
From S2P Require Import Prelude Queue Float32 Protocol Metrics ErrorLog Telemetry Sync Kernel Sched Crunch Run Safety Diagnostics Config Device KernelTasks.

Section effects.
Context {W : Type} (env : Env W).
Abbreviation Shared := (Shared W).
Abbreviation System := (System W).
Implicit Types (h : Shared) (s : System).

(** ** An abstract machine whose actions are the events *)

(** What the kernel does that others can see: a call of a task, a stop condition it asks, the
    watchdog callback of the crunch loop; and, in a run of one core, what the other cores do. *)
Inductive event :=
  | Called (c : call)
  | Asked (f : nat)
  | Kicked
  | Peers (ms : Z).

(** The arguments of [onOverrun] are not in the trace. *)
Inductive performs : event -> Shared -> Shared -> Prop :=
  | PInit tid h : performs (Called (CallInit tid)) h (env_init env tid h)
  | PTick core slot tid now h : performs (Called (CallTick core slot tid now)) h (env_tick env tid now h)
  | PBackground tid now h : performs (Called (CallBackground tid now)) h (env_tick env tid now h)
  | POverrun tid actual wcet h : performs (Called (CallOverrun tid)) h (env_onOverrun env tid actual wcet h)
  | PCrunch core tid now elapsed h : performs (Called (CallCrunch core tid now elapsed)) h (env_crunch env tid now h)
  | PAbort tid h : performs (Called (CallCrunchAbort tid)) h (env_onCrunchAbort env tid h)
  | PAsked f h : performs (Asked f) h (env_stopCondition env f h).2
  | PKicked h : performs Kicked h (env_watchdogKick env h)
  | PPeers ms h : performs (Peers ms) h (env_peers env ms h).

(** The calls among the events. *)
Definition calls_of (es : list event) : list call := omap (fun e => match e with Called c => Some c | _ => None end) es.

Lemma calls_of_app es1 es2 : calls_of (es1 ++ es2) = calls_of es1 ++ calls_of es2.
Proof. apply omap_app. Qed.

Lemma elem_of_calls_of c es : c ∈ calls_of es <-> Called c ∈ es.
Proof.
  unfold calls_of. rewrite list_elem_of_omap. split; [|intros H; by exists (Called c)].
  intros ([] & Hin & E); try done. by injection E as ->.
Qed.

(** The time a task is told. *)
Definition call_time (c : call) : option Z :=
  match c with
  | CallTick _ _ _ now | CallBackground _ now | CallCrunch _ _ now _ => Some now
  | CallInit _ | CallOverrun _ | CallCrunchAbort _ => None
  end.

(** The sums over all tasks in the health metrics. *)
Definition totals h : Z * Z := (sh_totalOverruns (sh_schedulerHealth h), sh_totalDeadlineMisses (sh_schedulerHealth h)).

(** What the kernel itself never touches. *)
Record untouched h h' : Prop := {
  un_queue : sh_queue h' = sh_queue h;
  un_world : sh_world h' = sh_world h;
  un_abort : sh_safetyAbort h' = sh_safetyAbort h;
  un_telemetry : sh_telemetry h' = sh_telemetry h;
  un_profiler : sh_memProfiler h' = sh_memProfiler h;
  un_totals : totals h' = totals h;
}.

(** Between the events the kernel logs, times its tasks, feeds its watchdog, moves its barriers
    and reads the clock, and what it shares stays well formed. *)
Record between h h' : Prop := {
  be_untouched : untouched h h';
  be_reads : sh_reads h <= sh_reads h';
  be_ok : shared_ok env h -> shared_ok env h';
}.

Inductive effect : list event -> Shared -> Shared -> Prop :=
  | ENil h : effect [] h h
  | EBetween h h1 h2 es : between h h1 -> effect es h1 h2 -> effect es h h2
  | EEvent e h h1 h2 es : performs e h h1 -> effect es h1 h2 -> effect (e :: es) h h2.

Lemma effect_app c1 c2 h h1 h2 : effect c1 h h1 -> effect c2 h1 h2 -> effect (c1 ++ c2) h h2.
Proof. intros H1 H2. induction H1; [done| |]; [eapply EBetween|eapply EEvent]; eauto. Qed.

Lemma effect_between h h' : between h h' -> effect [] h h'.
Proof. intros H. eapply EBetween; [exact H|constructor]. Qed.

Lemma effect_event e h h' : performs e h h' -> effect [e] h h'.
Proof. intros H. eapply EEvent; [exact H|constructor]. Qed.

(** ** Pieces of the kernel *)

(** A piece of the kernel only makes calls in [Q], asks stop conditions in [A], and lets other
    cores run if [peers]. *)
Context (A : nat -> Prop) (peers : bool) (Q : call -> Prop).

Definition allowed (e : event) : Prop :=
  match e with Called c => Q c | Asked f => A f | Kicked => True | Peers _ => peers = true end.

(** From [s] to [s'] the trace grows by the calls that happened; the clock stays. *)
Definition does s s' : Prop :=
  sy_timer s' = sy_timer s /\
  exists es, sy_trace s' = sy_trace s ++ calls_of es /\ Forall allowed es /\ effect es (sy_shared s) (sy_shared s').

Lemma does_refl s : does s s.
Proof. split; [done|]. exists []. rewrite app_nil_r. split_and!; [done|done|constructor]. Qed.

Lemma does_trans s1 s2 s3 : does s1 s2 -> does s2 s3 -> does s1 s3.
Proof.
  intros (K1 & c1 & T1 & Q1 & E1) (K2 & c2 & T2 & Q2 & E2). split; [congruence|]. exists (c1 ++ c2).
  rewrite T2, T1, calls_of_app, app_assoc. split; [done|]. split; [by apply Forall_app_2|]. by eapply effect_app.
Qed.

#[local] Instance does_preorder : PreOrder does.
Proof. split; [exact does_refl|exact does_trans]. Qed.

Lemma does_between s s' : sy_timer s' = sy_timer s -> sy_trace s' = sy_trace s -> between (sy_shared s) (sy_shared s') -> does s s'.
Proof. intros Hk Ht Hb. split; [done|]. exists []. rewrite Ht, app_nil_r. split_and!; [done|done|]. by apply effect_between. Qed.

(** A callback that is no task. *)
Lemma does_event e f s : match e with Called _ => False | _ => True end -> allowed e -> performs e (sy_shared s) (f (sy_shared s)) -> does s (on_shared f s).
Proof. intros He Hq Hp. split; [done|]. exists [e]. split; [destruct e; by rewrite ?app_nil_r|]. split; [by constructor|]. by apply effect_event. Qed.

(** Changes of the kernel's own state. *)
Lemma does_own s s' : sy_timer s' = sy_timer s -> sy_trace s' = sy_trace s -> sy_shared s' = sy_shared s -> does s s'.
Proof. intros Hk Ht Hs. split; [done|]. exists []. rewrite Ht, Hs, app_nil_r. split_and!; [done|done|constructor]. Qed.

Lemma kernel_only h h' : untouched h h' -> sh_reads h = sh_reads h' -> (shared_ok env h -> shared_ok env h') -> between h h'.
Proof. intros Hu Hr Hok. split; [done|lia|done]. Qed.

#[local] Hint Extern 2 (between _ _) => apply kernel_only; [by split|reflexivity|by intros []; split] : core.

Lemma does_shared s h : between (sy_shared s) h -> does s (set_shared h s).
Proof. intros H. by apply does_between. Qed.

(** The kernel's bookkeeping: the timers of the tasks and the health metrics. *)
Lemma put_timer_shared tid t h : (timer_ok (sh_timer tid h) -> timer_ok t) -> shared_ok env h -> shared_ok env (put_sh_timer tid t h).
Proof.
  intros Ht Hok. pose proof (so_timers _ _ Hok) as Hts. destruct Hok. split; try done. intros tid'. unfold sh_timer, put_sh_timer. cbn.
  destruct (decide (tid = tid')) as [<-|Hne]; [rewrite lookup_insert_eq; cbn; auto|]. rewrite lookup_insert_ne by done. apply Hts.
Qed.

Lemma does_put_timer tid t s : (timer_ok (task_timer tid s) -> timer_ok t) -> does s (put_timer tid t s).
Proof. intros Ht. apply does_shared, kernel_only; [by split|done|by apply put_timer_shared]. Qed.

Lemma does_record_gap gap now s : does s (set_schedulerHealth (recordGap gap now (sy_schedulerHealth s)) s).
Proof.
  apply does_shared, kernel_only; [|done|apply set_health_ok]. split; try done. unfold totals. cbn [sh_schedulerHealth set_sh_schedulerHealth].
  unfold recordGap. by case_match.
Qed.

Lemma does_call c f s : Q c -> performs (Called c) (sy_shared s) (f (sy_shared s)) -> does s (emit c (on_shared f s)).
Proof. intros Hq Hp. split; [done|]. exists [Called c]. split; [done|]. split; [by constructor|]. by apply effect_event. Qed.

Lemma does_log code timestamp value s s' : sys_log code timestamp value s = Some s' -> does s s'.
Proof.
  unfold sys_log. destruct (log _ _ _ _) as [l|] eqn:E; [|done]. intros [= <-]. apply does_shared, kernel_only; [by split|done|].
  intros [[es Hes] ? ? ? ? ?]. split; try done. destruct (log_ok _ _ code timestamp value Hes) as (l' & E' & Hl). cbn in *. rewrite E in E'.
  injection E' as <-. by eexists.
Qed.

Lemma does_read_clock s : does s (read_clock env s).2.
Proof. apply does_shared. split; [by split|cbn; lia|by intros []; split]. Qed.

Lemma between_refl h : between h h.
Proof. by split. Qed.

Lemma now_between s now s' : sys_now env s = (now, s') -> sy_timer s' = sy_timer s /\ sy_trace s' = sy_trace s /\ between (sy_shared s) (sy_shared s').
Proof.
  unfold sys_now. case_match; intros [= _ <-]; [|by split_and!; [..|apply between_refl]]. split; [done|]. split; [done|].
  split; [by split|cbn; lia|by intros []; split].
Qed.

Lemma does_now s now s' : sys_now env s = (now, s') -> does s s'.
Proof. intros (Hk & Ht & Hb)%now_between. by apply does_between. Qed.

Lemma does_timer_start tid s : does s (timer_start env tid s).
Proof.
  unfold timer_start. destruct (tt_clocked _); cbn [read_clock]; [|by apply does_put_timer].
  etransitivity; [apply does_read_clock|]. by apply does_put_timer.
Qed.

Lemma stop_timer_ok c t t' : stop c t = Some t' -> timer_ok t -> timer_ok t'.
Proof. intros E Ht. destruct (stop_total c t Ht) as (t1 & E1 & H & _). rewrite E in E1. by injection E1 as <-. Qed.

Lemma does_timer_stop tid s s' : timer_stop env tid s = Some s' -> does s s'.
Proof.
  unfold timer_stop. destruct (tt_clocked _); cbn [read_clock]; (destruct (stop _ _) as [t|] eqn:E; [|done]); intros [= <-].
  - etransitivity; [apply does_read_clock|]. apply does_put_timer. by eapply stop_timer_ok.
  - apply does_put_timer. by eapply stop_timer_ok.
Qed.

Lemma does_transition target s b s' : transitionTo target s = Some (b, s') -> does s s'.
Proof.
  unfold transitionTo. case_match; [intros [= _ <-]; by apply does_own|].
  destruct (sys_log _ _ _ s) as [s1|] eqn:E; [|done]. intros [= _ <-]. by eapply does_log.
Qed.

(** The calls of initialisation, of the loops, and of a tick at [now] by a core whose scheduled
    tasks are [P]. *)
Definition tick_kind (P : nat -> Prop) (now : Z) (c : call) : Prop :=
  match c with
  | CallTick _ _ tid t => P tid /\ t = now
  | CallBackground _ t => t = now
  | CallOverrun tid => P tid
  | CallInit _ | CallCrunch _ _ _ _ | CallCrunchAbort _ => False
  end.

Class Inits := init_call tid : Q (CallInit tid).
Class Ticks (P : nat -> Prop) (now : Z) := tick_call c : tick_kind P now c -> Q c.
Class Loops := loop_call c : (forall tid, c <> CallInit tid) -> Q c.
Class Aborts := abort_call tid : Q (CallCrunchAbort tid).
Class Asks := ask f : A f.
Class Waits := wait : peers = true.

#[local] Instance loops_tick P now `{!Loops} : Ticks P now.
Proof. intros c Hc. apply loop_call. by intros tid ->. Qed.
#[local] Instance loops_aborts `{!Loops} : Aborts.
Proof. intros tid. by apply loop_call. Qed.

(** *** Composition: every result of [r], with its state, is done from [s] *)

Definition yields {X} (st : X -> System) s (r : option X) : Prop := forall x, r = Some x -> does s (st x).
Abbreviation runs := (yields id).
Abbreviation gives := (yields snd).

Lemma yields_ret {X} (st : X -> System) s x : does s (st x) -> yields st s (Some x).
Proof. by intros H _ [= <-]. Qed.

Lemma yields_none {X} (st : X -> System) s : yields st s None.
Proof. done. Qed.

Lemma yields_before {X} (st : X -> System) s s1 r : does s s1 -> yields st s1 r -> yields st s r.
Proof. intros H Hr x Hx. etransitivity; [exact H|by apply Hr]. Qed.

Lemma yields_bind {X Y} (stX : X -> System) (st : Y -> System) s m k :
  yields stX s m -> (forall x, yields st (stX x) (k x)) -> yields st s (m ≫= k).
Proof. intros Hm Hk y. destruct m as [x|]; [|done]. cbn. intros Hy. etransitivity; [by apply Hm|by apply Hk]. Qed.

(** The same, with what is known of the intermediate result. *)
Lemma yields_bind_eq {X Y} (stX : X -> System) (st : Y -> System) s m k :
  yields stX s m -> (forall x, m = Some x -> yields st (stX x) (k x)) -> yields st s (m ≫= k).
Proof. intros Hm Hk y. destruct m as [x|]; [|done]. cbn. intros Hy. etransitivity; [by apply Hm|by apply Hk]. Qed.

(** A load or a store of the kernel's own state. *)
Lemma yields_own {X Y} (st : Y -> System) s (m : option X) k : (forall x, yields st s (k x)) -> yields st s (m ≫= k).
Proof. intros Hk. destruct m; [apply Hk|done]. Qed.

Lemma runs_log code timestamp value s : runs s (sys_log code timestamp value s).
Proof. intros s'. apply does_log. Qed.
Lemma runs_timer_stop tid s : runs s (timer_stop env tid s).
Proof. intros s'. apply does_timer_stop. Qed.
Lemma gives_transition target s : gives s (transitionTo target s).
Proof. intros [b s']. apply does_transition. Qed.

Lemma runs_transition target s : runs s ('(_, s) ← transitionTo target s; Some s).
Proof. eapply yields_bind; [apply gives_transition|]. intros [b s1]. by apply yields_ret. Qed.

#[local] Hint Resolve does_refl does_timer_start does_own does_put_timer yields_none runs_log runs_timer_stop gives_transition runs_transition : core.
#[local] Hint Extern 1 (yields _ _ (Some _)) => apply yields_ret; cbn [id snd] : core.
#[local] Hint Extern 1 (performs _ _ _) => constructor : core.
#[local] Hint Extern 1 (Q _) => first [by apply init_call|apply tick_call; by cbn|by apply abort_call|by apply loop_call] : core.
#[local] Hint Extern 1 (does _ (emit _ _)) => apply does_call : core.

(** Name a state on the way. *)
Local Tactic Notation "via" constr(e) ident(s') := eapply (yields_before _ _ e); [|generalize e; intros s'].

(** Read the clock. *)
Local Tactic Notation "clock" ident(n) ident(s') :=
  lazymatch goal with
  | |- context [sys_now env ?s] =>
      let E := fresh in destruct (sys_now env s) as [n s'] eqn:E; eapply yields_before; [by eapply does_now|]; clear E
  end.

(** ** [init] and [tick] *)

Lemma runs_init_tasks `{!Inits} tasks t n s : runs s (init_tasks env tasks t n s).
Proof.
  revert t s. induction n as [|n IH]; intros t s; cbn [init_tasks]; [auto|].
  apply yields_own. intros [tid|]; [|apply IH]. eapply yields_before; [|apply IH]. auto.
Qed.

Lemma runs_init_core `{!Inits} coreId s : runs s (init_core env coreId s).
Proof.
  unfold init_core. apply yields_own. intros core. eapply (yields_bind id); [apply runs_init_tasks|]. intros s2.
  via (match cd_mode core, cd_crunchTask core with
       | CRUNCH, Some tid => emit (CallInit tid) (on_shared (env_init env tid) s2) | _, _ => s2 end) s3.
  { repeat case_match; auto. }
  case_decide; [apply runs_init_tasks|auto].
Qed.

Lemma runs_sys_init `{!Inits} coreId s : runs s (sys_init env coreId s).
Proof.
  unfold sys_init. case_match; [auto|]. case_decide; [auto|].
  eapply (yields_bind id); [by case_decide; auto|]. intros s1. eapply (yields_bind id); [apply runs_init_core|]. intros s4.
  eapply (yields_bind id); [by case_decide; auto|]. intros s5. apply yields_own. auto.
Qed.

Lemma gives_period_gate tid coreId t now s : gives s (period_gate env tid coreId t now s).
Proof.
  unfold period_gate. destruct (_ && _); [|auto]. do 2 (apply yields_own; intros ?). case_decide; [auto|].
  do 2 (apply yields_own; intros ?). auto.
Qed.

Lemma runs_deadline_check P tid now `{!Ticks P now} s : P tid -> runs s (deadline_check env tid now s).
Proof.
  intros Hp. unfold deadline_check. case_match; [|auto]. case_decide; [|auto].
  via (put_timer tid (recordDeadlineMiss (task_timer tid s)) s) s1; [by apply does_put_timer|].
  eapply (yields_bind id); [auto|]. intros s2. auto.
Qed.

(** A call between the readings of its timer. *)
Lemma yields_timed {X} (st : X -> System) c f tid s k :
  Q c -> (forall h, performs (Called c) h (f h)) -> (forall s1, yields st s1 (k s1)) ->
  yields st s (s1 ← timer_stop env tid (emit c (on_shared f (timer_start env tid s))); k s1).
Proof.
  intros Hq Hc Hk. eapply yields_before; [|eapply (yields_bind id); [apply runs_timer_stop|exact Hk]].
  etransitivity; [apply does_timer_start|]. by apply does_call.
Qed.

Lemma gives_tick_slot P tasks coreId t now `{!Ticks P now} busy s :
  (forall tid, tasks !! t = Some (Some tid) -> P tid) -> gives s (tick_slot env tasks coreId t now busy s).
Proof.
  intros Hp. unfold tick_slot, load. destruct (tasks !! t) as [[tid|]|]; cbn [mbind option_bind]; [|auto..]. specialize (Hp tid eq_refl). eapply yields_bind; [by apply gives_period_gate|].
  intros [go s1]. cbn [snd]. destruct go; cbn [negb]; [|auto]. apply yields_timed; [auto|constructor|]. intros s2.
  eapply (yields_bind id); [by apply (runs_deadline_check P)|]. auto.
Qed.

Lemma gives_tick_slots P tasks coreId t n now `{!Ticks P now} busy s :
  (forall k tid, t <= k < t + n -> tasks !! k = Some (Some tid) -> P tid) -> gives s (tick_slots env tasks coreId t n now busy s).
Proof.
  revert t busy s. induction n as [|n IH]; intros t busy s Hp; cbn [tick_slots]; [auto|].
  eapply yields_bind; [apply (gives_tick_slot P); [done|intros tid; apply Hp; lia]|]. intros [busy1 s1]. apply IH.
  intros k tid Hk. apply Hp. lia.
Qed.

Lemma gives_tick_background P i n gapBudget used now `{!Ticks P now} s : gives s (tick_background env i n gapBudget used now s).
Proof.
  revert i used s. induction n as [|n IH]; intros i used s; cbn [tick_background]; [auto|].
  apply yields_own. intros bg. via (set_bgRoundRobin ((sy_bgRoundRobin s + 1) mod sy_backgroundTaskCount s) s) s1; [auto|].
  destruct bg as [tid|]; [|apply IH]. case_decide; [auto|]. apply yields_timed; [auto|constructor|]. intros s2. apply IH.
Qed.

Lemma runs_tick_enter coreId now s : runs s (tick_enter coreId now s).
Proof.
  unfold tick_enter. apply yields_own. intros last. eapply (yields_bind id); [by case_decide; auto|]. intros s1.
  do 3 (apply yields_own; intros ?). auto.
Qed.

Lemma runs_tick_leave coreId now busy s : runs s (tick_leave env coreId now busy s).
Proof.
  unfold tick_leave. clock tickEnd s1. do 2 (apply yields_own; intros ?). set (s2 := set_utilTracker _ s1).
  eapply (yields_before _ _ s2); [auto|]. clearbody s2.
  match goal with |- context [recordGap ?g _ _] => generalize g; intros gap end.
  via (set_schedulerHealth (recordGap gap tickEnd (sy_schedulerHealth s2)) s2) s3; [apply does_record_gap|].
  case_decide; auto.
Qed.

Lemma tick_enter_cores coreId now s s' : tick_enter coreId now s = Some s' -> sy_cores s' = sy_cores s.
Proof. unfold tick_enter, sys_log. intros H. by repeat (case_decide || simplify_option_eq). Qed.

Lemma runs_sys_tick P coreId now `{!Ticks P now} s :
  (forall core tid, sy_cores s !! coreId = Some core -> Some tid ∈ registered core -> P tid) -> runs s (sys_tick env coreId now s).
Proof.
  intros Hp. unfold sys_tick. case_match; [auto|]. case_decide; [auto|]. eapply (yields_bind_eq id); [by apply runs_tick_enter|].
  intros s1 E1%tick_enter_cores. unfold load. rewrite E1. destruct (sy_cores s !! coreId) as [core|] eqn:Hc; cbn [mbind option_bind id]; [|auto].
  eapply yields_bind.
  { apply (gives_tick_slots P); [done|]. intros k tid Hk Ht. eapply Hp; [done|]. apply list_elem_of_lookup. exists k.
    unfold registered. by rewrite lookup_take_lt by lia. }
  intros [busy s2]. cbn [snd].
  eapply (yields_bind snd); [|intros [busy' s3]; apply runs_tick_leave].
  case_decide; [|auto]. eapply yields_bind; [by apply (gives_tick_background P)|]. intros [used s3]. auto.
Qed.

(** ** The loops *)

Lemma gives_stop_conditions conds i n s :
  (forall k f, i <= k < i + n -> conds !! k = Some (Some f) -> A f) -> gives s (stop_conditions env conds i n s).
Proof.
  revert i s. induction n as [|n IH]; intros i s Ha; cbn [stop_conditions]; [auto|]. unfold load.
  destruct (conds !! i) as [[f|]|] eqn:E; cbn [mbind option_bind]; [| |done].
  2: { apply IH. intros k f Hk. apply Ha. lia. }
  pose proof (does_event (Asked f) (fun h => (env_stopCondition env f h).2) s I (Ha i f ltac:(lia) E) (PAsked f (sy_shared s))) as H.
  unfold on_shared in H. destruct (env_stopCondition env f (sy_shared s)) as [fired h].
  eapply yields_before; [exact H|]. destruct fired; [auto|]. apply IH. intros k g Hk. apply Ha. lia.
Qed.

(** The conditions asked are registered ones. *)
Lemma gives_stops s : (forall f, Some f ∈ sy_stopConditions s -> A f) -> gives s (anyStopConditionFired env s).
Proof. intros Ha. apply gives_stop_conditions. intros k f _ Hf. apply Ha. by eapply list_elem_of_lookup_2. Qed.

Lemma gives_asked `{!Asks} s : gives s (anyStopConditionFired env s).
Proof. apply gives_stops. intros f _. apply ask. Qed.

Lemma runs_soft_abort `{!Aborts} s : runs s (soft_abort env s).
Proof.
  unfold soft_abort. apply yields_own. intros tid.
  via (emit (CallCrunchAbort tid) (on_shared (env_onCrunchAbort env tid) s)) s1; [auto|]. clock now s2. auto.
Qed.

Lemma runs_crunch_kick coreId now s : runs s (crunch_kick env coreId now s).
Proof.
  unfold crunch_kick. destruct (kick coreId now _) as [w|] eqn:E; [|done]. cbn [mbind option_bind].
  via (on_shared (set_watchdog w) s) s1.
  { apply does_shared, kernel_only; [by split|done|]. intros [? ? [H1 H2] ? ? ?]. split; try done. cbn. unfold kick in E. simplify_option_eq.
    unfold store in *. simplify_option_eq. by rewrite !length_insert. }
  apply yields_ret. case_match; [|auto]. by apply (does_event Kicked); [|constructor|constructor].
Qed.

Lemma gives_crunch_overrun `{!Aborts} tid now elapsed s : gives s (crunch_overrun env tid now elapsed s).
Proof.
  unfold crunch_overrun. case_decide; [|auto]. set (s1 := set_crunch _ s). eapply (yields_before _ _ s1); [auto|].
  eapply (yields_bind id); [auto|]. intros s2. case_decide; [|auto].
  via (emit (CallCrunchAbort tid) (on_shared (env_onCrunchAbort env tid) s2)) s3; [auto|].
  eapply (yields_bind id); auto.
Qed.

(** An iteration behind its check of the abort flag and its first reading of the clock. *)
Definition crunch_dispatch (coreId : nat) (now : Z) s : option (bool * System) :=
  s ← crunch_kick env coreId now s;
  let '(start, s) := sys_now env s in
  tid ← m_task (sy_crunch s);
  let s := on_shared (env_crunch env tid now) s in
  let '(stop, s) := sys_now env s in
  let elapsed := u64 (stop - start) in
  crunch_overrun env tid now elapsed (emit (CallCrunch coreId tid now elapsed) s).

(** The call of [crunch] is noted after the clock is read behind it. *)
Lemma gives_crunch_dispatch `{!Aborts} coreId now s :
  (forall tid elapsed, Q (CallCrunch coreId tid now elapsed)) -> gives s (crunch_dispatch coreId now s).
Proof.
  intros Hq. unfold crunch_dispatch. eapply (yields_bind id); [by apply runs_crunch_kick|]. intros s2.
  clock start s3. apply yields_own. intros tid.
  destruct (sys_now env (on_shared (env_crunch env tid now) s3)) as [stop s4] eqn:E.
  eapply yields_before; [|apply gives_crunch_overrun]. apply now_between in E as (Hk & Ht & He).
  split; [exact Hk|]. exists [Called (CallCrunch coreId tid now (u64 (stop - start)))]. split; [cbn; by rewrite Ht|].
  split; [constructor; [apply Hq|done]|]. eapply EEvent; [constructor|by apply effect_between].
Qed.

Lemma gives_crunch_iteration `{!Loops} coreId s : gives s (crunch_iteration env coreId s).
Proof.
  unfold crunch_iteration. case_match; [eapply (yields_bind id); [by apply runs_soft_abort|auto]|].
  clock now s1. apply gives_crunch_dispatch. intros tid elapsed. by apply loop_call.
Qed.

Lemma gives_crunch_loop `{!Loops, !Asks} fuel coreId s : gives s (crunch_loop env fuel coreId s).
Proof.
  revert s. induction fuel as [|fuel IH]; intros s; cbn [crunch_loop]; [auto|]. case_match; [|auto].
  eapply yields_bind; [by apply gives_asked|]. intros [fired s1]. cbn [snd]. destruct fired; [auto|].
  eapply yields_bind; [by apply gives_crunch_iteration|]. intros [go s2]. cbn [snd]. destruct go; [apply IH|auto].
Qed.

Lemma gives_runLoop `{!Loops, !Asks} fuel coreId s : gives s (runLoop env fuel coreId s).
Proof.
  unfold runLoop. via (set_crunch (set_overruns 0 0 (sy_crunch s)) s) s1; [auto|].
  case_match; [eapply (yields_bind id); [by apply runs_soft_abort|auto]|apply gives_crunch_loop].
Qed.

Lemma gives_flat_loop `{!Loops, !Asks} fuel coreId s : gives s (flat_loop env fuel coreId s).
Proof.
  revert s. induction fuel as [|fuel IH]; intros s; cbn [flat_loop]; [auto|]. case_match; [|auto].
  eapply yields_bind; [by apply gives_asked|]. intros [fired s1]. cbn [snd]. destruct fired; [auto|].
  clock now s2. eapply (yields_bind id); [apply (runs_sys_tick (fun _ => True)); [apply _|done]|]. intros s3. apply IH.
Qed.

Lemma gives_run_dispatch `{!Loops, !Asks} fuel coreId s : gives s (run_dispatch env fuel coreId s).
Proof.
  unfold run_dispatch. apply yields_own. intros core. repeat case_match; try apply gives_flat_loop.
  eapply yields_before; [|apply gives_runLoop]. auto.
Qed.

Lemma runs_shutdown s : runs s (run_shutdown s).
Proof. unfold run_shutdown. eapply (yields_bind id); [by case_decide; auto|]. intros s1. case_decide; auto. Qed.

(** ** The barriers *)

#[local] Existing Instance sys_sync.

(** Nothing but the other cores' steps. *)
Definition quiet h h' : Prop := exists es, calls_of es = [] /\ Forall allowed es /\ effect es h h'.

Lemma quiet_refl h : quiet h h.
Proof. exists []. split_and!; [done|done|constructor]. Qed.

Lemma quiet_trans h1 h2 h3 : quiet h1 h2 -> quiet h2 h3 -> quiet h1 h3.
Proof.
  intros (e1 & C1 & A1 & E1) (e2 & C2 & A2 & E2). exists (e1 ++ e2). rewrite calls_of_app, C1, C2.
  split_and!; [done|by apply Forall_app_2|by eapply effect_app].
Qed.

Lemma quiet_step h h' : between h h' -> quiet h h'.
Proof. intros H. exists []. split_and!; [done|done|by apply effect_between]. Qed.

Lemma quiet_setState st coreId h h' : setState (SyncHost0 := sys_sync env) st coreId h = Some h' -> quiet h h'.
Proof.
  unfold setState. destruct (store _ _ _) as [l|] eqn:E; [|done]. intros [= <-]. apply quiet_step, kernel_only; [by split|done|].
  intros [? ? ? ? ? ?]. split; try done. cbn in *. unfold store in E. simplify_option_eq. by rewrite length_insert.
Qed.

Lemma quiet_setError coreId reason h h' : setError (SyncHost0 := sys_sync env) coreId reason h = Some h' -> quiet h h'.
Proof.
  unfold setError. destruct (setState _ _ _) as [h1|] eqn:E; [|done]. intros [= <-]. by eapply quiet_setState.
Qed.

Section waits.
Context {Hwaits : Waits}.

Lemma quiet_peers ms h : quiet h (env_peers env ms h).
Proof. exists [Peers ms]. split; [done|]. split; [by constructor|]. apply effect_event. constructor. Qed.

Lemma quiet_load i h c h' : coreState (SyncHost0 := sys_sync env) i h = Some (c, h') -> quiet h h'.
Proof. unfold coreState. destruct (load _ _); [|done]. intros [= _ <-]. apply quiet_peers. Qed.

Lemma quiet_anyError i n h b h' : anyError (SyncHost0 := sys_sync env) i n h = Some (b, h') -> quiet h h'.
Proof.
  revert i h. induction n as [|n IH]; intros i h; cbn [anyError]; [intros [= _ <-]; apply quiet_refl|].
  destruct (coreState i h) as [[c h1]|] eqn:E; cbn [mbind option_bind]; [|done]. apply quiet_load in E.
  case_decide; [by intros [= _ <-]|]. intros Hr%IH. by eapply quiet_trans.
Qed.

Lemma quiet_allInState st i n h b h' : allInState (SyncHost0 := sys_sync env) st i n h = Some (b, h') -> quiet h h'.
Proof.
  revert i h. induction n as [|n IH]; intros i h; cbn [allInState]; [intros [= _ <-]; apply quiet_refl|].
  destruct (coreState i h) as [[c h1]|] eqn:E; cbn [mbind option_bind]; [|done]. apply quiet_load in E.
  case_decide; [by intros [= _ <-]|]. intros Hr%IH. by eapply quiet_trans.
Qed.

Lemma quiet_allTerminated i n h b h' : allTerminated (SyncHost0 := sys_sync env) i n h = Some (b, h') -> quiet h h'.
Proof.
  revert i h. induction n as [|n IH]; intros i h; cbn [allTerminated]; [intros [= _ <-]; apply quiet_refl|].
  destruct (coreState i h) as [[c h1]|] eqn:E; cbn [mbind option_bind]; [|done]. apply quiet_load in E.
  case_decide; [by intros [= _ <-]|]. intros Hr%IH. by eapply quiet_trans.
Qed.

Lemma quiet_poll ms h h' : quiet (env_peers env ms h) h' -> quiet h h'.
Proof. intros Hq. eapply quiet_trans; [apply quiet_peers|exact Hq]. Qed.

Lemma quiet_startup fuel n coreId timeout poll elapsed h b h' :
  startup_loop (SyncHost0 := sys_sync env) fuel n coreId timeout poll elapsed h = Some (b, h') -> quiet h h'.
Proof.
  revert elapsed h. induction fuel as [|fuel IH]; intros elapsed h H; cbn [startup_loop] in H; destruct (decide _).
  - injection H as _ <-. apply quiet_refl.
  - destruct (setError _ _ _) as [h1|] eqn:E; [|done]. injection H as _ <-. by eapply quiet_setError.
  - destruct (anyError _ _ _) as [[err h1]|] eqn:E1; cbn [mbind option_bind] in H; [|done]. apply quiet_anyError in E1.
    eapply quiet_trans; [exact E1|]. destruct err.
    + destruct (setError _ _ _) as [h2|] eqn:E; [|done]. injection H as _ <-. by eapply quiet_setError.
    + destruct (allInState _ _ _ _) as [[all h2]|] eqn:E2; cbn [mbind option_bind] in H; [|done]. apply quiet_allInState in E2.
      eapply quiet_trans; [exact E2|]. destruct all; [injection H as _ <-; apply quiet_refl|]. apply IH in H. by eapply quiet_poll.
  - destruct (setError _ _ _) as [h1|] eqn:E; [|done]. injection H as _ <-. by eapply quiet_setError.
Qed.

Lemma quiet_shutdown fuel n timeout poll elapsed h b h' :
  shutdown_loop (SyncHost0 := sys_sync env) fuel n timeout poll elapsed h = Some (b, h') -> quiet h h'.
Proof.
  revert elapsed h. induction fuel as [|fuel IH]; intros elapsed h H; cbn [shutdown_loop] in H; destruct (decide _).
  - injection H as _ <-. apply quiet_refl.
  - injection H as _ <-. apply quiet_refl.
  - destruct (allTerminated _ _ _) as [[all h1]|] eqn:E1; cbn [mbind option_bind] in H; [|done]. apply quiet_allTerminated in E1.
    eapply quiet_trans; [exact E1|]. destruct all; [injection H as _ <-; apply quiet_refl|]. apply IH in H. by eapply quiet_poll.
  - injection H as _ <-. apply quiet_refl.
Qed.
End waits.

Lemma does_quiet s h : quiet (sy_shared s) h -> does s (set_shared h s).
Proof. intros (es & C & Ha & He). split; [done|]. exists es. by rewrite C, app_nil_r. Qed.

Lemma runs_setInit coreId s : runs s (sync_setInit env coreId s).
Proof.
  unfold sync_setInit. destruct (kMultiCore env); [|auto]. intros s' H.
  destruct (setInit coreId (sy_shared s)) as [h|] eqn:E; [|done]. injection H as <-. apply does_quiet. by eapply quiet_setState.
Qed.

Lemma runs_barrier (barrier : SyncHost Shared -> nat -> nat -> nat -> Z -> Z -> Shared -> option (option bool * Shared)) coreId s :
  (forall h b h', barrier (sys_sync env) 2000 (kCoreCount env) coreId 2000%Z 1%Z h = Some (b, h') -> quiet h h') ->
  runs s (sync_barrier env barrier coreId s).
Proof.
  intros Hb. unfold sync_barrier. destruct (kMultiCore env); [|auto]. intros s' H.
  destruct (barrier _ _ _ _ _ _ _) as [[[b|] h]|] eqn:E; [|done..]. injection H as <-. by eapply does_quiet, Hb.
Qed.

Lemma runs_startup {Hwaits : Waits} coreId s : runs s (sync_barrier env (@startupBarrier _) coreId s).
Proof.
  apply runs_barrier. intros h b h'. unfold startupBarrier. destruct (setReady coreId h) as [h1|] eqn:E; [|done].
  cbn [mbind option_bind]. intros H. eapply quiet_trans; [by eapply quiet_setState|by eapply quiet_startup].
Qed.

Lemma runs_shutdown_barrier {Hwaits : Waits} coreId s : runs s (sync_barrier env (@shutdownBarrier _) coreId s).
Proof.
  apply runs_barrier. intros h b h'. unfold shutdownBarrier. destruct (setShutdown coreId h) as [h1|] eqn:E; [|done].
  cbn [mbind option_bind]. intros H. eapply quiet_trans; [by eapply quiet_setState|by eapply quiet_shutdown].
Qed.

(** ** [run] *)

Lemma gives_sys_run `{!Inits, !Loops, !Asks} {Hwaits : Waits} fuel coreId s : gives s (sys_run env fuel coreId s).
Proof.
  unfold sys_run. case_match; [auto|]. case_decide; [auto|]. eapply (yields_bind id); [by apply runs_setInit|]. intros s1.
  apply yields_own. intros initialized. eapply (yields_bind id); [destruct initialized; [auto|apply runs_sys_init]|]. intros s2.
  eapply (yields_bind id); [by apply runs_startup|]. intros s3. eapply yields_bind; [by apply gives_run_dispatch|].
  intros [fin s4]. cbn [snd]. destruct fin; [|auto]. eapply (yields_bind id); [by apply runs_shutdown|]. intros s5.
  eapply (yields_bind id); [by apply runs_shutdown_barrier|]. auto.
Qed.
End effects.

(** Every call; the calls of [init]; the calls of a loop. *)
Definition any (c : call) : Prop := True.
Definition is_init (c : call) : Prop := exists tid, c = CallInit tid.
Definition in_loop (c : call) : Prop := ~ is_init c.
Definition at_time (now : Z) (c : call) : Prop := in_loop c /\ forall t, call_time c = Some t -> t = now.

#[export] Instance any_inits : Inits any.
Proof. done. Qed.
#[export] Instance any_loops : Loops any.
Proof. done. Qed.
#[export] Instance any_ticks P now : Ticks any P now.
Proof. done. Qed.
#[export] Instance init_inits : Inits is_init.
Proof. intros tid. by exists tid. Qed.
#[export] Instance time_aborts now : Aborts (at_time now).
Proof. intros tid. split; [by intros [? ?]|done]. Qed.
#[export] Instance loop_loops : Loops in_loop.
Proof. intros c Hc [tid ->]. by eapply Hc. Qed.
#[export] Instance time_ticks P now : Ticks (at_time now) P now.
Proof.
  intros c Hc. split; [by intros [tid ->]|]. intros t Ht. destruct c; try done; cbn in *; destruct_and?; congruence.
Qed.

(** ** A relation that every action is within *)

Section within.
Context {W : Type} (env : Env W) (R : Shared W -> Shared W -> Prop).

(** Every callback moves the shared state along [R]. *)
Record env_within : Prop := {
  ew_init tid h : R h (env_init env tid h);
  ew_tick tid now h : R h (env_tick env tid now h);
  ew_overrun tid a w h : R h (env_onOverrun env tid a w h);
  ew_crunch tid now h : R h (env_crunch env tid now h);
  ew_abort tid h : R h (env_onCrunchAbort env tid h);
  ew_stop f h : R h (env_stopCondition env f h).2;
  ew_kick h : R h (env_watchdogKick env h);
  ew_peers ms h : R h (env_peers env ms h);
}.

Context `{!PreOrder R} (Hkernel : forall h h', untouched h h' -> R h h').

Lemma performs_within e h h' : env_within -> performs env e h h' -> R h h'.
Proof.
  intros Hw Hp. destruct Hp; [apply (ew_init Hw)|apply (ew_tick Hw)|apply (ew_tick Hw)|apply (ew_overrun Hw)|apply (ew_crunch Hw)|apply (ew_abort Hw)|
    apply (ew_stop Hw)|apply (ew_kick Hw)|apply (ew_peers Hw)].
Qed.

Lemma effect_within es h h' : env_within -> effect env es h h' -> R h h'.
Proof.
  intros Hw He. induction He as [h|h h1 h2 es Hb He IH|e h h1 h2 es Hp He IH]; [done| |]; etransitivity; [|exact IH| |exact IH].
  - apply Hkernel, Hb.
  - by eapply performs_within.
Qed.

(** The moment of one event. *)
Lemma effect_at e es h h' :
  env_within -> effect env es h h' -> e ∈ es -> exists h1 h2, R h h1 /\ performs env e h1 h2 /\ R h2 h'.
Proof.
  intros Hw He. induction He as [h|h h1 h2 es Hb He IH|e' h h1 h2 es Hp He IH]; intros Hc.
  - by apply not_elem_of_nil in Hc.
  - destruct (IH Hc) as (ha & hb & H1 & H2 & H3). exists ha, hb. split; [|done]. etransitivity; [apply Hkernel, Hb|exact H1].
  - apply elem_of_cons in Hc as [->|Hc].
    + exists h, h1. split; [done|]. split; [done|]. by eapply effect_within.
    + destruct (IH Hc) as (ha & hb & H1 & H2 & H3). exists ha, hb. split; [|done]. etransitivity; [by eapply performs_within|exact H1].
Qed.

End within.

Lemma with_task_within {W} (env : Env W) R `{!PreOrder R} t desc init tick :
  env_within env R -> (forall h, R h (init h)) -> (forall now h, R h (tick now h)) ->
  env_within (with_task env t desc init tick) R.
Proof. intros [W1 W2 W3 W4 W5 W6 W7 W8] Hi Ht. split; intros; simpl; try case_decide; auto. reflexivity. Qed.

(** ** The calls of a whole run *)

Section phases.
Context {W : Type} (env : Env W).

Definition reads_within (h h' : Shared W) : Prop := sh_reads h <= sh_reads h'.

#[export] Instance reads_within_preorder : PreOrder reads_within.
Proof. split; [intros h; unfold reads_within; lia|intros h1 h2 h3; unfold reads_within; lia]. Qed.

Hypothesis Henv : env_ok env.

Lemma performs_ok e h h' : performs env e h h' -> exists f, callback_ok env f /\ h' = f h.
Proof.
  destruct Henv as [E1 E2 _ E3 E4 E5 E6 E7 E8]. destruct 1 as [tid h|core slot tid now h|tid now h|tid a w h|core tid now e h|tid h|f h|h|ms h].
  - by exists (env_init env tid).
  - by exists (env_tick env tid now).
  - by exists (env_tick env tid now).
  - by exists (env_onOverrun env tid a w).
  - by exists (env_crunch env tid now).
  - by exists (env_onCrunchAbort env tid).
  - by exists (fun h => (env_stopCondition env f h).2).
  - by exists (env_watchdogKick env).
  - by exists (env_peers env ms).
Qed.

Lemma effect_reads es h h' : effect env es h h' -> sh_reads h <= sh_reads h'.
Proof.
  intros He. induction He as [h|h h1 h2 es Hb He IH|e h h1 h2 es Hp He IH]; [lia| |].
  - pose proof (be_reads _ _ _ Hb). lia.
  - apply performs_ok in Hp as (f & Hf & ->). pose proof (cb_reads _ _ Hf h). lia.
Qed.

Lemma effect_ok es h h' : effect env es h h' -> shared_ok env h -> shared_ok env h'.
Proof.
  intros He. induction He as [h|h h1 h2 es Hb He IH|e h h1 h2 es Hp He IH]; intros Hh; [done| |]; apply IH.
  - by apply (be_ok _ _ _ Hb).
  - apply performs_ok in Hp as (f & Hf & ->). by apply (cb_shared _ _ Hf).
Qed.

(** The time of a reading of the clock. *)
Definition time_of (s : System W) (n : nat) : Z := nowMicros (sy_timer s) (env_clock env n).

(** The times in a list of calls do not go back, and lie between two readings. *)
Definition timely (s : System W) (lo hi : nat) (calls : list call) : Prop :=
  StronglySorted Z.le (omap call_time calls) /\
  Forall (fun t => exists n, lo <= n < hi /\ t = time_of s n) (omap call_time calls).

(** The first [hi] readings do not go back. *)
Definition clock_rises (s : System W) (hi : nat) : Prop := forall n m, n <= m < hi -> (time_of s n <= time_of s m)%Z.

Lemma timely_app s lo mid hi c1 c2 :
  clock_rises s hi -> lo <= mid <= hi -> timely s lo mid c1 -> timely s mid hi c2 -> timely s lo hi (c1 ++ c2).
Proof.
  intros Hclock Hm [S1 T1] [S2 T2]. unfold timely. rewrite omap_app. split.
  - apply StronglySorted_app; split_and!; [|done|done]. intros x y Hx Hy. rewrite Forall_forall in T1, T2.
    destruct (T1 x Hx) as (n & Hn & ->). destruct (T2 y Hy) as (m & Hm' & ->). apply Hclock. lia.
  - apply Forall_app_2; (eapply Forall_impl; [eassumption|]); intros t (n & Hn & ->); exists n; (split; [lia|done]).
Qed.

Lemma at_time_timely s n lo hi calls :
  lo <= n < hi -> Forall (at_time (time_of s n)) calls -> timely s lo hi calls.
Proof.
  intros Hn Hc. unfold timely. induction Hc as [|c calls [_ Ht] Hc IH]; [by repeat constructor|]. cbn.
  destruct (call_time c) as [t|] eqn:E; [|exact IH]. destruct IH as [IH1 IH2]. rewrite (Ht t eq_refl) in *. split; [|by constructor; [exists n|]].
  constructor; [done|]. clear -Hc. induction Hc as [|c calls [_ Ht] Hc IH]; [constructor|]. cbn.
  destruct (call_time c) as [t|] eqn:E; [|exact IH]. constructor; [|exact IH]. rewrite (Ht t eq_refl). done.
Qed.

(** The events of a dispatch loop, with the clock in front of its calls. *)
Section loops.
Context (A : nat -> Prop) (peers : bool).
Abbreviation allowed := (allowed A peers).

Definition loops (s s' : System W) : Prop :=
  sy_timer s' = sy_timer s /\ exists es, sy_trace s' = sy_trace s ++ calls_of es /\ Forall (allowed in_loop) es /\
    effect env es (sy_shared s) (sy_shared s') /\
    (st_source (sy_timer s) = true -> clock_rises s (sh_reads (sy_shared s')) ->
     timely s (sh_reads (sy_shared s)) (sh_reads (sy_shared s')) (calls_of es)).

Lemma timely_timer s s' lo hi calls : sy_timer s' = sy_timer s -> timely s' lo hi calls -> timely s lo hi calls.
Proof. intros E. unfold timely, time_of. by rewrite E. Qed.

Lemma allowed_impl (Q Q' : call -> Prop) es : (forall c, Q c -> Q' c) -> Forall (allowed Q) es -> Forall (allowed Q') es.
Proof. intros H He. eapply Forall_impl; [exact He|]. intros []; cbn; auto. Qed.

Lemma allowed_calls (Q : call -> Prop) es : Forall (allowed Q) es -> Forall Q (calls_of es).
Proof. unfold calls_of. induction 1 as [|[] es He _ IH]; cbn; [done|by constructor|exact IH..]. Qed.

Lemma no_calls es : Forall (allowed (fun _ => False)) es -> calls_of es = [].
Proof. intros H%allowed_calls. by destruct H. Qed.

Lemma quiet_loops s s' : does env A peers (fun _ => False) s s' -> loops s s'.
Proof.
  intros (Hk & es & Ht & Hq & He). split; [done|]. exists es. split; [done|]. split; [by eapply allowed_impl; [|exact Hq]|]. split; [done|].
  intros _ _. rewrite (no_calls _ Hq). by repeat constructor.
Qed.

Lemma loops_trans s1 s2 s3 : loops s1 s2 -> loops s2 s3 -> loops s1 s3.
Proof.
  intros (K1 & c1 & T1 & Q1 & E1 & Y1) (K2 & c2 & T2 & Q2 & E2 & Y2). split; [congruence|]. exists (c1 ++ c2).
  rewrite T2, T1, calls_of_app, app_assoc. split; [done|]. split; [by apply Forall_app_2|]. split; [by eapply effect_app|]. intros Hs Hc.
  apply effect_reads in E1, E2. apply (timely_app _ _ (sh_reads (sy_shared s2))); [done|done| |].
  - apply Y1; [done|]. intros n m Hn. apply Hc. lia.
  - eapply timely_timer; [exact K1|]. apply Y2; [congruence|]. unfold clock_rises, time_of in *. by rewrite K1.
Qed.

(** The clock is read, and what follows is at that time. *)
Lemma clocked_loops s1 s2 s3 now : sys_now env s1 = (now, s2) -> does env A peers (at_time now) s2 s3 -> loops s1 s3.
Proof.
  intros E2 (K3 & es & T3 & Q3 & H3). pose proof (now_between env _ _ _ E2) as (K2 & T2 & B2). unfold sys_now in E2.
  split; [congruence|]. exists es. split; [by rewrite T3, T2|].
  split; [eapply allowed_impl; [|exact Q3]; by intros c [? _]|]. split; [by eapply EBetween|]. intros Hs _.
  rewrite Hs in E2. injection E2 as <- <-. apply effect_reads in H3. cbn in H3. apply allowed_calls in Q3. eapply at_time_timely; [|exact Q3]. lia.
Qed.

(** Calls without a time. *)
Lemma untimed_loops s s' : does env A peers (fun c => in_loop c /\ call_time c = None) s s' -> loops s s'.
Proof.
  intros (Hk & es & Ht & Hq & He). split; [done|]. exists es. split; [done|]. split; [eapply allowed_impl; [|exact Hq]; by intros c [? _]|].
  split; [done|]. intros _ _. assert (E : omap call_time (calls_of es) = []).
  { apply allowed_calls in Hq. clear -Hq. induction Hq as [|c calls [_ Hc] _ IH]; [done|]. cbn. by rewrite Hc. }
  unfold timely. rewrite E. by repeat constructor.
Qed.

Lemma flat_turn_loops coreId s now s1 s2 : sys_now env s = (now, s1) -> sys_tick env coreId now s1 = Some s2 -> loops s s2.
Proof. intros E1 E2. eapply clocked_loops; [exact E1|]. by apply (runs_sys_tick env A peers (at_time now) (fun _ => True) coreId now). Qed.

Lemma stops_loops s fired s1 : (forall f, Some f ∈ sy_stopConditions s -> A f) -> anyStopConditionFired env s = Some (fired, s1) -> loops s s1.
Proof. intros Ha E. apply quiet_loops. by apply (gives_stops env A peers (fun _ => False) s Ha (fired, s1)). Qed.

#[local] Instance untimed_aborts : Aborts (fun c => in_loop c /\ call_time c = None).
Proof. intros tid. split; [by intros [? ?]|done]. Qed.

Lemma soft_abort_loops s s' : soft_abort env s = Some s' -> loops s s'.
Proof. intros E. apply untimed_loops. by apply (runs_soft_abort env A peers _ s). Qed.

Lemma crunch_iteration_loops coreId s go s' : crunch_iteration env coreId s = Some (go, s') -> loops s s'.
Proof.
  unfold crunch_iteration. destruct (isSafetyAborted _).
  - destruct (soft_abort env s) as [s3|] eqn:E3; cbn [mbind option_bind]; [|done]. intros [= _ <-]. by apply soft_abort_loops.
  - destruct (sys_now env s) as [now s3] eqn:E3. intros E2. eapply clocked_loops; [exact E3|].
    apply (gives_crunch_dispatch env A peers (at_time now)) in E2; [done|]. intros tid elapsed. split; [by intros [? ?]|]. by intros t [= <-].
Qed.

Lemma flat_loop_loops {Hask : Asks A} fuel coreId s fin s' : flat_loop env fuel coreId s = Some (fin, s') -> loops s s'.
Proof.
  revert s. induction fuel as [|fuel IH]; intros s; cbn [flat_loop]; [intros [= _ <-]; apply quiet_loops, does_refl|].
  destruct (isActiveState _); [|intros [= _ <-]; apply quiet_loops, does_refl].
  destruct (anyStopConditionFired env s) as [[fired s1]|] eqn:E1; cbn [mbind option_bind]; [|done]. apply stops_loops in E1; [|intros f _; apply Hask].
  destruct fired; [by intros [= _ <-]|]. destruct (sys_now env s1) as [now s2] eqn:E2.
  destruct (sys_tick env coreId now s2) as [s3|] eqn:E3; cbn [mbind option_bind]; [|done]. intros E4%IH.
  eapply loops_trans; [exact E1|]. eapply loops_trans; [|exact E4]. by eapply flat_turn_loops.
Qed.
End loops.

Lemma effect_inits A peers s s' calls : does env A peers is_init s s' -> sy_trace s' = sy_trace s ++ calls ->
  exists es, calls_of es = calls /\ Forall is_init calls /\ effect env es (sy_shared s) (sy_shared s').
Proof. intros (_ & es & Ht & Hq & He) Ht'. rewrite Ht in Ht'. apply app_inv_head in Ht' as <-. exists es. split; [done|]. split; [by eapply allowed_calls|done]. Qed.

(** All that a run of one core may do. *)
Abbreviation does_all := (does env (fun _ => True) true).
Abbreviation loops_all := (loops (fun _ => True) true).

#[export] Instance all_asks : Asks (fun _ => True).
Proof. done. Qed.
#[export] Instance all_waits : Waits true.
Proof. done. Qed.

(** A run of a core without crunch task: its initialisations, and then a loop. *)
Lemma run_phases fuel coreId core initialized s :
  sys_wf env s -> sy_built s = true -> coreId < kCoreCount env ->
  sy_cores s !! coreId = Some core -> cd_mode core = FLAT_LOOP -> sy_coreInitialized s !! coreId = Some initialized ->
  sy_kernelState s = RUNNING \/ (initialized = false /\ sy_kernelState s = CONFIGURED) ->
  exists fin s1 s', sys_run env fuel coreId s = Some (fin, s') /\ sy_timer s1 = sy_timer s /\
    sy_trace s1 = sy_trace s ++ startup_calls coreId core initialized s /\ Forall is_init (startup_calls coreId core initialized s) /\
    (exists es, calls_of es = startup_calls coreId core initialized s /\ effect env es (sy_shared s) (sy_shared s1)) /\ loops_all s1 s'.
Proof.
  intros Hwf Hb Hc Hcore Hmode Hi Hk. unfold sys_run. rewrite Hb, decide_False by lia. cbn [negb].
  destruct (sync_setInit_ok env Henv coreId s Hwf Hc) as (s1 & E1 & h1 & -> & Hh1). pose proof (runs_setInit env (fun _ => True) true is_init _ _ _ E1) as D1.
  pose proof (set_shared_wf env h1 s Hwf Hh1) as Hwf1. rewrite E1. cbn [mbind option_bind].
  destruct (run_init_ok env Henv coreId core initialized (set_shared h1 s))
    as (s2 & E2 & Hwf2 & Hk2 & Hc2 & Hb2 & Hbg2 & Ht2); [done..|].
  assert (D2 : does_all is_init (set_shared h1 s) s2).
  { destruct initialized; [injection E2 as <-; apply does_refl|]. by apply (runs_sys_init env _ _ is_init coreId). }
  unfold load in *. simpl in E2 |- *. rewrite Hi in *. cbn [mbind option_bind] in *. rewrite E2. cbn [mbind option_bind].
  destruct (startup_ok env Henv coreId s2 Hwf2 Hc) as (s3 & E3 & h3 & -> & Hh3).
  pose proof (runs_startup env (fun _ => True) true is_init _ _ _ E3) as D3. rewrite E3. cbn [mbind option_bind id] in *.
  pose proof (set_shared_wf env h3 s2 Hwf2 Hh3) as Hwf3. unfold run_dispatch, load. simpl sy_cores. rewrite Hc2. simpl sy_cores.
  rewrite Hcore. cbn [mbind option_bind]. rewrite Hmode.
  destruct (flat_loop_ok env Henv fuel coreId core (set_shared h3 s2)) as (fin & s4 & cs & E4 & Hwf4 & Hk4 & _);
    [done|done|done|simpl; by rewrite Hc2|]. rewrite E4. cbn [mbind option_bind]. apply (flat_loop_loops (fun _ => True) true) in E4.
  assert (D : does_all is_init s (set_shared h3 s2)) by (eapply does_trans; [exact D1|eapply does_trans; [exact D2|exact D3]]).
  assert (Ht : sy_trace (set_shared h3 s2) = sy_trace s ++ startup_calls coreId core initialized s) by exact Ht2.
  destruct (effect_inits _ _ _ _ _ D Ht) as (es & Hes & Q & He).
  assert (Hend : forall s', does_all (fun _ => False) s4 s' -> loops_all (set_shared h3 s2) s').
  { intros s' Hd. eapply loops_trans; [exact E4|by apply quiet_loops]. }
  destruct fin; [|exists false, (set_shared h3 s2), s4; split_and!; [done|apply D|done|done|by exists es|done]].
  destruct (run_shutdown s4) as [s5|] eqn:E5; [|by rewrite (run_shutdown_ok env s4 Hwf4) in E5].
  pose proof (runs_shutdown env (fun _ => True) true (fun _ => False) _ _ E5) as D5. cbn [mbind option_bind id] in *.
  destruct (shutdown_ok env Henv coreId s5) as (s6 & E6 & _); [|done|].
  { rewrite (run_shutdown_ok env s4 Hwf4) in E5. injection E5 as <-. by apply set_kernelState_wf. }
  pose proof (runs_shutdown_barrier env (fun _ => True) true (fun _ => False) _ _ _ E6) as D6. rewrite E6. cbn [mbind option_bind].
  exists true, (set_shared h3 s2), s6. split_and!; [done|apply D|done|done|by exists es|]. apply Hend. eapply does_trans; [exact D5|exact D6].
Qed.
End phases.

(** ** The health totals *)

Section totals.
Context {W : Type} `{!IMutex W, !DiagsHost W} (env : Env W).

(** Where the task object the kernel calls is, there it is put back. *)
Hypothesis Hput : forall d w, the_diags (put_diags d w) = d.

(** The diagnostics task has no metrics, and the totals stay. *)
Definition unwired (h : Shared W) : Prop := dt_schedulerHealth (the_diags (sh_world h)) = false.
Definition keeps_totals (h h' : Shared W) : Prop := unwired h -> unwired h' /\ totals h' = totals h.

#[export] Instance keeps_totals_preorder : PreOrder keeps_totals.
Proof.
  split; [by intros h Hh|]. intros h1 h2 h3 H12 H23 H1. destruct (H12 H1) as [H2 E2]. destruct (H23 H2) as [H3 E3].
  split; [done|congruence].
Qed.

Lemma keeps_totals_kernel h h' : untouched h h' -> keeps_totals h h'.
Proof. intros [_ Hw _ _ _ Ht] Hh. unfold unwired. by rewrite Hw. Qed.

(** Only the task itself computes them. *)
Lemma diag_callback_keeps_totals now h : env_within env keeps_totals -> keeps_totals h (diag_callback env now h).
Proof.
  intros Hw Hh. change (diag_callback env now h) with (diag_callback env 0 h). unfold diag_callback, diag_tick.
  set (d := the_diags (sh_world h)). set (h1 := if dt_watchdogKick d then _ else h).
  assert (E1 : totals h1 = totals h) by (unfold h1; destruct (dt_watchdogKick d); [by apply (ew_kick _ _ Hw)|done]).
  rewrite <- E1. clearbody h1. unfold unwired in *. fold d in Hh. rewrite Hh.
  assert (Hlog : forall c t v (h h' : Shared W), log_error c t v h = Some h' -> totals h' = totals h).
  { intros c t v h2 h3. unfold log_error. destruct (log _ _ _ _); [|done]. by intros [= <-]. }
  assert (Hscan : forall tasks (h h' : Shared W), scan_budgets (dt_controlBudget d) tasks h = Some h' -> totals h' = totals h).
  { intros tasks. induction tasks as [|tid tasks IH]; intros h2 h3; simpl; [by intros [= <-]|].
    destruct (isOverBudget _ _); [|by apply IH]. destruct (log_error _ _ _ h2) eqn:E; [|done].
    intros E3%IH. rewrite E3. by eapply Hlog. }
  destruct (scan_budgets _ _ h1) as [h2|] eqn:E2; cbn [mbind option_bind]; [|by split].
  apply Hscan in E2. rewrite <- E2.
  assert (Hdrain : forall k (h3 h4 : Shared W), totals h3 = totals h2 ->
    (if dt_drain d then drain_lines h3 else Some h3) = Some h4 ->
    let h5 := set_world (put_diags (set_tickCount k d) (sh_world h4)) h4 in
    dt_schedulerHealth (the_diags (sh_world h5)) = false /\ totals h5 = totals h2).
  { intros k h3 h4 E3 E4. cbn [sh_world set_world]. rewrite Hput. split; [exact Hh|]. change (totals (set_world _ h4)) with (totals h4). rewrite <- E3.
    destruct (dt_drain d); [|by injection E4 as <-].
    unfold drain_lines in E4. destruct (drain_loop _ _ _ _) as [[l out]|]; [|done]. by injection E4 as <-. }
  set (k := u32 _). case_decide.
  - destruct (log_error _ _ _ _) as [h3|] eqn:E3; cbn [mbind option_bind]; [|split; [exact Hh|congruence]]. apply Hlog in E3.
    destruct (if dt_drain d then drain_lines h3 else Some h3) as [h4|] eqn:E4; cbn [mbind option_bind]; [|split; [exact Hh|congruence]].
    by apply (Hdrain 0%Z h3 h4).
  - cbn [mbind option_bind].
    destruct (if dt_drain d then drain_lines _ else Some _) as [h4|] eqn:E4; cbn [mbind option_bind]; [|split; [exact Hh|congruence]].
    eapply (Hdrain k _ h4); [|exact E4]. done.
Qed.

Lemma diag_init_keeps_totals h : keeps_totals h (diag_init_callback h).
Proof.
  intros Hh. unfold diag_init_callback, diag_init. set (tasks := dt_monitoredTasks _). unfold unwired in *.
  assert (H : forall h1 : Shared W, sh_world (foldl (fun h tid => put_sh_timer tid (timer_reset (sh_timer tid h)) h) h1 tasks) = sh_world h1 /\
    totals (foldl (fun h tid => put_sh_timer tid (timer_reset (sh_timer tid h)) h) h1 tasks) = totals h1).
  { generalize tasks. intros l. induction l as [|tid l IH]; intros h1; [done|]. cbn [foldl].
    destruct (IH (put_sh_timer tid (timer_reset (sh_timer tid h1)) h1)) as [-> ->]. done. }
  destruct (H (set_memProfiler new_profiler h)) as [-> ->]. done.
Qed.

Lemma snapshot_totals env' (s : Kernel.System W) snap s' : snapshot env' s = Some (snap, s') ->
  (ps_totalOverruns snap, ps_totalDeadlineMisses snap) = totals (sy_shared s).
Proof.
  unfold snapshot. unfold sys_now in *.
  assert (E : forall s1 : Kernel.System W, sy_schedulerHealth (set_shared (set_reads (S (sh_reads (sy_shared s1))) (sy_shared s1)) s1) = sy_schedulerHealth s1) by done.
  intros H. destruct (st_source (sy_timer s)); cbn [read_clock] in H; simplify_option_eq; by repeat case_match; simplify_option_eq.
Qed.
End totals.

(** ** Properties *)

(** C31 The sums of overruns and deadline misses are never computed: [build] gives the diagnostics task
    no health metrics, and a run of a core with that task, among others that leave the sums alone,
    returns with the sums it started with; every snapshot taken behind it reports these. *)
Theorem health_totals_stay {W T : Type} `{!IMutex W, !DiagsHost W} (env : Env W) (cfg : UserConfig) (deps : Dependencies T)
    (dg fuel coreId : nat) (s0 s : System W) (core : CoreData) (initialized : bool) :
  let env' := with_diags env dg in
  (forall d w, the_diags (put_diags d w) = d) -> env_ok env' -> env_within env keeps_totals -> sys_wf env' s -> sy_built s = true ->
  coreId < kCoreCount env -> sy_cores s !! coreId = Some core -> sy_coreInitialized s !! coreId = Some initialized ->
  sy_kernelState s = RUNNING \/ (initialized = false /\ sy_kernelState s = CONFIGURED) -> (Z.of_nat fuel < 2 ^ 32)%Z ->
  the_diags (sh_world (sy_shared s)) = built_diags cfg deps s0 ->
  exists fin s', sys_run env' fuel coreId s = Some (fin, s') /\ totals (sy_shared s') = totals (sy_shared s) /\
    forall snap s2, snapshot env' s' = Some (snap, s2) -> (ps_totalOverruns snap, ps_totalDeadlineMisses snap) = totals (sy_shared s).
Proof.
  intros env' Hput Henv Hwithin Hwf Hb Hc Hcore Hi Hk Hf Hd.
  destruct (sys_run_ok env' Henv fuel coreId core initialized s) as (fin & s' & _ & H & _); [done..|].
  destruct (gives_sys_run env' (fun _ => True) true any fuel coreId s (fin, s') H) as (_ & es & _ & _ & He). exists fin, s'. split; [exact H|].
  assert (Hu : unwired (sy_shared s)) by (unfold unwired; rewrite Hd; unfold built_diags, wire_drain; by destruct (sy_drainFn s0)).
  assert (Hw : env_within env' keeps_totals).
  { apply with_task_within; [apply _|done|apply diag_init_keeps_totals|]. intros now h. by apply diag_callback_keeps_totals. }
  destruct (effect_within env' keeps_totals (fun h h' => keeps_totals_kernel h h') _ _ _ Hw He Hu) as [_ E].
  split; [exact E|]. intros snap s2 Hs. cbn [snd] in E. rewrite <- E. by eapply snapshot_totals.
Qed.

(** The world of [Diagnostics]: the task's object and the lines written. *)
#[local] Existing Instance sample_mutex.
#[local] Existing Instance sample_host.
Definition diag_deps : Dependencies unit := Deps true [] 0 (Some tt) false true.

(** Task 2 of the ring is the diagnostics task. *)
Definition diag_system : System (BackgroundDiagnosticsTask * list (list Z)) :=
  let core := Core (<[0 := Some 0]> (replicate kMaxTasksPerCore None)) 1 FLAT_LOOP None in
  let d := built_diags sample_config diag_deps (set_drainFn true (boot diag_env (boot_shared diag_env (new_diag false 0, [])))) in
  Sys [core] [] [Some 1; Some 2; None; None] 2 0 0 [replicate kMaxTasksPerCore 0%Z] [0%Z] [cu_reset]
    new_depth (st_setClockSource true 0) CONFIGURED true [false] (replicate kMaxStopConditions None) 0
    new_crunch false true (boot_shared diag_env (d, [])) [].

Lemma diag_system_wf : sys_wf (with_diags diag_env 2) diag_system.
Proof.
  split; try reflexivity.
  - split; [reflexivity|]. repeat constructor.
  - apply Nat.leb_le. reflexivity.
  - by left.
  - split; [reflexivity|]. repeat constructor.
  - split; [exists []; apply new_logger_holds|exists []; split; [apply new_queue_holds|done]|done..|exists []; apply new_telemetry_rep].
  - apply Nat.leb_le. reflexivity.
Qed.

Lemma health_totals_stay_witness :
  exists fin s', sys_run (with_diags diag_env 2) 3 0 diag_system = Some (fin, s') /\ totals (sy_shared s') = (0, 0)%Z /\
    forall snap s2, snapshot (with_diags diag_env 2) s' = Some (snap, s2) -> (ps_totalOverruns snap, ps_totalDeadlineMisses snap) = (0, 0)%Z.
Proof.
  apply (health_totals_stay diag_env sample_config diag_deps 2 3 0 (set_drainFn true (boot diag_env (boot_shared diag_env (new_diag false 0, []))))
    diag_system (Core (<[0 := Some 0]> (replicate kMaxTasksPerCore None)) 1 FLAT_LOOP None) false); try reflexivity.
  - apply with_diags_ok; [idle_env_ok|exact sample_host_ok].
  - split; intros; intros Hu; by split.
  - exact diag_system_wf.
  - apply Nat.ltb_lt. reflexivity.
  - by right.
Defined.
