(* ===== verification/Multicore.v ===== *)
(** * A device with all its cores ([kernel/System.h])

    [System::run] of every core on the one state of the kernel. A step is what one core does
    up to its next access to a variable through which the cores control each other: the kernel
    state, which the code tests, reads and writes without a guard, and the barriers' states, which
    are loaded and stored one at a time. Steps of the cores come in any order. What lies between
    two such accesses is one step: the initialisation of a core's tasks, the stop conditions,
    the tasks of a tick, an iteration of the crunch loop. The accesses to the queue inside these
    are interleaved in [Queue]; the tasks' own data in the files of the tasks. *)

From Stdlib Require String.
From S2P Require Import Prelude Cores Float32 Protocol Queue Metrics ErrorLog Telemetry Sync Kernel Sched Crunch Run.
Import String.StringSyntax.

(** ** The machine *)

(** Where a core is in [run]: [Begin] and [Prepare] are its phases 1 and 2, with [Init] the calls
    of [init]; [Change] a change of the kernel state, in [init] or in phase 5, at one of its
    accesses; [Arrive] to [Fail] the start-up barrier, with the scans at core [i]; [Enter] the
    decision of phase 4; [Dispatch] to [Tick] the flat loop, [Crunch] to [CrunchTurn] the crunch
    loop; [Depart] to [ScanDown] the shutdown barrier. *)
Inductive run_phase :=
  | Begin | Prepare | Change (ch : change) (a : access) | Init
  | Arrive | Await (elapsed : Z) | ScanError (elapsed : Z) (i : nat) | ScanReady (elapsed : Z) (i : nat) | Fail
  | Enter | Dispatch | Stops | Tick | Crunch | CrunchStops | CrunchTurn
  | Depart | Wait (elapsed : Z) | ScanDown (elapsed : Z) (i : nat) | Returned.

#[global] Instance run_phase_eq_dec : EqDecision run_phase.
Proof. unfold EqDecision, Decision. repeat decide equality. Defined.

(** Phase 5. *)
Abbreviation Leave := (Change ToShuttingDown TestIt).

Section machine.
Context {W : Type} (env : Env W).
Abbreviation System := (System W).
Implicit Types s : System.

(** An operation of [s_sync] on the core's own state; [NoOpMultiCoreSync] below two cores. *)
Definition at_sync (f : SyncHost (Shared W) -> Shared W -> option (Shared W)) (s : System) : option System :=
  h ← f (sys_sync env) (sy_shared s); Some (set_shared h s).

(** Behind a change. *)
Definition changed (ch : change) (coreId : nat) (s : System) : option (run_phase * System) :=
  match ch with
  | ToInitializing => Some (Init, s)
  | ToRunning => ci ← store (sy_coreInitialized s) coreId true; Some (Arrive, set_coreInitialized ci s)
  | ToShuttingDown => Some (Change ToShutdown TestIt, s)
  | ToShutdown => Some (Depart, s)
  end.

(** The test of the state before [transitionTo]; its [switch]; and its assignment. *)
Definition change_step (ch : change) (a : access) (coreId : nat) (s : System) : option (run_phase * System) :=
  match a with
  | TestIt => if decide (sy_kernelState s = guard ch) then Some (Change ch ReadIt, s) else changed ch coreId s
  | ReadIt =>
      if valid_transition (sy_kernelState s) (target ch) then Some (Change ch WriteIt, s)
      else s ← sys_log INVALID_STATE 0 (f_of_Z (state_byte (target ch))) s; changed ch coreId s
  | WriteIt => changed ch coreId (set_kernelState (target ch) s)
  end.

(** The loads of the barriers' loops. *)
Definition scan_error (elapsed : Z) (i : nat) (s : System) : option (run_phase * System) :=
  c ← load (sh_sync (sy_shared s)) i;
  Some (if decide (c = CS_ERROR) then Fail
        else if decide (S i = kCoreCount env) then ScanReady elapsed 0 else ScanError elapsed (S i), s).

Definition scan_ready (elapsed : Z) (i : nat) (s : System) : option (run_phase * System) :=
  c ← load (sh_sync (sy_shared s)) i;
  Some (if decide (c <> CS_READY) then Await (u32 (elapsed + 1))
        else if decide (S i = kCoreCount env) then Enter else ScanReady elapsed (S i), s).

Definition scan_down (elapsed : Z) (i : nat) (s : System) : option (run_phase * System) :=
  c ← load (sh_sync (sy_shared s)) i;
  Some (if decide (c <> CS_SHUTDOWN /\ c <> CS_ERROR) then Wait (u32 (elapsed + 1))
        else if decide (S i = kCoreCount env) then Returned else ScanDown elapsed (S i), s).

(** The condition of a dispatch loop, up to its [&&]. *)
Definition loop_head (stops : run_phase) (s : System) : option (run_phase * System) :=
  Some (if isActiveState (sy_kernelState s) then stops else Leave, s).

(** The start of phase 4: on a CRUNCH core [configure] and the head of [runLoop]. *)
Definition enter_dispatch (coreId : nat) (s : System) : option (run_phase * System) :=
  core ← load (sy_cores s) coreId;
  match cd_mode core, cd_crunchTask core with
  | CRUNCH, Some tid =>
      let s := set_crunch (configure (Some tid) (sy_watchdogKickFn s) (sy_crunch s)) s in
      let s := set_crunch (set_overruns 0 0 (sy_crunch s)) s in
      if isSafetyAborted (sy_shared s) then s ← soft_abort env s; Some (Leave, s) else Some (Crunch, s)
  | _, _ => Some (Dispatch, s)
  end.

Definition phase_step (coreId : nat) (p : run_phase) (s : System) : option (run_phase * System) :=
  match p with
  | Begin =>
      if negb (sy_built s) then None
      else if decide (kCoreCount env <= coreId) then Some (Returned, s)
      else s ← sync_setInit env coreId s; Some (Prepare, s)
  | Prepare =>
      initialized ← load (sy_coreInitialized s) coreId;
      if initialized : bool then Some (Arrive, s) else change_step ToInitializing TestIt coreId s
  | Change ch a => change_step ch a coreId s
  | Init => s ← init_core env coreId s; Some (Change ToRunning TestIt, s)
  | Arrive =>
      if kMultiCore env then s ← at_sync (fun H => @setReady _ H coreId) s; Some (Await 0, s) else Some (Enter, s)
  | Await elapsed =>
      if decide (elapsed < 2000)%Z then Some (ScanError elapsed 0, s)
      else s ← at_sync (fun H => @setError _ H coreId "Startup barrier timeout") s; Some (Enter, s)
  | ScanError elapsed i => scan_error elapsed i s
  | ScanReady elapsed i => scan_ready elapsed i s
  | Fail => s ← at_sync (fun H => @setError _ H coreId "Peer entered ERROR during startup barrier") s; Some (Enter, s)
  | Enter => enter_dispatch coreId s
  | Dispatch => loop_head Stops s
  | Stops => '(fired, s) ← anyStopConditionFired env s; Some (if fired : bool then Leave else Tick, s)
  | Tick => let '(now, s) := sys_now env s in s ← sys_tick env coreId now s; Some (Dispatch, s)
  | Crunch => loop_head CrunchStops s
  | CrunchStops => '(fired, s) ← anyStopConditionFired env s; Some (if fired : bool then Leave else CrunchTurn, s)
  | CrunchTurn => '(go, s) ← crunch_iteration env coreId s; Some (if go : bool then Crunch else Leave, s)
  | Depart =>
      if kMultiCore env then s ← at_sync (fun H => @setShutdown _ H coreId) s; Some (Wait 0, s) else Some (Returned, s)
  | Wait elapsed => if decide (elapsed < 2000)%Z then Some (ScanDown elapsed 0, s) else Some (Returned, s)
  | ScanDown elapsed i => scan_down elapsed i s
  | Returned => Some (Returned, s)
  end.

Record multi := Multi { mu_system : System; mu_phases : list run_phase }.

(** Every core is about to call [run]. *)
Definition multi_start (s : System) : multi := Multi s (replicate (kCoreCount env) Begin).

Definition multi_step (coreId : nat) (m : multi) : option multi :=
  p ← load (mu_phases m) coreId;
  '(p, s) ← phase_step coreId p (mu_system m);
  ps ← store (mu_phases m) coreId p;
  Some (Multi s ps).

Fixpoint multi_run (cs : list nat) (m : multi) : option multi :=
  match cs with
  | [] => Some m
  | c :: cs => m ← multi_step c m; multi_run cs m
  end.

Lemma multi_run_app cs1 cs2 m : multi_run (cs1 ++ cs2) m = m' ← multi_run cs1 m; multi_run cs2 m'.
Proof. revert m. induction cs1 as [|c cs1 IH]; intros m; cbn; [done|]. destruct (multi_step c m) as [m'|]; cbn; [apply IH|done]. Qed.

(** ** A core by itself *)

(** Core [c], and no other, goes from phase [p] to [p']. *)
Definition reaches (c : nat) (p p' : run_phase) (s s' : System) : Prop :=
  forall ps, ps !! c = Some p -> exists k, multi_run (replicate k c) (Multi s ps) = Some (Multi s' (<[c := p']> ps)).

Lemma reaches_refl c p s : reaches c p p s s.
Proof. intros ps Hp. exists 0. by rewrite list_insert_id. Qed.

Lemma reaches_trans c p1 p2 p3 s1 s2 s3 : reaches c p1 p2 s1 s2 -> reaches c p2 p3 s2 s3 -> reaches c p1 p3 s1 s3.
Proof.
  intros H1 H2 ps Hp. destruct (H1 ps Hp) as [k1 E1]. destruct (H2 (<[c := p2]> ps)) as [k2 E2].
  { apply list_lookup_insert_eq. by eapply lookup_lt_Some. }
  exists (k1 + k2). rewrite replicate_add, multi_run_app, E1. cbn. by rewrite E2, list_insert_insert_eq.
Qed.

Lemma reaches_step c p p' s s' : phase_step c p s = Some (p', s') -> reaches c p p' s s'.
Proof.
  intros E ps Hp. exists 1. cbn. unfold multi_step, load. cbn. rewrite Hp. cbn. rewrite E. cbn.
  rewrite store_ok by (by eapply lookup_lt_Some). done.
Qed.

Lemma reaches_cons c p1 p2 p3 s1 s2 s3 : phase_step c p1 s1 = Some (p2, s2) -> reaches c p2 p3 s2 s3 -> reaches c p1 p3 s1 s3.
Proof. intros E. apply reaches_trans. by apply reaches_step. Qed.

(** The other cores stand still. *)
Hypothesis Hidle : forall ms h, env_peers env ms h = h.

Lemma set_shared_same s : set_shared (sy_shared s) s = s.
Proof. by destruct s. Qed.

(** A change that is not interrupted is the test and [transitionTo]. *)
Lemma change_reaches c ch s s1 p s2 :
  (if decide (sy_kernelState s = guard ch) then '(_, s) ← transitionTo (target ch) s; Some s else Some s) = Some s1 ->
  changed ch c s1 = Some (p, s2) -> reaches c (Change ch TestIt) p s s2.
Proof.
  assert (Hv : valid_transition (guard ch) (target ch) = true) by (by destruct ch). case_decide as Hk.
  - unfold transitionTo. rewrite Hk, Hv. cbn [mbind option_bind]. intros [= <-] E.
    apply (reaches_cons _ _ (Change ch ReadIt) _ _ s); [cbn; by rewrite decide_True|].
    apply (reaches_cons _ _ (Change ch WriteIt) _ _ s); [cbn; by rewrite Hk, Hv|]. by apply reaches_step.
  - intros [= <-] E. apply reaches_step. cbn. by rewrite decide_False.
Qed.

(** The first access of [init] is in the step that finds the core not initialised. *)
Lemma reaches_prepare c p s s' :
  sy_coreInitialized s !! c = Some false -> reaches c (Change ToInitializing TestIt) p s s' -> p <> Change ToInitializing TestIt -> reaches c Prepare p s s'.
Proof.
  intros Hi R Hne ps Hp. assert (Hlt : c < length ps) by (by eapply lookup_lt_Some).
  destruct (R (<[c := Change ToInitializing TestIt]> ps)) as [k Hk]; [by apply list_lookup_insert_eq|]. rewrite list_insert_insert_eq in Hk.
  destruct k as [|k].
  { cbn in Hk. injection Hk as _ Hk. exfalso. apply Hne. apply (f_equal (fun l => l !! c)) in Hk. rewrite !list_lookup_insert_eq in Hk by done. by injection Hk as ->. }
  exists (S k). rewrite <- Hk. cbn [replicate multi_run]. unfold multi_step, load. cbn [mu_phases mu_system]. rewrite Hp, list_lookup_insert_eq by done.
  cbn [mbind option_bind phase_step]. unfold load. rewrite Hi. cbn [mbind option_bind].
  destruct (change_step ToInitializing TestIt c s) as [[p1 s1]|]; cbn [mbind option_bind]; [|done]. rewrite !store_ok by (by rewrite ?length_insert). cbn [mbind option_bind].
  by rewrite list_insert_insert_eq.
Qed.

(** The scans. *)
Lemma scan_error_reaches c e i k s b h :
  @anyError _ (sys_sync env) i (S k) (sy_shared s) = Some (b, h) -> i + S k = kCoreCount env ->
  h = sy_shared s /\ reaches c (ScanError e i) (if b then Fail else ScanReady e 0) s s.
Proof.
  revert i. induction k as [|k IH]; intros i E Hn; cbn [anyError coreState meanwhile m_states sys_sync] in E; unfold coreState in E; cbn in E; rewrite Hidle in E;
    destruct (load (sh_sync (sy_shared s)) i) as [st|] eqn:El; cbn [mbind option_bind] in E; try done;
    (assert (Hstep : phase_step c (ScanError e i) s = scan_error e i s) by done; unfold scan_error in Hstep; rewrite El in Hstep; cbn [mbind option_bind] in Hstep);
    destruct (decide (st = CS_ERROR)).
  - injection E as <- <-. split; [done|by apply reaches_step].
  - injection E as <- <-. split; [done|]. rewrite decide_True in Hstep by lia. by apply reaches_step.
  - injection E as <- <-. split; [done|by apply reaches_step].
  - rewrite decide_False in Hstep by lia. destruct (IH (S i)) as [Hh Hr]; [exact E|lia|]. split; [done|]. by eapply reaches_cons.
Qed.

Lemma scan_ready_reaches c e i k s b h :
  @allInState _ (sys_sync env) CS_READY i (S k) (sy_shared s) = Some (b, h) -> i + S k = kCoreCount env ->
  h = sy_shared s /\ reaches c (ScanReady e i) (if b then Enter else Await (u32 (e + 1))) s s.
Proof.
  revert i. induction k as [|k IH]; intros i E Hn; cbn [allInState] in E; unfold coreState in E; cbn in E; rewrite Hidle in E;
    destruct (load (sh_sync (sy_shared s)) i) as [st|] eqn:El; cbn [mbind option_bind] in E; try done;
    (assert (Hstep : phase_step c (ScanReady e i) s = scan_ready e i s) by done; unfold scan_ready in Hstep; rewrite El in Hstep; cbn [mbind option_bind] in Hstep);
    destruct (decide (st <> CS_READY)).
  - injection E as <- <-. split; [done|by apply reaches_step].
  - injection E as <- <-. split; [done|]. rewrite (decide_True (P := S i = _)) in Hstep by lia. by apply reaches_step.
  - injection E as <- <-. split; [done|by apply reaches_step].
  - rewrite (decide_False (P := S i = _)) in Hstep by lia. destruct (IH (S i)) as [Hh Hr]; [exact E|lia|]. split; [done|]. by eapply reaches_cons.
Qed.

Lemma scan_down_reaches c e i k s b h :
  @allTerminated _ (sys_sync env) i (S k) (sy_shared s) = Some (b, h) -> i + S k = kCoreCount env ->
  h = sy_shared s /\ reaches c (ScanDown e i) (if b then Returned else Wait (u32 (e + 1))) s s.
Proof.
  revert i. induction k as [|k IH]; intros i E Hn; cbn [allTerminated] in E; unfold coreState in E; cbn in E; rewrite Hidle in E;
    destruct (load (sh_sync (sy_shared s)) i) as [st|] eqn:El; cbn [mbind option_bind] in E; try done;
    (assert (Hstep : phase_step c (ScanDown e i) s = scan_down e i s) by done; unfold scan_down in Hstep; rewrite El in Hstep; cbn [mbind option_bind] in Hstep);
    destruct (decide (st <> CS_SHUTDOWN /\ st <> CS_ERROR)).
  - injection E as <- <-. split; [done|by apply reaches_step].
  - injection E as <- <-. split; [done|]. rewrite (decide_True (P := S i = _)) in Hstep by lia. by apply reaches_step.
  - injection E as <- <-. split; [done|by apply reaches_step].
  - rewrite (decide_False (P := S i = _)) in Hstep by lia. destruct (IH (S i)) as [Hh Hr]; [exact E|lia|]. split; [done|]. by eapply reaches_cons.
Qed.

Lemma error_at reason c s (b b' : bool) h :
  (h ← @setError _ (sys_sync env) c reason (sy_shared s); Some (Some b', h)) = Some (Some b, h) ->
  at_sync (fun H => @setError _ H c reason) s = Some (set_shared h s).
Proof. unfold at_sync. destruct (setError c reason (sy_shared s)) as [h2|]; [|done]. by intros [= _ ->]. Qed.

Section barriers.
Hypothesis Hcores : 0 < kCoreCount env.

Lemma startup_reaches fuel c e s b h :
  @startup_loop _ (sys_sync env) fuel (kCoreCount env) c 2000 1 e (sy_shared s) = Some (Some b, h) ->
  reaches c (Await e) Enter s (set_shared h s).
Proof.
  destruct (kCoreCount env) as [|k] eqn:Ek; [lia|]. revert e. induction fuel as [|fuel IH]; intros e E; cbn [startup_loop] in E; case_decide as He; try done.
  1, 3: apply reaches_step; cbn [phase_step]; rewrite decide_False by done; by rewrite (error_at _ _ _ _ _ _ E).
  apply (reaches_cons c _ (ScanError e 0) _ s s); [cbn; by rewrite decide_True|].
  destruct (anyError 0 (S k) (sy_shared s)) as [[err h1]|] eqn:E1; cbn [mbind option_bind] in E; [|done].
  apply (scan_error_reaches c e) in E1 as [-> R1]; [|lia]. destruct err.
  { eapply reaches_trans; [exact R1|]. apply reaches_step. cbn [phase_step]. by rewrite (error_at _ _ _ _ _ _ E). }
  destruct (allInState CS_READY 0 (S k) (sy_shared s)) as [[all h2]|] eqn:E2; cbn [mbind option_bind] in E; [|done].
  apply (scan_ready_reaches c e) in E2 as [-> R2]; [|lia]. eapply reaches_trans; [exact R1|]. destruct all.
  - injection E as <- <-. by rewrite set_shared_same.
  - eapply reaches_trans; [exact R2|]. apply IH. cbn in E. by rewrite Hidle in E.
Qed.

Lemma shutdown_reaches fuel c e s b h :
  @shutdown_loop _ (sys_sync env) fuel (kCoreCount env) 2000 1 e (sy_shared s) = Some (Some b, h) ->
  reaches c (Wait e) Returned s (set_shared h s).
Proof.
  destruct (kCoreCount env) as [|k] eqn:Ek; [lia|]. revert e. induction fuel as [|fuel IH]; intros e E; cbn [shutdown_loop] in E; case_decide as He; try done.
  1, 3: injection E as <- <-; rewrite set_shared_same; apply reaches_step; cbn [phase_step]; by rewrite decide_False.
  apply (reaches_cons c _ (ScanDown e 0) _ s s); [cbn; by rewrite decide_True|].
  destruct (allTerminated 0 (S k) (sy_shared s)) as [[all h1]|] eqn:E1; cbn [mbind option_bind] in E; [|done].
  apply (scan_down_reaches c e) in E1 as [-> R1]; [|lia]. destruct all.
  - injection E as <- <-. by rewrite set_shared_same.
  - eapply reaches_trans; [exact R1|]. apply IH. cbn in E. by rewrite Hidle in E.
Qed.

Lemma startup_barrier_reaches c s s' : sync_barrier env (@startupBarrier _) c s = Some s' -> reaches c Arrive Enter s s'.
Proof.
  unfold sync_barrier. destruct (kMultiCore env) eqn:Em; [|intros [= <-]; apply reaches_step; cbn [phase_step]; by rewrite Em].
  unfold startupBarrier. destruct (@setReady _ (sys_sync env) c (sy_shared s)) as [h|] eqn:Er; cbn [mbind option_bind]; [|done].
  generalize 2000 at 1. intros fuel.
  destruct (startup_loop fuel _ c 2000 1 0 h) as [[[b|] h']|] eqn:El; cbn [mbind option_bind]; [|done|done]. intros [= <-].
  apply (reaches_cons c Arrive (Await 0) Enter s (set_shared h s)).
  - cbn [phase_step]. rewrite Em. unfold at_sync. by rewrite Er.
  - exact (startup_reaches fuel c 0 (set_shared h s) b h' El).
Qed.

Lemma shutdown_barrier_reaches c s s' : sync_barrier env (@shutdownBarrier _) c s = Some s' -> reaches c Depart Returned s s'.
Proof.
  unfold sync_barrier. destruct (kMultiCore env) eqn:Em; [|intros [= <-]; apply reaches_step; cbn [phase_step]; by rewrite Em].
  unfold shutdownBarrier. destruct (@setShutdown _ (sys_sync env) c (sy_shared s)) as [h|] eqn:Er; cbn [mbind option_bind]; [|done].
  generalize 2000 at 1. intros fuel.
  destruct (shutdown_loop fuel _ 2000 1 0 h) as [[[b|] h']|] eqn:El; cbn [mbind option_bind]; [|done|done]. intros [= <-].
  apply (reaches_cons c Depart (Wait 0) Returned s (set_shared h s)).
  - cbn [phase_step]. rewrite Em. unfold at_sync. by rewrite Er.
  - exact (shutdown_reaches fuel c 0 (set_shared h s) b h' El).
Qed.
End barriers.

(** ** The loops *)

(** Where the loop leaves a core. *)
Definition looping (head : run_phase) (fin : bool) : run_phase := if fin then Leave else head.

Lemma flat_reaches fuel c s fin s' : flat_loop env fuel c s = Some (fin, s') -> reaches c Dispatch (looping Dispatch fin) s s'.
Proof.
  revert s. induction fuel as [|fuel IH]; intros s; cbn [flat_loop]; [intros [= <- <-]; apply reaches_refl|].
  destruct (isActiveState (sy_kernelState s)) eqn:Ea.
  2: { intros [= <- <-]. apply reaches_step. cbn [phase_step]. unfold loop_head. by rewrite Ea. }
  destruct (anyStopConditionFired env s) as [[fired s1]|] eqn:E1; cbn [mbind option_bind]; [|done]. intros E.
  apply (reaches_cons c _ Stops _ s s); [cbn [phase_step]; unfold loop_head; by rewrite Ea|].
  destruct fired.
  { injection E as <- <-. apply reaches_step. cbn [phase_step]. by rewrite E1. }
  apply (reaches_cons c _ Tick _ s s1); [cbn [phase_step]; by rewrite E1|].
  destruct (sys_now env s1) as [now s2] eqn:E2. destruct (sys_tick env c now s2) as [s3|] eqn:E3; cbn [mbind option_bind] in E; [|done].
  apply (reaches_cons c _ Dispatch _ s1 s3); [|by apply IH]. cbn [phase_step]. rewrite E2. by rewrite E3.
Qed.

Lemma crunch_reaches fuel c s fin s' : crunch_loop env fuel c s = Some (fin, s') -> reaches c Crunch (looping Crunch fin) s s'.
Proof.
  revert s. induction fuel as [|fuel IH]; intros s; cbn [crunch_loop]; [intros [= <- <-]; apply reaches_refl|].
  destruct (isActiveState (sy_kernelState s)) eqn:Ea.
  2: { intros [= <- <-]. apply reaches_step. cbn [phase_step]. unfold loop_head. by rewrite Ea. }
  destruct (anyStopConditionFired env s) as [[fired s1]|] eqn:E1; cbn [mbind option_bind]; [|done]. intros E.
  apply (reaches_cons c _ CrunchStops _ s s); [cbn [phase_step]; unfold loop_head; by rewrite Ea|].
  destruct fired.
  { injection E as <- <-. apply reaches_step. cbn [phase_step]. by rewrite E1. }
  apply (reaches_cons c _ CrunchTurn _ s s1); [cbn [phase_step]; by rewrite E1|].
  destruct (crunch_iteration env c s1) as [[go s2]|] eqn:E2; cbn [mbind option_bind] in E; [|done]. destruct go.
  - apply (reaches_cons c _ Crunch _ s1 s2); [|by apply IH]. cbn [phase_step]. by rewrite E2.
  - injection E as <- <-. apply reaches_step. cbn [phase_step]. by rewrite E2.
Qed.

(** Where [run] leaves a core. *)
Definition parked (fin : bool) (p : run_phase) : Prop := if fin then p = Returned else p = Dispatch \/ p = Crunch.

Lemma dispatch_reaches fuel c s fin s' :
  run_dispatch env fuel c s = Some (fin, s') ->
  exists p, (if fin : bool then p = Leave else p = Dispatch \/ p = Crunch) /\ reaches c Enter p s s'.
Proof.
  assert (Hp : forall p, p = Dispatch \/ p = Crunch -> if fin : bool then looping p fin = Leave else looping p fin = Dispatch \/ looping p fin = Crunch)
    by (by destruct fin).
  unfold run_dispatch, load. intros E. destruct (sy_cores s !! c) as [core|] eqn:Hc; cbn [mbind option_bind] in *; [|done].
  assert (Hstep : phase_step c Enter s = enter_dispatch c s) by done. unfold enter_dispatch, load in Hstep. rewrite Hc in Hstep. cbn [mbind option_bind] in Hstep.
  assert (Hflat : phase_step c Enter s = Some (Dispatch, s) -> flat_loop env fuel c s = Some (fin, s') -> reaches c Enter (looping Dispatch fin) s s')
    by (intros H1 H2; by eapply reaches_cons, flat_reaches).
  destruct (cd_mode core); [eexists; split; [|by apply Hflat]; apply Hp; auto|].
  destruct (cd_crunchTask core); [|eexists; split; [|by apply Hflat]; apply Hp; auto].
  unfold runLoop in E. set (s1 := set_crunch (configure _ _ _) s) in *. cbv zeta in Hstep. set (s2 := set_crunch (set_overruns 0 0 _) s1) in *.
  destruct (isSafetyAborted (sy_shared s2)); [|eexists; split; [|by eapply reaches_cons, crunch_reaches]; apply Hp; auto].
  destruct (soft_abort env s2) as [s3|]; cbn [mbind option_bind] in *; [|done]. injection E as <- <-. exists Leave. split; [done|]. by apply reaches_step.
Qed.

(** [init], and phase 5. *)
Lemma init_reaches c s i s' :
  sy_built s = true -> c < kCoreCount env -> sy_coreInitialized s !! c = Some i ->
  (if i : bool then Some s else sys_init env c s) = Some s' -> reaches c Prepare Arrive s s'.
Proof.
  intros Hb Hc Hi E. destruct i.
  { injection E as <-. apply reaches_step. cbn [phase_step]. unfold load. by rewrite Hi. }
  unfold sys_init in E. rewrite Hb, decide_False in E by lia. cbn [negb] in E.
  destruct (if decide (sy_kernelState s = CONFIGURED) then _ else _) as [s1|] eqn:E1; cbn [mbind option_bind] in E; [|done].
  destruct (init_core env c s1) as [s2|] eqn:E2; cbn [mbind option_bind] in E; [|done].
  destruct (if decide (sy_kernelState s2 = INITIALIZING) then _ else _) as [s3|] eqn:E3; cbn [mbind option_bind] in E; [|done].
  eapply reaches_prepare; [done| |done]. eapply reaches_trans; [by apply (change_reaches c ToInitializing s s1 Init s1)|].
  apply (reaches_cons c _ (Change ToRunning TestIt) _ s1 s2); [cbn [phase_step]; by rewrite E2|].
  apply (change_reaches c ToRunning s2 s3 Arrive s'); [exact E3|]. cbn [changed].
  destruct (store (sy_coreInitialized s3) c true); [|done]. by injection E as <-.
Qed.

Lemma leave_reaches c s s' : run_shutdown s = Some s' -> reaches c Leave Depart s s'.
Proof.
  unfold run_shutdown. destruct (if decide (sy_kernelState s = RUNNING) then _ else _) as [s1|] eqn:E1; cbn [mbind option_bind]; [|done]. intros E2.
  eapply reaches_trans; [by apply (change_reaches c ToShuttingDown s s1 (Change ToShutdown TestIt) s1)|].
  by apply (change_reaches c ToShutdown s1 s' Depart s').
Qed.

(** [System::run] is what a core does whose peers stand still. *)
Lemma run_reaches fuel c s fin s' :
  sys_run env fuel c s = Some (fin, s') -> c < kCoreCount env ->
  exists p, parked fin p /\ reaches c Begin p s s'.
Proof.
  intros E Hc. unfold sys_run in E. destruct (sy_built s) eqn:Hb; [|done]. cbn [negb] in E. rewrite decide_False in E by lia.
  destruct (sync_setInit env c s) as [s1|] eqn:E1; cbn [mbind option_bind] in E; [|done].
  destruct (load (sy_coreInitialized s1) c) as [i|] eqn:Ei; cbn [mbind option_bind] in E; [|done].
  destruct (if i : bool then Some s1 else sys_init env c s1) as [s2|] eqn:E2; cbn [mbind option_bind] in E; [|done].
  destruct (sync_barrier env (@startupBarrier _) c s2) as [s3|] eqn:E3; cbn [mbind option_bind] in E; [|done].
  destruct (run_dispatch env fuel c s3) as [[b s4]|] eqn:E4; cbn [mbind option_bind] in E; [|done].
  assert (Hn : 0 < kCoreCount env) by lia.
  assert (R1 : reaches c Begin Arrive s s2).
  { apply (reaches_cons c Begin Prepare Arrive s s1); [cbn [phase_step]; rewrite Hb, decide_False by lia; cbn [negb]; by rewrite E1|].
    eapply init_reaches; [|done|exact Ei|exact E2]. unfold sync_setInit in E1. destruct (kMultiCore env); [|by simplify_eq].
    destruct (setInit c (sy_shared s)); [|done]. by injection E1 as <-. }
  destruct (dispatch_reaches fuel c s3 b s4 E4) as (p & Hp & R3).
  pose proof (reaches_trans _ _ _ _ _ _ _ R1 (reaches_trans _ _ _ _ _ _ _ (startup_barrier_reaches Hn _ _ _ E3) R3)) as R.
  destruct b; [|injection E as <- <-; by exists p]. subst p.
  destruct (run_shutdown s4) as [s5|] eqn:E5; cbn [mbind option_bind] in E; [|done].
  destruct (sync_barrier env (@shutdownBarrier _) c s5) as [s6|] eqn:E6; cbn [mbind option_bind] in E; [|done]. injection E as <- <-.
  exists Returned. split; [done|]. eapply reaches_trans; [exact R|]. eapply reaches_trans; [by apply leave_reaches|by apply shutdown_barrier_reaches].
Qed.
End machine.

(** ** Properties *)

(** C23 [System::run], on which the theorems about one core rest, is what the machine does when
    only that core has steps and the environment keeps the other cores still: the machine
    reaches the very state that [run] returns, with the core behind [run] if [run] is
    finished and in its loop if not, and the other cores where they were. *)
Theorem run_is_alone {W : Type} (env : Env W) (fuel coreId : nat) (s : System W) (core : CoreData) (initialized : bool) :
  (forall ms h, env_peers env ms h = h) -> env_ok env -> sys_wf env s -> sy_built s = true -> coreId < kCoreCount env ->
  sy_cores s !! coreId = Some core -> sy_coreInitialized s !! coreId = Some initialized ->
  sy_kernelState s = RUNNING \/ (initialized = false /\ sy_kernelState s = CONFIGURED) ->
  (Z.of_nat fuel < 2 ^ 32)%Z ->
  exists fin s' p k, sys_run env fuel coreId s = Some (fin, s') /\ parked fin p /\
    multi_run env (replicate k coreId) (multi_start env s) = Some (Multi s' (<[coreId := p]> (replicate (kCoreCount env) Begin))).
Proof.
  intros Hidle Henv Hwf Hb Hc Hcore Hi Hk Hf.
  destruct (sys_run_ok env Henv fuel coreId core initialized s) as (fin & s' & _ & E & _); [done..|].
  destruct (run_reaches env Hidle fuel coreId s fin s' E Hc) as (p & Hp & R).
  destruct (R (replicate (kCoreCount env) Begin)) as [k Hk']; [by apply lookup_replicate|]. by exists fin, s', p, k.
Qed.

Lemma run_is_alone_witness :
  exists fin s' p k, sys_run sample_env 3 0 sample_system = Some (fin, s') /\ parked fin p /\
    multi_run sample_env (replicate k 0) (multi_start sample_env sample_system) = Some (Multi s' [p]).
Proof.
  refine (run_is_alone sample_env 3 0 sample_system _ false _ sample_env_ok sample_system_wf eq_refl
    (Nat.lt_0_succ 0) eq_refl eq_refl (or_intror (conj eq_refl eq_refl)) _); reflexivity.
Defined.
