(* ===== verification/Turns.v ===== *)
(** * A step of one core among others

    What each step of the machine of [Multicore] does: that it is defined, where the core goes
    from there, which calls it makes, and what it changes of the state that the other cores'
    steps depend on. *)

From S2P Require Import Prelude Cores Float32 Protocol Queue Metrics ErrorLog Telemetry Sync Kernel Sched Crunch Run Effects Multicore.

Section turns.
Context {W : Type} (env : Env W).
Abbreviation System := (System W).
Implicit Types s : System.

(** ** Who runs what *)

Definition slot_task s (c t : nat) : option nat := core ← sy_cores s !! c; tsk ← registered core !! t; tsk.

Definition crunch_of s (c : nat) : option nat :=
  core ← sy_cores s !! c; match cd_mode core with CRUNCH => cd_crunchTask core | FLAT_LOOP => None end.

Definition ring_tasks s : list nat := omap id (take (sy_backgroundTaskCount s) (sy_backgroundTasks s)).

(** What core [c] initialises. *)
Definition core_inits s (c : nat) : list call :=
  match sy_cores s !! c with Some core => startup_calls c core false s | None => [] end.

(** A call a core may make in a phase. *)
Definition phase_call (c : nat) (p : run_phase) s (call : call) : Prop :=
  match p, call with
  | Tick, CallTick c' t tid _ => c' = c /\ slot_task s c t = Some tid
  | Tick, CallBackground tid _ => c = sy_backgroundCoreId s /\ tid ∈ ring_tasks s
  | Tick, CallOverrun tid => exists t, slot_task s c t = Some tid
  | CrunchTurn, CallCrunch c' tid _ _ => c' = c /\ m_task (sy_crunch s) = Some tid
  | CrunchTurn, CallCrunchAbort tid => m_task (sy_crunch s) = Some tid
  | Enter, CallCrunchAbort tid => crunch_of s c = Some tid
  | _, _ => False
  end.

(** ** What a step changes *)

(** What the steps of a core are told by. *)
Definition fixed s :=
  (sy_cores s, sy_backgroundTasks s, sy_backgroundTaskCount s, sy_backgroundCoreId s, sy_built s,
   (sy_stopConditions s, sy_stopConditionCount s), (sy_kernelState s, sy_coreInitialized s, m_task (sy_crunch s))).

(** An access that is the last of its change, and where it leads. *)
Definition change_ends (ch : change) (a : access) (k : KernelState) : bool :=
  match a with
  | TestIt => negb (bool_decide (k = guard ch))
  | ReadIt => negb (valid_transition k (target ch))
  | WriteIt => true
  end.

Definition change_next (ch : change) (a : access) (k : KernelState) : run_phase :=
  if change_ends ch a k then
    match ch with ToInitializing => Init | ToRunning => Arrive | ToShuttingDown => Change ToShutdown TestIt | ToShutdown => Depart end
  else Change ch (match a with TestIt => ReadIt | _ => WriteIt end).

(** The steps that change some of it. *)
Definition advance (c : nat) (p : run_phase) s : System :=
  match p with
  | Change ch a =>
      let s1 := match a with WriteIt => set_kernelState (target ch) s | _ => s end in
      match ch with
      | ToRunning => if change_ends ch a (sy_kernelState s) then set_coreInitialized (<[c := true]> (sy_coreInitialized s)) s1 else s1
      | _ => s1
      end
  | Enter => match crunch_of s c with
             | Some tid => set_crunch (configure (Some tid) (sy_watchdogKickFn s) (sy_crunch s)) s
             | None => s end
  | _ => s
  end.

(** Where a core goes from a phase. *)
Definition follows s (c : nat) (p p' : run_phase) : Prop :=
  match p with
  | Begin => p' = Prepare
  | Prepare => p' = change_next ToInitializing TestIt (sy_kernelState s)
  | Change ch a => p' = change_next ch a (sy_kernelState s)
  | Init => p' = Change ToRunning TestIt
  | Arrive => p' = Await 0 \/ p' = Enter
  | Await e => ((e < 2000)%Z /\ p' = ScanError e 0) \/ p' = Enter
  | ScanError e i => p' = Fail \/ p' = ScanReady e 0 \/ (S i < kCoreCount env /\ p' = ScanError e (S i))
  | ScanReady e i => p' = Await (e + 1) \/ p' = Enter \/ (S i < kCoreCount env /\ p' = ScanReady e (S i))
  | Fail => p' = Enter
  | Enter => (p' = Dispatch /\ crunch_of s c = None) \/ ((p' = Crunch \/ p' = Leave) /\ is_Some (crunch_of s c))
  | Dispatch => if isActiveState (sy_kernelState s) then p' = Stops else p' = Leave
  | Stops => p' = Tick \/ p' = Leave
  | Tick => p' = Dispatch
  | Crunch => if isActiveState (sy_kernelState s) then p' = CrunchStops else p' = Leave
  | CrunchStops => p' = CrunchTurn \/ p' = Leave
  | CrunchTurn => p' = Crunch \/ p' = Leave
  | Depart => p' = Wait 0 \/ p' = Returned
  | Wait e => ((e < 2000)%Z /\ p' = ScanDown e 0) \/ p' = Returned
  | ScanDown e i => p' = Wait (e + 1) \/ p' = Returned \/ (S i < kCoreCount env /\ p' = ScanDown e (S i))
  | Returned => p' = Returned
  end.

(** The polls of a loop are counted, and a scan is of a core there is. *)
Definition polling (p : run_phase) : Prop :=
  match p with
  | Await e | Wait e => (0 <= e <= 2000)%Z
  | ScanError e i | ScanReady e i | ScanDown e i => (0 <= e < 2000)%Z /\ i < kCoreCount env
  | _ => True
  end.

(** In the crunch loop. *)
Definition crunching (p : run_phase) : bool := match p with Crunch | CrunchStops | CrunchTurn => true | _ => false end.

(** The calls of a step. *)
Definition step_calls (c : nat) (p : run_phase) s (calls : list call) : Prop :=
  match p with
  | Init => calls = core_inits s c
  | _ => Forall (phase_call c p (advance c p s)) calls
  end.

Record stepped (c : nat) (p : run_phase) s (p' : run_phase) s' (calls : list call) : Prop := {
  st_wf : sys_wf env s';
  st_fixed : fixed s' = fixed (advance c p s);
  st_trace : sy_trace s' = sy_trace s ++ calls;
  st_calls : step_calls c p s calls;
  st_follows : follows s c p p';
}.

(** ** The pieces of a step *)

Hypothesis Henv : env_ok env.

(** From [s] to [s'] with these calls, and nothing of [fixed] changed. *)
Definition steady s (calls : list call) s' : Prop := sys_wf env s' /\ fixed s' = fixed s /\ sy_trace s' = sy_trace s ++ calls.

Lemma steady_trans s1 s2 s3 c1 c2 : steady s1 c1 s2 -> steady s2 c2 s3 -> steady s1 (c1 ++ c2) s3.
Proof. intros (W1 & F1 & T1) (W2 & F2 & T2). split; [done|]. split; [congruence|]. by rewrite T2, T1, app_assoc. Qed.

Lemma keeps_steady s s' calls : keeps env s s' -> sy_trace s' = sy_trace s ++ calls -> steady s calls s'.
Proof. intros [Hwf Hs _ _] Ht. split; [done|]. split; [|done]. unfold static in Hs. unfold fixed. congruence. Qed.

Lemma keeps_silent s s' : keeps env s s' -> sy_trace s' = sy_trace s -> steady s [] s'.
Proof. intros Hk Ht. apply keeps_steady; [done|]. by rewrite app_nil_r. Qed.

Lemma steady_refl s : sys_wf env s -> steady s [] s.
Proof. intros Hwf. by apply keeps_silent; [apply keeps_refl|]. Qed.

Lemma set_shared_steady h s : sys_wf env s -> shared_ok env h -> steady s [] (set_shared h s).
Proof. intros Hwf Hh. split; [by apply set_shared_wf|]. split; [done|]. by rewrite app_nil_r. Qed.

Lemma set_overruns_steady a b s : sys_wf env s -> steady s [] (set_crunch (set_overruns a b (sy_crunch s)) s).
Proof. intros Hwf. split; [apply set_crunch_spares, Hwf|]. split; [done|]. by rewrite app_nil_r. Qed.

Lemma log_steady code t v s : sys_wf env s -> exists s', sys_log code t v s = Some s' /\ steady s [] s'.
Proof. intros Hwf. destruct (sys_log_ok env code t v s Hwf) as (s' & E & Hk & Ht & _). exists s'. split; [done|]. by apply keeps_silent. Qed.

Lemma now_steady s : sys_wf env s -> steady s [] (sys_now env s).2.
Proof. intros Hwf. destruct (sys_now_keeps env s Hwf) as [Hk Ht]. by apply keeps_silent. Qed.

Lemma call_steady c f s : sys_wf env s -> callback_ok env f -> steady s [c] (emit c (on_shared f s)).
Proof. intros Hwf Hf. apply keeps_steady; [by apply call_keeps|done]. Qed.

Lemma stops_steady s : sys_wf env s -> exists fired s', anyStopConditionFired env s = Some (fired, s') /\ steady s [] s'.
Proof. intros Hwf. destruct (anyStopConditionFired_ok env Henv s Hwf) as (b & s' & E & Hk & Ht). exists b, s'. split; [done|]. by apply keeps_silent. Qed.

Lemma fixed_task s s' : fixed s' = fixed s -> m_task (sy_crunch s') = m_task (sy_crunch s).
Proof. unfold fixed. congruence. Qed.

(** *** A turn of the crunch loop *)

Lemma soft_abort_steady tid s :
  sys_wf env s -> m_task (sy_crunch s) = Some tid -> exists s', soft_abort env s = Some s' /\ steady s [CallCrunchAbort tid] s'.
Proof.
  intros Hwf Htid. unfold soft_abort. rewrite Htid. cbn [mbind option_bind].
  pose proof (call_steady (CallCrunchAbort tid) _ s Hwf (eo_crunchAbort _ Henv tid)) as H1. set (s1 := emit _ _) in *.
  pose proof (now_steady s1 (proj1 H1)) as H2. destruct (sys_now env s1) as [now s2]. cbn [snd] in H2.
  destruct (log_steady SOFT_ABORT now f_zero s2 (proj1 H2)) as (s3 & -> & H3). exists s3. split; [done|].
  exact (steady_trans _ _ _ _ _ H1 (steady_trans _ _ _ _ _ H2 H3)).
Qed.

Lemma crunch_overrun_steady tid now elapsed s :
  sys_wf env s -> exists go s' calls, crunch_overrun env tid now elapsed s = Some (go, s') /\ steady s calls s' /\
    Forall (eq (CallCrunchAbort tid)) calls.
Proof.
  intros Hwf. unfold crunch_overrun. case_decide.
  2: { eexists true, _, []. split; [done|]. split; [by apply set_overruns_steady|done]. }
  match goal with |- context [set_overruns ?a ?b _] => pose proof (set_overruns_steady a b s Hwf) as H1 end. set (s1 := set_crunch _ s) in *.
  destruct (log_steady CRUNCH_OVERRUN now (f_of_Z elapsed) s1 (proj1 H1)) as (s2 & -> & H2). cbn [mbind option_bind].
  pose proof (steady_trans _ _ _ _ _ H1 H2) as H12. case_decide; [|by exists true, s2, []].
  pose proof (call_steady (CallCrunchAbort tid) _ s2 (proj1 H2) (eo_crunchAbort _ Henv tid)) as H3. set (s3 := emit _ _) in *.
  match goal with |- context [sys_log HARD_FAULT now ?v s3] => destruct (log_steady HARD_FAULT now v s3 (proj1 H3)) as (s4 & -> & H4) end.
  exists false, s4, [CallCrunchAbort tid]. split; [done|]. split; [|by repeat constructor].
  exact (steady_trans _ _ _ _ _ H12 (steady_trans _ _ _ _ _ H3 H4)).
Qed.

Lemma crunch_iteration_steady c tid s :
  sys_wf env s -> c < kCoreCount env -> m_task (sy_crunch s) = Some tid ->
  exists go s' calls, crunch_iteration env c s = Some (go, s') /\ steady s calls s' /\ Forall (phase_call c CrunchTurn s) calls.
Proof.
  intros Hwf Hc Htid. unfold crunch_iteration. destruct (isSafetyAborted (sy_shared s)).
  { destruct (soft_abort_steady tid s Hwf Htid) as (s' & -> & H). exists false, s', [CallCrunchAbort tid]. split; [done|].
    split; [done|]. by repeat constructor. }
  pose proof (now_steady s Hwf) as H1. destruct (sys_now env s) as [now s1]. cbn [snd] in H1.
  destruct (crunch_kick_ok env Henv c now s1 (proj1 H1) Hc) as (s2 & -> & Hk2 & Ht2). cbn [mbind option_bind].
  pose proof (keeps_silent _ _ Hk2 Ht2) as H2. pose proof (now_steady s2 (proj1 H2)) as H3.
  destruct (sys_now env s2) as [start s3]. cbn [snd] in H3. pose proof (steady_trans _ _ _ _ _ H1 (steady_trans _ _ _ _ _ H2 H3)) as H13.
  rewrite (fixed_task s s3) by apply H13. rewrite Htid. cbn [mbind option_bind].
  pose proof (keeps_silent _ _ (on_shared_keeps env _ s3 (proj1 H3) (eo_crunch _ Henv tid now)) eq_refl) as H4. set (s4 := on_shared _ s3) in *.
  pose proof (now_steady s4 (proj1 H4)) as H5. destruct (sys_now env s4) as [stop s5]. cbn [snd] in H5.
  pose proof (keeps_steady s5 _ [CallCrunch c tid now (u64 (stop - start))] (emit_keeps env _ s5 (proj1 H5)) eq_refl) as H6.
  destruct (crunch_overrun_steady tid now (u64 (stop - start)) _ (proj1 H6)) as (go & s7 & calls & -> & H7 & Hab).
  exists go, s7, ([CallCrunch c tid now (u64 (stop - start))] ++ calls). split; [done|]. split.
  - exact (steady_trans _ _ _ _ _ H13 (steady_trans _ _ _ _ _ H4 (steady_trans _ _ _ _ _ H5 (steady_trans _ _ _ _ _ H6 H7)))).
  - constructor; [done|]. eapply Forall_impl; [exact Hab|]. by intros ? <-.
Qed.

(** *** A turn of the flat loop *)

Lemma slot_task_registered s c core t tid :
  sy_cores s !! c = Some core -> registered core !! t = Some (Some tid) -> slot_task s c t = Some tid.
Proof. intros Hc Ht. unfold slot_task. rewrite Hc. cbn [mbind option_bind]. by rewrite Ht. Qed.

Lemma ring_at_task s m tid : sys_wf env s -> 0 < sy_backgroundTaskCount s -> ring_at s m = Some tid -> tid ∈ ring_tasks s.
Proof.
  intros Hwf Hn. unfold ring_at, ring_tasks. set (i := _ mod _). assert (Hi : i < sy_backgroundTaskCount s) by (apply Nat.mod_upper_bound; lia).
  destruct (sy_backgroundTasks s !! i) as [x|] eqn:E; [|done]. cbn. intros Hx. subst x. apply list_elem_of_omap. exists (Some tid).
  split; [|done]. apply list_elem_of_lookup. exists i. by rewrite lookup_take_lt.
Qed.

(** A call of a tick is told by the projections of the trace. *)
Lemma tick_calls c now s core calls :
  Forall (tick_kind (fun tid => Some tid ∈ registered core) now) calls -> sy_cores s !! c = Some core ->
  (forall x, x ∈ ticks_of calls -> x ∈ mjoin (slot_calls env c (cd_tasks core) now s <$> seq 0 (cd_taskCount core))) ->
  (forall tid, tid ∈ backgrounds_of calls -> c = sy_backgroundCoreId s /\ tid ∈ ring_tasks s) ->
  Forall (phase_call c Tick s) calls.
Proof.
  intros Hk Hcore Ht Hb. rewrite Forall_forall in *. intros call Hin. specialize (Hk call Hin). destruct call as [tid|c' t tid now'|tid now'|tid| |]; try done.
  - assert (Hx : (c', t, tid, now') ∈ ticks_of calls) by (apply list_elem_of_omap; by exists (CallTick c' t tid now')).
    apply Ht, list_elem_of_join in Hx as (l & Hx & (k & -> & Hin')%list_elem_of_fmap). apply elem_of_seq in Hin'. unfold slot_calls in Hx.
    destruct (cd_tasks core !! k) as [[tid'|]|] eqn:E; [|by apply not_elem_of_nil in Hx..].
    destruct (dispatches env tid' _ now); [|by apply not_elem_of_nil in Hx]. apply list_elem_of_singleton in Hx. injection Hx as -> -> -> ->.
    split; [done|]. eapply slot_task_registered; [done|]. unfold registered. by rewrite lookup_take_lt by lia.
  - apply Hb, list_elem_of_omap. by exists (CallBackground tid now').
  - apply list_elem_of_lookup in Hk as [t Hk]. exists t. by eapply slot_task_registered.
Qed.

#[local] Instance tick_kind_ticks P now : Ticks (tick_kind P now) P now.
Proof. by intros c Hc. Qed.

Lemma tick_steady c now s core :
  sys_wf env s -> sy_built s = true -> c < kCoreCount env -> sy_cores s !! c = Some core ->
  exists s' calls, sys_tick env c now s = Some s' /\ steady s calls s' /\ Forall (phase_call c Tick s) calls.
Proof.
  intros Hwf Hb Hc Hcore.
  destruct (tick_ok env c now s core Henv Hwf Hb Hc Hcore) as (s' & calls & E & Hwf' & Hl & _ & Ht & Hti & _ & Hbg).
  exists s', calls. split; [done|]. split.
  { split; [done|]. split; [|done]. unfold layout in Hl. unfold fixed. congruence. }
  pose proof (runs_sys_tick env (fun _ => True) true (tick_kind (fun tid => Some tid ∈ registered core) now) (fun tid => Some tid ∈ registered core) c now s) as Hkind.
  destruct (Hkind ltac:(intros core' tid Hc' Hin; congruence) s' E) as (_ & es & Ht' & Hk%allowed_calls & _). cbn [id] in Ht'. rewrite Ht in Ht'.
  apply app_inv_head in Ht'. rewrite <- Ht' in Hk. eapply tick_calls; [done|done|by rewrite Hti|]. intros tid Hin. case_decide as Hd; [|destruct Hbg as [Hn _]; rewrite Hn in Hin; by apply not_elem_of_nil in Hin].
  destruct Hbg as (s2 & gap & used & s3 & cs3 & Hwf2 & Hcnt & _ & Hat & Hrr & _ & Hrun & Ht3 & Hbs & _).
  destruct (tick_background_ok env 0 (sy_backgroundTaskCount s) gap 0 now s2 Henv Hwf2)
    as (used' & s3' & cs3' & j & broke & Hrun' & _ & Ht3' & _ & _ & Hba & _); [lia|].
  rewrite Hrun in Hrun'. injection Hrun' as <- <-. rewrite Ht3 in Ht3'. apply app_inv_head in Ht3' as <-. rewrite Hbs, Hba in Hin.
  apply list_elem_of_omap in Hin as (m & _ & Hm). rewrite Hat in Hm. split; [apply Hd|]. by eapply ring_at_task; [|apply Hd|].
Qed.

Lemma flat_turn_steady c s core :
  sys_wf env s -> sy_built s = true -> c < kCoreCount env -> sy_cores s !! c = Some core ->
  exists s' calls, phase_step env c Tick s = Some (Dispatch, s') /\ steady s calls s' /\ Forall (phase_call c Tick s) calls.
Proof.
  intros Hwf Hb Hc Hcore. cbn [phase_step]. pose proof (now_steady s Hwf) as H2. destruct (sys_now env s) as [now s2]. cbn [snd] in H2.
  pose proof H2 as (Hwf2 & F2 & _). unfold fixed in F2.
  destruct (tick_steady c now s2 core) as (s3 & calls & -> & H3 & Hq); [done|congruence|done|congruence|].
  cbn [mbind option_bind]. exists s3, calls. split; [done|]. split; [exact (steady_trans _ _ _ _ _ H2 H3)|].
  eapply Forall_impl; [exact Hq|]. unfold phase_call, slot_task, ring_tasks. intros call.
  replace (sy_cores s2) with (sy_cores s) by congruence. replace (sy_backgroundTasks s2) with (sy_backgroundTasks s) by congruence.
  replace (sy_backgroundTaskCount s2) with (sy_backgroundTaskCount s) by congruence. by replace (sy_backgroundCoreId s2) with (sy_backgroundCoreId s) by congruence.
Qed.

(** *** The barriers *)

#[local] Existing Instance sys_sync.

Lemma state_steady st c s :
  sys_wf env s -> c < kCoreCount env -> exists s', at_sync env (fun H => @setState _ H st c) s = Some s' /\ steady s [] s'.
Proof.
  intros Hwf Hc. destruct (@setState_spec _ (sys_sync env) _ (sys_sync_spec env Henv) st c (sy_shared s)) as (h & E & Hh & _); [apply (wf_shared _ _ Hwf)|done|].
  unfold at_sync. rewrite E. eexists. split; [done|]. by apply set_shared_steady.
Qed.

Lemma error_steady c reason s :
  sys_wf env s -> c < kCoreCount env -> exists s', at_sync env (fun H => @setError _ H c reason) s = Some s' /\ steady s [] s'.
Proof.
  intros Hwf Hc. destruct (@setError_spec _ (sys_sync env) _ (sys_sync_spec env Henv) c reason (sy_shared s)) as (h & E & Hh & _); [apply (wf_shared _ _ Hwf)|done|].
  unfold at_sync. rewrite E. eexists. split; [done|]. by apply set_shared_steady.
Qed.

Lemma scan_error_follows c e i s :
  sys_wf env s -> polling (ScanError e i) -> exists p', scan_error env e i s = Some (p', s) /\ follows s c (ScanError e i) p'.
Proof.
  intros Hwf [He Hi]. pose proof (so_sync _ _ (wf_shared _ _ Hwf)) as Hl. unfold scan_error.
  destruct (load_ok (sh_sync (sy_shared s)) i) as [st ->]; [lia|]. cbn [mbind option_bind]. eexists. split; [done|].
  repeat case_decide; [by left|by right; left|right; right]. split; [lia|done].
Qed.

Lemma scan_ready_follows c e i s :
  sys_wf env s -> polling (ScanReady e i) -> exists p', scan_ready env e i s = Some (p', s) /\ follows s c (ScanReady e i) p'.
Proof.
  intros Hwf [He Hi]. pose proof (so_sync _ _ (wf_shared _ _ Hwf)) as Hl. unfold scan_ready.
  destruct (load_ok (sh_sync (sy_shared s)) i) as [st ->]; [lia|]. cbn [mbind option_bind]. rewrite wrap_id by (unfold in_word; lia). eexists. split; [done|].
  repeat case_decide; [by left|by right; left|right; right]. split; [lia|done].
Qed.

Lemma scan_down_follows c e i s :
  sys_wf env s -> polling (ScanDown e i) -> exists p', scan_down env e i s = Some (p', s) /\ follows s c (ScanDown e i) p'.
Proof.
  intros Hwf [He Hi]. pose proof (so_sync _ _ (wf_shared _ _ Hwf)) as Hl. unfold scan_down.
  destruct (load_ok (sh_sync (sy_shared s)) i) as [st ->]; [lia|]. cbn [mbind option_bind]. rewrite wrap_id by (unfold in_word; lia). eexists. split; [done|].
  repeat case_decide; [by left|by right; left|right; right]. split; [lia|done].
Qed.

(** ** A step *)

Lemma steady_stepped c p s p' s' calls :
  advance c p s = s -> p <> Init -> steady s calls s' -> follows s c p p' ->
  Forall (phase_call c p s) calls -> stepped c p s p' s' calls.
Proof.
  intros Ha Hp (H1 & H2 & H3) Hf Hq. split; [done|by rewrite Ha|done| |done]. unfold step_calls. rewrite Ha. by destruct p.
Qed.

Lemma enter_crunch c s core tid :
  sys_wf env s -> sy_cores s !! c = Some core -> cd_mode core = CRUNCH -> cd_crunchTask core = Some tid ->
  exists p' s' calls, enter_dispatch env c s = Some (p', s') /\ stepped c Enter s p' s' calls.
Proof.
  intros Hwf Hcore Hm Hk. unfold enter_dispatch, load. rewrite Hcore. cbn [mbind option_bind]. rewrite Hm, Hk.
  assert (Hc : crunch_of s c = Some tid) by (unfold crunch_of; rewrite Hcore; cbn [mbind option_bind]; by rewrite Hm).
  set (s1 := set_crunch (configure _ _ _) s). assert (Ha : advance c Enter s = s1) by (unfold advance; by rewrite Hc).
  assert (Hwf1 : sys_wf env s1) by (by destruct Hwf; split).
  pose proof (set_overruns_steady 0 0 s1 Hwf1) as H2. cbv zeta. set (s2 := set_crunch (set_overruns 0 0 _) s1) in *.
  assert (Hf : forall p', p' = Crunch \/ p' = Leave -> follows s c Enter p') by (intros p' Hp'; right; by rewrite Hc).
  destruct (isSafetyAborted (sy_shared s2)).
  - destruct (soft_abort_steady tid s2 (proj1 H2) eq_refl) as (s3 & -> & H3). destruct (steady_trans _ _ _ _ _ H2 H3) as (W3 & F3 & T3).
    eexists Leave, s3, _. split; [done|]. split; [done|by rewrite Ha|exact T3| |by auto]. cbn [step_calls]. rewrite Ha. by repeat constructor.
  - destruct H2 as (W2 & F2 & T2). eexists Crunch, s2, []. split; [done|]. split; [done|by rewrite Ha|exact T2|by cbn|by auto].
Qed.

(** The rest of a core's step behind its last access to the kernel state. *)
Lemma changed_ok ch c s : sys_wf env s -> c < kCoreCount env ->
  exists s', changed ch c s = Some (change_next ch WriteIt (sy_kernelState s), s') /\ sys_wf env s' /\ sy_trace s' = sy_trace s /\
    fixed s' = fixed (match ch with ToRunning => set_coreInitialized (<[c := true]> (sy_coreInitialized s)) s | _ => s end).
Proof.
  intros Hwf Hc. destruct ch; cbn [changed]; try (by exists s). rewrite store_ok by (by rewrite (wf_inits _ _ Hwf)). cbn [mbind option_bind].
  eexists. split; [done|]. split; [|done]. destruct Hwf. split; try done. cbn. by rewrite length_insert.
Qed.

Lemma change_ok ch a c s :
  sys_wf env s -> c < kCoreCount env ->
  exists s', change_step ch a c s = Some (change_next ch a (sy_kernelState s), s') /\ sys_wf env s' /\ sy_trace s' = sy_trace s /\
    fixed s' = fixed (advance c (Change ch a) s).
Proof.
  intros Hwf Hc. unfold change_step, advance, change_next, change_ends. destruct a.
  - case_bool_decide as Hg; [rewrite decide_True by done; exists s; by destruct ch|]. rewrite decide_False by done. cbn [negb].
    destruct (changed_ok ch c s Hwf Hc) as (s' & E & H1 & H2 & H3). exists s'. split; [by rewrite E|]. by destruct ch.
  - destruct (valid_transition (sy_kernelState s) (target ch)) eqn:Hv; cbn [negb]; [exists s; by destruct ch|].
    destruct (log_steady INVALID_STATE 0 (f_of_Z (state_byte (target ch))) s Hwf) as (s1 & -> & H1 & F1 & T1). cbn [mbind option_bind].
    destruct (changed_ok ch c s1 H1 Hc) as (s' & E & H2 & T2 & F2). exists s'. split; [by rewrite E|]. split; [done|]. split; [by rewrite T2, T1, app_nil_r|].
    rewrite F2. unfold fixed in *. destruct ch; cbn in *; congruence.
  - destruct (changed_ok ch c (set_kernelState (target ch) s)) as (s' & E & H2 & T2 & F2); [by apply set_kernelState_wf|done|]. exists s'.
    split; [by rewrite E|]. split; [done|]. split; [done|]. rewrite F2. by destruct ch.
Qed.

Lemma sync_setInit_steady c s : sys_wf env s -> c < kCoreCount env -> exists s', sync_setInit env c s = Some s' /\ steady s [] s'.
Proof. intros Hwf Hc. destruct (sync_setInit_ok env Henv c s Hwf Hc) as (s' & -> & h & -> & Hh). eexists. split; [done|]. by apply set_shared_steady. Qed.

(** A step of a core that was not initialised before, and that is in the crunch loop only with a
    crunch task configured. *)
Lemma phase_step_ok c p s :
  sys_wf env s -> sy_built s = true -> c < kCoreCount env -> polling p ->
  (p = Prepare -> sy_coreInitialized s !! c = Some false) -> (crunching p = true -> is_Some (m_task (sy_crunch s))) ->
  exists p' s' calls, phase_step env c p s = Some (p', s') /\ stepped c p s p' s' calls.
Proof.
  intros Hwf Hb Hc Hp Hi Hcr. destruct (lookup_lt_is_Some_2 (sy_cores s) c) as [core Hcore]; [by rewrite (proj1 (wf_cores _ _ Hwf))|].
  assert (Hquiet : forall p' s', advance c p s = s -> p <> Init -> steady s [] s' -> follows s c p p' -> stepped c p s p' s' [])
    by (intros; by apply steady_stepped).
  assert (Hstay : forall p', advance c p s = s -> p <> Init -> follows s c p p' -> stepped c p s p' s [])
    by (intros; apply Hquiet; [done|done|by apply steady_refl|done]).
  destruct p as [| |ch a| | |e|e i|e i| | | | | | | | | |e|e i|]; cbn [phase_step].
  - rewrite Hb, decide_False by lia. cbn [negb]. destruct (sync_setInit_steady c s Hwf Hc) as (s' & -> & H). eexists _, _, []. split; [done|]. by apply Hquiet.
  - unfold load. rewrite Hi by done. cbn [mbind option_bind]. destruct (change_ok ToInitializing TestIt c s Hwf Hc) as (s' & -> & H1 & H2 & H3).
    eexists _, _, []. split; [done|]. split; [exact H1|exact H3|by rewrite H2, app_nil_r|constructor|done].
  - destruct (change_ok ch a c s Hwf Hc) as (s' & -> & H1 & H2 & H3). eexists _, _, []. split; [done|]. split; [exact H1|exact H3|by rewrite H2, app_nil_r|constructor|done].
  - destruct (init_core_ok env c s core Henv Hwf Hcore) as (s' & -> & Hk & Ht). cbn [mbind option_bind]. eexists _, _, _. split; [done|].
    destruct (keeps_steady s s' _ Hk Ht) as (H1 & H2 & H3). split; [done|done|exact H3|unfold step_calls, core_inits, startup_calls; by rewrite Hcore|done].
  - destruct (kMultiCore env); [|eexists _, s, []; split; [done|]; apply Hstay; [done|done|by right]].
    destruct (state_steady CS_READY c s Hwf Hc) as (s' & E & H). unfold setReady. rewrite E. cbn [mbind option_bind].
    eexists _, s', []. split; [done|]. apply Hquiet; [done|done|done|by left].
  - case_decide; [eexists _, s, []; split; [done|]; apply Hstay; [done|done|by left]|].
    edestruct (error_steady c) as (s' & -> & H'); [done..|]. eexists _, s', []. split; [done|]. apply Hquiet; [done|done|done|by right].
  - destruct (scan_error_follows c e i s Hwf Hp) as (p' & -> & H). eexists _, s, []. split; [done|]. by apply Hstay.
  - destruct (scan_ready_follows c e i s Hwf Hp) as (p' & -> & H). eexists _, s, []. split; [done|]. by apply Hstay.
  - edestruct (error_steady c) as (s' & -> & H'); [done..|]. eexists _, s', []. split; [done|]. by apply Hquiet.
  - destruct (crunch_of s c) as [tid|] eqn:E.
    + unfold crunch_of in E. rewrite Hcore in E. cbn [mbind option_bind] in E. destruct (cd_mode core) eqn:Hm; [done|]. by eapply enter_crunch.
    + exists Dispatch, s, []. assert (Ha : advance c Enter s = s) by (unfold advance; by rewrite E). split; [|apply Hstay; [done|done|by left]].
      unfold enter_dispatch, load. unfold crunch_of in E. rewrite Hcore in *. cbn [mbind option_bind] in *. destruct (cd_mode core); [done|]. by rewrite E.
  - unfold loop_head. eexists _, s, []. split; [done|]. apply Hstay; [done|done|]. cbn. by destruct (isActiveState _).
  - destruct (stops_steady s Hwf) as (fired & s1 & -> & H1). cbn [mbind option_bind]. eexists _, s1, []. split; [done|]. apply Hquiet; [done|done|done|].
    destruct fired; [by right|by left].
  - destruct (flat_turn_steady c s core Hwf Hb Hc Hcore) as (s' & calls & E & H & Hq). exists Dispatch, s', calls. split; [exact E|]. by apply steady_stepped.
  - unfold loop_head. eexists _, s, []. split; [done|]. apply Hstay; [done|done|]. cbn. by destruct (isActiveState _).
  - destruct (stops_steady s Hwf) as (fired & s1 & -> & H1). cbn [mbind option_bind]. eexists _, s1, []. split; [done|]. apply Hquiet; [done|done|done|].
    destruct fired; [by right|by left].
  - destruct (Hcr eq_refl) as [tid Htid]. destruct (crunch_iteration_steady c tid s Hwf Hc Htid) as (go & s' & calls & -> & H & Hq). cbn [mbind option_bind].
    eexists _, s', calls. split; [done|]. apply steady_stepped; [done|done|done| |done]. destruct go; [by left|by right].
  - destruct (kMultiCore env); [|eexists _, s, []; split; [done|]; apply Hstay; [done|done|by right]].
    destruct (state_steady CS_SHUTDOWN c s Hwf Hc) as (s' & E & H). unfold setShutdown. rewrite E. cbn [mbind option_bind].
    eexists _, s', []. split; [done|]. apply Hquiet; [done|done|done|by left].
  - case_decide; (eexists _, s, []; split; [done|]); apply Hstay; [done|done|by left|done|done|by right].
  - destruct (scan_down_follows c e i s Hwf Hp) as (p' & -> & H). eexists _, s, []. split; [done|]. by apply Hstay.
  - exists Returned, s, []. split; [done|]. by apply Hstay.
Qed.
End turns.
