(* ===== verification/AllCores.v ===== *)
(** * What holds of a device with all its cores

    The invariant of the machine of [Multicore], from [build] on and for every order of the
    cores' steps. *)

From S2P Require Import Prelude Cores Float32 Frame Protocol Queue Metrics ErrorLog Telemetry Sync Kernel Sched Crunch Run Builder Safety Cli Comms Pipeline Config Device KernelTasks Session Effects Multicore Turns.

(** ** The course of the machine *)

(** The core has made the calls of [init]; and it has returned from it. *)
Definition prepared (p : run_phase) : bool := match p with Begin | Prepare | Change ToInitializing _ | Init => false | _ => true end.
Definition initialised (p : run_phase) : bool := match p with Change ToRunning _ => false | _ => prepared p end.

(** The state in which a core in this phase would have the kernel. *)
Definition owns (p : run_phase) : KernelState :=
  match p with
  | Begin | Prepare => CONFIGURED
  | Change ch _ => guard ch
  | Init => INITIALIZING
  | Arrive | Await _ | ScanError _ _ | ScanReady _ _ | Fail | Enter => RUNNING
  | Dispatch | Stops | Tick | Crunch | CrunchStops | CrunchTurn => RUNNING
  | Depart | Wait _ | ScanDown _ _ | Returned => SHUTDOWN
  end.

(** The state of the kernel is that of one of its cores; at first, of all of them. *)
Definition state_held (k : KernelState) (ps : list run_phase) : Prop :=
  match k with
  | CONFIGURED => Forall (fun p => owns p = CONFIGURED) ps
  | _ => Exists (fun p => owns p = k) ps
  end.

(** The tasks initialised in a trace. *)
Definition inits_in (calls : list call) : list nat := omap (fun c => match c with CallInit tid => Some tid | _ => None end) calls.

(** What a call needs, behind the calls [pre]: a task is called by the core it was registered
    on, and it has been initialised. *)
Definition lawful {W} (s : System W) (pre : list call) (call : call) : Prop :=
  match call with
  | CallInit _ => True
  | CallTick c t tid _ => slot_task s c t = Some tid /\ CallInit tid ∈ pre
  | CallBackground tid _ => tid ∈ ring_tasks s /\ CallInit tid ∈ pre
  | CallOverrun tid => (exists c t, slot_task s c t = Some tid) /\ CallInit tid ∈ pre
  | CallCrunch c tid _ _ => is_Some (crunch_of s c) /\ (exists c', crunch_of s c' = Some tid) /\ CallInit tid ∈ pre
  | CallCrunchAbort tid => (exists c, crunch_of s c = Some tid) /\ CallInit tid ∈ pre
  end.

(** Every call of a trace has what it needs. *)
Inductive obeys {W} (s : System W) : list call -> Prop :=
  | obeys_nil : obeys s []
  | obeys_snoc pre call : obeys s pre -> lawful s pre call -> obeys s (pre ++ [call]).

Lemma elem_of_inits_in tid calls : tid ∈ inits_in calls <-> CallInit tid ∈ calls.
Proof.
  unfold inits_in. rewrite list_elem_of_omap. split; [|intros H; by exists (CallInit tid)].
  intros (c & Hc & E). destruct c; try done. by injection E as ->.
Qed.

Lemma inits_in_app xs ys : inits_in (xs ++ ys) = inits_in xs ++ inits_in ys.
Proof. apply omap_app. Qed.

Lemma lawful_mono {W} (s : System W) pre pre' call : (forall c, c ∈ pre -> c ∈ pre') -> lawful s pre call -> lawful s pre' call.
Proof. intros H. destruct call; cbn; naive_solver. Qed.

Lemma obeys_app {W} (s : System W) calls new : obeys s calls -> Forall (lawful s calls) new -> obeys s (calls ++ new).
Proof.
  intros Ho. induction new as [|call new IH] using rev_ind; intros Hn; [by rewrite app_nil_r|]. apply Forall_app in Hn as [Hn Hc].
  rewrite app_assoc. constructor; [by apply IH|]. rewrite Forall_singleton in Hc. eapply lawful_mono; [|exact Hc].
  intros c Hin. apply elem_of_app. by left.
Qed.

Section course.
Context {W : Type} (env : Env W).
Abbreviation System := (System W).
Implicit Types s : System.

(** ** The invariant *)

(** What [build] has decided once and for all. *)
Definition plan s :=
  (sy_cores s, sy_backgroundTasks s, sy_backgroundTaskCount s, sy_backgroundCoreId s, sy_built s, (sy_stopConditions s, sy_stopConditionCount s)).

Lemma plan_same s s' : plan s' = plan s ->
  (forall c, crunch_of s' c = crunch_of s c) /\ (forall c t, slot_task s' c t = slot_task s c t) /\
  ring_tasks s' = ring_tasks s /\ (forall c, core_inits s' c = core_inits s c) /\ sy_built s' = sy_built s.
Proof.
  unfold plan. intros H. injection H as E1 E2 E3 E4 E5 _ _. unfold crunch_of, slot_task, ring_tasks, core_inits, startup_calls.
  rewrite E1, E2, E3, E4, E5. done.
Qed.

(** From the start [s0], with these calls, to the machine [m]. *)
Record course (s0 : System) (calls : list call) (m : multi) : Prop := {
  co_wf : sys_wf env (mu_system m);
  co_plan : plan (mu_system m) = plan s0;
  co_phases : length (mu_phases m) = kCoreCount env;
  co_polling : Forall (polling env) (mu_phases m);
  co_trace : sy_trace (mu_system m) = sy_trace s0 ++ calls;
  co_lawful : obeys s0 calls;
  co_state : state_held (sy_kernelState (mu_system m)) (mu_phases m);
  co_initialized : forall c p, mu_phases m !! c = Some p -> sy_coreInitialized (mu_system m) !! c = Some (initialised p);
  co_inits : exists order, NoDup order /\
    (forall c, c ∈ order <-> exists p, mu_phases m !! c = Some p /\ prepared p = true) /\
    inits_in calls = mjoin ((fun c => inits_in (core_inits s0 c)) <$> order);
  co_crunch : forall c p, mu_phases m !! c = Some p -> crunching p = true ->
    is_Some (crunch_of s0 c) /\ exists tid c', m_task (sy_crunch (mu_system m)) = Some tid /\ crunch_of s0 c' = Some tid /\ CallInit tid ∈ calls;
}.

(** A kernel behind [build]: no core has run. *)
Record fresh s : Prop := {
  fr_wf : sys_wf env s;
  fr_built : sy_built s = true;
  fr_state : sy_kernelState s = CONFIGURED;
  fr_inits : Forall (fun i => i = false) (sy_coreInitialized s);
}.

Lemma course_start s : fresh s -> course s [] (multi_start env s).
Proof.
  intros [Hwf Hb Hk Hi]. assert (Hbegin : forall c p, replicate (kCoreCount env) Begin !! c = Some p -> p = Begin) by (by intros c p [-> _]%lookup_replicate).
  split; cbn; try done.
  - apply length_replicate.
  - by apply Forall_replicate.
  - by rewrite app_nil_r.
  - constructor.
  - rewrite Hk. by apply Forall_replicate.
  - intros c p Hp. pose proof (lookup_lt_Some _ _ _ Hp) as Hlt. rewrite length_replicate in Hlt. apply Hbegin in Hp as ->. cbn.
    destruct (lookup_lt_is_Some_2 (sy_coreInitialized s) c) as [i E]; [by rewrite (wf_inits _ _ Hwf)|]. rewrite Forall_lookup in Hi.
    by rewrite E, (Hi c i E).
  - exists []. split; [constructor|]. split; [|done]. intros c. split; [by intros ?%elem_of_nil|]. by intros (p & ->%Hbegin & ?).
  - by intros c p ->%Hbegin.
Qed.

(** The tasks a core calls are those it initialises. *)
Lemma core_inits_cases s c core tid :
  sy_cores s !! c = Some core ->
  Some tid ∈ registered core \/ crunch_of s c = Some tid \/ (c = sy_backgroundCoreId s /\ tid ∈ ring_tasks s) ->
  tid ∈ inits_in (core_inits s c).
Proof.
  intros Hcore H. rewrite elem_of_inits_in. unfold core_inits, startup_calls. rewrite Hcore, !elem_of_app. 
  assert (Hin : forall l, Some tid ∈ l -> CallInit tid ∈ inits_of l).
  { intros l Hl. unfold inits_of. apply list_elem_of_fmap. exists tid. split; [done|]. apply list_elem_of_omap. by exists (Some tid). }
  destruct H as [H|[H|[-> H]]]; [left; by apply Hin|right; left|right; right].
  - unfold crunch_of in H. rewrite Hcore in H. cbn [mbind option_bind] in H. destruct (cd_mode core); [done|]. rewrite H, decide_True by done. left.
  - rewrite decide_True by done. apply Hin. unfold ring_tasks in H. apply list_elem_of_omap in H as (x & Hx & E). cbn in E. by subst x.
Qed.

Lemma slot_task_core s c t tid : slot_task s c t = Some tid -> exists core, sy_cores s !! c = Some core /\ Some tid ∈ registered core.
Proof.
  unfold slot_task. destruct (sy_cores s !! c) as [core|]; cbn [mbind option_bind]; [|done]. destruct (registered core !! t) as [x|] eqn:E; cbn [mbind option_bind]; [|done].
  intros ->. exists core. split; [done|]. apply list_elem_of_lookup. by exists t.
Qed.

Lemma course_inited s0 calls m c p tid :
  course s0 calls m -> mu_phases m !! c = Some p -> prepared p = true -> tid ∈ inits_in (core_inits s0 c) -> CallInit tid ∈ calls.
Proof.
  intros [_ _ _ _ _ _ _ _ (order & _ & Ho & E) _] Hp Hpr Hin. apply elem_of_inits_in. rewrite E. apply list_elem_of_join.
  exists (inits_in (core_inits s0 c)). split; [done|]. apply list_elem_of_fmap. exists c. split; [done|]. apply Ho. by exists p.
Qed.

(** ** A step keeps it *)

Definition prepared_next (p : run_phase) : bool := match p with Init => true | _ => prepared p end.

(** What a step does to the core's phase. *)
Lemma follows_facts s c p p' :
  c < kCoreCount env -> follows env s c p p' -> polling env p -> polling env p' /\ prepared p' = prepared_next p /\ (p' = Prepare -> p = Begin) /\
    (crunching p' = true -> crunching p = true \/ (p = Enter /\ is_Some (crunch_of s c))).
Proof.
  intros Hc H Hp. destruct p as [| |ch a| | |e|e i|e i| | | | | | | | | |e|e i|]; cbn in H, Hp;
    try (destruct ch, a; unfold change_next in H; destruct (change_ends _ _ _));
    try (unfold change_next in H; destruct (change_ends _ _ _)); try (destruct (isActiveState _));
    destruct_or?; destruct_and?; destruct_or?; subst; cbn; intuition (discriminate || lia).
Qed.

(** A core whose state the kernel is in takes the state on with it. *)
Lemma follows_owns s c p p' :
  follows env s c p p' ->
  (sy_kernelState (advance c p s) = sy_kernelState s /\ (owns p = sy_kernelState s -> owns p' = sy_kernelState s)) \/
  (owns p' = sy_kernelState (advance c p s) /\ owns p' <> CONFIGURED).
Proof.
  intros H. destruct p as [| |ch a| | |e|e i|e i| | | | | | | | | |e|e i|]; cbn [follows] in H;
    try (left; split; [done|]; cbn [owns]; try destruct (isActiveState _); destruct_or?; destruct_and?; destruct_or?; subst; (done || by intros <-)).
  - destruct a; [left..|right].
    + split; [destruct ch; cbn; by repeat case_match|]. cbn [owns]. intros E. subst p'. rewrite <- E. unfold change_next. cbn. by destruct ch.
    + split; [destruct ch; cbn; by repeat case_match|]. cbn [owns]. intros E. subst p'. rewrite <- E. by destruct ch.
    + subst p'. by destruct ch.
  - left. split; [cbn; by destruct (crunch_of s c)|]. cbn [owns]. destruct_or?; destruct_and?; destruct_or?; subst; by intros <-.
Qed.

Lemma advance_state c p s (ps : list run_phase) p' :
  ps !! c = Some p -> state_held (sy_kernelState s) ps -> follows env s c p p' -> state_held (sy_kernelState (advance c p s)) (<[c := p']> ps).
Proof.
  intros Hp Hk [[-> Hsame]|[<- Hne]]%follows_owns.
  - assert (Hex : Exists (fun p => owns p = sy_kernelState s) ps -> Exists (fun p => owns p = sy_kernelState s) (<[c := p']> ps)).
    { intros (d & q & Hq & E)%Exists_lookup. apply Exists_lookup. destruct (decide (d = c)) as [->|Hd].
      - exists c, p'. split; [apply list_lookup_insert_eq; by eapply lookup_lt_Some|]. apply Hsame. congruence.
      - exists d, q. by rewrite list_lookup_insert_ne. }
    destruct (sy_kernelState s); cbn in *; auto. apply Forall_insert; [done|]. rewrite Forall_lookup in Hk. eapply Hsame, Hk, Hp.
  - assert (Hex : Exists (fun p => owns p = owns p') (<[c := p']> ps)).
    { apply Exists_lookup. exists c, p'. split; [|done]. apply list_lookup_insert_eq. by eapply lookup_lt_Some. }
    by destruct (owns p').
Qed.

Lemma advance_flag c p s p' i :
  sy_coreInitialized s !! c = Some i -> i = initialised p -> follows env s c p p' -> sy_coreInitialized (advance c p s) !! c = Some (initialised p').
Proof.
  intros Hi -> H. assert (Hlt : c < length (sy_coreInitialized s)) by (by eapply lookup_lt_Some).
  destruct p as [| |ch a| | |e|e i|e i| | | | | | | | | |e|e i|]; cbn [follows] in H;
    try (cbn [advance]; rewrite Hi; try destruct (isActiveState _); destruct_or?; destruct_and?; destruct_or?; subst; done).
  - subst p'. cbn [advance]. rewrite Hi. unfold change_next. by destruct (change_ends _ _ _).
  - subst p'. unfold advance, change_next. destruct ch, a; cbn [change_ends];
      try (destruct (negb _)); cbn; rewrite ?list_lookup_insert_eq by done; done.
  - unfold advance. destruct (crunch_of s c); cbn; rewrite Hi; destruct_or?; destruct_and?; destruct_or?; by subst.
Qed.

Lemma advance_inits c p s (ps : list run_phase) p' :
  ps !! c = Some p -> follows env s c p p' -> (forall c' q, ps !! c' = Some q -> sy_coreInitialized s !! c' = Some (initialised q)) ->
  forall c' q, <[c := p']> ps !! c' = Some q -> sy_coreInitialized (advance c p s) !! c' = Some (initialised q).
Proof.
  intros Hp Hfo H c' q Hq. destruct (decide (c' = c)) as [->|Hne].
  - rewrite list_lookup_insert_eq in Hq by (by eapply lookup_lt_Some). injection Hq as <-. eapply advance_flag; [by apply H|done|done].
  - rewrite list_lookup_insert_ne in Hq by done. apply H in Hq. rewrite <- Hq. destruct p as [| |ch a| | | | | | | | | | | | | | | | |]; try done.
    + destruct ch, a; cbn; try done; try (destruct (negb _); [|done]); cbn; by rewrite list_lookup_insert_ne by done.
    + cbn. by destruct (crunch_of s c).
Qed.

Lemma phase_calls_no_init c p s calls : Forall (phase_call c p s) calls -> inits_in calls = [].
Proof. induction 1 as [|call calls Hc _ IH]; [done|]. unfold inits_in in *. cbn. destruct call; try exact IH. by destruct p. Qed.

Lemma plan_advance c p s : plan (advance c p s) = plan s.
Proof.
  destruct p as [| |ch a| | | | | | | | | | | | | | | | |]; cbn [advance]; try done; [|by destruct (crunch_of s c)].
  destruct ch, a; try done; by destruct (change_ends _ _ _).
Qed.

Lemma fixed_plan s s' : fixed s' = fixed s -> plan s' = plan s.
Proof. unfold fixed, plan. congruence. Qed.

Lemma core_inits_only s c : forall call, call ∈ core_inits s c -> exists tid, call = CallInit tid.
Proof.
  assert (Hin : forall call l, call ∈ inits_of l -> exists tid, call = CallInit tid).
  { intros call l H. unfold inits_of in H. apply list_elem_of_fmap in H as (tid & -> & _). by exists tid. }
  intros call. unfold core_inits, startup_calls. destruct (sy_cores s !! c) as [core|]; [|by intros ?%not_elem_of_nil].
  rewrite !elem_of_app. intros [H|[H|H]]; repeat case_decide; try (by eapply Hin); by apply not_elem_of_nil in H.
Qed.

(** The tasks that were initialised, in the order of the cores. *)
Lemma course_inits s0 calls (ps : list run_phase) new c p p' :
  (exists order, NoDup order /\ (forall c, c ∈ order <-> exists p, ps !! c = Some p /\ prepared p = true) /\
    inits_in calls = mjoin ((fun c => inits_in (core_inits s0 c)) <$> order)) ->
  ps !! c = Some p -> prepared p' = prepared_next p -> inits_in new = (if decide (p = Init) then inits_in (core_inits s0 c) else []) ->
  exists order, NoDup order /\ (forall c', c' ∈ order <-> exists q, <[c := p']> ps !! c' = Some q /\ prepared q = true) /\
    inits_in (calls ++ new) = mjoin ((fun c => inits_in (core_inits s0 c)) <$> order).
Proof.
  intros (order & Hnd & Ho & E) Hp Hpr Hn. rewrite inits_in_app, Hn.
  assert (Hlt : c < length ps) by (by eapply lookup_lt_Some). assert (Hold : c ∈ order <-> prepared p = true) by (rewrite Ho; naive_solver).
  assert (Hother : forall c', c' <> c -> (c' ∈ order <-> exists q, <[c := p']> ps !! c' = Some q /\ prepared q = true)).
  { intros c' Hne. rewrite Ho. by rewrite list_lookup_insert_ne. }
  assert (Hself : (exists q, <[c := p']> ps !! c = Some q /\ prepared q = true) <-> prepared p' = true).
  { rewrite list_lookup_insert_eq by done. naive_solver. }
  case_decide as Hpp.
  - subst p. exists (order ++ [c]). split.
    { apply NoDup_app. split; [done|]. split; [|apply NoDup_singleton]. intros x Hx ->%list_elem_of_singleton. by apply Hold in Hx. }
    split; [|by rewrite fmap_app, join_app, E; cbn; rewrite app_nil_r]. intros c'. rewrite elem_of_app, list_elem_of_singleton.
    destruct (decide (c' = c)) as [->|Hne]; [rewrite Hself, Hpr; intuition|]. rewrite <- Hother by done. intuition.
  - exists order. split; [done|]. split; [|by rewrite app_nil_r]. intros c'. destruct (decide (c' = c)) as [->|Hne]; [|by apply Hother].
    rewrite Hself, Hold, Hpr. by destruct p as [| |[]| | | | | | | | | | | | | | | | |].
Qed.

Lemma crunch_of_core s c tid : crunch_of s c = Some tid -> exists core, sy_cores s !! c = Some core.
Proof. unfold crunch_of. destruct (sy_cores s !! c) as [core|]; [by exists core|done]. Qed.

Lemma course_lawful s0 calls m c p p' s' new :
  course s0 calls m -> mu_phases m !! c = Some p -> stepped env c p (mu_system m) p' s' new -> Forall (lawful s0 calls) new.
Proof.
  intros Hco Hp [_ _ _ Hn _]. pose proof (plan_same _ _ (eq_trans (plan_advance c p (mu_system m)) (co_plan _ _ _ Hco))) as (Ec & Es & Er & _).
  pose proof (co_plan _ _ _ Hco) as Hplan. assert (Hbg : sy_backgroundCoreId (advance c p (mu_system m)) = sy_backgroundCoreId s0).
  { pose proof (eq_trans (plan_advance c p (mu_system m)) Hplan) as H. unfold plan in H. congruence. }
  assert (Hini : prepared p = true -> forall tid core, sy_cores s0 !! c = Some core ->
    Some tid ∈ registered core \/ crunch_of s0 c = Some tid \/ (c = sy_backgroundCoreId s0 /\ tid ∈ ring_tasks s0) -> CallInit tid ∈ calls).
  { intros Hpr tid core Hcore H. eapply course_inited; [exact Hco|exact Hp|exact Hpr|]. by eapply core_inits_cases. }
  assert (Hcore : exists core, sy_cores s0 !! c = Some core).
  { apply lookup_lt_is_Some_2. pose proof (proj1 (wf_cores _ _ (co_wf _ _ _ Hco))) as H. unfold plan in Hplan.
    replace (sy_cores s0) with (sy_cores (mu_system m)) by congruence. rewrite H, <- (co_phases _ _ _ Hco). by eapply lookup_lt_Some. }
  destruct Hcore as [core Hcore]. destruct p as [| |ch a| | | | | | | | | | | | | | | | |]; cbn [step_calls] in Hn;
    try (eapply Forall_impl; [exact Hn|]; intros call H; by destruct call).
  - rewrite Hn. apply Forall_forall. intros call [tid ->]%core_inits_only. done.
  - eapply Forall_impl; [exact Hn|]. intros [] H; try done. cbn [phase_call] in H. rewrite Ec in H. cbn. split; [by exists c|]. eapply Hini; eauto.
  - eapply Forall_impl; [exact Hn|]. intros [|c' t tid now|tid now|tid| |] H; try done; cbn [phase_call] in H; cbn.
    + destruct H as [-> H]. rewrite Es in H. split; [done|]. destruct (slot_task_core _ _ _ _ H) as (core' & Hc' & Hin). eapply Hini; eauto.
    + rewrite Er, Hbg in H. split; [apply H|]. eapply Hini; eauto.
    + destruct H as [t H]. rewrite Es in H. split; [by exists c, t|]. destruct (slot_task_core _ _ _ _ H) as (core' & Hc' & Hin). eapply Hini; eauto.
  - destruct (co_crunch _ _ _ Hco c _ Hp eq_refl) as (Hown & tid & c' & Htid & Hc' & Hin). eapply Forall_impl; [exact Hn|]. cbn [advance].
    intros [| | | |c'' tid'' now e|tid''] H; try done; cbn [phase_call] in H; cbn.
    + destruct H as [-> H]. rewrite Htid in H. injection H as <-. split; [done|]. by split; [exists c'|].
    + rewrite Htid in H. injection H as <-. by split; [exists c'|].
Qed.

(** The task of the one crunch dispatcher. *)
Lemma course_crunch s0 calls m c p p' s' new :
  course s0 calls m -> c < kCoreCount env -> mu_phases m !! c = Some p -> stepped env c p (mu_system m) p' s' new ->
  forall c' q, <[c := p']> (mu_phases m) !! c' = Some q -> crunching q = true ->
    is_Some (crunch_of s0 c') /\ exists tid c2, m_task (sy_crunch s') = Some tid /\ crunch_of s0 c2 = Some tid /\ CallInit tid ∈ calls ++ new.
Proof.
  intros Hco Hc Hp Hst c' q Hc' Hq. pose proof Hst as [_ Hf _ _ Hfo]. assert (Hm : m_task (sy_crunch s') = m_task (sy_crunch (advance c p (mu_system m)))) by (unfold fixed in Hf; congruence).
  destruct (plan_same _ _ (co_plan _ _ _ Hco)) as (Ec & _).
  assert (Hpol : polling env p) by (pose proof (co_polling _ _ _ Hco) as H; rewrite Forall_lookup in H; by eapply H).
  destruct (follows_facts _ _ _ _ Hc Hfo Hpol) as (_ & _ & _ & Hcr).
  assert (Hgrow : forall tid, CallInit tid ∈ calls -> CallInit tid ∈ calls ++ new) by (intros; apply elem_of_app; by left).
  assert (Hset : forall tid, p = Enter -> crunch_of (mu_system m) c = Some tid ->
    exists tid c2, m_task (sy_crunch s') = Some tid /\ crunch_of s0 c2 = Some tid /\ CallInit tid ∈ calls ++ new).
  { intros tid -> Htid. exists tid, c. rewrite Hm. cbn [advance]. rewrite Htid. split; [done|]. rewrite Ec in Htid. split; [done|]. apply Hgrow.
    destruct (crunch_of_core _ _ _ Htid) as [core Hcore]. eapply course_inited; [exact Hco|exact Hp|done|]. eapply core_inits_cases; eauto. }
  assert (Hsame : p <> Enter \/ crunch_of (mu_system m) c = None -> m_task (sy_crunch s') = m_task (sy_crunch (mu_system m))).
  { intros Hne. rewrite Hm. destruct p as [| |ch a| | | | | | | | | | | | | | | | |]; try done.
    - destruct ch, a; try done; cbn [advance]; by destruct (change_ends _ _ _).
    - cbn [advance]. destruct Hne as [?|Hne]; [done|by rewrite Hne]. }
  assert (Hkeep : forall q, (p <> Enter \/ crunch_of (mu_system m) c = None) -> mu_phases m !! c' = Some q -> crunching q = true ->
    is_Some (crunch_of s0 c') /\ exists tid c2, m_task (sy_crunch s') = Some tid /\ crunch_of s0 c2 = Some tid /\ CallInit tid ∈ calls ++ new).
  { intros q2 Hne Hc2 Hq2. destruct (co_crunch _ _ _ Hco c' q2 Hc2 Hq2) as (Hown & tid & c2 & H1 & H2 & H3). split; [done|]. exists tid, c2.
    rewrite Hsame by done. auto. }
  destruct (decide (c' = c)) as [->|Hne].
  - rewrite list_lookup_insert_eq in Hc' by (by eapply lookup_lt_Some). injection Hc' as ->.
    destruct (Hcr Hq) as [Hpc|[-> [tid Htid]]]; [|split; [by rewrite <- Ec, Htid|by eapply Hset]].
    apply (Hkeep p); [left; by intros ->|done|done].
  - rewrite list_lookup_insert_ne in Hc' by done. destruct (decide (p = Enter)) as [->|]; [|by apply (Hkeep q); [left|..]].
    destruct (crunch_of (mu_system m) c) as [tid|] eqn:E; [|by apply (Hkeep q); [right|..]]. split; [apply (co_crunch _ _ _ Hco c' q Hc' Hq)|by eapply Hset].
Qed.

Lemma course_step s0 calls m c :
  env_ok env -> course s0 calls m -> sy_built s0 = true -> c < kCoreCount env ->
  exists p p' s' new, mu_phases m !! c = Some p /\ multi_step env c m = Some (Multi s' (<[c := p']> (mu_phases m))) /\
    stepped env c p (mu_system m) p' s' new /\ course s0 (calls ++ new) (Multi s' (<[c := p']> (mu_phases m))).
Proof.
  intros Henv Hco Hb Hc. pose proof Hco as [Hwf Hplan Hlen Hpol Ht Hlaw Hk Hi Hin Hcr].
  destruct (lookup_lt_is_Some_2 (mu_phases m) c) as [p Hp]; [by rewrite Hlen|]. destruct (plan_same _ _ Hplan) as (_ & _ & _ & Eci & Eb).
  destruct (phase_step_ok env Henv c p (mu_system m)) as (p' & s' & new & E & Hst); [done|by rewrite Eb|done|rewrite Forall_lookup in Hpol; by eapply Hpol| | |].
  { intros ->. apply (Hi c _ Hp). }
  { intros Hcp. destruct (Hcr c p Hp Hcp) as (_ & tid & _ & Htid & _). by rewrite Htid. }
  exists p, p', s', new. split; [done|]. split; [|split; [done|]].
  { unfold multi_step, load. rewrite Hp. cbn [mbind option_bind]. rewrite E. cbn [mbind option_bind]. by rewrite store_ok by (by rewrite Hlen). }
  pose proof (course_lawful _ _ _ _ _ _ _ _ Hco Hp Hst) as Hnew. pose proof (course_crunch _ _ _ _ _ _ _ _ Hco Hc Hp Hst) as Hcr'.
  destruct Hst as [Hwf' Hf Ht' Hn Hfo].
  destruct (follows_facts _ _ _ _ Hc Hfo) as (Hpol' & Hpr & _); [rewrite Forall_lookup in Hpol; by eapply Hpol|].
  assert (Hfx : sy_kernelState s' = sy_kernelState (advance c p (mu_system m)) /\ sy_coreInitialized s' = sy_coreInitialized (advance c p (mu_system m)))
    by (unfold fixed in Hf; split; congruence). destruct Hfx as [Hk' Hi'].
  split; cbn [mu_system mu_phases]; [done| | | | | | | | |exact Hcr'].
  - rewrite <- Hplan, <- (plan_advance c p (mu_system m)). by apply fixed_plan.
  - by rewrite length_insert.
  - by apply Forall_insert.
  - by rewrite Ht', Ht, app_assoc.
  - by apply obeys_app.
  - rewrite Hk'. by apply advance_state.
  - rewrite Hi'. by apply advance_inits.
  - apply (course_inits s0 calls _ new c p p'); [done..|]. case_decide as Hpp.
    + subst p. cbn in Hn. by rewrite Hn, Eci.
    + apply (phase_calls_no_init c p (advance c p (mu_system m))). by destruct p.
Qed.

Lemma course_run s0 cs calls m :
  env_ok env -> sy_built s0 = true -> Forall (fun c => c < kCoreCount env) cs -> course s0 calls m ->
  exists m' new, multi_run env cs m = Some m' /\ course s0 (calls ++ new) m'.
Proof.
  intros Henv Hb Hcs. revert calls m. induction Hcs as [|c cs Hc _ IH]; intros calls m Hco; cbn [multi_run].
  { exists m, []. by rewrite app_nil_r. }
  destruct (course_step s0 calls m c Henv Hco Hb Hc) as (p & p' & s' & new & _ & E & _ & Hco'). rewrite E. cbn [mbind option_bind].
  destruct (IH _ _ Hco') as (m' & new' & E' & Hco2). exists m', (new ++ new'). by rewrite app_assoc.
Qed.

(** ** Behind the shutdown *)

Definition polls (e : Z) : nat := Z.to_nat (2000 - e).

(** How many steps a core has before it at most, once it is initialised and the kernel is being
    shut down: a poll of the start-up barrier scans the cores twice, one of the shutdown barrier
    once. *)
Definition leave_rank : nat := polls 0 * S (kCoreCount env) + 2.
Definition start_rank (turns : nat) : nat := leave_rank + 10 + turns * (2 * kCoreCount env + 1).

Definition steps_left (p : run_phase) : nat :=
  match p with
  | Returned => 0
  | ScanDown e i => (polls e - 1) * S (kCoreCount env) + 1 + (kCoreCount env - i)
  | Wait e => polls e * S (kCoreCount env) + 1
  | Depart => leave_rank
  | Change ToShutdown a => leave_rank + match a with TestIt => 3 | ReadIt => 2 | WriteIt => 1 end
  | Change ToShuttingDown a => leave_rank + match a with TestIt => 6 | ReadIt => 5 | WriteIt => 4 end
  | Dispatch | Crunch => leave_rank + 7
  | Tick | CrunchTurn | Enter => leave_rank + 8
  | Stops | CrunchStops | Fail => leave_rank + 9
  | ScanReady e i => start_rank (polls e - 1) + (kCoreCount env - i)
  | ScanError e i => start_rank (polls e - 1) + (kCoreCount env - i) + kCoreCount env
  | Await e => start_rank (polls e)
  | _ => start_rank (polls 0) + 1
  end.

(** A core that has asked whether the kernel is active may still make its turn. *)
Definition mid_turn (p : run_phase) : bool := match p with Stops | Tick | CrunchStops | CrunchTurn => true | _ => false end.

Definition turns_left (p : run_phase) : nat := if mid_turn p then 1 else 0.

(** A step that is a turn of a dispatch loop; how many of them a core makes in a schedule. *)
Definition turn (p : run_phase) : nat := match p with Tick | CrunchTurn => 1 | _ => 0 end.

Fixpoint turns_made (c : nat) (cs : list nat) (m : multi) : nat :=
  match cs with
  | [] => 0
  | d :: cs =>
      match mu_phases m !! d, multi_step env d m with
      | Some p, Some m => (if decide (c = d) then turn p else 0) + turns_made c cs m
      | _, _ => 0
      end
  end.

(** Which cores' turns a call is part of. *)
Definition called_by s (c : nat) (call : call) : Prop :=
  match call with
  | CallTick c' _ _ _ | CallCrunch c' _ _ _ => c' = c
  | CallBackground _ _ => c = sy_backgroundCoreId s
  | CallOverrun tid => exists t, slot_task s c t = Some tid
  | CallInit _ | CallCrunchAbort _ => False
  end.

(** What is still called: the abort callbacks of crunch tasks, and in the turns of these cores. *)
Definition late_call s (ps : list run_phase) (call : call) : Prop :=
  (exists tid, call = CallCrunchAbort tid) \/ exists c p, ps !! c = Some p /\ mid_turn p = true /\ called_by s c call.

Definition over (k : KernelState) : Prop := k = SHUTTING_DOWN \/ k = SHUTDOWN.

(** A step of an initialised core whose kernel is being shut down. *)
Lemma over_step c p s p' :
  c < kCoreCount env -> over (sy_kernelState s) -> initialised p = true -> follows env s c p p' -> polling env p ->
  over (sy_kernelState (advance c p s)) /\ initialised p' = true /\ steps_left p' <= steps_left p - 1 /\ turn p + turns_left p' <= turns_left p.
Proof.
  intros Hc Ho Hi Hf Hp. assert (Ha : isActiveState (sy_kernelState s) = false) by (by destruct Ho as [-> | ->]).
  destruct p as [| |ch a| | |e|e i|e i| | | | | | | | | |e|e i|]; cbn in Hf, Hp; rewrite ?Ha in Hf; try done;
    try (destruct_or?; destruct_and?; destruct_or?; subst; unfold turns_left; cbn [steps_left turn mid_turn]; (split; [exact Ho|]); (split; [done|]);
      (split; [unfold start_rank, leave_rank; first [nia|unfold polls; nia]|lia])).
  - destruct ch; try done; destruct a; unfold change_next in Hf; cbn [change_ends] in Hf;
      repeat (case_match; try done); subst p'; unfold turns_left; cbn [steps_left turn mid_turn]; (split; [first [exact Ho|by left|by right]|]); (split; [done|]); split; lia.
  - split; [cbn; by destruct (crunch_of s c)|]. destruct_or?; destruct_and?; destruct_or?; subst; unfold turns_left; cbn [steps_left turn mid_turn]; (split; [done|]); split; lia.
Qed.

Record winding (s0 : System) (calls : list call) (m : multi) : Prop := {
  wi_course : course s0 calls m;
  wi_over : over (sy_kernelState (mu_system m));
  wi_ready : Forall (fun p => initialised p = true) (mu_phases m);
}.

Lemma late_mono s c p p' (ps : list run_phase) calls :
  ps !! c = Some p -> turns_left p' <= turns_left p -> Forall (late_call s (<[c := p']> ps)) calls -> Forall (late_call s ps) calls.
Proof.
  intros Hp Hle Hl. eapply Forall_impl; [exact Hl|]. intros call [H|(d & q & Hq & Hm & Hby)]; [by left|right].
  destruct (decide (d = c)) as [->|Hne].
  - rewrite list_lookup_insert_eq in Hq by (by eapply lookup_lt_Some). injection Hq as <-. exists c, p. split; [done|]. split; [|done].
    unfold turns_left in Hle. rewrite Hm in Hle. destruct (mid_turn p); [done|lia].
  - rewrite list_lookup_insert_ne in Hq by done. by exists d, q.
Qed.

(** The calls of such a step. *)
Lemma step_late s0 calls m c p p' s' new :
  course s0 calls m -> mu_phases m !! c = Some p -> initialised p = true -> stepped env c p (mu_system m) p' s' new ->
  Forall (late_call s0 (mu_phases m)) new.
Proof.
  intros Hco Hp Hi [_ _ _ Hn _]. destruct (plan_same _ _ (eq_trans (plan_advance c p (mu_system m)) (co_plan _ _ _ Hco))) as (_ & Es & _).
  assert (Hbg : sy_backgroundCoreId (advance c p (mu_system m)) = sy_backgroundCoreId s0).
  { pose proof (eq_trans (plan_advance c p (mu_system m)) (co_plan _ _ _ Hco)) as H. unfold plan in H. congruence. }
  destruct p as [| |ch a| | | | | | | | | | | | | | | | |]; try done; cbn [step_calls] in Hn; (eapply Forall_impl; [exact Hn|]); intros call H; cbn [phase_call] in H;
    destruct call as [|c' t tid now|tid now|tid|c' tid now el|tid]; try done; try (left; by exists tid);
    right; eexists c, _; (split; [exact Hp|]); (split; [done|]); cbn [called_by]; rewrite <- ?Hbg; try apply H.
  destruct H as [t H]. exists t. by rewrite <- Es.
Qed.

Lemma winding_one s0 calls m c :
  env_ok env -> sy_built s0 = true -> c < kCoreCount env -> winding s0 calls m ->
  exists m' new p, multi_step env c m = Some m' /\ winding s0 (calls ++ new) m' /\ Forall (late_call s0 (mu_phases m)) new /\
    mu_phases m !! c = Some p /\ (forall late, Forall (late_call s0 (mu_phases m')) late -> Forall (late_call s0 (mu_phases m)) late) /\
    forall d q, mu_phases m !! d = Some q -> exists q', mu_phases m' !! d = Some q' /\
      steps_left q' <= steps_left q - (if decide (c = d) then 1 else 0) /\
      (if decide (d = c) then turn p else 0) + turns_left q' <= turns_left q.
Proof.
  intros Henv Hb Hc [Hco Ho Hr]. destruct (course_step s0 calls m c Henv Hco Hb Hc) as (p & p' & s' & new & Hp & E & Hst & Hco').
  assert (Hpol : polling env p) by (pose proof (co_polling _ _ _ Hco) as H; rewrite Forall_lookup in H; by eapply H).
  assert (Hi : initialised p = true) by (rewrite Forall_lookup in Hr; by eapply Hr).
  destruct (over_step c p (mu_system m) p' Hc Ho Hi (st_follows _ _ _ _ _ _ _ Hst) Hpol) as (Ho' & Hi' & Hsteps & Hturns).
  exists (Multi s' (<[c := p']> (mu_phases m))), new, p. split; [done|]. split.
  { split; [done| |by apply Forall_insert]. cbn [mu_system]. pose proof (st_fixed _ _ _ _ _ _ _ Hst) as Hf. unfold fixed in Hf. by replace (sy_kernelState s') with (sy_kernelState (advance c p (mu_system m))) by congruence. }
  split; [by eapply step_late|]. split; [done|]. split; [intros late; apply (late_mono s0 c p p'); [done|lia]|].
  intros d q Hq. cbn [mu_phases]. destruct (decide (d = c)) as [->|Hne].
  - rewrite Hp in Hq. injection Hq as <-. exists p'. rewrite list_lookup_insert_eq by (by eapply lookup_lt_Some). by rewrite decide_True.
  - exists q. rewrite list_lookup_insert_ne, (decide_False (P := c = d)) by done. split; [done|]. lia.
Qed.

Lemma winding_all s0 cs calls m :
  env_ok env -> sy_built s0 = true -> Forall (fun c => c < kCoreCount env) cs -> winding s0 calls m ->
  exists m' new, multi_run env cs m = Some m' /\ winding s0 (calls ++ new) m' /\ Forall (late_call s0 (mu_phases m)) new /\
    forall d q, mu_phases m !! d = Some q -> exists q', mu_phases m' !! d = Some q' /\
      steps_left q' <= steps_left q - count_occ Nat.eq_dec cs d /\ turns_made d cs m + turns_left q' <= turns_left q.
Proof.
  intros Henv Hb Hcs. revert calls m. induction Hcs as [|c cs Hc _ IH]; intros calls m Hw; cbn [multi_run turns_made].
  { exists m, []. rewrite app_nil_r. split_and!; [done..|]. intros d q Hq. exists q. cbn. split; [done|]. lia. }
  destruct (winding_one s0 calls m c Henv Hb Hc Hw) as (m1 & new1 & p & E1 & Hw1 & Hn1 & Hp & Hback & H1). rewrite E1. cbn [mbind option_bind].
  destruct (IH _ _ Hw1) as (m2 & new2 & E2 & Hw2 & Hn2 & H2). exists m2, (new1 ++ new2). rewrite app_assoc. do 2 (split; [done|]).
  split; [apply Forall_app_2; [done|by apply Hback]|]. intros d q Hq. destruct (H1 d q Hq) as (q1 & Hq1 & S1 & T1). destruct (H2 d q1 Hq1) as (q2 & Hq2 & S2 & T2).
  exists q2. split; [done|]. cbn [count_occ]. rewrite Hp.
  split; [destruct (Nat.eq_dec c d), (decide (c = d)); (done || lia)|]. lia.
Qed.

(** The most steps a core takes. *)
Definition wind_down_steps : nat := start_rank (polls 0) + 1.

Lemma steps_left_bound p : polling env p -> steps_left p <= wind_down_steps.
Proof.
  unfold wind_down_steps. assert (Hp : forall e, (0 <= e)%Z -> polls e <= polls 0) by (intros e; unfold polls; lia).
  destruct p as [| |[] []| | |e|e i|e i| | | | | | | | | |e|e i|]; cbn [polling]; intros H; cbn [steps_left]; unfold start_rank, leave_rank;
    try (pose proof (Hp e ltac:(lia))); try (assert (1 <= polls e) by (unfold polls; lia)); nia.
Qed.

Lemma steps_left_zero p : steps_left p = 0 -> p = Returned.
Proof. destruct p as [| |[] []| | |e|e i|e i| | | | | | | | | |e|e i|]; cbn [steps_left]; unfold start_rank, leave_rank; intros; (done || nia). Qed.
End course.

(** A kernel with one CRUNCH core. *)
Lemma obeys_crunch {W} (s : System W) calls c tid now elapsed :
  (forall c1 c2, is_Some (crunch_of s c1) -> is_Some (crunch_of s c2) -> c1 = c2) ->
  obeys s calls -> CallCrunch c tid now elapsed ∈ calls -> crunch_of s c = Some tid.
Proof.
  intros Hone. induction 1 as [|pre call _ IH Hl]; intros Hin; [by apply not_elem_of_nil in Hin|]. apply elem_of_app in Hin as [Hin|<-%list_elem_of_singleton]; [by apply IH|].
  destruct Hl as (Hown & (c' & Hc') & _). by rewrite (Hone c c' Hown).
Qed.

(** A built device is one to start from. *)
Lemma device_fresh {W : Type} (cfg : UserConfig) (app : Env W) (w : W) (ct cm dg : nat) (b : SystemBuilder) (ops : list registration) :
  let env := configured_env cfg app in
  ConfigValidator cfg = true -> env_inv app [] w -> (m_app b = true -> background_count ops < CfgMaxBackgroundTasks cfg) ->
  exists s1 r s2, register_all env ops (boot env (boot_shared env w)) = Some s1 /\
    build env ct cm dg b s1 = Some (r, s2) /\ (r = BuildOk <-> valid_topology env (sy_cores s2)) /\
    (r <> BuildOk -> sy_kernelState s2 = UNCONFIGURED /\ sy_built s2 = false) /\ (r = BuildOk -> fresh env s2).
Proof.
  intros env Hcfg Hinv Hbg. destruct (device_builds cfg app w ct cm dg b ops Hcfg Hinv Hbg) as (s1 & r & s2 & E1 & E2 & Hiff & Hwf2 & Hi & Hst).
  exists s1, r, s2. split_and!; [done..| |]; intros Hr.
  - rewrite decide_False in Hst by done. by injection Hst.
  - rewrite decide_True in Hst by done. injection Hst as Hk Hb. by split.
Qed.

(** ** Properties *)

(** C22 A device with several cores winds down. Once every core has been initialised and the kernel
    is being shut down or is shut down, it stays so, in whatever order the cores take their
    accesses to the kernel state and to the barriers: a core makes at most one further turn of its
    dispatch loop, and that only if it had already asked whether the kernel is active. The calls that
    are still made belong to such turns, or are abort callbacks of crunch tasks. When every core
    has had [wind_down_steps] steps of its own, all have returned from [run], and the kernel is
    shut down. (A core that is held up in [init] can take the kernel back to RUNNING:
    [late_core_revives] in [Cores].) *)
Theorem all_cores_wind_down {W : Type} (env : Env W) (s : System W) (cs1 cs2 : list nat) (m1 : multi) :
  env_ok env -> fresh env s -> Forall (fun c => c < kCoreCount env) cs1 -> Forall (fun c => c < kCoreCount env) cs2 ->
  multi_run env cs1 (multi_start env s) = Some m1 ->
  Forall (fun i => i = true) (sy_coreInitialized (mu_system m1)) -> over (sy_kernelState (mu_system m1)) ->
  exists m2 late, multi_run env cs2 m1 = Some m2 /\ over (sy_kernelState (mu_system m2)) /\
    (forall c p, mu_phases m1 !! c = Some p -> turns_made env c cs2 m1 <= if mid_turn p then 1 else 0) /\
    sy_trace (mu_system m2) = sy_trace (mu_system m1) ++ late /\ Forall (late_call s (mu_phases m1)) late /\
    ((forall c, c < kCoreCount env -> wind_down_steps env <= count_occ Nat.eq_dec cs2 c) ->
       mu_phases m2 = replicate (kCoreCount env) Returned /\ sy_kernelState (mu_system m2) = SHUTDOWN).
Proof.
  intros Henv Hs Hcs1 Hcs2 E1 Hi Ho. destruct (course_run env s cs1 [] _ Henv (fr_built _ _ Hs) Hcs1 (course_start env s Hs)) as (m & calls & E & Hco).
  rewrite E1 in E. injection E as <-. destruct (winding_all env s cs2 calls m1 Henv (fr_built _ _ Hs) Hcs2) as (m2 & late & E2 & [Hco2 Ho2 Hr2] & Hl & Hleft).
  { split; [exact Hco|done|]. apply Forall_lookup. intros c p Hp. rewrite Forall_lookup in Hi. by apply (Hi c), (co_initialized _ _ _ _ Hco). }
  exists m2, late. split; [done|]. split; [done|]. split.
  { intros c p Hp. destruct (Hleft c p Hp) as (q & _ & _ & Ht). unfold turns_left in Ht. lia. }
  split; [by rewrite (co_trace _ _ _ _ Hco2), (co_trace _ _ _ _ Hco), app_assoc|]. split; [done|]. intros Hfair.
  assert (Hend : mu_phases m2 = replicate (kCoreCount env) Returned).
  { apply list_eq_same_length with (kCoreCount env); [by rewrite length_replicate|apply (co_phases _ _ _ _ Hco2)|].
    intros c x y Hc Hx [-> _]%lookup_replicate. destruct (lookup_lt_is_Some_2 (mu_phases m1) c) as [p Hp]; [by rewrite (co_phases _ _ _ _ Hco)|].
    destruct (Hleft c p Hp) as (q & Hq & L & _). rewrite Hx in Hq. injection Hq as <-. apply (steps_left_zero env).
    pose proof (co_polling _ _ _ _ Hco) as Hpol. rewrite Forall_lookup in Hpol. pose proof (steps_left_bound env p (Hpol _ _ Hp)). specialize (Hfair c Hc). lia. }
  split; [exact Hend|]. pose proof (co_state _ _ _ _ Hco2) as Hst. destruct Ho2 as [Ek|Ek]; [|done]. rewrite Ek, Hend in Hst.
  apply Exists_lookup in Hst as (c & x & [-> _]%lookup_replicate & ?). done.
Qed.

(** C1 From power-on through the run of all cores nothing is undefined, and the tasks run on the cores
    they were registered for, but for the crunch tasks of several CRUNCH cores. With a configuration the validator accepts, whatever tasks are
    registered (fewer background tasks than the ring has places when there is an application),
    [build] returns and succeeds exactly on the valid topologies. After a success the cores may
    take their accesses to the kernel state and the barriers in any order: the kernel stays well formed,
    and its state is one that a core has brought about which is still at that point of [run]
    (CONFIGURED: no core has begun). Each core that is past its initialisation has initialised its
    tasks, crunch task and, on the background core, the ring once. A scheduled task is ticked on
    the core and slot it was registered for, a background call is of a task of the ring, and a crunch
    task on a CRUNCH core, each only when it was initialised before. If the device has one CRUNCH
    core, the crunch task that core runs is its own; with several, the one dispatcher they share
    has the task of the core that started last ([crunch_cores_share] below). *)
Theorem device_all_cores {W : Type} (cfg : UserConfig) (app : Env W) (w : W) (ct cm dg : nat) (b : SystemBuilder)
    (ops : list registration) :
  let env := configured_env cfg app in
  ConfigValidator cfg = true -> env_ok env -> env_inv app [] w -> (m_app b = true -> background_count ops < CfgMaxBackgroundTasks cfg) ->
  exists s1 r s2, register_all env ops (boot env (boot_shared env w)) = Some s1 /\
    build env ct cm dg b s1 = Some (r, s2) /\ (r = BuildOk <-> valid_topology env (sy_cores s2)) /\
    (r <> BuildOk -> sy_kernelState s2 = UNCONFIGURED /\ sy_built s2 = false) /\
    (r = BuildOk -> forall cs, Forall (fun c => c < kCoreCount env) cs ->
      exists m calls, multi_run env cs (multi_start env s2) = Some m /\ sys_wf env (mu_system m) /\
        state_held (sy_kernelState (mu_system m)) (mu_phases m) /\
        sy_trace (mu_system m) = sy_trace s2 ++ calls /\ obeys s2 calls /\
        (exists order, NoDup order /\ (forall c, c ∈ order <-> exists p, mu_phases m !! c = Some p /\ prepared p = true) /\
          inits_in calls = mjoin ((fun c => inits_in (core_inits s2 c)) <$> order)) /\
        ((forall c1 c2, is_Some (crunch_of s2 c1) -> is_Some (crunch_of s2 c2) -> c1 = c2) ->
          forall c tid now elapsed, CallCrunch c tid now elapsed ∈ calls -> crunch_of s2 c = Some tid)).
Proof.
  intros env Hcfg Henv Hinv Hbg. destruct (device_fresh cfg app w ct cm dg b ops Hcfg Hinv Hbg) as (s1 & r & s2 & E1 & E2 & Hiff & Hno & Hfr).
  exists s1, r, s2. do 4 (split; [done|]). intros Hr cs Hcs. specialize (Hfr Hr).
  destruct (course_run env s2 cs [] _ Henv (fr_built _ _ Hfr) Hcs (course_start env s2 Hfr)) as (m & calls & E & Hco).
  exists m, calls. split; [done|]. destruct Hco. split_and!; try done. intros Hone c tid now elapsed Hin. by eapply obeys_crunch.
Qed.

(** C2 A session between a host and a device with any number of cores, whose cores take their
    steps in any order: what is written on the line is the handshake and then the answers to the
    commands sent, in order, one of them perhaps still unanswered; and the commands that were
    acknowledged are those the application was given, once and in order, followed by those in
    the queue. *)
Theorem session_all_cores {A : Type} `{!UserApplication (World A)} (cfg : UserConfig) (app : Env (World A)) (long_bits : Z)
    (monitor_isSafe : nat -> Shared (World A) -> bool) (d : Dependencies line) (snap : PerformanceSnapshot)
    (a : A) (ct cm dg : nat) (ops : list registration) :
  let env := configured_env cfg (session_app cfg app long_bits monitor_isSafe d snap ct cm) in
  ConfigValidator cfg = true -> config_typed cfg -> ud_stream d = Some ([], []) -> ud_monitorCount d <= length (ud_monitors d) ->
  snapshot_ok snap -> background_count ops < CfgMaxBackgroundTasks cfg -> @session_application A _ ->
  env_ok (configured_env cfg app) -> env_inv app = session_inv (CfgMaxLineLen cfg) kCliMaxPayload ->
  exists s1 r s2, register_all env ops (boot env (boot_shared env (session_boot cfg d snap a))) = Some s1 /\
    build env ct cm dg (the_builder d) s1 = Some (r, s2) /\
    (r = BuildOk -> forall cs, Forall (fun c => c < kCoreCount env) cs ->
      exists m, multi_run env cs (multi_start env s2) = Some m /\ state_held (sy_kernelState (mu_system m)) (mu_phases m) /\
        let h := sy_shared (mu_system m) in let w := sh_world h in
        exists inbox hello acks done l, c_stream (w_cli w) = Some (inbox, hello ++ answers acks done) /\
          (hello = [] \/ exists seq, hello = [handshake_response seq]) /\
          (w_sent w = done \/ exists last, w_sent w = done ++ [last]) /\ length acks = length done /\
          holds (kQueueCapacity env) (sh_queue h) l /\ accepted_commands acks done = w_handled w ++ l).
Proof.
  intros env Hcfg [_ Hline _] Hstream Hmon Hsnap Hbg Happ Henv Hinv.
  destruct (device_fresh cfg (session_app cfg app long_bits monitor_isSafe d snap ct cm) (session_boot cfg d snap a) ct cm dg
    (the_builder d) ops) as (s1 & r & s2 & E1 & E2 & _ & _ & Hfr); [done| |done|].
  { cbn [env_inv session_app with_task]. rewrite Hinv. by apply session_boot_inv. }
  exists s1, r, s2. do 2 (split; [done|]). intros Hr cs Hcs. specialize (Hfr Hr).
  assert (Henv' : env_ok env) by (by apply session_env_ok).
  destruct (course_run env s2 cs [] _ Henv' (fr_built _ _ Hfr) Hcs (course_start env s2 Hfr)) as (m & calls & E & Hco).
  exists m. split; [done|]. split; [apply (co_state _ _ _ _ Hco)|]. cbv zeta.
  destruct (so_queue _ _ (wf_shared _ _ (co_wf _ _ _ _ Hco))) as (l & Hl & Hi). cbn [env_inv env configured_env session_app with_task] in Hi.
  rewrite Hinv in Hi. destruct Hi as [_ _ (inbox & hello & acks & done & Hs & Hlen & Hst & Hacc)].
  exists inbox, hello, acks, done, l. split; [exact Hs|]. split; [destruct Hst; eauto|]. split; [destruct Hst; eauto|]. done.
Qed.

(** ** Concrete devices *)

(** Two cores: task 0 on core 0, the crunch task 7 on core 1; the stop condition fires with the
    twelfth reading of the clock. *)
Definition duo_env : Env unit := {|
  kCoreCount := 2; kQueueCapacity := 4; kControlBudgetUs := 10000; kMaxBackgroundTasks := 4;
  kCrunchMaxOverruns := 2; kMinSchedulePeriodUs := 10; kMetricsWindowUs := 60000000;
  env_desc := env_desc sample_env;
  env_init _ h := h; env_tick _ _ h := h; env_onOverrun _ _ _ h := h; env_crunch _ _ h := h;
  env_onCrunchAbort _ h := h; env_stopCondition _ h := (bool_decide (12 <= sh_reads h), h); env_watchdogKick h := h;
  env_peers _ h := h;
  env_clock n := Z.of_nat n; env_inv _ _ := True;
|}.

Definition duo_system : System unit :=
  let core0 := Core (<[0 := Some 0]> (replicate kMaxTasksPerCore None)) 1 FLAT_LOOP None in
  let core1 := Core (replicate kMaxTasksPerCore None) 0 CRUNCH (Some 7) in
  Sys [core0; core1] [] [None; None; None; None] 0 0 0 (replicate 2 (replicate kMaxTasksPerCore 0%Z)) [0; 0]%Z [cu_reset; cu_reset]
    new_depth (st_setClockSource true 0) CONFIGURED true [false; false] (Some 0 :: replicate 7 None) 1
    new_crunch false false (boot_shared duo_env tt) [].

Lemma duo_env_ok : env_ok duo_env.
Proof. idle_env_ok. Qed.

Lemma duo_fresh : fresh duo_env duo_system.
Proof.
  split; [|reflexivity|reflexivity|by repeat constructor]. split; try reflexivity.
  - split; [reflexivity|]. repeat constructor.
  - apply Nat.leb_le. reflexivity.
  - by left.
  - split; [reflexivity|]. repeat constructor.
  - split; [exists []; apply new_logger_holds|exists []; split; [apply new_queue_holds|done]|done..|exists []; apply new_telemetry_rep].
  - apply Nat.leb_le. reflexivity.
Qed.

(** Both cores start and dispatch in turn; core 1 has found no stop condition met and is about to
    run its task when core 0 finds one and writes SHUTTING_DOWN. *)
Definition duo_start : list nat := mjoin (replicate 21 [0; 1]) ++ [1; 1] ++ replicate 8 0.
Definition duo_stopped : multi := default (multi_start duo_env duo_system) (multi_run duo_env duo_start (multi_start duo_env duo_system)).

Definition dispatched {W} (s : System W) : list (nat * nat) :=
  omap (fun c => match c with CallTick c _ tid _ | CallCrunch c tid _ _ => Some (c, tid) | _ => None end) (sy_trace s).

Example duo_calls :
  (sy_kernelState (mu_system duo_stopped), mu_phases duo_stopped, dispatched (mu_system duo_stopped)) =
    (SHUTTING_DOWN, [Change ToShutdown TestIt; CrunchTurn], [(0, 0); (1, 7); (0, 0); (1, 7)]).
Proof. vm_compute. reflexivity. Qed.

(** Core 1 makes the turn it had begun, and both return. *)
Example duo_returns :
  (fun m => (sy_kernelState (mu_system m), mu_phases m, dispatched (mu_system m), turns_made duo_env 1 (mjoin (replicate 18 [1; 0])) duo_stopped)) <$>
    multi_run duo_env (mjoin (replicate 18 [1; 0])) duo_stopped =
    Some (SHUTDOWN, [Returned; Returned], [(0, 0); (1, 7); (0, 0); (1, 7); (1, 7)], 1).
Proof. vm_compute. reflexivity. Qed.

Definition duo_rest : list nat := mjoin (replicate (wind_down_steps duo_env) [1; 0]).

Lemma all_cores_wind_down_witness :
  exists m2 late, multi_run duo_env duo_rest duo_stopped = Some m2 /\ turns_made duo_env 0 duo_rest duo_stopped <= 0 /\
    turns_made duo_env 1 duo_rest duo_stopped <= 1 /\ sy_trace (mu_system m2) = sy_trace (mu_system duo_stopped) ++ late /\
    mu_phases m2 = [Returned; Returned] /\ sy_kernelState (mu_system m2) = SHUTDOWN.
Proof.
  destruct (all_cores_wind_down duo_env duo_system duo_start duo_rest duo_stopped duo_env_ok duo_fresh) as (m2 & late & E & _ & Hturns & Ht & _ & Hend).
  - apply (bool_decide_unpack _). vm_compute. exact I.
  - apply (bool_decide_unpack _). vm_compute. exact I.
  - vm_compute. reflexivity.
  - apply (bool_decide_unpack _). vm_compute. exact I.
  - left. vm_compute. reflexivity.
  - exists m2, late. split; [exact E|]. split; [|split; [|split; [exact Ht|apply Hend]]].
    + apply (Hturns 0 (Change ToShutdown TestIt)). vm_compute. reflexivity.
    + apply (Hturns 1 CrunchTurn). vm_compute. reflexivity.
    + intros [|[|c]] Hc; [apply Nat.leb_le; vm_compute; reflexivity..|]. apply Nat.ltb_lt in Hc. discriminate Hc.
Defined.

(** The device of [Device], its two cores in turn. *)
Lemma device_all_cores_witness :
  let env := configured_env sample_config sample_env in
  exists s1 r s2, register_all env sample_topology (boot env (boot_shared env tt)) = Some s1 /\
    build env 10 11 12 (Builder true true false true) s1 = Some (r, s2) /\
    (r = BuildOk -> exists m calls, multi_run env (mjoin (replicate 22 [0; 1; 1])) (multi_start env s2) = Some m /\
      state_held (sy_kernelState (mu_system m)) (mu_phases m) /\ sy_trace (mu_system m) = sy_trace s2 ++ calls /\ obeys s2 calls).
Proof.
  destruct (device_all_cores sample_config sample_env tt 10 11 12 (Builder true true false true) sample_topology eq_refl sample_app_ok I)
    as (s1 & r & s2 & E1 & E2 & _ & _ & Hrun); [intros _; apply Nat.ltb_lt; reflexivity|].
  exists s1, r, s2. split; [exact E1|]. split; [exact E2|]. intros Hr.
  destruct (Hrun Hr (mjoin (replicate 22 [0; 1; 1]))) as (m & calls & E & _ & Hk & Ht & Ho & _); [apply (bool_decide_unpack _); vm_compute; exact I|].
  exists m, calls. split; [exact E|]. split; [exact Hk|]. split; [exact Ht|exact Ho].
Defined.

(** The same, evaluated: the build succeeds; both cores are in their loops, and the tasks that
    were ticked are those of their cores. *)
Example device_ticks :
  let env := configured_env sample_config sample_env in
  (s ← register_all env sample_topology (boot env (boot_shared env tt));
   '(r, s) ← build env 10 11 12 (Builder true true false true) s;
   m ← multi_run env (mjoin (replicate 22 [0; 1; 1])) (multi_start env s);
   Some (r, sy_kernelState (mu_system m), mu_phases m, dispatched (mu_system m))) =
    Some (BuildOk, RUNNING, [Stops; Tick],
      [(1, 11); (1, 2); (1, 11); (1, 2); (1, 11); (1, 2); (1, 11); (1, 2); (0, 0); (0, 10); (1, 11); (1, 2); (1, 11); (1, 2);
       (0, 10); (1, 11); (1, 2); (1, 11); (1, 2); (0, 10); (1, 11); (1, 2)]).
Proof. vm_compute. reflexivity. Qed.

(** The dispatcher is one for all cores: two CRUNCH cores pass the builder's checks, and then both
    run the task of the core that came to its loop last. *)
Example crunch_cores_share :
  let env := configured_env (required_config 3 4) sample_env in
  (s ← register_all env [AddScheduled 0 (Some 0); SetCrunch 1 (Some 5); SetCrunch 2 (Some 6)] (boot env (boot_shared env tt));
   '(r, s) ← build env 10 11 12 (Builder false false false false) s;
   m ← multi_run env (mjoin (replicate 30 [0; 1; 2])) (multi_start env s);
   Some (r, crunch_of s 1, crunch_of s 2,
     omap (fun c => match c with CallCrunch c tid _ _ => Some (c, tid) | _ => None end) (sy_trace (mu_system m)))) =
    Some (BuildOk, Some 5, Some 6, mjoin (replicate 4 [(1, 6); (2, 6)])).
Proof. vm_compute. reflexivity. Qed.

(** The session of [Session] on two cores. *)
#[local] Existing Instance Session.noting.

Definition duo_config : UserConfig := required_config 2 4.
Definition duo_session : Env (World (list (Z * Command))) :=
  configured_env duo_config (session_app duo_config host_env 32 (fun _ _ => true) session_deps session_snap 10 11).

Lemma duo_host_ok : env_ok (configured_env duo_config host_env).
Proof.
  split; intros; split; intros h; try done. intros [H1 (l & Hl & Hi) H3 H4 H5 H6]. split; try done.
  exists l. split; [done|]. by apply host_turn_inv.
Qed.

Lemma session_all_cores_witness :
  exists s1 r s2, register_all duo_session [AddStop (Some 0)] (boot duo_session (boot_shared duo_session (session_boot duo_config session_deps session_snap session_script))) = Some s1 /\
    build duo_session 10 11 12 (the_builder session_deps) s1 = Some (r, s2) /\
    (r = BuildOk -> exists m, multi_run duo_session (mjoin (replicate 26 [0; 1; 1])) (multi_start duo_session s2) = Some m /\
      exists acks done l, holds 4 (sh_queue (sy_shared (mu_system m))) l /\
        accepted_commands acks done = w_handled (sh_world (sy_shared (mu_system m))) ++ l).
Proof.
  destruct (session_all_cores duo_config host_env 32 (fun _ _ => true) session_deps session_snap session_script 10 11 12
    [AddStop (Some 0)]) as (s1 & r & s2 & E1 & E2 & Hrun); try reflexivity.
  - split; vm_compute; intuition (lia || discriminate).
  - split; [reflexivity|reflexivity|apply Nat.leb_le; reflexivity].
  - apply Nat.ltb_lt. reflexivity.
  - exact noting_ok.
  - exact duo_host_ok.
  - exists s1, r, s2. split; [exact E1|]. split; [exact E2|]. intros Hr.
    destruct (Hrun Hr (mjoin (replicate 26 [0; 1; 1]))) as (m & E & _ & inbox & hello & acks & done & l & _ & _ & _ & _ & Hl & Hacc);
      [apply (bool_decide_unpack _); vm_compute; exact I|].
    exists m. split; [exact E|]. exists acks, done, l. split; [exact Hl|exact Hacc].
Defined.

(** In full: the commands of the script are acknowledged and with the application. *)
Example duo_session_completes :
  (s ← register_all duo_session [AddStop (Some 0)] (boot duo_session (boot_shared duo_session (session_boot duo_config session_deps session_snap session_script)));
   '(r, s) ← build duo_session 10 11 12 (the_builder session_deps) s;
   m ← multi_run duo_session (mjoin (replicate 26 [0; 1; 1])) (multi_start duo_session s);
   let w := sh_world (sy_shared (mu_system m)) in
   Some (mu_phases m, w_handled w, w_sent w, c_stream (w_cli w))) =
    Some ([Tick; Stops], [Cmd 1 2 3; Cmd 2 0 4096], session_script,
      Some ([], [handshake_response 1; wire_frame ACK 7 [1%Z]; wire_frame ACK 8 [2%Z]])).
Proof. vm_compute. reflexivity. Qed.
