(* ===== verification/CoreEffects.v ===== *)
(** * What all the cores do to the state they share

    [Effects] for the machine of [Multicore]: for every order of the cores' steps the command
    queue and the world of the tasks change by the calls in the trace, by the stop conditions
    that are asked and by the watchdog callback, in their order, and the times the tasks are told
    do not go back as long as the clock does not. *)

From Stdlib Require String.
From stdpp Require Import sorting.
From S2P Require Import Prelude Cores Float32 Protocol Queue Metrics ErrorLog Telemetry Sync Kernel Sched Crunch Run Builder Safety Config Device Effects Multicore Turns AllCores.
Import String.StringSyntax.

Section effects.
Context {W : Type} (env : Env W) (A : nat -> Prop).
Abbreviation System := (System W).
Implicit Types s : System.

Hypothesis Henv : env_ok env.

Abbreviation any := (fun _ : call => True).

(** From [s] to [s'] by these events, with the clock in front of the calls. *)
Definition acts s s' : Prop :=
  sy_timer s' = sy_timer s /\ exists es, sy_trace s' = sy_trace s ++ calls_of es /\
    Forall (allowed A false any) es /\ effect env es (sy_shared s) (sy_shared s') /\
    (st_source (sy_timer s) = true -> clock_rises env s (sh_reads (sy_shared s')) ->
     timely env s (sh_reads (sy_shared s)) (sh_reads (sy_shared s')) (calls_of es)).

Lemma acts_trans s1 s2 s3 : acts s1 s2 -> acts s2 s3 -> acts s1 s3.
Proof.
  intros (K1 & c1 & T1 & Q1 & E1 & Y1) (K2 & c2 & T2 & Q2 & E2 & Y2). split; [congruence|]. exists (c1 ++ c2).
  rewrite T2, T1, calls_of_app, app_assoc. split; [done|]. split; [by apply Forall_app_2|]. split; [by eapply effect_app|]. intros Hs Hc.
  pose proof (effect_reads env Henv _ _ _ E1). pose proof (effect_reads env Henv _ _ _ E2).
  apply (timely_app _ _ _ (sh_reads (sy_shared s2))); [done|done| |].
  - apply Y1; [done|]. intros n m Hn. apply Hc. lia.
  - eapply timely_timer; [exact K1|]. apply Y2; [congruence|]. unfold clock_rises, time_of in *. by rewrite K1.
Qed.

Lemma loops_acts s s' : loops env A false s s' -> acts s s'.
Proof. intros (K & es & T & Q & E & Y). split; [done|]. exists es. split_and!; [done| |done|done]. by eapply allowed_impl; [|exact Q]. Qed.

Lemma inits_acts s s' : does env A false is_init s s' -> acts s s'.
Proof.
  intros (K & es & T & Q & E). split; [done|]. exists es. split; [done|]. split; [by eapply allowed_impl; [|exact Q]|]. split; [done|]. intros _ _.
  assert (H : omap call_time (calls_of es) = []) by (apply allowed_calls in Q; clear -Q; induction Q as [|c calls [tid ->] _ IH]; [done|exact IH]).
  unfold timely. rewrite H. by repeat constructor.
Qed.

Lemma quiet_acts s s' : does env A false (fun _ => False) s s' -> acts s s'.
Proof. intros H. by apply loops_acts, quiet_loops. Qed.

Lemma own_acts s s' : sy_timer s' = sy_timer s -> sy_trace s' = sy_trace s -> sy_shared s' = sy_shared s -> acts s s'.
Proof. intros. by apply quiet_acts, does_own. Qed.

Lemma acts_refl s : acts s s.
Proof. by apply own_acts. Qed.

(** An operation of the barriers on the core's own state. *)
Lemma sync_acts f s s' : (forall h h', f (sys_sync env) h = Some h' -> quiet env A false (fun _ => False) h h') -> at_sync env f s = Some s' -> acts s s'.
Proof.
  intros Hf. unfold at_sync. destruct (f (sys_sync env) (sy_shared s)) as [h|] eqn:E; cbn [mbind option_bind]; [|done]. intros [= <-].
  apply quiet_acts. apply Hf in E as (es & Hes & Hq & He). split; [done|]. exists es. rewrite Hes, app_nil_r. done.
Qed.

Lemma state_acts st c s s' : at_sync env (fun H => @setState _ H st c) s = Some s' -> acts s s'.
Proof. apply sync_acts. intros h h'. apply quiet_setState. Qed.

Lemma error_acts c reason s s' : at_sync env (fun H => @setError _ H c reason) s = Some s' -> acts s s'.
Proof. apply sync_acts. intros h h'. apply quiet_setError. Qed.

Lemma changed_acts ch c s p s' : changed ch c s = Some (p, s') -> acts s s'.
Proof.
  destruct ch; cbn [changed]; try (intros [= _ <-]; apply acts_refl).
  destruct (store _ _ _) as [ci|]; cbn [mbind option_bind]; [|done]. intros [= _ <-]. by apply own_acts.
Qed.

Lemma change_acts ch a c s p s' : change_step ch a c s = Some (p, s') -> acts s s'.
Proof.
  destruct a; cbn [change_step].
  - case_decide; [intros [= _ <-]; apply acts_refl|apply changed_acts].
  - destruct (valid_transition _ _); [intros [= _ <-]; apply acts_refl|].
    destruct (sys_log _ _ _ s) as [s1|] eqn:E; cbn [mbind option_bind]; [|done]. intros H%changed_acts.
    eapply acts_trans; [|exact H]. apply quiet_acts. by eapply does_log.
  - intros H%changed_acts. eapply acts_trans; [|exact H]. by apply own_acts.
Qed.

Lemma enter_acts c s p' s' : enter_dispatch env c s = Some (p', s') -> acts s s'.
Proof.
  unfold enter_dispatch. destruct (load (sy_cores s) c) as [core|]; cbn [mbind option_bind]; [|done].
  destruct (cd_mode core); [intros [= _ <-]; apply acts_refl|]. destruct (cd_crunchTask core) as [tid|]; [|intros [= _ <-]; apply acts_refl].
  cbv zeta. set (s2 := set_crunch (set_overruns 0 0 _) _). assert (H : acts s s2) by (by apply own_acts).
  destruct (isSafetyAborted (sy_shared s2)); [|by intros [= _ <-]]. destruct (soft_abort env s2) as [s3|] eqn:E; cbn [mbind option_bind]; [|done].
  intros [= _ <-]. eapply acts_trans; [exact H|]. apply loops_acts. by eapply soft_abort_loops.
Qed.

(** Name the state behind the step's one operation. *)
Local Tactic Notation "operation" constr(e) ident(s1) ident(E) := destruct e as [s1|] eqn:E; cbn [mbind option_bind]; [|done].

Lemma phase_step_acts c p s p' s' : (forall f, Some f ∈ sy_stopConditions s -> A f) -> phase_step env c p s = Some (p', s') -> acts s s'.
Proof.
  intros Ha. destruct p as [| |ch a| | |e|e i|e i| | | | | | | | | |e|e i|]; cbn [phase_step].
  - case_match; [done|]. case_decide; [intros [= _ <-]; apply acts_refl|]. operation (sync_setInit env c s) s1 E.
    intros [= _ <-]. by apply quiet_acts, (runs_setInit env A false _ c s).
  - destruct (load (sy_coreInitialized s) c) as [i|]; cbn [mbind option_bind]; [|done]. destruct i; [intros [= _ <-]; apply acts_refl|apply change_acts].
  - apply change_acts.
  - operation (init_core env c s) s1 E. intros [= _ <-]. by apply inits_acts, (runs_init_core env A false is_init c s).
  - destruct (kMultiCore env); [|intros [= _ <-]; apply acts_refl]. operation (at_sync env (fun H => @setReady _ H c) s) s1 E. intros [= _ <-].
    by eapply state_acts.
  - case_decide; [intros [= _ <-]; apply acts_refl|]. operation (at_sync env (fun H => @setError _ H c "Startup barrier timeout") s) s1 E.
    intros [= _ <-]. by eapply error_acts.
  - unfold scan_error. operation (load (sh_sync (sy_shared s)) i) st E. intros [= _ <-]. apply acts_refl.
  - unfold scan_ready. operation (load (sh_sync (sy_shared s)) i) st E. intros [= _ <-]. apply acts_refl.
  - operation (at_sync env (fun H => @setError _ H c "Peer entered ERROR during startup barrier") s) s1 E. intros [= _ <-]. by eapply error_acts.
  - apply enter_acts.
  - intros [= _ <-]. apply acts_refl.
  - destruct (anyStopConditionFired env s) as [[fired s1]|] eqn:E; cbn [mbind option_bind]; [|done]. intros [= _ <-]. apply loops_acts. by eapply stops_loops.
  - destruct (sys_now env s) as [now s1] eqn:E1. operation (sys_tick env c now s1) s2 E2. intros [= _ <-]. apply loops_acts. by eapply flat_turn_loops.
  - intros [= _ <-]. apply acts_refl.
  - destruct (anyStopConditionFired env s) as [[fired s1]|] eqn:E; cbn [mbind option_bind]; [|done]. intros [= _ <-]. apply loops_acts. by eapply stops_loops.
  - destruct (crunch_iteration env c s) as [[go s1]|] eqn:E; cbn [mbind option_bind]; [|done]. intros [= _ <-]. apply loops_acts. by eapply crunch_iteration_loops.
  - destruct (kMultiCore env); [|intros [= _ <-]; apply acts_refl]. operation (at_sync env (fun H => @setShutdown _ H c) s) s1 E. intros [= _ <-].
    by eapply state_acts.
  - case_decide; intros [= _ <-]; apply acts_refl.
  - unfold scan_down. operation (load (sh_sync (sy_shared s)) i) st E. intros [= _ <-]. apply acts_refl.
  - intros [= _ <-]. apply acts_refl.
Qed.

Lemma multi_step_acts c m m' : (forall f, Some f ∈ sy_stopConditions (mu_system m) -> A f) -> multi_step env c m = Some m' -> acts (mu_system m) (mu_system m').
Proof.
  intros Ha. unfold multi_step. destruct (load (mu_phases m) c) as [p|]; cbn [mbind option_bind]; [|done].
  destruct (phase_step env c p (mu_system m)) as [[p' s']|] eqn:E; cbn [mbind option_bind]; [|done].
  destruct (store (mu_phases m) c p') as [ps|]; cbn [mbind option_bind]; [|done]. intros [= <-]. by eapply phase_step_acts.
Qed.

(** The stop conditions are those registered before [build]. *)
Lemma plan_stops s s' : plan s' = plan s -> sy_stopConditions s' = sy_stopConditions s.
Proof. unfold plan. congruence. Qed.

Lemma course_acts s0 cs calls m m' :
  (forall f, Some f ∈ sy_stopConditions s0 -> A f) -> sy_built s0 = true -> Forall (fun c => c < kCoreCount env) cs -> course env s0 calls m ->
  multi_run env cs m = Some m' -> acts (mu_system m) (mu_system m').
Proof.
  intros Ha Hb Hcs. revert calls m. induction Hcs as [|c cs Hc _ IH]; intros calls m Hco; cbn [multi_run]; [intros [= <-]; apply acts_refl|].
  destruct (course_step env s0 calls m c Henv Hco Hb Hc) as (p & p' & s' & new & _ & E & _ & Hco'). rewrite E. cbn [mbind option_bind]. intros H%(IH _ _ Hco').
  eapply acts_trans; [|exact H]. eapply multi_step_acts; [|exact E]. by rewrite (plan_stops _ _ (co_plan _ _ _ _ Hco)).
Qed.
End effects.

(** What the kernel does on all its cores: it calls tasks, asks the stop conditions registered, and
    calls the watchdog callback. *)
Definition kernel_event {W} (s : System W) (e : event) : Prop :=
  match e with Called _ | Kicked => True | Asked f => Some f ∈ sy_stopConditions s | Peers _ => False end.

Lemma allowed_kernel {W} (s : System W) e : allowed (fun f => Some f ∈ sy_stopConditions s) false (fun _ => True) e -> kernel_event s e.
Proof. by destruct e. Qed.

(** A run of all the cores from [build] on. *)
Lemma fresh_run {W} (env : Env W) (s : System W) cs :
  env_ok env -> fresh env s -> Forall (fun c => c < kCoreCount env) cs ->
  exists m es, multi_run env cs (multi_start env s) = Some m /\ course env s (calls_of es) m /\
    Forall (kernel_event s) es /\ effect env es (sy_shared s) (sy_shared (mu_system m)) /\
    (st_source (sy_timer s) = true -> clock_rises env s (sh_reads (sy_shared (mu_system m))) ->
     timely env s (sh_reads (sy_shared s)) (sh_reads (sy_shared (mu_system m))) (calls_of es)).
Proof.
  intros Henv Hs Hcs. destruct (course_run env s cs [] _ Henv (fr_built _ _ Hs) Hcs (course_start env s Hs)) as (m & calls & E & Hco).
  destruct (course_acts env (fun f => Some f ∈ sy_stopConditions s) Henv s cs [] _ m (fun _ H => H) (fr_built _ _ Hs) Hcs (course_start env s Hs) E)
    as (_ & es & T & Q & He & Ht).
  exists m, es. pose proof (co_trace _ _ _ _ Hco) as T'. cbn [mu_system multi_start app] in *. rewrite T in T'. apply app_inv_head in T'. rewrite <- T' in Hco. split_and!; [exact E|exact Hco| |exact He|exact Ht].
  eapply Forall_impl; [exact Q|]. apply allowed_kernel.
Qed.

(** ** Properties *)


