(* ===== verification/Progress.v ===== *)
(** * Progress of a session

    What a tick of the core with the communications task does to a session: every command that
    was sent is answered, and what was acknowledged reaches the application. The tick is seen
    through the effect of its calls ([Effects]). *)

From S2P Require Import Prelude Protocol Queue ErrorLog Telemetry Kernel Sched Builder Safety Cli Comms Pipeline Config Device KernelTasks Session Effects.

(** ** What only grows *)

Section later.
Context {A : Type}.
Abbreviation World := (World A).
Abbreviation Shared := (Shared World).
Context (env : Env World) (kMaxLineLen : nat) (kMaxValidCommandID long_bits : Z) (MaxPayload : nat).
Abbreviation cap := (kQueueCapacity env).

(** Nothing sent, written, handled or acknowledged is taken back. *)
Record later (h h' : Shared) : Prop := {
  lt_sent : w_sent (sh_world h) `prefix_of` w_sent (sh_world h');
  lt_out : line_out (sh_world h) `prefix_of` line_out (sh_world h');
  lt_handled : w_handled (sh_world h) `prefix_of` w_handled (sh_world h');
  lt_accepted l : holds cap (sh_queue h) l ->
    exists l', holds cap (sh_queue h') l' /\ w_handled (sh_world h) ++ l `prefix_of` w_handled (sh_world h') ++ l';
}.

#[export] Instance later_preorder : PreOrder later.
Proof.
  split.
  - intros h. split; [done..|]. intros l Hl. by exists l.
  - intros h1 h2 h3 [A1 A2 A3 A4] [B1 B2 B3 B4]. split; [by etransitivity..|]. intros l Hl.
    destruct (A4 l Hl) as (l2 & Hl2 & P2). destruct (B4 l2 Hl2) as (l3 & Hl3 & P3). exists l3. split; [done|by etransitivity].
Qed.

(** The promise is kept and nothing is taken back. *)
Definition onward (h h' : Shared) : Prop :=
  good env kMaxLineLen MaxPayload h -> good env kMaxLineLen MaxPayload h' /\ later h h'.

#[export] Instance onward_preorder : PreOrder onward.
Proof.
  split; [by intros h Hh; split|]. intros h1 h2 h3 H12 H23 H1. destruct (H12 H1) as [H2 L2]. destruct (H23 H2) as [H3 L3].
  split; [done|by etransitivity].
Qed.

Lemma onward_kernel h h' : untouched h h' -> onward h h'.
Proof.
  intros [Hq Hw] (l & Hl & Hi). split; [exists l; by rewrite Hq, Hw|]. split; rewrite ?Hw; try done.
  intros l' Hl'. exists l'. by rewrite Hq.
Qed.

(** ** The kernel's two tasks *)

Hypothesis Hline : 0 < kMaxLineLen.
Hypothesis H6 : 6 <= MaxPayload.
Hypothesis Hmax : (Z.of_nat MaxPayload < 65536)%Z.

(** [good] determines the contents. *)
Lemma later_same h h' l :
  holds cap (sh_queue h) l -> w_sent (sh_world h') = w_sent (sh_world h) ->
  line_out (sh_world h) `prefix_of` line_out (sh_world h') ->
  (exists cmds l', holds cap (sh_queue h') l' /\ w_handled (sh_world h') = w_handled (sh_world h) ++ cmds /\ l `prefix_of` cmds ++ l') ->
  later h h'.
Proof.
  intros Hl Hs Ho (cmds & l' & Hl' & Hh & Hp). split; [by rewrite Hs|done|rewrite Hh; by apply prefix_app_r|].
  intros l0 Hl0. rewrite (holds_unique _ _ _ _ Hl0 Hl). exists l'. split; [done|]. rewrite Hh, <- app_assoc. by apply prefix_app.
Qed.

Lemma comms_tick_onward now h :
  onward h (comms_callback env kMaxLineLen kMaxValidCommandID long_bits MaxPayload now h).
Proof.
  intros (l & Hl & Hi).
  destruct (comms_callback_step env kMaxLineLen kMaxValidCommandID long_bits MaxPayload Hline H6 Hmax now h l Hi Hl)
    as (Hg & Es & Eh & Ho & _ & l' & Hl' & Hp).
  split; [done|]. eapply later_same; [done|done|done|]. exists [], l'. by rewrite app_nil_r.
Qed.

Lemma comms_init_onward h : onward h (comms_init_callback kMaxLineLen kMaxValidCommandID long_bits MaxPayload h).
Proof.
  intros (l & Hl & Hi).
  destruct (comms_init_step env kMaxLineLen kMaxValidCommandID long_bits MaxPayload Hline H6 Hmax h l Hi Hl)
    as (Hg & Es & Eh & Ho & Eq).
  split; [done|]. eapply later_same; [done|done|done|]. exists [], l. by rewrite Eq, app_nil_r.
Qed.

Context `{!UserApplication World} (Happ : session_application).

(** A function of the application, given the commands [cmds] that were taken from the queue. *)
Lemma notes_onward cmds f h q l :
  notes cmds f -> holds cap (sh_queue h) (cmds ++ l) -> holds cap q l -> session_inv kMaxLineLen MaxPayload (cmds ++ l) (sh_world h) ->
  let h' := f (set_queue q h) in
  holds cap (sh_queue h') l /\ session_inv kMaxLineLen MaxPayload l (sh_world h') /\ later h h' /\
    w_handled (sh_world h') = w_handled (sh_world h) ++ cmds.
Proof.
  intros Hf Hl Hq Hi. destruct (nt_world _ _ Hf (set_queue q h)) as (E1 & _ & E3 & E4). cbv zeta. rewrite (nt_queue _ _ Hf).
  cbn [set_queue sh_world sh_queue] in *. split; [done|]. split; [by apply (notes_inv _ _ cmds f (set_queue q h))|]. split; [|done].
  eapply later_same; [exact Hl|done|unfold line_out; by rewrite E1|]. exists cmds, l. by rewrite (nt_queue _ _ Hf).
Qed.

Lemma notes_nil_onward f h l :
  notes [] f -> holds cap (sh_queue h) l -> session_inv kMaxLineLen MaxPayload l (sh_world h) ->
  holds cap (sh_queue (f h)) l /\ session_inv kMaxLineLen MaxPayload l (sh_world (f h)) /\ later h (f h) /\
    w_handled (sh_world (f h)) = w_handled (sh_world h).
Proof.
  intros Hf Hl Hi. pose proof (notes_onward [] f h (sh_queue h) l Hf Hl Hl Hi) as H. rewrite app_nil_r in H. by destruct h.
Qed.

Lemma drain_onward n h l :
  holds cap (sh_queue h) l -> session_inv kMaxLineLen MaxPayload l (sh_world h) ->
  exists calls h', drain_commands env n h = Some (calls, h') /\ holds cap (sh_queue h') (drop n l) /\
    session_inv kMaxLineLen MaxPayload (drop n l) (sh_world h') /\ later h h' /\
    w_handled (sh_world h') = w_handled (sh_world h) ++ take n l.
Proof.
  revert h l. induction n as [|n IH]; intros h l Hl Hi; cbn [drain_commands].
  { exists [], h. rewrite app_nil_r. by split_and!. }
  destruct (try_pop_ok _ _ _ Hl) as (q & -> & Hq). cbn [mbind option_bind]. destruct l as [|cmd l]; cbn [head tail] in *.
  { eexists _, _. split; [done|]. cbn [take drop]. rewrite app_nil_r. split; [done|]. split; [done|]. split; [|done].
    eapply later_same; [exact Hl|done|done|]. exists [], []. by rewrite app_nil_r. }
  destruct (notes_onward [cmd] _ h q l (sa_command Happ cmd) Hl Hq Hi) as (H1 & H2 & H3 & H4).
  destruct (IH _ _ H1 H2) as (calls & h' & -> & H5 & H7 & H8 & H9). cbn [mbind option_bind]. eexists _, h'. split; [done|].
  cbn [take drop]. split; [done|]. split; [done|]. split; [by etransitivity|]. by rewrite H9, H4, <- app_assoc.
Qed.

Context (monitor_isSafe : nat -> Shared -> bool) (kMaxCommandsPerTick : nat) (ctl : ScheduledControlTask).
Hypothesis Hmon : sc_monitorCount ctl <= length (sc_monitors ctl).

Lemma control_tick_onward now h l :
  holds cap (sh_queue h) l -> session_inv kMaxLineLen MaxPayload l (sh_world h) ->
  exists calls h' l', control_tick env monitor_isSafe kMaxCommandsPerTick ctl now h = Some (calls, h') /\
    holds cap (sh_queue h') l' /\ session_inv kMaxLineLen MaxPayload l' (sh_world h') /\ later h h' /\
    (all_monitors_safe monitor_isSafe ctl h = true -> sc_validateDependencies ctl = true ->
     w_handled (sh_world h') = w_handled (sh_world h) ++ take kMaxCommandsPerTick l).
Proof.
  intros Hl Hi. unfold control_tick. rewrite evaluateSafety_ok by done. cbn [mbind option_bind].
  destruct (all_monitors_safe monitor_isSafe ctl h); cbn [negb].
  - unfold processCommands, sc_validateDependencies. destruct (sc_commandQueue ctl && sc_app ctl) eqn:Ed.
    + destruct (drain_onward kMaxCommandsPerTick h l Hl Hi) as (calls & h1 & -> & H1 & H2 & H3 & H4). cbn [mbind option_bind].
      apply andb_true_iff in Ed as [_ ->].
      destruct (notes_nil_onward _ h1 _ (sa_tick Happ now) H1 H2) as (H5 & H7 & H8 & H9). eexists _, _, _. split; [done|].
      split; [done|]. split; [done|]. split; [by etransitivity|]. by rewrite H9.
    + cbn [mbind option_bind]. destruct (sc_app ctl).
      * destruct (notes_nil_onward _ h l (sa_tick Happ now) Hl Hi) as (H5 & H7 & H8 & _). eexists _, _, _. by split_and!.
      * eexists _, _, l. by split_and!.
  - destruct (sc_app ctl); cbn [mbind option_bind negb].
    + destruct (notes_nil_onward _ h l (sa_abort Happ) Hl Hi) as (H5 & H7 & H8 & _). eexists _, _, l. split_and!; try done. by destruct H8.
    + eexists _, _, l. split_and!; try done. split; try done. intros l0 Hl0. by exists l0.
Qed.

Lemma control_callback_onward now h : onward h (control_callback env monitor_isSafe kMaxCommandsPerTick ctl now h).
Proof.
  intros (l & Hl & Hi). destruct (control_tick_onward now h l Hl Hi) as (calls & h' & l' & E & Hl' & Hi' & Hlat & _).
  unfold control_callback. rewrite E. split; [by exists l'|done].
Qed.

Lemma control_init_onward h : onward h (control_init ctl h).2.
Proof.
  intros (l & Hl & Hi). unfold control_init. destruct (sc_app ctl); [|by split; [exists l|]].
  destruct (notes_nil_onward _ h l (sa_init Happ) Hl Hi) as (H5 & H7 & H8 & _). split; [by exists l|done].
Qed.
End later.

(** ** The tick *)

(** A task without a managed period is called in every tick of its core. *)
Lemma ungated_called {W} (env : Env W) coreId now s core tid t calls :
  gated env tid = false -> cd_tasks core !! t = Some (Some tid) -> t < cd_taskCount core ->
  ticks_of calls = mjoin (slot_calls env coreId (cd_tasks core) now s <$> seq 0 (cd_taskCount core)) ->
  CallTick coreId t tid now ∈ calls.
Proof.
  intros Hg Ht Hlt Hc. assert (Hin : (coreId, t, tid, now) ∈ ticks_of calls).
  { rewrite Hc. apply list_elem_of_join. exists [(coreId, t, tid, now)]. split; [apply list_elem_of_singleton; done|].
    apply list_elem_of_fmap. exists t. split; [|apply elem_of_seq; lia]. unfold slot_calls, dispatches. by rewrite Ht, Hg. }
  unfold ticks_of in Hin. apply list_elem_of_omap in Hin as (c & Hin & E). destruct c; simplify_eq. done.
Qed.

Lemma prefix_by_length {X} (a b c : list X) : a `prefix_of` c -> b `prefix_of` c -> length a <= length b -> a `prefix_of` b.
Proof.
  intros Ha Hb Hl. destruct (prefix_weak_total a b c Ha Hb) as [H|H]; [done|]. by rewrite (prefix_length_eq b a H) by done.
Qed.

(** What was answered at one moment stays answered. *)
Lemma answered_later {A} (env : Env (World A)) kMaxLineLen MaxPayload h h' l :
  all_answered (sh_world h) -> later env h h' -> session_inv kMaxLineLen MaxPayload l (sh_world h') ->
  exists inbox hello acks done, c_stream (w_cli (sh_world h')) = Some (inbox, hello ++ answers acks done) /\
    length acks = length done /\ accepted_commands acks done = w_handled (sh_world h') ++ l /\ w_sent (sh_world h) `prefix_of` done.
Proof.
  intros (hello0 & acks0 & Hs0 & Hl0 & Hh0) [Hsent Hout _ _] [_ _ (inbox & hello & acks & done & Hs & Hlen & Hst & Hacc)].
  exists inbox, hello, acks, done. split_and!; try done. destruct (stage_hello _ _ _ _ _ Hst) as (Hh & _ & Hd).
  destruct (decide (w_sent (sh_world h) = [])) as [->|Hne]; [apply prefix_nil|]. specialize (Hh0 Hne).
  apply (prefix_by_length _ _ (w_sent (sh_world h'))); [done|done|].
  unfold line_out in Hout. rewrite Hs0, Hs in Hout. apply prefix_length in Hout. rewrite !length_app in Hout.
  unfold answers in Hout. rewrite !length_zip_with in Hout. lia.
Qed.

Section device.
Context {A : Type} `{!UserApplication (World A)}.
Context (cfg : UserConfig) (app : Env (World A)) (long_bits : Z) (monitor_isSafe : nat -> Shared (World A) -> bool).
Context (d : Dependencies line) (snap : PerformanceSnapshot) (ct cm : nat).
Abbreviation base := (configured_env cfg app).
Abbreviation env := (configured_env cfg (session_app cfg app long_bits monitor_isSafe d snap ct cm)).
Abbreviation onward_here := (onward base (CfgMaxLineLen cfg) kCliMaxPayload).

Hypothesis Hline : 0 < CfgMaxLineLen cfg.
Hypothesis Hmonitors : ud_monitorCount d <= length (ud_monitors d).
Hypothesis Happ : session_application.
Hypothesis Hwithin : env_within base onward_here.

Lemma cli_payload : 6 <= kCliMaxPayload /\ (Z.of_nat kCliMaxPayload < 65536)%Z.
Proof. split; [apply Nat.leb_le|]; reflexivity. Qed.

Lemma session_within : env_within env onward_here.
Proof.
  destruct cli_payload as [H6 Hmax]. apply (with_task_within (with_task base cm _ _ _) onward_here); [apply (with_task_within base onward_here); [done| |]| |].
  - intros h. by apply comms_init_onward.
  - intros now h. by apply comms_tick_onward.
  - intros h. by apply control_init_onward.
  - intros now h. by apply control_callback_onward.
Qed.

Hypothesis Hne : ct <> cm.

Lemma comms_moment coreId t now es h h' :
  effect env es h h' -> Called (CallTick coreId t cm now) ∈ es -> good base (CfgMaxLineLen cfg) kCliMaxPayload h ->
  exists h2, all_answered (sh_world h2) /\ w_sent (sh_world h) `prefix_of` w_sent (sh_world h2) /\ onward_here h2 h' /\
    good base (CfgMaxLineLen cfg) kCliMaxPayload h2.
Proof.
  intros He Hc Hg. destruct cli_payload as [H6 Hmax].
  destruct (effect_at env onward_here (onward_kernel base _ _) _ _ h h' session_within He Hc) as (h1 & h2 & R1 & Hp & R2).
  destruct (R1 Hg) as [(l & Hl & Hi) L1]. inversion Hp; subst. cbn [env_tick configured_env session_app with_task] in *.
  rewrite decide_False, decide_True in * by done.
  destruct (comms_callback_step base (CfgMaxLineLen cfg) (CfgMaxValidCommandID cfg) long_bits kCliMaxPayload Hline H6 Hmax now h1 l Hi Hl)
    as (Hg2 & Es & _ & _ & Ha & _).
  eexists. split; [exact Ha|]. split; [rewrite Es; apply L1|]. by split.
Qed.

Lemma control_moment coreId t now es h h' l :
  effect env es h h' -> Called (CallTick coreId t ct now) ∈ es -> good base (CfgMaxLineLen cfg) kCliMaxPayload h ->
  (forall h, all_monitors_safe monitor_isSafe (make_control d) h = true) -> ud_app d = true ->
  uc_kQueueCapacity cfg <= commands_per_tick cfg -> holds (uc_kQueueCapacity cfg) (sh_queue h) l ->
  w_handled (sh_world h) ++ l `prefix_of` w_handled (sh_world h').
Proof.
  intros He Hc Hg Hsafe Hd Hcap Hl. destruct cli_payload as [H6 Hmax].
  destruct (effect_at env onward_here (onward_kernel base _ _) _ _ h h' session_within He Hc) as (h1 & h2 & R1 & Hp & R2).
  destruct (R1 Hg) as [(l1 & Hl1 & Hi) L1]. inversion Hp; subst. cbn [env_tick configured_env session_app with_task] in *.
  rewrite decide_True in * by done. destruct (lt_accepted _ _ _ L1 l Hl) as (l1' & Hl1' & Hpre).
  rewrite (holds_unique _ _ _ _ Hl1' Hl1) in Hpre.
  destruct (control_tick_onward base (CfgMaxLineLen cfg) kCliMaxPayload Happ monitor_isSafe (commands_per_tick cfg) (make_control d) Hmonitors
    now h1 l1 Hl1 Hi) as (cs & h2 & l2 & E & Hl2 & Hi2 & _ & Hh).
  unfold control_callback in R2. rewrite E in R2. destruct (R2 ltac:(by exists l2)) as [_ L2].
  rewrite firstn_all2 in Hh by (pose proof (holds_bound _ _ _ Hl1); cbn in *; lia).
  etransitivity; [exact Hpre|]. rewrite <- Hh by (done || (unfold sc_validateDependencies; cbn; by rewrite Hd)). apply L2.
Qed.
End device.

(** ** Properties *)

(** C3 A session makes progress: a tick of the core with the communications task returns, and every
    command the host sent before it is answered after it; if the control task is on that core
    too, the monitors find the system safe, and a tick may take as many commands as the queue
    holds, every command that waited in the queue before the tick has reached the application
    after it. This holds among any other tasks that keep their promise and take back nothing. *)
Theorem session_progress {A : Type} `{!UserApplication (World A)} (cfg : UserConfig) (app : Env (World A)) (long_bits : Z)
    (monitor_isSafe : nat -> Shared (World A) -> bool) (d : Dependencies line) (snap : PerformanceSnapshot)
    (ct cm coreId : nat) (now : Z) (s : System (World A)) (core : CoreData) :
  let base := configured_env cfg app in
  let env := configured_env cfg (session_app cfg app long_bits monitor_isSafe d snap ct cm) in
  config_typed cfg -> ud_monitorCount d <= length (ud_monitors d) -> session_application -> ct <> cm ->
  env_ok base -> env_inv app = session_inv (CfgMaxLineLen cfg) kCliMaxPayload ->
  env_within base (onward base (CfgMaxLineLen cfg) kCliMaxPayload) ->
  sys_wf env s -> sy_built s = true -> coreId < kCoreCount env -> sy_cores s !! coreId = Some core ->
  Some cm ∈ registered core ->
  exists s', sys_tick env coreId now s = Some s' /\ sys_wf env s' /\
    let w := sh_world (sy_shared s) in let w' := sh_world (sy_shared s') in
    (exists inbox hello acks done l, c_stream (w_cli w') = Some (inbox, hello ++ answers acks done) /\
       length acks = length done /\ w_sent w `prefix_of` done /\
       holds (kQueueCapacity env) (sh_queue (sy_shared s')) l /\ accepted_commands acks done = w_handled w' ++ l) /\
    (Some ct ∈ registered core -> (forall h, all_monitors_safe monitor_isSafe (make_control d) h = true) -> ud_app d = true ->
     uc_kQueueCapacity cfg <= commands_per_tick cfg ->
     forall l, holds (kQueueCapacity env) (sh_queue (sy_shared s)) l -> w_handled w ++ l `prefix_of` w_handled w').
Proof.
  intros base env [_ Hline _] Hmon Happ Hne Henv Hinv Hwithin Hwf Hb Hc Hcore Hcm.
  assert (Henv' : env_ok env) by (apply session_env_ok; done).
  destruct (tick_ok env coreId now s core Henv' Hwf Hb Hc Hcore) as (s' & calls & E & Hwf' & _ & _ & Ht & Hti & _).
  exists s'. split; [done|]. split; [done|]. cbv zeta.
  destruct (runs_sys_tick env (fun _ => True) true any (fun _ => True) coreId now s (fun _ _ _ _ => I) s' E) as (_ & es & Ht' & _ & He). cbn [id] in *. rewrite Ht in Ht'.
  apply app_inv_head in Ht'.
  assert (Hg : good base (CfgMaxLineLen cfg) kCliMaxPayload (sy_shared s)).
  { destruct (so_queue _ _ (wf_shared _ _ Hwf)) as (l & Hl & Hi). cbn [env_inv env configured_env session_app with_task] in Hi.
    rewrite Hinv in Hi. by exists l. }
  assert (Hslot : forall tid, Some tid ∈ registered core -> td_kernelManagedPeriod (env_desc env tid) = false ->
    exists t, Called (CallTick coreId t tid now) ∈ es).
  { intros tid Hin Hm. apply list_elem_of_lookup in Hin as [t Hin]. apply lookup_take_Some in Hin as [Hin Hlt]. exists t.
    apply elem_of_calls_of. rewrite <- Ht'. apply (ungated_called env coreId now s core tid t calls); [|done|done|done].
    unfold gated. rewrite Hm. by rewrite andb_false_r. }
  split.
  - destruct (Hslot cm Hcm) as [t Hin].
    { cbn [env env_desc configured_env session_app with_task]. by rewrite decide_False, decide_True. }
    destruct (comms_moment cfg app long_bits monitor_isSafe d snap ct cm Hline Hmon Happ Hwithin Hne coreId t now es _ _ He Hin Hg)
      as (h2 & Ha & Hs & R & Hg2).
    destruct (R Hg2) as [(l & Hl & Hi) L].
    destruct (answered_later base _ _ h2 _ l Ha L Hi) as (inbox & hello & acks & done & H1 & H2 & H3 & H4).
    exists inbox, hello, acks, done, l. split; [exact H1|]. split; [exact H2|]. split; [by etransitivity|]. by split.
  - intros Hct Hsafe Hd Hcap l Hl. destruct (Hslot ct Hct) as [t Hin].
    { cbn [env env_desc configured_env session_app with_task]. by rewrite decide_True. }
    by apply (control_moment cfg app long_bits monitor_isSafe d snap ct cm Hline Hmon Happ Hwithin Hne coreId t now es _ _ l He Hin Hg).
Qed.

(** ** A concrete tick, for the witness *)

Lemma host_turn_later w : w_sent w `prefix_of` w_sent (host_turn w) /\ line_out (host_turn w) = line_out w /\
  w_handled (host_turn w) = w_handled w.
Proof.
  unfold host_turn, line_out. destruct (c_stream (w_cli w)) as [[[|b inbox] out]|] eqn:Es; [|by rewrite Es|by rewrite Es].
  destruct out as [|o out].
  - destruct (c_handler _ && c_router _); [|by rewrite Es]. done.
  - destruct (decide _); [|by rewrite Es]. destruct (w_app w) as [|[n cmd] script]; [by rewrite Es|].
    destruct (decide (frame_ok n cmd)); [|by rewrite Es]. split; [by apply prefix_app_r|done].
Qed.

Lemma host_env_within : env_within (configured_env session_config host_env)
  (onward (configured_env session_config host_env) (CfgMaxLineLen session_config) kCliMaxPayload).
Proof.
  split; intros; cbn [env_init env_tick env_onOverrun env_crunch env_onCrunchAbort env_stopCondition env_watchdogKick env_peers configured_env host_env];
    try reflexivity.
  intros (l & Hl & Hi). split; [exists l; split; [done|by apply host_turn_inv]|].
  destruct (host_turn_later (sh_world h)) as (H1 & H2 & H3). split; cbn [snd set_world sh_world sh_queue]; rewrite ?H2, ?H3; try done.
  intros l' Hl'. by exists l'.
Qed.

(** The line in framed mode with a command of the host on it. *)
Definition flight_world : World (list (Z * Command)) :=
  MkWorld (set_stream (T := line) (command_frame 7 (Cmd 1 2 3), [handshake_response 1])
      (enterFramedMode (setProtocolHandler true (session_comms session_config session_deps session_snap).1)))
    (Some session_snap) [] [(7, Cmd 1 2 3)]%Z [].

Definition flight_env : Env (World (list (Z * Command))) :=
  configured_env session_config (session_app (UserApplication0 := noting) session_config host_env 32 (fun _ _ => true) session_deps session_snap 10 11).

(** One core with the two tasks. *)
Definition flight_core : CoreData := Core ([Some 10; Some 11] ++ replicate (kMaxTasksPerCore - 2) None) 2 FLAT_LOOP None.

Definition flight_system : System (World (list (Z * Command))) :=
  set_built true (set_cores [flight_core] (boot flight_env (boot_shared flight_env flight_world))).

Lemma flight_inv : session_inv (CfgMaxLineLen session_config) kCliMaxPayload [] flight_world.
Proof.
  split.
  - apply set_stream_wf, enterFramedMode_wf. destruct (new_cli_wf (CfgMaxLineLen session_config) kCliMaxPayload
      ltac:(apply Nat.ltb_lt; reflexivity) (Some ([], []) : option line)). by split.
  - intros s [= <-]. split; [reflexivity|reflexivity|apply Nat.leb_le; reflexivity].
  - exists (command_frame 7 (Cmd 1 2 3)), [handshake_response 1], [], []. split; [reflexivity|]. split; [done|]. split; [|done].
    apply (InFlight _ 1 [] 7 (Cmd 1 2 3)); try reflexivity. unfold frame_ok, in_word. cbn. lia.
Qed.

Lemma flight_system_wf : sys_wf flight_env flight_system.
Proof.
  split; try reflexivity.
  - split; [reflexivity|]. constructor; [|constructor]. split; [reflexivity|apply Nat.leb_le; reflexivity].
  - apply Nat.leb_le. reflexivity.
  - by left.
  - split; [reflexivity|]. repeat constructor.
  - split; [exists []; apply new_logger_holds|exists []; split; [apply new_queue_holds|exact flight_inv]|done..|exists []; apply new_telemetry_rep].
  - apply Nat.leb_le. reflexivity.
Qed.

Lemma session_progress_witness :
  exists s', sys_tick flight_env 0 100 flight_system = Some s' /\ sys_wf flight_env s' /\
    exists inbox hello acks done, c_stream (w_cli (sh_world (sy_shared s'))) = Some (inbox, hello ++ answers acks done) /\
      [(7, Cmd 1 2 3)]%Z `prefix_of` done /\ length acks = length done.
Proof.
  destruct (session_progress (UserApplication0 := noting) session_config host_env 32 (fun _ _ => true) session_deps session_snap 10 11 0 100
    flight_system flight_core) as (s' & E & Hwf & (inbox & hello & acks & done & l & Hs & Hl & Hp & _) & _); try reflexivity.
  - split; vm_compute; intuition (lia || discriminate).
  - exact noting_ok.
  - discriminate.
  - exact host_env_ok.
  - exact host_env_within.
  - exact flight_system_wf.
  - apply Nat.ltb_lt. reflexivity.
  - apply list_elem_of_lookup_2 with 1. reflexivity.
  - exists s'. split; [exact E|]. split; [exact Hwf|]. exists inbox, hello, acks, done. split; [exact Hs|]. by split.
Defined.
