(* ===== verification/ExampleApp.v ===== *)
(** * The example projects: what they share

    The programs under exampleProjects/ run a few tasks of their own on the whole kernel: tasks
    that keep some state and log telemetry, an application without behaviour, monitors that
    find everything safe, a mutex around the telemetry, and stdout behind the drain. This file
    is their common part: such a task as a callback of the kernel, and what a run of a core
    does to the tasks' state and to stdout, whatever a host does on the line. *)

From stdpp Require Import sorting.
From Stdlib Require String.
From S2P Require Import Prelude Float32 Protocol Queue Metrics ErrorLog Decimal Text Telemetry Sync Kernel Sched Crunch Run Builder Safety Diagnostics Strto Cli Comms Pipeline Config Device KernelTasks Session Effects.
Import String.StringSyntax.

(** ** Sublists *)

Lemma sublist_Forall {A} (P : A -> Prop) l1 l2 : l1 `sublist_of` l2 -> Forall P l2 -> Forall P l1.
Proof. induction 1; intros HP; [done|inversion HP; subst; constructor; auto..|inversion HP; subst; auto]. Qed.

Lemma StronglySorted_sublist {A} (R : A -> A -> Prop) l1 l2 : l1 `sublist_of` l2 -> StronglySorted R l2 -> StronglySorted R l1.
Proof.
  induction 1 as [|x l1 l2 Hsub IH|x l1 l2 Hsub IH]; intros Hs; [done| |]; inversion Hs; subst; [|by apply IH].
  constructor; [by apply IH|by eapply sublist_Forall].
Qed.

Lemma StronglySorted_snoc {A} (R : A -> A -> Prop) `{!Transitive R} l x y :
  StronglySorted R l -> last l = Some x -> R x y -> StronglySorted R (l ++ [y]).
Proof.
  intros Hs [l' ->]%last_Some Hy. apply StronglySorted_app. split_and!; [|done|by repeat constructor].
  intros a b Ha ->%list_elem_of_singleton. apply elem_of_app in Ha as [Ha| ->%list_elem_of_singleton]; [|done].
  apply StronglySorted_app in Hs as (Hs & _ & _). transitivity x; [|done]. apply Hs; [done|]. by apply list_elem_of_singleton.
Qed.

(** Times, each at least [d] after the one before. *)
Definition apart (d : Z) (a b : Z) : Prop := (0 <= d)%Z /\ (a + d <= b)%Z.

#[export] Instance apart_trans d : Transitive (apart d).
Proof. intros a b c [] []. split; lia. Qed.

(** What has passed since the last one, in the code's arithmetic. *)
Lemma elapsed_exact since now : (0 <= since <= now)%Z -> in_word 64 now -> u64 (now - since) = (now - since)%Z.
Proof. intros H Hw. apply wrap_id. unfold in_word in *. lia. Qed.

(** ** The world *)

(** What the program holds besides the line: the diagnostics task, the mutex, what the telemetry
    drain has written to stdout (not what [main] prints around the run), and the
    state of its tasks; [be_posted] is a ghost, the messages logged so far. *)
Record Bench (S : Type) := MkBench {
  be_diags : BackgroundDiagnosticsTask;
  be_held : bool;
  be_stdout : list (list Z);
  be_posted : list message;
  be_state : S;
}.
#[global] Arguments MkBench {S}.
#[global] Arguments be_diags {S}.
#[global] Arguments be_held {S}.
#[global] Arguments be_stdout {S}.
#[global] Arguments be_posted {S}.
#[global] Arguments be_state {S}.

Abbreviation log_call := (TaskID * list Z * Verbosity * Z)%type.

(** A task: [ut_tick] takes the time it is told and the number of clock readings so far, and
    answers with the messages it logs. *)
Record UserTask (S : Type) := MkUser {
  ut_id : nat;
  ut_desc : TaskDesc;
  ut_init : S -> S;
  ut_tick : Z -> nat -> S -> option (nat * S * list log_call);
}.
#[global] Arguments MkUser {S}.
#[global] Arguments ut_id {S}.
#[global] Arguments ut_desc {S}.
#[global] Arguments ut_init {S}.
#[global] Arguments ut_tick {S}.

(** [m_builder.clear()], the appends, and [m_builder.c_str()] as [log] reads it, up to the
    terminator. *)
Definition compose (ops : list text_op) (b : LightweightStringBuilder) : option (LightweightStringBuilder * list Z) :=
  b ← sb_clear b;
  b ← append_ops ops b;
  str ← c_string (c_str b);
  Some (b, str).

Lemma compose_ok ops xs b s :
  sb_rep b s -> Forall2 (fun op x => op_text op = Some x) ops xs -> no_nul (concat xs) ->
  exists b', compose ops b = Some (b', fit (concat xs)) /\ sb_rep b' (fit (concat xs)).
Proof.
  intros Hrep Hall Hn. destruct (sb_clear_ok b s Hrep) as (b0 & E0 & Hr0).
  destruct (append_ops_ok ops xs b0 [] Hall Hr0) as (b' & E & Hr). exists b'. unfold compose. rewrite E0. cbn [mbind option_bind].
  rewrite E. cbn [mbind option_bind]. rewrite (sb_rep_string b' (fit (concat xs)) Hr (no_nul_take _ _ Hn)). done.
Qed.

(** The parts of the programs' messages: a literal, a 32-bit number, a [float] below 1000 that
    is integral; and what they become. *)
Inductive piece :=
  | Str (s : list Z)
  | Num (v : Z)
  | Milli (v : Z).

Definition piece_op (p : piece) : text_op :=
  match p with Str s => TStr s | Num v => TU32 (u32 v) | Milli v => TFloat (f_of_Z (v mod 1000)) 3 end.

Definition piece_text (p : piece) : list Z :=
  match p with Str s => s | Num v => digits (u32 v) | Milli v => digits (v mod 1000) ++ text ".000" end.

Definition pieces_text (ps : list piece) : list Z := concat (piece_text <$> ps).

Definition piece_room (p : piece) : nat := match p with Str s => length s | Num _ => 10 | Milli _ => 14 end.

(** The literals have no NUL, and the builder has room. *)
Definition pieces_fit (ps : list piece) : bool :=
  forallb (fun p => match p with Str s => bool_decide (no_nul s) | _ => true end) ps &&
  bool_decide (sum_list_with piece_room ps < kCapacity).

Lemma u32_text v : op_text (TU32 (u32 v)) = Some (digits (u32 v)).
Proof. cbn. rewrite decide_True; [done|]. by apply wrap_in_word. Qed.

Lemma milli_table : Forall (fun n => op_text (TFloat (f_of_Z (Z.of_nat n)) 3) = Some (digits (Z.of_nat n) ++ text ".000")) (seq 0 1000).
Proof. apply (bool_decide_unpack _). vm_compute. exact I. Qed.

Lemma milli_text v : op_text (TFloat (f_of_Z (v mod 1000)) 3) = Some (digits (v mod 1000) ++ text ".000").
Proof.
  pose proof (Z.mod_pos_bound v 1000 eq_refl). pose proof milli_table as Ht. rewrite Forall_forall in Ht.
  specialize (Ht (Z.to_nat (v mod 1000))). rewrite Z2Nat.id in Ht by lia. apply Ht, elem_of_seq. lia.
Qed.

Lemma piece_text_ok p : match p with Str s => no_nul s | _ => True end ->
  op_text (piece_op p) = Some (piece_text p) /\ no_nul (piece_text p) /\ length (piece_text p) <= piece_room p.
Proof.
  destruct p as [s|v|v]; cbn [piece_op piece_text piece_room]; intros Hp.
  - done.
  - split; [apply u32_text|]. split; [apply digits_no_nul|]. apply digits_length_u32. by apply wrap_in_word.
  - split; [apply milli_text|]. split; [apply no_nul_app; [apply digits_no_nul|closed_text]|]. rewrite length_app.
    pose proof (Z.mod_pos_bound v 1000 eq_refl). assert (length (digits (v mod 1000)) <= 10); [|simpl; lia].
    apply digits_length_u32. unfold in_word. lia.
Qed.

(** A text the builder has room for. *)
Lemma compose_pieces ps b s :
  sb_rep b s -> pieces_fit ps = true ->
  exists b', compose (piece_op <$> ps) b = Some (b', pieces_text ps) /\ sb_rep b' (pieces_text ps).
Proof.
  intros Hb [Hf Hr]%andb_true_iff. apply bool_decide_eq_true in Hr.
  assert (Hall : Forall (fun p => op_text (piece_op p) = Some (piece_text p) /\ no_nul (piece_text p) /\ length (piece_text p) <= piece_room p) ps).
  { apply Forall_forall. intros p Hp. apply piece_text_ok. rewrite forallb_forall in Hf. specialize (Hf p). rewrite <- list_elem_of_In in Hf.
    specialize (Hf Hp). destruct p; try done. by apply bool_decide_eq_true in Hf. }
  assert (Hx : Forall2 (fun op x => op_text op = Some x) (piece_op <$> ps) (piece_text <$> ps) /\ no_nul (pieces_text ps) /\
    length (pieces_text ps) <= sum_list_with piece_room ps).
  { clear -Hall. unfold pieces_text. induction Hall as [|p ps (H1 & H2 & H3) _ (IH1 & IH2 & IH3)]; [split; [constructor|split; [constructor|simpl; lia]]|]. cbn. split; [by constructor|].
    split; [by apply no_nul_app|]. rewrite length_app. lia. }
  destruct Hx as (H1 & H2 & H3). unfold pieces_text in *. destruct (compose_ok _ _ b s Hb H1 H2) as (b' & E & Hb').
  assert (Ef : fit (concat (piece_text <$> ps)) = concat (piece_text <$> ps)) by (unfold fit; apply firstn_all2; lia).
  rewrite Ef in *. by exists b'.
Qed.

(** The message of the pieces [ps] is composed in a builder that can be written to. *)
Ltac composes ps Hb b Hb' :=
  let E := fresh "E" in
  destruct (compose_pieces ps _ _ Hb eq_refl) as (b & E & Hb');
  cbn [piece_op fmap list_fmap] in E; rewrite E; clear E;
  unfold pieces_text in *; cbn [fmap list_fmap piece_text concat] in *; rewrite app_nil_r in *; cbn [mbind option_bind].

Lemma u32_succ v : u32 (u32 v + 1) = u32 (v + 1).
Proof. unfold u32, wrap. apply Zplus_mod_idemp_l. Qed.

Lemma c_string_no_nul a s : c_string a = Some s -> no_nul s.
Proof.
  revert s. induction a as [|c a IH]; intros s; simpl; [done|]. case_decide; [intros [= <-]; constructor|].
  destruct (c_string a) as [s'|] eqn:E; cbn [mbind option_bind]; [|done]. intros [= <-]. constructor; [done|]. by apply IH.
Qed.

Lemma compose_no_nul ops b b' s : compose ops b = Some (b', s) -> no_nul s.
Proof. unfold compose. intros H. simplify_option_eq. by eapply c_string_no_nul. Qed.

Section bench.
Context {S : Type}.
Abbreviation World := (World (Bench S)).
Abbreviation Shared := (Shared World).

Definition on_bench (f : Bench S -> Bench S) (w : World) : World :=
  MkWorld (w_cli w) (w_snapshot w) (f (w_app w)) (w_sent w) (w_handled w).

Definition set_diags (d : BackgroundDiagnosticsTask) (b : Bench S) : Bench S :=
  MkBench d (be_held b) (be_stdout b) (be_posted b) (be_state b).
Definition set_held (held : bool) (b : Bench S) : Bench S :=
  MkBench (be_diags b) held (be_stdout b) (be_posted b) (be_state b).
Definition write_stdout (line : list Z) (b : Bench S) : Bench S :=
  MkBench (be_diags b) (be_held b) (be_stdout b ++ [line]) (be_posted b) (be_state b).
Definition set_state (s : S) (b : Bench S) : Bench S :=
  MkBench (be_diags b) (be_held b) (be_stdout b) (be_posted b) s.
Definition note_posted (calls : list log_call) (b : Bench S) : Bench S :=
  MkBench (be_diags b) (be_held b) (be_stdout b) (be_posted b ++ (call_message <$> calls)) (be_state b).

(** [TimedMutexAdapter]: a free lock is taken. *)
#[export] Instance TimedMutexAdapter : IMutex World := {|
  mutex_lock _ w := if be_held (w_app w) then (false, w) else (true, on_bench (set_held true) w);
  mutex_unlock := on_bench (set_held false);
|}.

(** [stdoutWrite] is the drain callback. *)
#[export] Instance bench_diags : DiagsHost World := {|
  the_diags w := be_diags (w_app w);
  put_diags d := on_bench (set_diags d);
  drain_write line := on_bench (write_stdout line);
|}.

(** ** The tasks in the kernel *)

Definition task_init (t : UserTask S) (h : Shared) : Shared :=
  set_world (on_bench (fun b => set_state (ut_init t (be_state b)) b) (sh_world h)) h.

Definition task_tick (t : UserTask S) (now : Z) (h : Shared) : Shared :=
  match ut_tick t now (sh_reads h) (be_state (w_app (sh_world h))) with
  | Some (n, s, calls) =>
      match telemetry_log_all calls (sh_telemetry h) (sh_world h) with
      | Some (l, w) => set_reads n (set_telemetry l (set_world (on_bench (fun b => note_posted calls (set_state s b)) w) h))
      | None => h
      end
  | None => h
  end.

Context (tasks : list (UserTask S)).

Definition task_at (tid : nat) : option (UserTask S) := head (filter (fun t => ut_id t = tid) tasks).

Definition with_users (env : Env World) : Env World := {|
  kCoreCount := kCoreCount env; kQueueCapacity := kQueueCapacity env;
  kControlBudgetUs := kControlBudgetUs env; kMaxBackgroundTasks := kMaxBackgroundTasks env;
  kCrunchMaxOverruns := kCrunchMaxOverruns env; kMinSchedulePeriodUs := kMinSchedulePeriodUs env;
  kMetricsWindowUs := kMetricsWindowUs env;
  env_desc tid := match task_at tid with Some t => ut_desc t | None => env_desc env tid end;
  env_init tid := match task_at tid with Some t => task_init t | None => env_init env tid end;
  env_tick tid := match task_at tid with Some t => task_tick t | None => env_tick env tid end;
  env_onOverrun tid := match task_at tid with Some t => fun _ _ h => h | None => env_onOverrun env tid end;
  env_crunch := env_crunch env; env_onCrunchAbort := env_onCrunchAbort env;
  env_stopCondition := env_stopCondition env; env_watchdogKick := env_watchdogKick env;
  env_peers := env_peers env; env_clock := env_clock env; env_inv := env_inv env;
|}.

(** ** What a task may do *)

(** Its clock readings and texts, in whatever state. *)
Definition user_sound : Prop := forall t, t ∈ tasks -> forall now n s n' s' calls,
  ut_tick t now n s = Some (n', s', calls) -> n <= n' /\ Forall (fun c => no_nul c.1.1.2) calls.

Lemma task_at_in tid t : task_at tid = Some t -> t ∈ tasks /\ ut_id t = tid.
Proof.
  unfold task_at. intros H. destruct (filter _ _) as [|t' l] eqn:E; [done|]. injection H as ->.
  assert (Hin : t ∈ filter (fun t => ut_id t = tid) tasks) by (rewrite E; apply list_elem_of_here).
  apply list_elem_of_filter in Hin as [Hid Hin]. done.
Qed.

Lemma log_all_world calls l (w : World) l' w' :
  telemetry_log_all calls l w = Some (l', w') -> exists held, w' = on_bench (set_held held) w.
Proof.
  assert (Hid : forall w : World, exists held, w = on_bench (set_held held) w) by (intros [? ? [] ? ?]; eauto).
  revert l w. induction calls as [|[[[task str] level] ts] calls IH]; intros l w; cbn [telemetry_log_all]; [intros [= _ <-]; apply Hid|].
  unfold telemetry_log. destruct (log_entry task str level ts l) as [l1|]; cbn [mbind option_bind]; [|done].
  intros (held & ->)%IH. exists held. unfold guard_lock, guard_unlock. destruct (tl_guard l); [|done].
  cbn. by destruct (be_held (w_app w)).
Qed.

Lemma telemetry_log_all_total {M} `{!IMutex M} calls l (m : M) ms :
  telemetry_rep l ms -> Forall (fun c => no_nul c.1.1.2) calls ->
  exists l' m', telemetry_log_all calls l m = Some (l', m') /\
    telemetry_rep l' (last_n kTelemetryCapacity (ms ++ (call_message <$> calls))) /\ tl_verbosity l' = tl_verbosity l.
Proof.
  intros Hms. apply telemetry_log_all_ok. unfold last_n. replace (length ms - kTelemetryCapacity) with 0; [done|].
  pose proof (tr_bound _ _ Hms). lia.
Qed.

Context (env : Env World) (kMaxLineLen MaxPayload : nat).
Hypothesis Hinv : env_inv env = session_inv kMaxLineLen MaxPayload.

Lemma task_init_ok t : callback_ok env (task_init t).
Proof. apply (notes_callback_ok env kMaxLineLen MaxPayload Hinv). split; intros h; try done. cbn. by rewrite app_nil_r. Qed.

Lemma task_tick_notes t now : user_sound -> t ∈ tasks -> notes [] (task_tick t now).
Proof.
  intros Hs Ht. split; intros h; unfold task_tick; destruct (ut_tick t now _ _) as [[[n s] calls]|] eqn:E; try done;
    try (cbn; by rewrite app_nil_r); destruct (Hs t Ht _ _ _ _ _ _ E) as [Hn Hc];
    destruct (telemetry_log_all calls (sh_telemetry h) (sh_world h)) as [[l w]|] eqn:E2; try done; try (cbn; by rewrite app_nil_r).
  - intros [ms Hms]. destruct (telemetry_log_all_total calls _ (sh_world h) ms Hms Hc) as (l' & w' & E' & Hl & _).
    rewrite E2 in E'. injection E' as <- <-. by eexists.
  - destruct (log_all_world _ _ _ _ _ E2) as [held ->]. cbn. by rewrite app_nil_r.
Qed.

Lemma task_tick_timers t now h : sh_taskTimers (task_tick t now h) = sh_taskTimers h.
Proof. unfold task_tick. destruct (ut_tick _ _ _ _) as [[[n s] calls]|]; [|done]. by destruct (telemetry_log_all _ _ _) as [[]|]. Qed.

Lemma with_users_ok : env_ok env -> user_sound -> env_ok (with_users env).
Proof.
  intros [E1 E2 Et E3 E4 E5 E6 E7 E8] Hs.
  split; intros; try (apply (callback_ok_same env); try reflexivity); eauto; simpl; destruct (task_at tid) as [t|] eqn:E; eauto.
  - apply task_init_ok.
  - destruct (task_at_in _ _ E) as [Ht _]. by apply (notes_callback_ok env kMaxLineLen MaxPayload Hinv), task_tick_notes.
  - apply task_tick_timers.
  - by split.
Qed.
End bench.

(** ** What waits, and what is on stdout *)

Section telling.
Context {S : Type}.
Abbreviation World := (World (Bench S)).
Abbreviation Shared := (Shared World).

Definition state_of (h : Shared) : S := be_state (w_app (sh_world h)).
Definition posted_of (h : Shared) : list message := be_posted (w_app (sh_world h)).
Definition stdout_of (h : Shared) : list (list Z) := be_stdout (w_app (sh_world h)).

(** Neither the tasks' state nor the telemetry changes. *)
Definition bystander (h h' : Shared) : Prop :=
  w_app (sh_world h') = w_app (sh_world h) /\ sh_telemetry h' = sh_telemetry h.

#[export] Instance bystander_preorder : PreOrder bystander.
Proof. split; [done|]. intros h1 h2 h3 [] []. split; congruence. Qed.

(** What waits in the ring, under the verbosity of the start. *)
Definition waits (h : Shared) (ms : list message) : Prop := tl_verbosity (sh_telemetry h) = STATUS /\ telemetry_rep (sh_telemetry h) ms.

(** What was logged before the last drain is on stdout, but for what the ring lost: nothing,
    as long as no more was logged than it has places; the rest waits in the ring. *)
Definition told (h : Shared) : Prop :=
  tl_verbosity (sh_telemetry h) = STATUS /\ exists before since,
    posted_of h = before ++ since /\ telemetry_rep (sh_telemetry h) (last_n kTelemetryCapacity since) /\
    stdout_of h `sublist_of` drained STATUS before /\
    (length (posted_of h) <= kTelemetryCapacity -> stdout_of h = drained STATUS before).

Lemma on_bench_app f (w : World) : w_app (on_bench f w) = f (w_app w).
Proof. done. Qed.

(** A task logs. *)
Lemma task_tick_logs t now h n s calls ms :
  ut_tick t now (sh_reads h) (state_of h) = Some (n, s, calls) -> Forall (fun c => no_nul c.1.1.2) calls -> waits h ms ->
  let h' := task_tick t now h in
  waits h' (last_n kTelemetryCapacity (ms ++ (call_message <$> calls))) /\ state_of h' = s /\ posted_of h' = posted_of h ++ (call_message <$> calls) /\
  stdout_of h' = stdout_of h /\ be_diags (w_app (sh_world h')) = be_diags (w_app (sh_world h)) /\ sh_reads h' = n.
Proof.
  intros Et Hc [Hv Ht]. unfold task_tick. unfold state_of in Et. rewrite Et.
  destruct (telemetry_log_all_total calls (sh_telemetry h) (sh_world h) ms Ht Hc) as (l & w & E & Hl & Hv'). rewrite E.
  destruct (log_all_world _ _ _ _ _ E) as [held ->]. unfold waits, posted_of, state_of, stdout_of in *. cbn in *.
  split; [split; [congruence|exact Hl]|done].
Qed.

Lemma drained_app v ms1 ms2 : drained v (ms1 ++ ms2) = drained v ms1 ++ drained v ms2.
Proof. unfold drained. by rewrite filter_app, fmap_app. Qed.

Lemma last_n_sublist {X} n (xs : list X) : last_n n xs `sublist_of` xs.
Proof. unfold last_n. apply sublist_drop. Qed.

Lemma drained_sublist v ms ms' : ms `sublist_of` ms' -> drained v ms `sublist_of` drained v ms'.
Proof.
  unfold drained. induction 1 as [|m ms ms' _ IH|m ms ms' _ IH]; [done| |]; rewrite !filter_cons; destruct (decide _); cbn; auto.
  - by apply sublist_skip.
  - by apply sublist_cons.
Qed.

Lemma set_held_id (b : Bench S) : b = set_held (be_held b) b.
Proof. by destruct b. Qed.

Lemma guard_lock_app l (w : World) : exists held, w_app (guard_lock l w) = set_held held (w_app w).
Proof.
  unfold guard_lock. destruct (tl_guard l); [|by eexists; apply set_held_id]. cbn.
  destruct (be_held (w_app w)); [by eexists; apply set_held_id|by eexists].
Qed.

(** The lines of a drain reach stdout. *)
Lemma after_drain_app d l ms (w : World) : dt_drain d = true -> tl_verbosity l = STATUS -> exists held,
  w_app (after_drain d l ms w).2 = MkBench (be_diags (w_app w)) held (be_stdout (w_app w) ++ drained STATUS ms) (be_posted (w_app w)) (be_state (w_app w)).
Proof.
  intros Hd Hv. unfold after_drain. rewrite Hd, Hv. cbn [snd].
  assert (Hw : forall ls (w : World), w_app (foldl (fun w line => drain_write line w) w ls) =
    MkBench (be_diags (w_app w)) (be_held (w_app w)) (be_stdout (w_app w) ++ ls) (be_posted (w_app w)) (be_state (w_app w))).
  { intros ls. induction ls as [|x ls IH]; intros w'; cbn [foldl]; [rewrite app_nil_r; by destruct (w_app w')|].
    rewrite IH. cbn. by rewrite <- app_assoc. }
  destruct (guard_lock_app l w) as [held H1]. unfold guard_unlock. destruct (tl_guard l); cbn; rewrite Hw, H1; by eexists.
Qed.

End telling.

(** ** Diaries *)

(** What the messages of each tick were; [None] is a call of the diagnostics task, which drains the
    ring. *)
Abbreviation diary := (list (option (list message))).

Definition posted_in (d : diary) : list message := mjoin (default [] <$> d).

(** What reaches stdout, and what then waits, if [ms] waited before: the ring keeps the last 32
    messages, and a drain prints those of the level. *)
Fixpoint printed (ms : list message) (d : diary) : list (list Z) :=
  match d with
  | [] => []
  | Some new :: d => printed (last_n kTelemetryCapacity (ms ++ new)) d
  | None :: d => drained STATUS ms ++ printed [] d
  end.

Fixpoint waiting (ms : list message) (d : diary) : list message :=
  match d with
  | [] => ms
  | Some new :: d => waiting (last_n kTelemetryCapacity (ms ++ new)) d
  | None :: d => waiting [] d
  end.

Lemma posted_in_app d1 d2 : posted_in (d1 ++ d2) = posted_in d1 ++ posted_in d2.
Proof. unfold posted_in. by rewrite fmap_app, join_app. Qed.

Lemma printed_app ms d1 d2 : printed ms (d1 ++ d2) = printed ms d1 ++ printed (waiting ms d1) d2.
Proof. revert ms. induction d1 as [|[new|] d1 IH]; intros ms; cbn [printed waiting app]; [done|apply IH|]. by rewrite IH, app_assoc. Qed.

Lemma waiting_app ms d1 d2 : waiting ms (d1 ++ d2) = waiting (waiting ms d1) d2.
Proof. revert ms. induction d1 as [|[new|] d1 IH]; intros ms; cbn [waiting app]; [done|apply IH..]. Qed.

Lemma last_n_all {X} n (xs : list X) : length xs <= n -> last_n n xs = xs.
Proof. intros H. unfold last_n. by replace (length xs - n) with 0 by lia. Qed.

Lemma last_n_app {X} n (xs ys : list X) : last_n n (last_n n xs ++ ys) = last_n n (xs ++ ys).
Proof.
  destruct (decide (length xs <= n)) as [H|H]; [by rewrite (last_n_all n xs)|]. unfold last_n.
  rewrite !length_app, length_drop, <- (drop_app_le xs ys (length xs - n)), drop_drop by lia. f_equal. lia.
Qed.

(** A diary told in terms of the last drain. *)
Lemma printed_before d since0 : exists before since,
  since0 ++ posted_in d = before ++ since /\ waiting (last_n kTelemetryCapacity since0) d = last_n kTelemetryCapacity since /\
  printed (last_n kTelemetryCapacity since0) d `sublist_of` drained STATUS before /\
  (length (since0 ++ posted_in d) <= kTelemetryCapacity -> printed (last_n kTelemetryCapacity since0) d = drained STATUS before).
Proof.
  revert since0. induction d as [|[new|] d IH]; intros since0; cbn [printed waiting].
  - exists [], since0. by rewrite app_nil_r.
  - rewrite last_n_app. destruct (IH (since0 ++ new)) as (before & since & E & Hrest). exists before, since.
    unfold posted_in in *. cbn [fmap list_fmap mjoin list_join default] in *. unfold default, id in *. rewrite app_assoc. by split.
  - destruct (IH []) as (before & since & E & Hw & Hs & Heq). cbn [app] in *. exists (since0 ++ before), since.
    change (posted_in (None :: d)) with (posted_in d). rewrite E, app_assoc. split; [done|]. split; [exact Hw|]. rewrite drained_app. split.
    + apply sublist_app; [|exact Hs]. apply drained_sublist, last_n_sublist.
    + rewrite !length_app. intros Hle. rewrite (last_n_all _ since0) by lia. f_equal. apply Heq. rewrite E, length_app. lia.
Qed.

(** What a diary says of stdout. *)
Definition diarised {S : Type} (h : Shared (World (Bench S))) (d : diary) : Prop :=
  posted_of h = posted_in d /\ stdout_of h = printed [] d /\ waits h (waiting [] d).

Lemma diarised_told {S : Type} (h : Shared (World (Bench S))) d : diarised h d -> told h.
Proof.
  intros (Hp & Hs & Hv & Ht). destruct (printed_before d []) as (before & since & E & Hw & Hsub & Heq). change (last_n kTelemetryCapacity []) with (@nil message) in *.
  cbn [app] in *. split; [done|]. exists before, since. rewrite Hp, Hs, <- E, <- Hw. by split_and!.
Qed.
(** ** Messages by level *)

#[export] Instance Verbosity_eq_dec : EqDecision Verbosity.
Proof. solve_decision. Defined.

Definition at_level (v : Verbosity) (ms : list message) : list message := filter (fun m => msg_level m = v) ms.

Lemma at_level_app v ms1 ms2 : at_level v (ms1 ++ ms2) = at_level v ms1 ++ at_level v ms2.
Proof. apply filter_app. Qed.

Lemma at_level_all v v' ms : Forall (fun m => msg_level m = v) ms -> at_level v' ms = if decide (v = v') then ms else [].
Proof.
  unfold at_level. intros Hl. case_decide as Hv; [subst v'|].
  - induction Hl as [|m ms Hm _ IH]; [done|]. by rewrite filter_cons, decide_True, IH.
  - induction Hl as [|m ms Hm _ IH]; [done|]. rewrite filter_cons, decide_False; [done|congruence].
Qed.

(** Under the verbosity of the start only the status messages reach stdout. *)
Lemma drained_status ms : Forall (fun m => msg_level m = STATUS \/ msg_level m = INFO) ms -> drained STATUS ms = message_line <$> at_level STATUS ms.
Proof.
  unfold drained, at_level. induction 1 as [|m ms [Hm|Hm] _ IH]; [done| |]; rewrite !filter_cons.
  - rewrite !decide_True; [cbn; by rewrite <- IH|done|]. unfold passes. by rewrite Hm.
  - rewrite !decide_False; [done| |]; unfold passes; rewrite Hm; [done|]. cbn. lia.
Qed.

Lemma told_status {S : Type} (h : Shared (World (Bench S))) :
  told h -> Forall (fun m => msg_level m = STATUS \/ msg_level m = INFO) (posted_of h) ->
  stdout_of h `sublist_of` (message_line <$> at_level STATUS (posted_of h)).
Proof.
  intros (_ & before & since & Hp & _ & Hsub & _) Hl. etransitivity; [exact Hsub|]. rewrite <- drained_status by done. rewrite Hp.
  apply drained_sublist. by apply sublist_inserts_r.
Qed.

(** ** The device *)

Section example.
Context {S : Type}.
Abbreviation World := (World (Bench S)).
Abbreviation Shared := (Shared World).
#[local] Existing Instance noting.
Context (cfg : UserConfig) (base : Env World) (tasks : list (UserTask S)) (long_bits : Z).
Context (deps : Dependencies line) (snap : PerformanceSnapshot) (ct cm dg : nat).

(** The program's own environment: its tasks and the diagnostics task. *)
Definition example_app : Env World := with_diags (with_users tasks base) dg.

(** With the control and the communications task, and monitors that find everything safe
    ([AlwaysSafeSafetyMonitor]). *)
Definition example_env : Env World := configured_env cfg (session_app cfg example_app long_bits (fun _ _ => true) deps snap ct cm).

(** What the static initialisers and [main] make. *)
Definition example_boot (s : S) (diags : BackgroundDiagnosticsTask) : World := session_boot cfg deps snap (MkBench diags false [] [] s).

Hypothesis Hline : 0 < CfgMaxLineLen cfg.
Hypothesis Hstream : ud_stream deps = Some ([], []).
Hypothesis Hmonitors : ud_monitorCount deps <= length (ud_monitors deps).
Hypothesis Hbase : env_ok (configured_env cfg base).
Hypothesis Hinv : env_inv base = session_inv (CfgMaxLineLen cfg) kCliMaxPayload.
Hypothesis Hsound : user_sound tasks.
Hypothesis Hkick : forall h, sh_taskTimers (env_watchdogKick base h) = sh_taskTimers h.

Lemma on_bench_inv f l (w : World) : session_inv (CfgMaxLineLen cfg) kCliMaxPayload l w -> session_inv (CfgMaxLineLen cfg) kCliMaxPayload l (on_bench f w).
Proof. intros []. by split. Qed.

Lemma example_host_ok : diags_host_ok (with_users tasks (configured_env cfg base)).
Proof.
  split; try (intros l w; intros; cbn in *; rewrite Hinv in *); try by apply on_bench_inv.
  - cbn. destruct (be_held (w_app w)); [done|by apply on_bench_inv].
  - apply (callback_ok_same (configured_env cfg base)); try reflexivity. apply (eo_kick _ Hbase).
  - intros h. apply Hkick.
Qed.

Lemma example_app_ok : env_ok (configured_env cfg example_app).
Proof.
  apply (with_diags_ok (with_users tasks (configured_env cfg base)) dg); [|exact example_host_ok].
  by apply (with_users_ok tasks (configured_env cfg base) (CfgMaxLineLen cfg) kCliMaxPayload Hinv).
Qed.

Lemma example_env_ok : env_ok example_env.
Proof.
  apply session_env_ok; try done; [exact example_app_ok|]. exact noting_ok.
Qed.


(** ** A run, seen by the tasks *)

Hypothesis Hothers : env_within (configured_env cfg base) bystander.
Hypothesis Hids : Forall (fun t => ut_id t <> ct /\ ut_id t <> cm /\ ut_id t <> dg) tasks.
Hypothesis Hdg : dg <> ct /\ dg <> cm.

(** The tasks' states stay such that their functions are defined. *)
Definition user_total (Inv : S -> Prop) : Prop := forall t, t ∈ tasks ->
  forall now n s, Inv s -> exists n' s' calls, ut_tick t now n s = Some (n', s', calls) /\ Inv s'.

Definition call_total (Inv : S -> Prop) (c : call) : Prop :=
  match c with
  | CallInit _ => forall t, t ∈ tasks -> forall s, Inv s -> Inv (ut_init t s)
  | CallTick _ _ _ _ | CallBackground _ _ => user_total Inv
  | CallOverrun _ | CallCrunch _ _ _ _ | CallCrunchAbort _ => True
  end.
Implicit Types h : Shared.

Lemma kernel_task_bystander t h :
  (forall h : Shared, bystander h (control_init (make_control deps) h).2) /\
  (forall now (h : Shared), bystander h (control_callback (configured_env cfg example_app) (fun _ _ => true) (commands_per_tick cfg) (make_control deps) now h)) /\
  bystander h (match t with Some x => put_comms (A := Bench S) x h | None => h end).
Proof.
  split; [|split].
  - intros h'. unfold control_init. by destruct (sc_app _).
  - intros now h'. apply control_callback_within; try done. apply _.
  - by destruct t.
Qed.

Lemma diag_init_bystander h : bystander h (diag_init_callback h).
Proof.
  unfold diag_init_callback, diag_init. generalize (dt_monitoredTasks (the_diags (sh_world h))). intros l.
  change (bystander (set_memProfiler new_profiler h) (foldl (fun h tid => put_sh_timer tid (timer_reset (sh_timer tid h)) h)
    (set_memProfiler new_profiler h) l)). generalize (set_memProfiler new_profiler h).
  induction l as [|tid l IH]; intros h1; [done|]. cbn [foldl]. etransitivity; [|apply IH]. done.
Qed.

(** The diagnostics task writes to stdout. *)
Definition drains h : Prop := dt_drain (be_diags (w_app (sh_world h))) = true.

Lemma diag_prints now h ms : shared_ok example_env h -> drains h -> waits h ms ->
  let h' := diag_callback (with_users tasks base) now h in
  drains h' /\ state_of h' = state_of h /\ posted_of h' = posted_of h /\ waits h' [] /\ stdout_of h' = stdout_of h ++ drained STATUS ms.
Proof.
  intros Hok Hd Hw. cbv zeta. change (diag_callback (with_users tasks base) now h) with (diag_callback (with_users tasks base) 0 h).
  unfold diag_callback. change (the_diags (sh_world h)) with (be_diags (w_app (sh_world h))). unfold drains in Hd. set (t0 := be_diags _) in *.
  set (h1 := if dt_watchdogKick t0 then env_watchdogKick (with_users tasks base) h else h).
  assert (Hb : bystander h h1) by (unfold h1; destruct (dt_watchdogKick t0); [apply (ew_kick _ _ Hothers)|done]).
  assert (Hok1 : shared_ok example_env h1).
  { unfold h1. destruct (dt_watchdogKick t0); [|done]. by apply (cb_shared _ _ (eo_kick _ example_env_ok)). }
  destruct Hw as [Hv Ht]. destruct Hb as [Ew Et]. rewrite <- Et in Hv, Ht. destruct (so_log _ _ Hok1) as [es Hes].
  destruct (diag_tick_ok (with_users tasks base) t0 h es ms Hes Ht) as (l & t & E & _ & Htl & Hv' & _). fold h1 in E, Htl, Hv'. rewrite E.
  destruct (after_drain_app t0 (sh_telemetry h1) ms (sh_world h1) Hd Hv) as [held Ha].
  unfold after_drain in Htl. rewrite Hd in Htl. cbn [fst] in Htl. unfold drains, waits, state_of, posted_of, stdout_of.
  cbn [sh_world sh_telemetry set_world set_telemetry put_diags bench_diags]. rewrite on_bench_app, Ha, Ew. cbn. split_and!; [exact Hd|done|done|congruence|exact Htl|done].
Qed.

(** One call, seen by the tasks: the clock readings, the state and the diary. *)
Definition user_step (c : call) (n : nat) (s : S) (n' : nat) (s' : S) (d : diary) : Prop :=
  match c with
  | CallInit tid => s' = match task_at tasks tid with Some t => ut_init t s | None => s end /\ d = []
  | CallTick _ _ tid now | CallBackground tid now =>
      match task_at tasks tid with
      | Some t => exists calls, ut_tick t now n s = Some (n', s', calls) /\ d = [Some (call_message <$> calls)]
      | None => s' = s /\ d = if decide (tid = dg) then [None] else []
      end
  | CallOverrun _ | CallCrunch _ _ _ _ | CallCrunchAbort _ => s' = s /\ d = []
  end.

Inductive user_run : list call -> nat -> S -> nat -> S -> diary -> Prop :=
  | RunNil n n' s : n <= n' -> user_run [] n s n' s []
  | RunCall c calls n n1 n2 n' s s1 s' d1 d2 :
      n <= n1 -> n1 <= n2 -> user_step c n1 s n2 s1 d1 -> user_run calls n2 s1 n' s' d2 -> user_run (c :: calls) n s n' s' (d1 ++ d2).

Lemma user_run_le calls n0 n s n' s' d : n0 <= n -> user_run calls n s n' s' d -> user_run calls n0 s n' s' d.
Proof. intros Hn H. destruct H; [constructor; lia|econstructor; [|done..]; lia]. Qed.

Lemma no_user tid : tid = ct \/ tid = cm \/ tid = dg -> task_at tasks tid = None.
Proof.
  intros Htid. destruct (task_at tasks tid) as [t|] eqn:E; [|done]. apply task_at_in in E as [Ht Hid].
  rewrite Forall_forall in Hids. destruct (Hids t Ht) as (H1 & H2 & H3). intuition congruence.
Qed.

Section total.
Context (Inv : S -> Prop).

(** What the tasks have to do with a state of the kernel. *)
Record bench_ok h (ms : list message) : Prop := {
  bo_shared : shared_ok example_env h;
  bo_inv : Inv (state_of h);
  bo_drains : drains h;
  bo_waits : waits h ms;
}.

(** From [h] to [h1] by the entries [d] of the diary. *)
Record written h (ms : list message) (d : diary) h1 : Prop := {
  wr_inv : Inv (state_of h1);
  wr_drains : drains h1;
  wr_waits : waits h1 (waiting ms d);
  wr_posted : posted_of h1 = posted_of h ++ posted_in d;
  wr_stdout : stdout_of h1 = stdout_of h ++ printed ms d;
}.

(** What one call does. *)
Definition steps (c : call) h (ms : list message) h1 : Prop :=
  exists d, user_step c (sh_reads h) (state_of h) (sh_reads h1) (state_of h1) d /\ written h ms d h1.

Lemma bystander_written h ms h1 : bench_ok h ms -> bystander h h1 -> state_of h1 = state_of h /\ written h ms [] h1.
Proof.
  intros [_ Hi Hd [Hv Ht]] [Hw Htl]. unfold state_of, drains, waits, posted_of, stdout_of in *.
  split; [by rewrite Hw|]. split; unfold state_of, drains, waits, posted_of, stdout_of; rewrite ?Hw, ?Htl; cbn; rewrite ?app_nil_r; done.
Qed.

Lemma bystander_steps c h ms h1 : bench_ok h ms -> bystander h h1 -> (forall n s n', user_step c n s n' s []) -> steps c h ms h1.
Proof. intros Ho Hb Hu. destruct (bystander_written h ms h1 Ho Hb) as [Es Hw]. exists []. split; [|done]. rewrite Es. apply Hu. Qed.

Lemma tick_steps c tid now h ms :
  c = CallBackground tid now \/ (exists core slot, c = CallTick core slot tid now) -> user_total Inv -> bench_ok h ms ->
  steps c h ms (env_tick example_env tid now h).
Proof.
  intros Hc Htotal Ho. pose proof Ho as [Hok Hi Hd Hw]. destruct (kernel_task_bystander None h) as (_ & Hcontrol & _).
  simpl. destruct Hdg as [Hd1 Hd2].
  assert (Hno : forall tid', tid = tid' -> task_at tasks tid' = None -> tid' <> dg -> forall n s n', user_step c n s n' s []).
  { intros tid' -> En Hne n s n'. destruct Hc as [->|(core & slot & ->)]; cbn; by rewrite En, decide_False. }
  case_decide as E1; [apply bystander_steps; [done|apply Hcontrol|eapply Hno; [exact E1|apply no_user; auto|congruence]]|].
  case_decide as E2; [apply bystander_steps; [done| |eapply Hno; [exact E2|apply no_user; auto|congruence]]|].
  { unfold comms_callback. by destruct (comms_tick _ _ _ _ _ _). }
  case_decide as E3.
  { subst tid. destruct (diag_prints now h ms Hok Hd Hw) as (Hd' & Es & Ep & Hw' & Eo). exists [None]. split.
    - assert (En : task_at tasks dg = None) by (apply no_user; auto). rewrite Es. destruct Hc as [->|(core & slot & ->)]; cbn; by rewrite En, decide_True.
    - split; [by rewrite Es|exact Hd'|exact Hw'|by rewrite Ep; cbn; rewrite app_nil_r|by rewrite Eo; cbn; rewrite app_nil_r]. }
  destruct (task_at tasks tid) as [t|] eqn:Et; [|apply bystander_steps; [done|apply (ew_tick _ _ Hothers)|by eapply Hno]].
  destruct (task_at_in _ _ _ Et) as [Hin Hid]. destruct (Htotal t Hin now (sh_reads h) (state_of h) Hi) as (n & s & calls & E & Hi').
  destruct (Hsound t Hin _ _ _ _ _ _ E) as [_ Hn]. destruct (task_tick_logs t now h n s calls ms E Hn Hw) as (Hw' & Es & Ep & Eo & Ed & Er).
  exists [Some (call_message <$> calls)]. split.
  - rewrite Es, Er. destruct Hc as [->|(core & slot & ->)]; cbn; rewrite Et; by exists calls.
  - split; [by rewrite Es|unfold drains; by rewrite Ed|exact Hw'| |by rewrite Eo; cbn; rewrite app_nil_r].
    rewrite Ep. unfold posted_in. cbn. unfold id. by rewrite app_nil_r.
Qed.

Lemma init_steps tid h ms : call_total Inv (CallInit tid) -> bench_ok h ms -> steps (CallInit tid) h ms (env_init example_env tid h).
Proof.
  intros Htotal Ho. destruct (kernel_task_bystander None h) as (Hcontrol & _ & _). simpl.
  assert (Hno : task_at tasks tid = None -> forall n s n', user_step (CallInit tid) n s n' s []) by (intros En n s n'; cbn; by rewrite En).
  case_decide as E1; [apply bystander_steps; [done|apply Hcontrol|apply Hno, no_user; auto]|].
  case_decide as E2; [apply bystander_steps; [done| |apply Hno, no_user; auto]|].
  { unfold comms_init_callback. by destruct (comms_init _ _ _ _ _). }
  case_decide as E3; [apply bystander_steps; [done|apply diag_init_bystander|apply Hno, no_user; auto]|].
  destruct (task_at tasks tid) as [t|] eqn:Et; [|apply bystander_steps; [done|apply (ew_init _ _ Hothers)|auto]].
  destruct (task_at_in _ _ _ Et) as [Hin Hid]. destruct Ho as [Hok Hi Hd Hw]. exists []. split; [cbn; by rewrite Et|].
  split; [by apply Htotal|exact Hd|exact Hw|by rewrite app_nil_r|by rewrite app_nil_r].
Qed.

Lemma performs_steps c h ms h1 : performs example_env (Called c) h h1 -> call_total Inv c -> bench_ok h ms -> steps c h ms h1.
Proof.
  intros Hp Htotal Ho. inversion Hp as [tid ha|core slot tid now ha|tid now ha|tid actual wcet ha|core tid now elapsed ha|tid ha| | |]; subst.
  - by apply init_steps.
  - apply tick_steps; eauto.
  - apply tick_steps; eauto.
  - apply bystander_steps; try done. simpl. repeat (case_decide; [done|]). destruct (task_at tasks tid); [done|]. apply (ew_overrun _ _ Hothers).
  - apply bystander_steps; try done. apply (ew_crunch _ _ Hothers).
  - apply bystander_steps; try done. apply (ew_abort _ _ Hothers).
Qed.

(** What is no call does not concern the tasks. *)
Lemma performs_bystander e h h1 : performs example_env e h h1 -> match e with Called _ => False | _ => True end -> bystander h h1.
Proof. destruct 1; try done; intros _; [apply (ew_stop _ _ Hothers)|apply (ew_kick _ _ Hothers)|apply (ew_peers _ _ Hothers)]. Qed.

Lemma written_trans h h1 h2 ms d1 d2 : written h ms d1 h1 -> written h1 (waiting ms d1) d2 h2 -> written h ms (d1 ++ d2) h2.
Proof.
  intros [] []. split; [done|done|by rewrite waiting_app|by rewrite posted_in_app, app_assoc; congruence|by rewrite printed_app, app_assoc; congruence].
Qed.

Lemma effect_steps es h h' ms : effect example_env es h h' -> Forall (call_total Inv) (calls_of es) -> bench_ok h ms ->
  exists d, user_run (calls_of es) (sh_reads h) (state_of h) (sh_reads h') (state_of h') d /\ written h ms d h'.
Proof.
  assert (Henv : env_ok example_env) by by apply example_env_ok.
  intros He. revert ms. induction He as [h|h h1 h2 es Hb He IH|e h h1 h2 es Hp He IH]; intros ms Hc Ho.
  - exists []. split; [by constructor|]. by apply bystander_written.
  - assert (Hby : bystander h h1) by (destruct Hb as [[_ Hw _ Htl _ _] _ _]; split; congruence).
    destruct (bystander_written h ms h1 Ho Hby) as [Es Hw1]. destruct (IH ms Hc) as (d & Hr & Hw2).
    { destruct Hw1. split; try done. by apply (be_ok _ _ _ Hb), Ho. }
    exists d. split; [|exact (written_trans h h1 h2 ms [] d Hw1 Hw2)]. rewrite <- Es. eapply user_run_le; [apply (be_reads _ _ _ Hb)|exact Hr].
  - assert (Hreads : sh_reads h <= sh_reads h1) by (eapply (effect_reads example_env Henv [e]); by apply effect_event).
    assert (Hok1 : shared_ok example_env h1) by (eapply (effect_ok example_env Henv [e]); [by apply effect_event|apply Ho]).
    assert (Hquiet : match e with Called _ => False | _ => True end -> calls_of (e :: es) = calls_of es ->
      exists d, user_run (calls_of (e :: es)) (sh_reads h) (state_of h) (sh_reads h2) (state_of h2) d /\ written h ms d h2).
    { intros Hne Ec. rewrite Ec in *. destruct (bystander_written h ms h1 Ho (performs_bystander e h h1 Hp Hne)) as [Es Hw1].
      destruct (IH ms Hc) as (d & Hr & Hw2); [by destruct Hw1; split|]. exists d. split; [|exact (written_trans h h1 h2 ms [] d Hw1 Hw2)].
      rewrite <- Es. by eapply user_run_le. }
    destruct e as [c|f| |m]; try (by apply Hquiet). change (calls_of (Called c :: es)) with (c :: calls_of es) in *. clear Hquiet.
    inversion Hc as [|? ? Hc1 Hc2]; subst. destruct (performs_steps c h ms h1 Hp Hc1 Ho) as (d1 & S1 & W1).
    destruct (IH (waiting ms d1) Hc2) as (d2 & R2 & W2); [by destruct W1; split|]. exists (d1 ++ d2). split; [|by eapply written_trans].
    by apply (RunCall c (calls_of es) _ (sh_reads h) (sh_reads h1) _ _ (state_of h1)).
Qed.
End total.

(** ** Initialisations, and then ticks in the order of time *)

(** What of the trace concerns the program: the ticks of its tasks, with the times they are told, and
    the calls of the diagnostics task. *)
Definition beat_of (c : call) : option (option (nat * Z)) :=
  match c with
  | CallTick _ _ tid now | CallBackground tid now =>
      match task_at tasks tid with Some _ => Some (Some (tid, now)) | None => if decide (tid = dg) then Some None else None end
  | CallInit _ | CallOverrun _ | CallCrunch _ _ _ _ | CallCrunchAbort _ => None
  end.

Definition beats (calls : list call) : list (option (nat * Z)) := omap beat_of calls.

Inductive tick_run : list (option (nat * Z)) -> nat -> S -> nat -> S -> diary -> Prop :=
  | TickNil n n' s : n <= n' -> tick_run [] n s n' s []
  | TickDrain evs n n' s s' d : tick_run evs n s n' s' d -> tick_run (None :: evs) n s n' s' (None :: d)
  | TickCall tid t now evs n n1 n2 n' s s1 s' calls d :
      task_at tasks tid = Some t -> n <= n1 -> n1 <= n2 -> ut_tick t now n1 s = Some (n2, s1, calls) -> tick_run evs n2 s1 n' s' d ->
      tick_run (Some (tid, now) :: evs) n s n' s' (Some (call_message <$> calls) :: d).

Lemma tick_run_le evs n0 n s n' s' d : n0 <= n -> tick_run evs n s n' s' d -> tick_run evs n0 s n' s' d.
Proof.
  clear -S. intros Hn H. revert n0 Hn. induction H as [n n' s H|evs n n' s s' d H IH|tid t now evs n n1 n2 n' s s1 s' calls d Ht H1 H2 E H IH]; intros n0 Hn.
  - apply TickNil. lia.
  - apply TickDrain. by apply IH.
  - eapply (TickCall tid t now evs n0 n1 n2); [done|lia|done..].
Qed.

Lemma tick_run_reads evs n s n' s' d : tick_run evs n s n' s' d -> n <= n'.
Proof. clear -S. induction 1; lia. Qed.

Lemma user_run_inits calls n s n' s' d :
  (forall t, t ∈ tasks -> ut_init t s = s) -> Forall is_init calls -> user_run calls n s n' s' d -> s' = s /\ d = [] /\ n <= n'.
Proof.
  clear -S tasks dg. intros Hs Hc Hr. induction Hr as [n n' s Hn|c calls n n1 n2 n' s s1 s' d1 d2 H1 H2 Hstep Hr IH]; [done|].
  inversion Hc as [|? ? [tid ->] Hc']; subst. cbn in Hstep. destruct Hstep as [-> ->].
  assert (Es : match task_at tasks tid with Some t => ut_init t s | None => s end = s).
  { destruct (task_at tasks tid) as [t|] eqn:E; [|done]. by apply Hs, (task_at_in tasks tid). }
  rewrite Es in *. destruct (IH Hs Hc') as (-> & -> & Hn). split; [done|]. split; [done|lia].
Qed.

Lemma beats_inits calls : Forall is_init calls -> beats calls = [].
Proof. clear -S tasks dg. induction 1 as [|c calls [tid ->] _ IH]; [done|exact IH]. Qed.

Lemma beats_app calls1 calls2 : beats (calls1 ++ calls2) = beats calls1 ++ beats calls2.
Proof. clear -S tasks dg. apply omap_app. Qed.

(** A call that is no initialisation. *)
Lemma user_step_tick c calls n n1 n2 n' s s1 s' d1 d2 :
  ~ is_init c -> n <= n1 -> n1 <= n2 -> user_step c n1 s n2 s1 d1 -> tick_run (beats calls) n2 s1 n' s' d2 -> tick_run (beats (c :: calls)) n s n' s' (d1 ++ d2).
Proof.
  clear -S tasks dg. intros Hl H1 H2 Hstep Ht. assert (Hskip : beat_of c = None -> s1 = s -> d1 = [] -> tick_run (beats (c :: calls)) n s n' s' (d1 ++ d2)).
  { intros Hb -> ->. unfold beats. cbn. rewrite Hb. eapply tick_run_le; [|exact Ht]. lia. }
  assert (Htick : forall tid now, beat_of c = match task_at tasks tid with Some _ => Some (Some (tid, now)) | None => if decide (tid = dg) then Some None else None end ->
      match task_at tasks tid with
      | Some t => exists calls, ut_tick t now n1 s = Some (n2, s1, calls) /\ d1 = [Some (call_message <$> calls)]
      | None => s1 = s /\ d1 = if decide (tid = dg) then [None] else [] end ->
    tick_run (beats (c :: calls)) n s n' s' (d1 ++ d2)).
  { intros tid now Hb. destruct (task_at tasks tid) as [t|] eqn:Et.
    - intros (cs & E & ->). unfold beats. cbn. rewrite Hb. cbn. by econstructor.
    - intros [-> ->]. destruct (decide (tid = dg)); [|by apply Hskip]. unfold beats. cbn. rewrite Hb. cbn. constructor. eapply tick_run_le; [|exact Ht]. lia. }
  destruct c; cbn in Hstep; try (by destruct Hstep as [-> ->]; apply Hskip); [by exfalso; apply Hl; eexists| |]; by eapply Htick.
Qed.

Lemma user_run_ticks calls n s n' s' d : Forall in_loop calls -> user_run calls n s n' s' d -> tick_run (beats calls) n s n' s' d.
Proof.
  clear -S tasks dg. intros Hc Hr. induction Hr as [n n' s Hn|c calls n n1 n2 n' s s1 s' d1 d2 H1 H2 Hstep Hr IH]; [by constructor|].
  inversion Hc; subst. eapply user_step_tick; eauto.
Qed.

Definition tick_times (evs : list (option (nat * Z))) : list Z := omap (fun e => snd <$> e) evs.

Lemma beat_times calls : tick_times (beats calls) `sublist_of` omap call_time calls.
Proof.
  clear -S tasks dg. induction calls as [|c calls IH]; [done|].
  assert (Hb : beat_of c = None \/ beat_of c = Some None \/ exists tid now, beat_of c = Some (Some (tid, now)) /\ call_time c = Some now).
  { unfold beat_of. destruct c; auto; (destruct (task_at tasks tid); [right; right; by eexists _, _|case_decide; auto]). }
  unfold beats, tick_times in *. cbn [omap list_omap]. destruct Hb as [->|[->|(tid & now & -> & ->)]]; cbn [omap list_omap fmap option_fmap option_map snd];
    [destruct (call_time c); [by apply sublist_cons|done]..|by apply sublist_skip].
Qed.

(** What holds of the state and the messages at each tick, as the time moves on. *)
Lemma tick_run_time (P : Z -> S -> list message -> Prop) evs n s n' s' d T m :
  (forall t now n s n' s' calls T m, t ∈ tasks -> (T <= now)%Z -> now ∈ tick_times evs -> ut_tick t now n s = Some (n', s', calls) -> P T s m ->
    P now s' (m ++ (call_message <$> calls))) ->
  StronglySorted Z.le (T :: tick_times evs) -> tick_run evs n s n' s' d -> P T s m ->
  exists T', (T <= T')%Z /\ (T' = T \/ T' ∈ tick_times evs) /\ P T' s' (m ++ posted_in d).
Proof.
  intros Hstep Hs Hr. clear -Hstep Hs Hr. revert T m Hs Hstep.
  induction Hr as [n n' s Hn|evs n n' s s' d Hr IH|tid t now evs n n1 n2 n' s s1 s' calls d Ht H1 H2 E Hr IH]; intros T m0 Hs Hstep HP.
  - exists T. rewrite app_nil_r. auto with lia.
  - exact (IH T m0 Hs Hstep HP).
  - apply task_at_in in Ht as [Hin _]. change (tick_times (Some (tid, now) :: evs)) with (now :: tick_times evs) in *.
    inversion Hs as [|? ? Hs' Hle]; subst. inversion Hle as [|? ? HT Hle']; subst.
    destruct (IH now (m0 ++ (call_message <$> calls)) Hs') as (T' & HT' & Hin' & HP').
    + intros t0 now0 k st k' st' cs T0 mm Ht0 Hle0 Hin0. apply Hstep; [done|done|]. by apply list_elem_of_further.
    + eapply Hstep; [done|exact HT|by apply list_elem_of_here|exact E|exact HP].
    + exists T'. split; [lia|]. split; [right; destruct Hin' as [->|?]; [by apply list_elem_of_here|by apply list_elem_of_further]|].
      rewrite <- app_assoc in HP'. exact HP'.
Qed.

(** The same without the time. *)
Lemma tick_run_keeps (P : S -> list message -> Prop) evs n s n' s' d m :
  (forall t now n s n' s' calls m, t ∈ tasks -> ut_tick t now n s = Some (n', s', calls) -> P s m -> P s' (m ++ (call_message <$> calls))) ->
  tick_run evs n s n' s' d -> P s m -> P s' (m ++ posted_in d).
Proof.
  intros Hstep Hr. clear -Hstep Hr. revert m.
  induction Hr as [n n' s Hn|evs n n' s s' d Hr IH|tid t now evs n n1 n2 n' s s1 s' calls d Ht H1 H2 E Hr IH]; intros m0 HP.
  - by rewrite app_nil_r.
  - by apply IH.
  - apply task_at_in in Ht as [Hin _]. pose proof (IH (m0 ++ (call_message <$> calls)) ltac:(by eapply Hstep)) as H. by rewrite <- app_assoc in H.
Qed.

(** The tasks have just been started. *)
Definition starting (Inv : S -> Prop) h : Prop :=
  posted_of h = [] /\ stdout_of h = [] /\ waits h [] /\ drains h /\ Inv (state_of h) /\ forall t, t ∈ tasks -> ut_init t (state_of h) = state_of h.

(** A run of a core from the initial state of the tasks. *)
Lemma example_run Inv fuel coreId core initialized s :
  sys_wf example_env s -> sy_built s = true -> coreId < kCoreCount example_env -> sy_cores s !! coreId = Some core ->
  cd_mode core = FLAT_LOOP -> sy_coreInitialized s !! coreId = Some initialized ->
  sy_kernelState s = RUNNING \/ (initialized = false /\ sy_kernelState s = CONFIGURED) -> user_total Inv -> starting Inv (sy_shared s) ->
  exists fin s' calls d, sys_run example_env fuel coreId s = Some (fin, s') /\ sy_trace s' = sy_trace s ++ calls /\ diarised (sy_shared s') d /\
    tick_run (beats calls) (sh_reads (sy_shared s)) (state_of (sy_shared s)) (sh_reads (sy_shared s')) (state_of (sy_shared s')) d /\
    (st_source (sy_timer s) = true -> clock_rises example_env s (sh_reads (sy_shared s')) ->
     StronglySorted Z.le (tick_times (beats calls)) /\
     Forall (fun t => exists k, k < sh_reads (sy_shared s') /\ t = time_of example_env s k) (tick_times (beats calls))).
Proof.
  intros Hwf Hb Hc Hcore Hmode Hi Hk Htotal (Hp & Ho & Hw & Hd & HI & Hinit). assert (Henv : env_ok example_env) by by apply example_env_ok.
  destruct (run_phases example_env Henv fuel coreId core initialized s Hwf Hb Hc Hcore Hmode Hi Hk)
    as (fin & s1 & s' & E & Hclk1 & Ht1 & Hq & (es1 & Hes1 & He1) & (Hclk2 & es2 & Ht2 & Hloop & He2 & Htimely)).
  destruct (effect_steps (fun x => x = state_of (sy_shared s)) es1 _ _ [] He1) as (d1 & Hr1 & [_ Hd1 Hw1 Hp1 Ho1]).
  { rewrite Hes1. eapply Forall_impl; [exact Hq|]. intros c [tid ->] t Ht' x ->. by apply Hinit. }
  { split; [apply (wf_shared _ _ Hwf)|done..]. }
  rewrite Hes1 in Hr1. destruct (user_run_inits _ _ _ _ _ _ Hinit Hq Hr1) as (Es1 & -> & Hn1). cbn [waiting] in Hw1.
  apply allowed_calls in Hloop.
  destruct (effect_steps Inv es2 _ _ [] He2) as (d & Hr2 & [_ Hd2 Hw2 Hp2 Ho2]).
  { eapply Forall_impl; [exact Hloop|]. intros c Hc'. destruct c; try done. by exfalso; apply Hc'; eexists. }
  { split; [eapply effect_ok; [exact Henv|exact He1|apply (wf_shared _ _ Hwf)]|by rewrite Es1|done..]. }
  apply (user_run_ticks _ _ _ _ _ _ Hloop) in Hr2. exists fin, s', (startup_calls coreId core initialized s ++ calls_of es2), d.
  rewrite beats_app, (beats_inits _ Hq). cbn [app]. split; [exact E|]. split; [by rewrite Ht2, Ht1, app_assoc|]. split.
  { rewrite Hp1, Hp in Hp2. rewrite Ho1, Ho in Ho2. by split. }
  split; [rewrite Es1 in Hr2; by eapply tick_run_le|].
  intros Hsrc Hrise. destruct Htimely as [Hsort Hall]; [congruence|by unfold clock_rises, time_of in *; rewrite Hclk1|]. split.
  - eapply StronglySorted_sublist; [apply beat_times|exact Hsort].
  - eapply sublist_Forall; [apply beat_times|]. eapply Forall_impl; [exact Hall|]. intros t (k & Hkk & ->). exists k. split; [lia|].
    unfold time_of. by rewrite Hclk1.
Qed.
End example.

(** A task of which only the constants matter: [build] calls nothing else. *)
Definition described (id : nat) (desc : TaskDesc) : UserTask unit := MkUser id desc (fun s => s) (fun _ n s => Some (n, s, [])).

(** ** The main functions *)

(** [std::atoi]; undefined for a number that is no [int]. *)
Definition atoi (s : list Z) : option Z :=
  match strtol 64 s with
  | Some (n, _) => if decide (- 2 ^ 31 <= n < 2 ^ 31)%Z then Some n else None
  | None => Some 0%Z
  end.

(** The flags behind the program's name: --forever, --tcp-port <N>. *)
Fixpoint parse_flags (args : list (list Z)) (forever : bool) (tcpPort : Z) : option (bool * Z) :=
  match args with
  | [] => Some (forever, tcpPort)
  | arg :: rest =>
      if decide (arg = text "--forever") then parse_flags rest true tcpPort
      else if decide (arg = text "--tcp-port") then
        match rest with
        | value :: rest => n ← atoi value; parse_flags rest forever (u16 n)
        | [] => Some (forever, tcpPort)
        end
      else parse_flags rest forever tcpPort
  end.

(** [main]: the flags, then the socket, if a port is given, and then the registrations. [startAccept]
    is the answer of [TcpStreamServer::startAccept] on that port, which waits for a client;
    [inl 1] is [main] returning because it failed. *)
Definition example_main (startAccept : Z -> bool) (calls : bool -> list registration) (args : list (list Z)) : option (Z + list registration) :=
  '(forever, tcpPort) ← parse_flags args false 0;
  Some (if (0 <? tcpPort)%Z && negb (startAccept tcpPort) then inl 1%Z else inr (calls forever)).

Lemma example_main_calls accept calls args ops : example_main accept calls args = Some (inr ops) -> exists forever, ops = calls forever.
Proof.
  unfold example_main. destruct (parse_flags args false 0) as [[forever port]|]; cbn [mbind option_bind]; [|done].
  destruct (_ && _); [done|]. intros [= <-]. by exists forever.
Qed.

Example flags_parsed :
  parse_flags [text "--tcp-port"; text "9000"; text "--forever"] false 0 = Some (true, 9000%Z) /\
  parse_flags [text "--tcp-port"] false 0 = Some (false, 0%Z) /\
  parse_flags [text "--tcp-port"; text "65537"] false 0 = Some (false, 1%Z).
Proof. vm_compute. auto. Qed.

(** What [main] hands to the builder: an application, a monitor, a stream (stdout, on which
    nothing arrives, or the socket), a clock, and no watchdog. *)
Definition example_deps : Dependencies line := Deps true [Some 0] 1 (Some ([], [])) false true.

(** The registration calls behind the stream, in order; [locked] is the telemetry mutex. *)
Definition example_calls (locked forever : bool) (stops : list nat) (rest : list registration) : list registration :=
  [SetDrain true] ++ (if locked then [SetMutex true] else []) ++
  (if forever then [] else AddStop <$> (Some <$> stops)) ++ rest.

(** What surrounds the program's own tasks: stop conditions, a host on the line, the clock. *)
Record surroundings {S : Type} (cfg : UserConfig) (base : Env (World (Bench S))) : Prop := {
  su_ok : env_ok (configured_env cfg base);
  su_inv : env_inv base = session_inv (CfgMaxLineLen cfg) kCliMaxPayload;
  su_kick h : sh_taskTimers (env_watchdogKick base h) = sh_taskTimers h;
  su_others : env_within (configured_env cfg base) bystander;
}.

(** ** From power-on *)

(** What a run depends on, of the state that [build] leaves: it succeeded on a core without
    crunch task, with a clock; [diags] is the diagnostics task it has made, and nothing has
    been logged. *)
Definition ready {S : Type} (cfg : UserConfig) (base : Env (World (Bench S))) (s0 : S) (diags : BackgroundDiagnosticsTask) (locked : bool) (r : BuildResult) (s : System (World (Bench S))) : Prop :=
  r = BuildOk /\ (cd_mode <$> sy_cores s !! 0) = Some FLAT_LOOP /\ sy_timer s = SysTimer true (env_clock base 0) /\
  w_app (sh_world (sy_shared s)) = MkBench diags false [] [] s0 /\ sh_telemetry (sy_shared s) = new_telemetry locked /\
  diags = built_diags cfg example_deps s.

(** The first [hi] readings of the clock do not go back, by the program's time. *)
Definition clock_runs {W} (base : Env W) (hi : nat) : Prop := forall n m, n <= m < hi ->
  (u64 (env_clock base n - env_clock base 0) <= u64 (env_clock base m - env_clock base 0))%Z.

Lemma ready_starting {S : Type} cfg base (s0 : S) diags locked r s (tasks : list (UserTask S)) (Inv : S -> Prop) :
  ready cfg base s0 diags locked r s -> dt_drain diags = true -> Inv s0 /\ (forall t, t ∈ tasks -> ut_init t s0 = s0) ->
  starting tasks Inv (sy_shared s) /\ state_of (sy_shared s) = s0.
Proof.
  intros (_ & _ & _ & Ew & Et & _) Hd [HI H0]. unfold starting, waits, drains, posted_of, stdout_of, state_of. rewrite Ew, Et. cbn.
  split_and!; try done. apply new_telemetry_rep.
Qed.

Section power_on.
#[local] Existing Instance noting.
Context {S : Type} (cfg : UserConfig) (base : Env (World (Bench S))) (tasks : list (UserTask S)) (long_bits : Z).
Context (snap : PerformanceSnapshot) (ct cm dg : nat) (s0 : S) (diags : BackgroundDiagnosticsTask) (locked : bool).
Context (ops : list registration).

(** [main], up to [System::run]. *)
Definition example_start : option (BuildResult * System (World (Bench S))) :=
  let env := example_env cfg base tasks long_bits example_deps snap ct cm dg in
  s ← register_all env ops (boot env (boot_shared env (example_boot cfg example_deps snap s0 diags)));
  build env ct cm dg (the_builder example_deps) s.

Hypothesis Hcfg : ConfigValidator cfg = true.
Hypothesis Htyped : config_typed cfg.
Hypothesis Hbg : background_count ops < CfgMaxBackgroundTasks cfg.
Hypothesis Hsur : surroundings cfg base.
Hypothesis Hsnap : snapshot_ok snap.
Hypothesis Hsound : user_sound tasks.
Hypothesis Hids : Forall (fun t => ut_id t <> ct /\ ut_id t <> cm /\ ut_id t <> dg) tasks.
Hypothesis Hdg : dg <> ct /\ dg <> cm.
Hypothesis Hdrain : dt_drain diags = true.
Context (Inv : S -> Prop).
Hypothesis Htotal : user_total tasks Inv.
Hypothesis Hinit : Inv s0 /\ forall t, t ∈ tasks -> ut_init t s0 = s0.

(** From power-on, [main] runs the kernel, and the kernel the tasks, in the order of time. *)
Lemma example_life fuel : (forall r s, example_start = Some (r, s) -> ready cfg base s0 diags locked r s) ->
  let env := example_env cfg base tasks long_bits example_deps snap ct cm dg in
  exists s1 fin s2 calls d, example_start = Some (BuildOk, s1) /\ sys_run env fuel 0 s1 = Some (fin, s2) /\
    sy_trace s2 = sy_trace s1 ++ calls /\ diarised (sy_shared s2) d /\
    tick_run tasks (beats tasks dg calls) (sh_reads (sy_shared s1)) s0 (sh_reads (sy_shared s2)) (state_of (sy_shared s2)) d /\
    (clock_runs base (sh_reads (sy_shared s2)) ->
     StronglySorted Z.le (0%Z :: tick_times (beats tasks dg calls)) /\ Forall (in_word 64) (tick_times (beats tasks dg calls))).
Proof.
  intros Hready env. destruct Hsur as [Hbase Hinv Hkick Hothers]. destruct Htyped as [_ Hline _].
  destruct (device_builds cfg (session_app cfg (example_app base tasks dg) long_bits (fun _ _ => true) example_deps snap ct cm)
    (example_boot cfg example_deps snap s0 diags) ct cm dg (the_builder example_deps) ops)
    as (sr & r & s1 & E1 & E2 & Hiff & Hwf & Hi & Hst); [done| |done|].
  { cbn [env_inv session_app with_task example_app with_diags with_users]. rewrite Hinv. by apply session_boot_inv. }
  assert (E : example_start = Some (r, s1)) by (unfold example_start, example_env; by rewrite E1).
  change (sys_wf env s1) in Hwf.
  pose proof (Hready r s1 E) as Hr. destruct (ready_starting _ _ _ _ _ _ _ tasks Inv Hr Hdrain Hinit) as [Hst0 Es]. destruct Hr as (-> & Hm & Htm & _).
  rewrite decide_True in Hst by done. injection Hst as Hk Hb.
  destruct (sy_cores s1 !! 0) as [core|] eqn:Hcore; [|done]. injection Hm as Hm.
  assert (Hc : 0 < kCoreCount env) by (apply ConfigValidator_ok in Hcfg as [H _]; exact H).
  destruct (lookup_lt_is_Some_2 (sy_coreInitialized s1) 0) as [i Hinit0]; [by rewrite (wf_inits _ _ Hwf)|].
  assert (i = false) as -> by (rewrite Forall_lookup in Hi; by eapply Hi).
  destruct (example_run cfg base tasks long_bits example_deps snap ct cm dg) with (Inv := Inv) (fuel := fuel) (coreId := 0)
    (core := core) (initialized := false) (s := s1)
    as (fin & s2 & calls & d & E3 & Htr & Hdi & Hev & Htime); try done; try (by right); try (simpl; lia).
  fold env in E3. exists s1, fin, s2, calls, d. split; [exact E|]. split; [exact E3|]. split; [exact Htr|]. split; [exact Hdi|].
  rewrite Es in Hev. split; [exact Hev|]. intros Hrise. destruct Htime as [Hsort Hall]; [by rewrite Htm|by unfold clock_rises, time_of; rewrite Htm|].
  assert (Hw64 : Forall (in_word 64) (tick_times (beats tasks dg calls))).
  { eapply Forall_impl; [exact Hall|]. intros t (k & _ & ->). unfold time_of. unfold nowMicros. case_match; [apply wrap_in_word; lia|done]. }
  split; [|exact Hw64]. constructor; [exact Hsort|]. eapply Forall_impl; [exact Hw64|]. intros t Htw. unfold in_word in Htw. lia.
Qed.

(** What the ticks keep, as the time moves on, holds of the tasks' state and of what they have
    logged when the core stops. *)
Lemma example_story (P : Z -> S -> list message -> Prop) fuel :
  (forall r s, example_start = Some (r, s) -> ready cfg base s0 diags locked r s) -> P 0%Z s0 [] ->
  (forall t now n s n' s' calls T m, t ∈ tasks -> in_word 64 now -> (T <= now)%Z -> ut_tick t now n s = Some (n', s', calls) -> P T s m ->
    P now s' (m ++ (call_message <$> calls))) ->
  exists s1 fin s2, example_start = Some (BuildOk, s1) /\
    sys_run (example_env cfg base tasks long_bits example_deps snap ct cm dg) fuel 0 s1 = Some (fin, s2) /\ told (sy_shared s2) /\
    (clock_runs base (sh_reads (sy_shared s2)) -> exists now, P now (state_of (sy_shared s2)) (posted_of (sy_shared s2))).
Proof.
  intros Hready HP Hstep. destruct (example_life fuel Hready) as (s1 & fin & s2 & calls & d & E1 & E2 & _ & Hd & Hev & Htime).
  exists s1, fin, s2. do 2 (split; [done|]). split; [by eapply diarised_told|]. destruct Hd as [-> _]. intros Hrise. destruct (Htime Hrise) as [Hs Hw].
  edestruct (tick_run_time tasks P (beats tasks dg calls)) with (2 := Hs) (3 := Hev) (m := @nil message) as (T & _ & _ & HT); [|exact HP|by exists T].
  intros t now n s n' s' cs T m Ht' HT Hin. rewrite Forall_forall in Hw. by eapply Hstep; eauto.
Qed.

Lemma example_keeps (P : S -> list message -> Prop) fuel :
  (forall r s, example_start = Some (r, s) -> ready cfg base s0 diags locked r s) -> P s0 [] ->
  (forall t now n s n' s' calls m, t ∈ tasks -> ut_tick t now n s = Some (n', s', calls) -> P s m -> P s' (m ++ (call_message <$> calls))) ->
  exists s1 fin s2, example_start = Some (BuildOk, s1) /\
    sys_run (example_env cfg base tasks long_bits example_deps snap ct cm dg) fuel 0 s1 = Some (fin, s2) /\ told (sy_shared s2) /\
    P (state_of (sy_shared s2)) (posted_of (sy_shared s2)).
Proof.
  intros Hready HP Hstep. destruct (example_life fuel Hready) as (s1 & fin & s2 & calls & d & E1 & E2 & _ & Hd & Hev & _).
  exists s1, fin, s2. do 2 (split; [done|]). split; [by eapply diarised_told|]. destruct Hd as [-> _]. change (posted_in d) with ([] ++ posted_in d).
  eapply tick_run_keeps; [exact Hstep|exact Hev|exact HP].
Qed.
End power_on.

(** ** A quiet surrounding *)

(** Nobody on the line; the clock advances by [step] with each reading and stands still after
    [2 ^ 62]; the program is stopped when it shows [endAt]. *)
Definition quiet_base (S : Type) (cfg : UserConfig) (step endAt : Z) : Env (World (Bench S)) := {|
  kCoreCount := 1; kQueueCapacity := 4; kControlBudgetUs := 10000; kMaxBackgroundTasks := 4;
  kCrunchMaxOverruns := 2; kMinSchedulePeriodUs := 10; kMetricsWindowUs := 60000000;
  env_desc _ := diags_desc;
  env_init _ h := h; env_tick _ _ h := h; env_onOverrun _ _ _ h := h; env_crunch _ _ h := h;
  env_onCrunchAbort _ h := h; env_watchdogKick h := h; env_peers _ h := h;
  env_stopCondition _ h := (bool_decide (endAt <= step * Z.of_nat (sh_reads h))%Z, h);
  env_clock n := Z.min (step * Z.of_nat n) (2 ^ 62); env_inv := session_inv (CfgMaxLineLen cfg) kCliMaxPayload;
|}.

Lemma quiet_surroundings S cfg step endAt : surroundings cfg (quiet_base S cfg step endAt).
Proof. split; try done; split; intros; split; by intros. Qed.

Lemma quiet_clock S cfg step endAt hi : (0 <= step)%Z -> clock_runs (quiet_base S cfg step endAt) hi.
Proof.
  intros Hs n m Hn. assert (H : forall k, u64 (env_clock (quiet_base S cfg step endAt) k - env_clock (quiet_base S cfg step endAt) 0) =
    Z.min (step * Z.of_nat k) (2 ^ 62)).
  { intros k. unfold quiet_base, env_clock. rewrite Z.mul_0_r. change (Z.min 0 (2 ^ 62)) with 0%Z. rewrite Z.sub_0_r. apply wrap_id.
    unfold in_word. split; [|lia]. apply Z.min_glb; [|done]. apply Z.mul_nonneg_nonneg; lia. }
  rewrite !H. assert (step * Z.of_nat n <= step * Z.of_nat m)%Z; [|lia]. apply Z.mul_le_mono_nonneg_l; lia.
Qed.
