(* ===== verification/ExampleCores.v ===== *)
(** * The example projects on all their cores

    [ExampleApp] for the programs with two cores: [main] runs one core itself and the others on
    threads of their own. What the tasks do is a sequence of their ticks, whatever the order in
    which the cores take their steps. At the end the same for tasks that ask for the kernel's
    state. *)

From stdpp Require Import sorting.
From S2P Require Import Prelude Float32 Protocol Queue Metrics ErrorLog Decimal Text Telemetry Sync Kernel Sched Crunch Run Builder Safety Diagnostics Strto Cli Comms Pipeline Config Device KernelTasks Session Effects Multicore Turns AllCores CoreEffects ExampleApp.

(** ** Every task is initialised once, and first *)

Definition in_order (inited : list nat) (c : call) : Prop :=
  match c with
  | CallInit tid => tid ∉ inited
  | CallTick _ _ tid _ | CallBackground tid _ => tid ∈ inited
  | CallOverrun _ | CallCrunch _ _ _ _ | CallCrunchAbort _ => True
  end.

(** [inited] are the tasks that were initialised before. *)
Fixpoint orderly (inited : list nat) (calls : list call) : Prop :=
  match calls with
  | [] => True
  | c :: calls => in_order inited c /\ orderly (inits_in [c] ++ inited) calls
  end.

Lemma in_order_proper l1 l2 c : (forall x, x ∈ l1 <-> x ∈ l2) -> in_order l1 c -> in_order l2 c.
Proof. intros H. destruct c; cbn; rewrite ?H; done. Qed.

Lemma orderly_snoc inited calls c : orderly inited calls -> in_order (inits_in calls ++ inited) c -> orderly inited (calls ++ [c]).
Proof.
  revert inited. induction calls as [|c' calls IH]; intros inited; cbn [orderly app]; [done|]. intros [H1 H2] Hc. split; [done|].
  apply IH; [done|]. eapply in_order_proper; [|exact Hc]. intros x. change (c' :: calls) with ([c'] ++ calls). rewrite inits_in_app, !elem_of_app. tauto.
Qed.

Lemma obeys_orderly {W} (s : System W) calls : obeys s calls -> NoDup (inits_in calls) -> orderly [] calls.
Proof.
  induction 1 as [|pre call Ho IH Hl]; intros Hnd; [done|]. rewrite inits_in_app in Hnd. apply NoDup_app in Hnd as (Hnd & Hnew & _).
  apply orderly_snoc; [by apply IH|]. rewrite app_nil_r. destruct call; cbn in Hl |- *; try done.
  - intros Hin. apply (Hnew _ Hin). left.
  - apply elem_of_inits_in, Hl.
  - apply elem_of_inits_in, Hl.
Qed.

(** No task is initialised by two cores, or twice by one. *)
Definition inits_distinct {W} (n : nat) (s : System W) : Prop := NoDup (mjoin ((fun c => inits_in (core_inits s c)) <$> seq 0 n)).

Lemma join_Permutation {A} (l1 l2 : list (list A)) : l1 ≡ₚ l2 -> mjoin l1 ≡ₚ mjoin l2.
Proof.
  induction 1 as [|x l1 l2 _ IH|x y l|l1 l2 l3 _ IH1 _ IH2]; cbn; [done|by apply Permutation_app_head| |by etransitivity].
  rewrite !app_assoc. apply Permutation_app_tail, Permutation_app_comm.
Qed.

Lemma inits_nodup {W} (env : Env W) s calls m :
  course env s calls m -> inits_distinct (kCoreCount env) s -> NoDup (inits_in calls).
Proof.
  intros Hco Hd. destruct (co_inits _ _ _ _ Hco) as (order & Hnd & Ho & E). rewrite E.
  assert (Hsub : order ⊆+ seq 0 (kCoreCount env)).
  { apply NoDup_submseteq; [done|]. intros c (p & Hp & _)%Ho. apply elem_of_seq. rewrite <- (co_phases _ _ _ _ Hco). apply lookup_lt_Some in Hp. lia. }
  apply submseteq_Permutation in Hsub as [rest Hr]. unfold inits_distinct in Hd.
  rewrite (join_Permutation _ _ (fmap_Permutation _ _ _ Hr)), fmap_app, join_app in Hd. by apply NoDup_app in Hd as [? _].
Qed.

(** Two cores taking turns. *)
Definition in_turn (k : nat) : list nat := mjoin (replicate k [0; 1]).

(** ** The tasks' ticks *)

Section example.
Context {S : Type}.
Abbreviation World := (World (Bench S)).
#[local] Existing Instance noting.
Context (tasks : list (UserTask S)) (dg : nat).

(** [init] only touches its own task, and a tick no other. *)
Definition separate : Prop := forall t t' now n s n' s' calls, t ∈ tasks -> t' ∈ tasks -> ut_id t <> ut_id t' ->
  ut_tick t now n s = Some (n', s', calls) -> ut_init t' s = s -> ut_init t' s' = s'.

(** The tasks that are not initialised are as new. *)
Definition pristine (inited : list nat) (s : S) : Prop := forall t, t ∈ tasks -> ut_id t ∉ inited -> ut_init t s = s.

Lemma user_run_orderly inited calls n s n' s' d :
  separate -> orderly inited calls -> pristine inited s -> user_run tasks dg calls n s n' s' d ->
  tick_run tasks (beats tasks dg calls) n s n' s' d /\ pristine (inits_in calls ++ inited) s'.
Proof.
  intros Hsep Ho Hp Hr. revert inited Ho Hp. induction Hr as [n n' s Hn|c calls n n1 n2 n' s s1 s' d1 d2 H1 H2 Hstep Hr IH]; intros inited Ho Hp; [by split; [constructor|]|].
  destruct Ho as [Hc Ho]. assert (Hmore : pristine (inits_in calls ++ inits_in [c] ++ inited) s' -> pristine (inits_in (c :: calls) ++ inited) s').
  { intros H t Ht Hid. apply H; [done|]. contradict Hid. change (c :: calls) with ([c] ++ calls). rewrite inits_in_app. rewrite !elem_of_app in Hid |- *. tauto. }
  destruct (decide (inits_in [c] = [])) as [Hi|Hi].
  - assert (Hp1 : pristine inited s1).
    2: { rewrite Hi in Ho, Hmore. destruct (IH _ Ho Hp1) as [Hr' Hp']. split; [|by apply Hmore].
         apply (user_step_tick tasks dg c calls n n1 n2 n' s s1 s' d1 d2); [|done|done|exact Hstep|exact Hr']. intros [tid ->]. discriminate Hi. }
    intros t' Ht' Hid'. specialize (Hp t' Ht' Hid').
    assert (Hsame : s1 = s \/ exists t now calls, t ∈ tasks /\ ut_id t ∈ inited /\ ut_tick t now n1 s = Some (n2, s1, calls)).
    { destruct c as [tid|core slot tid now|tid now|tid|core tid now e|tid]; cbn in Hstep, Hc, Hi; try (left; apply Hstep); [done|..];
        (destruct (task_at tasks tid) as [t|] eqn:Et; [|left; apply Hstep]); apply task_at_in in Et as [Ht Hid]; destruct Hstep as (cs & E & _);
        right; exists t, now, cs; by rewrite Hid. }
    destruct Hsame as [->|(t & now & cs & Ht & Hin & E)]; [exact Hp|]. eapply (Hsep t t'); [done|done| |exact E|exact Hp]. intros Heq. apply Hid'. by rewrite <- Heq.
  - destruct c as [tid| | | | |]; try done. cbn in Hstep, Hc. destruct Hstep as [Hs1 ->].
    assert (s1 = s) as ->.
    { rewrite Hs1. destruct (task_at tasks tid) as [t|] eqn:Et; [|done]. apply task_at_in in Et as [Ht Hid]. apply Hp; [done|]. by rewrite Hid. }
    cbn [app]. destruct (IH _ Ho) as [Hr' Hp']; [|split; [eapply tick_run_le; [|exact Hr']; lia|by apply Hmore]].
    intros t Ht Hid. apply Hp; [done|]. contradict Hid. apply elem_of_app. by right.
Qed.
End example.

Section power_on.
#[local] Existing Instance noting.
Context {S : Type} (cfg : UserConfig) (base : Env (World (Bench S))) (tasks : list (UserTask S)) (long_bits : Z).
Context (snap : PerformanceSnapshot) (ct cm dg : nat) (s0 : S) (diags : BackgroundDiagnosticsTask) (locked : bool).
Context (ops : list registration).

Hypothesis Hcfg : ConfigValidator cfg = true.
Hypothesis Htyped : config_typed cfg.
Hypothesis Hbg : background_count ops < CfgMaxBackgroundTasks cfg.
Hypothesis Hsur : surroundings cfg base.
Hypothesis Hsnap : snapshot_ok snap.
Hypothesis Hsound : user_sound tasks.
Hypothesis Hids : Forall (fun t => ut_id t <> ct /\ ut_id t <> cm /\ ut_id t <> dg) tasks.
Hypothesis Hdg : dg <> ct /\ dg <> cm.
Hypothesis Hdrain : dt_drain diags = true.
Context (Inv : S -> Prop).
Hypothesis Htotal : user_total tasks Inv.
Hypothesis Hkept : forall t s, t ∈ tasks -> Inv s -> Inv (ut_init t s).
Hypothesis Hsep : separate tasks.
Hypothesis Hinit : Inv s0 /\ forall t, t ∈ tasks -> ut_init t s0 = s0.

Abbreviation env := (example_env cfg base tasks long_bits example_deps snap ct cm dg).
Abbreviation start := (example_start cfg base tasks long_bits snap ct cm dg s0 diags ops).

(** From power-on, [main] runs the kernel on all its cores, and these run the tasks, in the order
    of time. *)
Lemma cores_life cs :
  (forall r s, start = Some (r, s) -> ready cfg base s0 diags locked r s /\ inits_distinct (kCoreCount env) s) ->
  Forall (fun c => c < kCoreCount env) cs ->
  exists s1 m calls d, start = Some (BuildOk, s1) /\ multi_run env cs (multi_start env s1) = Some m /\
    sy_trace (mu_system m) = sy_trace s1 ++ calls /\ diarised (sy_shared (mu_system m)) d /\
    tick_run tasks (beats tasks dg calls) (sh_reads (sy_shared s1)) s0 (sh_reads (sy_shared (mu_system m))) (state_of (sy_shared (mu_system m))) d /\
    (clock_runs base (sh_reads (sy_shared (mu_system m))) ->
     StronglySorted Z.le (0%Z :: tick_times (beats tasks dg calls)) /\ Forall (in_word 64) (tick_times (beats tasks dg calls))).
Proof.
  intros Hready Hcs. pose proof Hsur as [Hbase Hinv Hkick Hothers]. pose proof Htyped as [_ Hline _].
  destruct (device_fresh cfg (session_app cfg (example_app base tasks dg) long_bits (fun _ _ => true) example_deps snap ct cm)
    (example_boot cfg example_deps snap s0 diags) ct cm dg (the_builder example_deps) ops)
    as (sr & r & s1 & E1 & E2 & _ & _ & Hfr); [done| |done|].
  { cbn [env_inv session_app with_task example_app with_diags with_users]. rewrite Hinv. by apply session_boot_inv. }
  assert (E : start = Some (r, s1)) by (unfold example_start, example_env; by rewrite E1).
  destruct (Hready r s1 E) as [Hr Hd]. destruct (ready_starting _ _ _ _ _ _ _ tasks Inv Hr Hdrain Hinit) as [(Hp & Ho & Hw & Hdr & HI & Hi) Es].
  destruct Hr as (-> & _ & Htm & _). assert (Henv : env_ok env) by (by apply example_env_ok).
  destruct (fresh_run env s1 cs Henv (Hfr eq_refl) Hcs) as (m & es & E3 & Hco & _ & He & Htimes).
  destruct (effect_steps cfg base tasks long_bits example_deps snap ct cm dg) with (Inv := Inv) (es := es) (h := sy_shared s1) (h' := sy_shared (mu_system m)) (ms := @nil message)
    as (d & Hrun & [_ _ Hw2 Hp2 Ho2]); try done; try (simpl; lia).
  { apply Forall_forall. intros c _. destruct c; try done. intros t Ht' s. by apply Hkept. }
  { split; [apply (wf_shared _ _ (fr_wf _ _ (Hfr eq_refl)))|done..]. }
  rewrite Hp in Hp2. rewrite Ho in Ho2. rewrite Es in Hrun. apply (user_run_orderly tasks dg []) in Hrun as [Hrun _]; [|done| |].
  2: { eapply obeys_orderly; [apply (co_lawful _ _ _ _ Hco)|]. by eapply inits_nodup. }
  2: { intros t Ht' _. by apply Hinit. }
  exists s1, m, (calls_of es), d. split; [exact E|]. split; [exact E3|]. split; [apply (co_trace _ _ _ _ Hco)|]. split; [by split|]. split; [exact Hrun|]. intros Hrise.
  destruct Htimes as [Hsort Hall]; [by rewrite Htm|by unfold clock_rises, time_of; rewrite Htm|].
  assert (Hw64 : Forall (in_word 64) (tick_times (beats tasks dg (calls_of es)))).
  { eapply sublist_Forall; [apply beat_times|]. eapply Forall_impl; [exact Hall|]. intros t (k & _ & ->). unfold time_of, nowMicros.
    case_match; [apply wrap_in_word; lia|done]. }
  split; [|exact Hw64]. constructor; [eapply StronglySorted_sublist; [apply beat_times|exact Hsort]|].
  eapply Forall_impl; [exact Hw64|]. intros t Htw. unfold in_word in Htw. lia.
Qed.

End power_on.

(** ** Tasks that ask for the kernel's state *)

Lemma orderly_suffix inited calls new : orderly inited (calls ++ new) -> orderly (inits_in calls ++ inited) new.
Proof.
  revert inited. induction calls as [|c calls IH]; intros inited; [done|]. cbn [orderly app]. intros [_ H%IH]. revert H.
  assert (Hperm : forall l1 l2 cs, (forall x, x ∈ l1 <-> x ∈ l2) -> orderly l1 cs -> orderly l2 cs).
  { intros l1 l2 cs. revert l1 l2. clear. induction cs as [|c cs IH]; intros l1 l2 Hl; cbn [orderly]; [done|]. intros [H1 H2]. split; [by eapply in_order_proper|].
    eapply IH; [|exact H2]. intros x. rewrite !elem_of_app, Hl. done. }
  apply Hperm. intros x. change (c :: calls) with ([c] ++ calls). rewrite inits_in_app, !elem_of_app. tauto.
Qed.

Section watching.
#[local] Existing Instance noting.
Context {S : Type} (cfg : UserConfig) (base : Env (World (Bench S))) (tasks_at : KernelState -> list (UserTask S)) (long_bits : Z).
Context (snap : PerformanceSnapshot) (ct cm dg : nat).
Implicit Types m : multi (W := World (Bench S)).

(** The environment while the kernel is in the state [k]. *)
Definition env_at (k : KernelState) : Env (World (Bench S)) := example_env cfg base (tasks_at k) long_bits example_deps snap ct cm dg.

(** A step of a core: its tasks see the state in which the kernel is. *)
Definition watch_step (c : nat) m : option (multi (W := World (Bench S))) := multi_step (env_at (sy_kernelState (mu_system m))) c m.

Fixpoint watch_run (cs : list nat) m : option (multi (W := World (Bench S))) :=
  match cs with
  | [] => Some m
  | c :: cs => m ← watch_step c m; watch_run cs m
  end.

(** The calls of the trace that concern the program, each with the state of the kernel. *)
Fixpoint moments (cs : list nat) m : list (KernelState * option (nat * Z)) :=
  match cs with
  | [] => []
  | c :: cs =>
      match watch_step c m with
      | Some m' =>
          let k := sy_kernelState (mu_system m) in
          (pair k <$> beats (tasks_at k) dg (drop (length (sy_trace (mu_system m))) (sy_trace (mu_system m')))) ++ moments cs m'
      | None => []
      end
  end.

(** [tick_run] with the state of the kernel at each tick. *)
Inductive watched : list (KernelState * option (nat * Z)) -> nat -> S -> nat -> S -> diary -> Prop :=
  | WatchNil n n' s : n <= n' -> watched [] n s n' s []
  | WatchDrain k evs n n' s s' d : watched evs n s n' s' d -> watched ((k, None) :: evs) n s n' s' (None :: d)
  | WatchCall k tid t now evs n n1 n2 n' s s1 s' calls d :
      task_at (tasks_at k) tid = Some t -> n <= n1 -> n1 <= n2 -> ut_tick t now n1 s = Some (n2, s1, calls) -> watched evs n2 s1 n' s' d ->
      watched ((k, Some (tid, now)) :: evs) n s n' s' (Some (call_message <$> calls) :: d).

Lemma watched_le evs n0 n s n' s' d : n0 <= n -> watched evs n s n' s' d -> watched evs n0 s n' s' d.
Proof.
  clear -S. intros Hn H. revert n0 Hn. induction H as [n n' s H|k evs n n' s s' d H IH|k tid t now evs n n1 n2 n' s s1 s' calls d Ht H1 H2 E H IH]; intros n0 Hn.
  - apply WatchNil. lia.
  - apply WatchDrain. by apply IH.
  - eapply (WatchCall k tid t now evs n0 n1 n2); [done|lia|done..].
Qed.

Lemma tick_watched k evs evs' n s n1 s1 n' s' d1 d2 :
  tick_run (tasks_at k) evs n s n1 s1 d1 -> watched evs' n1 s1 n' s' d2 -> watched ((pair k <$> evs) ++ evs') n s n' s' (d1 ++ d2).
Proof.
  clear -S. intros H Hw. induction H as [n n1 s H|evs n n1 s s1 d H IH|tid t now evs n n2 n3 n1 s s2 s1 calls d Ht H1 H2 E H IH]; cbn.
  - by eapply watched_le.
  - apply WatchDrain, IH, Hw.
  - eapply WatchCall; [done..|]. apply IH, Hw.
Qed.

(** What depends on the environment does not depend on the tasks. *)
Lemma wf_at k k' (s : System (World (Bench S))) : sys_wf (env_at k) s -> sys_wf (env_at k') s.
Proof. intros [Hc Hb Hr Hd Hl Hu Hi [] Hs]. split; try done; by split. Qed.

Lemma course_at k k' (s : System (World (Bench S))) calls m : course (env_at k) s calls m -> course (env_at k') s calls m.
Proof. intros []. split; try done. by eapply wf_at. Qed.

Hypothesis Hcfg : ConfigValidator cfg = true.
Hypothesis Htyped : config_typed cfg.
Hypothesis Hsur : surroundings cfg base.
Hypothesis Hsnap : snapshot_ok snap.
Hypothesis Hsound : forall k, user_sound (tasks_at k).
Hypothesis Hids : forall k, Forall (fun t => ut_id t <> ct /\ ut_id t <> cm /\ ut_id t <> dg) (tasks_at k).
Hypothesis Hdg : dg <> ct /\ dg <> cm.
Context (Inv : S -> Prop).
Hypothesis Htotal : forall k, user_total (tasks_at k) Inv.
Hypothesis Hkept : forall k t s, t ∈ tasks_at k -> Inv s -> Inv (ut_init t s).
Hypothesis Hsep : forall k, separate (tasks_at k).

(** They are the same tasks, initialised in the same way. *)
Hypothesis Hsame : forall k k' t, t ∈ tasks_at k -> exists t', t' ∈ tasks_at k' /\ ut_id t' = ut_id t /\ ut_init t' = ut_init t.

Lemma pristine_at k k' inited s : pristine (tasks_at k) inited s -> pristine (tasks_at k') inited s.
Proof. intros H t Ht Hid. destruct (Hsame k' k t Ht) as (t' & Ht' & Eid & Ei). rewrite <- Ei. apply H; [done|by rewrite Eid]. Qed.

Lemma env_at_ok k : env_ok (env_at k).
Proof. destruct Hsur, Htyped. by apply example_env_ok. Qed.

Abbreviation reads m := (sh_reads (sy_shared (mu_system m))).
Abbreviation state m := (state_of (sy_shared (mu_system m))).

(** One step of a core. *)
Lemma watch_step_ok s0 c calls m ms :
  sy_built s0 = true -> inits_distinct (uc_kCoreCount cfg) s0 -> c < uc_kCoreCount cfg -> course (env_at UNCONFIGURED) s0 calls m ->
  Inv (state m) -> drains (sy_shared (mu_system m)) -> waits (sy_shared (mu_system m)) ms -> pristine (tasks_at UNCONFIGURED) (inits_in calls) (state m) ->
  let k := sy_kernelState (mu_system m) in
  exists m' new d, watch_step c m = Some m' /\ course (env_at UNCONFIGURED) s0 (calls ++ new) m' /\
    sy_trace (mu_system m') = sy_trace (mu_system m) ++ new /\
    tick_run (tasks_at k) (beats (tasks_at k) dg new) (reads m) (state m) (reads m') (state m') d /\
    written Inv (sy_shared (mu_system m)) ms d (sy_shared (mu_system m')) /\ pristine (tasks_at UNCONFIGURED) (inits_in (calls ++ new)) (state m') /\
    sy_timer (mu_system m') = sy_timer (mu_system m) /\ reads m <= reads m' /\
    (st_source (sy_timer (mu_system m)) = true -> clock_rises (env_at UNCONFIGURED) (mu_system m) (reads m') ->
     timely (env_at UNCONFIGURED) (mu_system m) (reads m) (reads m') new).
Proof.
  intros Hb Hnd Hc Hco HI Hd Hw Hp k. pose proof (env_at_ok k) as Henv. pose proof Hsur as [Hbase Hinv Hkick Hothers]. pose proof Htyped as [_ Hline _].
  destruct (course_step (env_at k) s0 calls m c Henv (course_at _ _ _ _ _ Hco) Hb Hc) as (p & p' & s' & new & _ & E & Hst & Hco').
  exists (Multi s' (<[c := p']> (mu_phases m))), new.
  destruct (multi_step_acts (env_at k) (fun _ => True) Henv c m _ (fun _ _ => I) E) as (Ht & es & Htr & _ & He & Htime).
  assert (Etr : sy_trace s' = sy_trace (mu_system m) ++ new).
  { pose proof (co_trace _ _ _ _ Hco') as T. rewrite (co_trace _ _ _ _ Hco), <- app_assoc. exact T. }
  cbn [mu_system] in *. rewrite Etr in Htr. apply app_inv_head in Htr. rewrite <- Htr in Htime.
  destruct (effect_steps cfg base (tasks_at k) long_bits example_deps snap ct cm dg) with (Inv := Inv) (es := es) (h := sy_shared (mu_system m)) (h' := sy_shared s') (ms := ms)
    as (d & Hrun & Hwr); try done; try (simpl; lia).
  { apply Forall_forall. intros cl _. destruct cl; try done; try exact (Htotal k). intros t Ht' s. by eapply Hkept. }
  { split; [apply (wf_shared _ _ (wf_at UNCONFIGURED k _ (co_wf _ _ _ _ Hco)))|done..]. }
  rewrite <- Htr in Hrun. assert (Hord : orderly (inits_in calls) new).
  { apply course_at with (k' := k) in Hco'. rewrite <- (app_nil_r (inits_in calls)). apply orderly_suffix. eapply obeys_orderly; [apply (co_lawful _ _ _ _ Hco')|].
    by eapply inits_nodup. }
  destruct (user_run_orderly (tasks_at k) dg _ _ _ _ _ _ _ (Hsep k) Hord (pristine_at UNCONFIGURED k _ _ Hp) Hrun) as [Htick Hp'].
  exists d. split; [exact E|]. split; [by eapply course_at|]. split; [exact Etr|]. split; [exact Htick|]. split; [exact Hwr|]. split.
  { intros t Ht' Hid. apply (pristine_at k UNCONFIGURED (inits_in new ++ inits_in calls) _ Hp' t Ht'). contradict Hid. rewrite inits_in_app. rewrite elem_of_app in Hid |- *. tauto. }
  split; [exact Ht|]. split; [exact (effect_reads _ Henv _ _ _ He)|exact Htime].
Qed.

(** All the steps. *)
Lemma watch_run_ok s0 cs calls m ms :
  sy_built s0 = true -> inits_distinct (uc_kCoreCount cfg) s0 -> Forall (fun c => c < uc_kCoreCount cfg) cs -> course (env_at UNCONFIGURED) s0 calls m ->
  Inv (state m) -> drains (sy_shared (mu_system m)) -> waits (sy_shared (mu_system m)) ms -> pristine (tasks_at UNCONFIGURED) (inits_in calls) (state m) ->
  exists m' new d, watch_run cs m = Some m' /\ sy_trace (mu_system m') = sy_trace (mu_system m) ++ new /\
    watched (moments cs m) (reads m) (state m) (reads m') (state m') d /\
    written Inv (sy_shared (mu_system m)) ms d (sy_shared (mu_system m')) /\ reads m <= reads m' /\
    tick_times (moments cs m).*2 `sublist_of` omap call_time new /\
    (st_source (sy_timer (mu_system m)) = true -> clock_rises (env_at UNCONFIGURED) (mu_system m) (reads m') ->
     timely (env_at UNCONFIGURED) (mu_system m) (reads m) (reads m') new).
Proof.
  intros Hb Hnd Hcs. revert calls m ms. induction Hcs as [|c cs Hc _ IH]; intros calls m ms Hco HI Hd Hw Hp; cbn [watch_run moments].
  - exists m, [], []. rewrite app_nil_r. split_and!; try done; [by constructor| |by repeat constructor]. by split; rewrite ?app_nil_r.
  - destruct (watch_step_ok s0 c calls m ms Hb Hnd Hc Hco HI Hd Hw Hp) as (m1 & new1 & d1 & E1 & Hco1 & Tr1 & Htick & Hwr1 & Hp1 & Et & Hr1 & Htime1).
    rewrite E1. cbn [mbind option_bind]. rewrite Tr1, drop_app_length.
    destruct (IH (calls ++ new1) m1 (waiting ms d1) Hco1 (wr_inv _ _ _ _ _ Hwr1) (wr_drains _ _ _ _ _ Hwr1) (wr_waits _ _ _ _ _ Hwr1) Hp1)
      as (m2 & new2 & d2 & E2 & Tr2 & Hwt & Hwr2 & Hr2 & Hsub & Htime2).
    exists m2, (new1 ++ new2), (d1 ++ d2). split; [exact E2|]. split; [by rewrite Tr2, Tr1, app_assoc|]. split; [by eapply tick_watched|].
    split; [by eapply written_trans|]. split; [lia|]. split.
    { rewrite fmap_app, <- list_fmap_compose, omap_app. unfold tick_times. rewrite omap_app. apply sublist_app; [|exact Hsub].
      replace (snd ∘ pair _ <$> _) with (beats (tasks_at (sy_kernelState (mu_system m))) dg new1) by (symmetry; apply list_fmap_id). apply beat_times. }
    intros Hsrc Hrise. apply (timely_app _ _ _ (reads m1)); [done|lia| |].
    + apply Htime1; [done|]. intros i j Hij. apply Hrise. lia.
    + eapply timely_timer; [exact Et|]. apply Htime2; [congruence|]. unfold clock_rises, time_of in *. by rewrite Et.
Qed.

(** From power-on, [main] runs the kernel on all its cores, and these run the tasks, in the order
    of time; each tick sees the state in which the kernel is. *)
Section life.
Context (s0 : S) (diags : BackgroundDiagnosticsTask) (locked : bool) (ops : list registration).
Hypothesis Hbg : background_count ops < CfgMaxBackgroundTasks cfg.
Hypothesis Hdrain : dt_drain diags = true.
Hypothesis Hinit : Inv s0 /\ forall t, t ∈ tasks_at UNCONFIGURED -> ut_init t s0 = s0.

Abbreviation start := (example_start cfg base (tasks_at UNCONFIGURED) long_bits snap ct cm dg s0 diags ops).

Lemma watched_life cs :
  (forall r s, start = Some (r, s) -> ready cfg base s0 diags locked r s /\ inits_distinct (uc_kCoreCount cfg) s) ->
  Forall (fun c => c < uc_kCoreCount cfg) cs ->
  exists s1 m d, start = Some (BuildOk, s1) /\ let m0 := multi_start (env_at UNCONFIGURED) s1 in
    watch_run cs m0 = Some m /\ diarised (sy_shared (mu_system m)) d /\
    watched (moments cs m0) (sh_reads (sy_shared s1)) s0 (reads m) (state m) d /\
    (clock_runs base (reads m) -> let ts := tick_times (moments cs m0).*2 in StronglySorted Z.le (0%Z :: ts) /\ Forall (in_word 64) ts).
Proof.
  intros Hready Hcs. pose proof Hsur as [Hbase Hinv Hkick Hothers]. pose proof Htyped as [_ Hline _].
  destruct (device_fresh cfg (session_app cfg (example_app base (tasks_at UNCONFIGURED) dg) long_bits (fun _ _ => true) example_deps snap ct cm)
    (example_boot cfg example_deps snap s0 diags) ct cm dg (the_builder example_deps) ops)
    as (sr & r & s1 & E1 & E2 & _ & _ & Hfr); [done| |done|].
  { cbn [env_inv session_app with_task example_app with_diags with_users]. rewrite Hinv. by apply session_boot_inv. }
  assert (E : start = Some (r, s1)) by (unfold example_start, example_env; by rewrite E1).
  destruct (Hready r s1 E) as [Hr Hnd]. destruct (ready_starting _ _ _ _ _ _ _ (tasks_at UNCONFIGURED) Inv Hr Hdrain Hinit) as [(Hp & Ho & Hw & Hdr & HI & Hi) Es].
  destruct Hr as (-> & _ & Htm & _). specialize (Hfr eq_refl).
  destruct (watch_run_ok s1 cs [] (multi_start (env_at UNCONFIGURED) s1) []) as (m & new & d & E3 & _ & Hwt & [_ _ Hw2 Hp2 Ho2] & _ & Hsub & Htime); try done.
  { apply (fr_built _ _ Hfr). }
  { by apply course_start. }
  { intros t Ht _. by apply Hi. }
  cbn [mu_system multi_start] in *. rewrite Hp in Hp2. rewrite Ho in Ho2. rewrite Es in Hwt.
  exists s1, m, d. split; [exact E|]. cbv zeta. split; [exact E3|]. split; [by split|]. split; [exact Hwt|]. intros Hrise.
  destruct Htime as [Hsort Hall]; [by rewrite Htm|by unfold clock_rises, time_of; rewrite Htm|].
  assert (Hw64 : Forall (in_word 64) (tick_times (moments cs (multi_start (env_at UNCONFIGURED) s1)).*2)).
  { eapply sublist_Forall; [exact Hsub|]. eapply Forall_impl; [exact Hall|]. intros t (k & _ & ->). unfold time_of, nowMicros.
    case_match; [apply wrap_in_word; lia|done]. }
  split; [|exact Hw64]. constructor; [eapply StronglySorted_sublist; [exact Hsub|exact Hsort]|].
  eapply Forall_impl; [exact Hw64|]. intros t Htw. unfold in_word in Htw. lia.
Qed.
End life.
End watching.
