(* ===== verification/Heartbeat.v ===== *)
(** * The heartbeat example ([exampleProjects/heartbeat/])

    One task that logs a numbered pulse every 500 milliseconds, on a single core with the
    kernel's three tasks. *)

From stdpp Require Import sorting.
From Stdlib Require String.
From S2P Require Import Prelude Protocol Queue Metrics ErrorLog Decimal Text Telemetry Kernel Sched Crunch Run Builder Diagnostics Tasks Cli Comms Pipeline Config Device KernelTasks Session Effects ExampleApp.
Import String.StringSyntax.

(** ** The program *)

Definition HeartbeatConfig : UserConfig :=
  UserCfg true true 8 1 16 (Some 4%Z) (Some 0%Z) None None None None None None None None None None None None None None None None.

(** [PulseTask.h] *)
Definition kPulseIntervalUs : Z := 500000.

Record PulseTask := Pulse {
  m_builder : LightweightStringBuilder;
  m_lastPulse : Z;
  m_pulseCount : Z;
}.

Definition new_pulse : PulseTask := Pulse Text.new_builder 0 0.

Definition pulse_init (t : PulseTask) : PulseTask := Pulse (m_builder t) 0 0.

Definition pulse_tick (now : Z) (n : nat) (t : PulseTask) : option (nat * PulseTask * list log_call) :=
  let elapsed := u64 (now - m_lastPulse t) in
  if decide (kPulseIntervalUs <= elapsed)%Z then
    let pulseCount := u32 (m_pulseCount t + 1) in
    '(b, str) ← compose [TStr (text "Pulse #"); TU32 pulseCount] (m_builder t);
    Some (n, Pulse b now pulseCount, [(SYSTEM, str, STATUS, now)])
  else Some (n, t, []).

Definition pulse_task : UserTask PulseTask := MkUser 0 (scheduled_desc kPulseIntervalUs) pulse_init pulse_tick.

(** [main]: the registrations, after the flags. *)
Definition heartbeat_calls (forever : bool) : list registration := example_calls false forever [0] [AddScheduled 0 (Some 0)].

Definition heartbeat_main (startAccept : Z -> bool) : list (list Z) -> option (Z + list registration) := example_main startAccept heartbeat_calls.

(** The task numbers of the kernel's own tasks. *)
Abbreviation ct := 10 (only parsing).
Abbreviation cm := 11 (only parsing).
Abbreviation dg := 12 (only parsing).

Definition heartbeat_diags : BackgroundDiagnosticsTask :=
  setMonitoredTasks [ct; cm; 0] (setTelemetryDrain true (make_diags HeartbeatConfig example_deps)).

Lemma HeartbeatConfig_typed : config_typed HeartbeatConfig.
Proof. split; vm_compute; intuition (lia || discriminate). Qed.

(** ** The pulses *)

Definition pulse_text (n : Z) : list Z := text "Pulse #" ++ digits n.

(** The [i]-th pulse, at the time [t]. *)
Definition pulse_message (i : nat) (t : Z) : message := message_of SYSTEM (pulse_text (u32 (Z.of_nat (S i)))) STATUS t.

(** After the pulses at [times], the last tick having been at [now]. *)
Record pulsing (now : Z) (t : PulseTask) (ms : list message) (times : list Z) : Prop := {
  pu_builder : exists str, sb_rep (m_builder t) str;
  pu_count : m_pulseCount t = u32 (Z.of_nat (length times));
  pu_last : last (0%Z :: times) = Some (m_lastPulse t);
  pu_recent : (0 <= m_lastPulse t /\ m_lastPulse t <= now < m_lastPulse t + kPulseIntervalUs)%Z;
  pu_messages : ms = imap pulse_message times;
  pu_spaced : StronglySorted (apart kPulseIntervalUs) (0%Z :: times);
}.

Lemma new_pulse_pulsing : pulsing 0 new_pulse [] [].
Proof. split; try done; [exists []; apply Text.new_builder_rep|by repeat constructor]. Qed.

(** As many pulses as there were intervals, at most. *)
Lemma pulsing_count now t ms times : pulsing now t ms times -> (Z.of_nat (length times) * kPulseIntervalUs <= now)%Z.
Proof.
  intros [_ _ Hl Hr _ Hs]. enough (forall a, StronglySorted (apart kPulseIntervalUs) (a :: times) -> last (a :: times) = Some (m_lastPulse t) ->
    (a + Z.of_nat (length times) * kPulseIntervalUs <= m_lastPulse t)%Z) as H; [specialize (H 0%Z Hs Hl); lia|].
  clear. induction times as [|b times IH]; intros a Hs Hl; [injection Hl as ->; simpl; lia|].
  inversion Hs as [|? ? Hs' Hall]; subst. inversion Hall as [|? ? [_ Hb] _]; subst. specialize (IH b Hs' Hl). cbn [length]. lia.
Qed.

(** The reference: the diary of the program, by the calls of the trace that concern it, in numbers
    without bounds: [k] pulses so far, the last at the time [last]. *)
Fixpoint pulse_log (last : Z) (k : nat) (evs : list (option (nat * Z))) : diary :=
  match evs with
  | [] => []
  | None :: evs => None :: pulse_log last k evs
  | Some (_, now) :: evs =>
      if decide (now < last + kPulseIntervalUs)%Z then Some [] :: pulse_log last k evs
      else Some [pulse_message k now] :: pulse_log now (S k) evs
  end.

(** The time of the last tick. *)
Definition last_tick (T : Z) (evs : list (option (nat * Z))) : Z := default T (last (tick_times evs)).

Lemma last_tick_cons T tid now evs : last_tick T (Some (tid, now) :: evs) = last_tick now evs.
Proof. unfold last_tick. change (tick_times (Some (tid, now) :: evs)) with (now :: tick_times evs). rewrite last_cons. by destruct (last _). Qed.

Lemma pulse_tick_log T now n n' t t' calls ms times :
  in_word 64 now -> (T <= now)%Z -> pulsing T t ms times -> pulse_tick now n t = Some (n', t', calls) ->
  if decide (now < m_lastPulse t + kPulseIntervalUs)%Z then t' = t /\ calls = [] /\ pulsing now t' ms times
  else call_message <$> calls = [pulse_message (length times) now] /\ m_lastPulse t' = now /\
    pulsing now t' (ms ++ [pulse_message (length times) now]) (times ++ [now]).
Proof.
  intros Hw HT [[str Hb] Hc Hl Hr Hm Hs]. unfold pulse_tick. unfold kPulseIntervalUs in *.
  rewrite elapsed_exact by (done || lia). case_decide as Hd.
  - rewrite decide_False by lia. rewrite Hc, u32_succ. composes [Str (text "Pulse #"); Num (Z.of_nat (length times) + 1)] Hb b Hb'.
    intros [= <- <- <-]. replace (Z.of_nat (length times) + 1)%Z with (Z.of_nat (S (length times))) in * by lia. split; [done|]. split; [done|]. split.
    + by eexists.
    + cbn. by rewrite length_app, Nat.add_1_r.
    + cbn. change (0%Z :: times ++ [now]) with ((0%Z :: times) ++ [now]). by rewrite last_snoc.
    + cbn. unfold kPulseIntervalUs. lia.
    + rewrite imap_app, Hm. cbn. by rewrite Nat.add_0_r.
    + change (0%Z :: times ++ [now]) with ((0%Z :: times) ++ [now]). eapply StronglySorted_snoc; [apply _|done|exact Hl|]. unfold apart, kPulseIntervalUs in *. lia.
  - rewrite decide_True by lia. intros [= <- <- <-]. split; [done|]. split; [done|]. split; try done; [by exists str|]. unfold kPulseIntervalUs. lia.
Qed.

(** The program writes the diary of the reference. *)
Lemma pulse_run_log evs n t n' t' d T ms times :
  tick_run [pulse_task] evs n t n' t' d -> StronglySorted Z.le (T :: tick_times evs) -> Forall (in_word 64) (tick_times evs) -> pulsing T t ms times ->
  d = pulse_log (m_lastPulse t) (length times) evs /\ exists times', pulsing (last_tick T evs) t' (ms ++ posted_in d) times'.
Proof.
  intros Hr. revert T ms times. induction Hr as [n n' t Hn|evs n n' t t' d Hr IH|tid u now evs n n1 n2 n' t t1 t' calls d Hu H1 H2 E Hr IH]; intros T ms times Hs Hw Hp.
  - split; [done|]. exists times. by rewrite app_nil_r.
  - destruct (IH T ms times Hs Hw Hp) as [-> Hp']. by split.
  - rewrite last_tick_cons. change (tick_times (Some (tid, now) :: evs)) with (now :: tick_times evs) in *. inversion Hs as [|? ? Hs' Hle]; subst.
    inversion Hle as [|? ? HT _]; subst. inversion Hw as [|? ? Hnow Hw']; subst.
    apply task_at_in in Hu as [->%list_elem_of_singleton _]. cbn in E. pose proof (pulse_tick_log T now n1 n2 t t1 calls ms times Hnow HT Hp E) as H. cbn [pulse_log].
    case_decide.
    + destruct H as (-> & -> & Hp1). destruct (IH now ms times Hs' Hw' Hp1) as [-> Hp']. by split.
    + destruct H as (Ec & El & Hp1). rewrite Ec. destruct (IH now _ _ Hs' Hw' Hp1) as [-> Hp']. rewrite El, length_app, Nat.add_1_r. split; [done|].
      rewrite <- app_assoc in Hp'. by rewrite El, length_app, Nat.add_1_r in Hp'.
Qed.

Section heartbeat.
Context (base : Env (World (Bench PulseTask))) (long_bits : Z) (snap : PerformanceSnapshot).

Definition heartbeat_env : Env (World (Bench PulseTask)) :=
  example_env HeartbeatConfig base [pulse_task] long_bits example_deps snap ct cm dg.

Definition heartbeat_start (forever : bool) : option (BuildResult * System (World (Bench PulseTask))) :=
  example_start HeartbeatConfig base [pulse_task] long_bits snap ct cm dg new_pulse heartbeat_diags (heartbeat_calls forever).

Lemma heartbeat_ready forever r s :
  heartbeat_start forever = Some (r, s) -> ready HeartbeatConfig base new_pulse heartbeat_diags false r s.
Proof. destruct forever; vm_compute; intros [= <- <-]; split_and!; reflexivity. Qed.

Lemma pulse_sound : user_sound [pulse_task].
Proof.
  intros t ->%list_elem_of_singleton now n s n' s' calls E. cbn in E. unfold pulse_tick in E. case_decide; [|by injection E as <- <- <-; split; [lia|]].
  destruct (compose _ _) as [[b str]|] eqn:Ec; cbn [mbind option_bind] in E; [|done]. injection E as <- <- <-. split; [lia|].
  constructor; [|done]. by eapply compose_no_nul.
Qed.

Definition pulse_inv (t : PulseTask) : Prop := exists str, sb_rep (m_builder t) str.

Lemma pulse_total : user_total [pulse_task] pulse_inv.
Proof.
  intros t ->%list_elem_of_singleton now n s [str Hb]. cbn. unfold pulse_tick. case_decide; [|by eexists _, _, _; split; [|exists str]].
  composes [Str (text "Pulse #"); Num (m_pulseCount s + 1)] Hb b Hb'. by eexists _, _, _; split; [|eexists].
Qed.

End heartbeat.


(** Stopped after 2.1 seconds it has pulsed four times. *)
Example four_pulses :
  let base := quiet_base PulseTask HeartbeatConfig 2000 2100000 in
  ('(_, s) ← heartbeat_start base 32 session_snap false;
   '(fin, s) ← sys_run (heartbeat_env base 32 session_snap) 200 0 s;
   Some (fin, stdout_of (sy_shared s))) =
  Some (true, (fun line => line ++ [chr_newline]) <$>
    [text "[502][System] Pulse #1"; text "[1002][System] Pulse #2"; text "[1502][System] Pulse #3"; text "[2002][System] Pulse #4"]).
Proof. vm_compute. reflexivity. Qed.
