(* ===== verification/Multirate.v ===== *)
(** * The multi-rate example ([exampleProjects/multirate/])

    A sampler at 100 Hz, a report of what it has gathered at 2 Hz, and a background task that
    counts how often it runs, on a single core. *)

From stdpp Require Import sorting.
From Stdlib Require String.
From S2P Require Import Prelude Protocol Queue Metrics ErrorLog Decimal Text Telemetry Kernel Sched Crunch Run Builder Diagnostics Tasks Cli Comms Pipeline Config Device KernelTasks Session Effects ExampleApp.
Import String.StringSyntax.

(** ** The tasks *)

Definition MultirateConfig : UserConfig :=
  UserCfg true true 8 1 16 (Some 4%Z) (Some 0%Z) None None None None None None None None None None None None None None None None.

(** [FastSampleTask.h] *)
Definition kFastPeriodUs : Z := 10000.

Record FastSampleTask := FastSample {
  fs_sampleCount : Z;
  fs_accumulator : Z;
  fs_lastTick : Z;
}.

Definition fast_init (t : FastSampleTask) : FastSampleTask := FastSample 0 0 0.

Definition fast_tick (now : Z) (t : FastSampleTask) : FastSampleTask :=
  if decide (u64 (now - fs_lastTick t) < kFastPeriodUs)%Z then t
  else
    let reading := (fs_sampleCount t mod 100)%Z in
    FastSample (u32 (fs_sampleCount t + 1)) (u64 (fs_accumulator t + reading)) now.

Definition drainAccumulator (t : FastSampleTask) : Z * FastSampleTask :=
  (fs_accumulator t, FastSample (fs_sampleCount t) 0 (fs_lastTick t)).

(** [SlowReportTask.h] *)
Definition kSlowPeriodUs : Z := 500000.

Record SlowReportTask := SlowReport {
  sr_builder : LightweightStringBuilder;
  sr_reportCount : Z;
  sr_lastTick : Z;
}.

Definition slow_init (t : SlowReportTask) : SlowReportTask := SlowReport (sr_builder t) 0 0.

(** The sampler is shared: draining it is seen by [fast_tick]. *)
Definition slow_tick (now : Z) (t : SlowReportTask) (sampler : FastSampleTask) :
    option (SlowReportTask * FastSampleTask * list log_call) :=
  if decide (u64 (now - sr_lastTick t) < kSlowPeriodUs)%Z then Some (t, sampler, [])
  else
    let reportCount := u32 (sr_reportCount t + 1) in
    let '(accum, sampler) := drainAccumulator sampler in
    '(b, str) ← compose [TStr (text "Report #"); TU32 reportCount; TStr (text " | samples="); TU32 (fs_sampleCount sampler);
      TStr (text " accum="); TU32 (u32 (Z.land accum 4294967295))] (sr_builder t);
    Some (SlowReport b reportCount now, sampler, [(SYSTEM, str, STATUS, now)]).

(** [IdleCounterTask.h] *)
Definition kLogInterval : Z := 500.

Record IdleCounterTask := IdleCounter {
  ic_builder : LightweightStringBuilder;
  ic_dispatchCount : Z;
  ic_lastLogCount : Z;
}.

Definition idle_init (t : IdleCounterTask) : IdleCounterTask := IdleCounter (ic_builder t) 0 0.

Definition idle_tick (now : Z) (t : IdleCounterTask) : option (IdleCounterTask * list log_call) :=
  let dispatchCount := u32 (ic_dispatchCount t + 1) in
  if decide (kLogInterval <= u32 (dispatchCount - ic_lastLogCount t))%Z then
    '(b, str) ← compose [TStr (text "Background dispatches: "); TU32 dispatchCount] (ic_builder t);
    Some (IdleCounter b dispatchCount dispatchCount, [(SYSTEM, str, INFO, now)])
  else Some (IdleCounter (ic_builder t) dispatchCount (ic_lastLogCount t), []).

(** ** The program *)

Record Multirate := MkMultirate {
  fastTask : FastSampleTask;
  slowTask : SlowReportTask;
  idleTask : IdleCounterTask;
}.

Definition new_multirate : Multirate :=
  MkMultirate (FastSample 0 0 0) (SlowReport Text.new_builder 0 0) (IdleCounter Text.new_builder 0 0).

Definition fast_user : UserTask Multirate :=
  MkUser 0 (Desc true false kFastPeriodUs 50 255 0 0 0 true)
    (fun m => MkMultirate (fast_init (fastTask m)) (slowTask m) (idleTask m))
    (fun now n m => Some (n, MkMultirate (fast_tick now (fastTask m)) (slowTask m) (idleTask m), [])).

Definition slow_user : UserTask Multirate :=
  MkUser 1 (scheduled_desc kSlowPeriodUs)
    (fun m => MkMultirate (fastTask m) (slow_init (slowTask m)) (idleTask m))
    (fun now n m =>
      '(slow, fast, calls) ← slow_tick now (slowTask m) (fastTask m);
      Some (n, MkMultirate fast slow (idleTask m), calls)).

Definition idle_user : UserTask Multirate :=
  MkUser 2 background_desc
    (fun m => MkMultirate (fastTask m) (slowTask m) (idle_init (idleTask m)))
    (fun now n m => '(idle, calls) ← idle_tick now (idleTask m); Some (n, MkMultirate (fastTask m) (slowTask m) idle, calls)).

Definition multirate_tasks : list (UserTask Multirate) := [fast_user; slow_user; idle_user].

Definition multirate_calls (forever : bool) : list registration :=
  example_calls false forever [0] [AddScheduled 0 (Some 0); AddScheduled 0 (Some 1); AddBackground (Some 2)].

Definition multirate_main (startAccept : Z -> bool) : list (list Z) -> option (Z + list registration) := example_main startAccept multirate_calls.

Abbreviation ct := 10 (only parsing).
Abbreviation cm := 11 (only parsing).
Abbreviation dg := 12 (only parsing).

(** What [build] makes the diagnostics task monitor. *)
Definition multirate_diags : BackgroundDiagnosticsTask :=
  setMonitoredTasks [ct; cm; 0; 1] (setTelemetryDrain true (make_diags MultirateConfig example_deps)).

Lemma MultirateConfig_typed : config_typed MultirateConfig.
Proof. split; vm_compute; intuition (lia || discriminate). Qed.

(** ** What the tasks report *)

(** The sum of the first [n] simulated readings. *)
Fixpoint readings (n : nat) : Z :=
  match n with
  | O => 0
  | S n => readings n + u32 (Z.of_nat n) mod 100
  end.

Definition report_text (j samples accum : Z) : list Z :=
  text "Report #" ++ digits j ++ text " | samples=" ++ digits samples ++ text " accum=" ++ digits accum.

(** A report: its time, and the number of samples so far; [earlier] is what it was at the
    report before. *)
Definition report_message (j earlier : nat) (r : Z * nat) : message :=
  message_of SYSTEM (report_text (u32 (Z.of_nat (S j))) (u32 (Z.of_nat r.2)) (u32 (readings r.2 - readings earlier))) STATUS r.1.

Fixpoint report_messages (j earlier : nat) (reports : list (Z * nat)) : list message :=
  match reports with
  | [] => []
  | r :: reports => report_message j earlier r :: report_messages (S j) r.2 reports
  end.

Definition idle_text (n : Z) : list Z := text "Background dispatches: " ++ digits n.

Definition idle_message (i : nat) (t : Z) : message :=
  message_of SYSTEM (idle_text (u32 (kLogInterval * Z.of_nat (S i)))) INFO t.

Lemma readings_mono n m : n <= m -> (readings n <= readings m <= readings n + 99 * Z.of_nat (m - n))%Z.
Proof.
  induction 1 as [|m Hm IH]; [lia|]. cbn [readings]. pose proof (Z.mod_pos_bound (u32 (Z.of_nat m)) 100 eq_refl). lia.
Qed.

(** One report after the other. *)
Definition report_step (a b : Z * nat) : Prop := apart kSlowPeriodUs a.1 b.1 /\ a.2 <= b.2.

#[export] Instance report_step_trans : Transitive report_step.
Proof. intros a b c [H1 H2] [H3 H4]. split; [by transitivity b.1|lia]. Qed.

(** The sampler after [n] samples, and the reports so far. *)
Record reported (now : Z) (m : Multirate) (n : nat) (reports : list (Z * nat)) (r : Z * nat) : Prop := {
  re_builder : exists str, sb_rep (sr_builder (slowTask m)) str;
  re_count : fs_sampleCount (fastTask m) = u32 (Z.of_nat n);
  re_rate : (Z.of_nat n * kFastPeriodUs <= fs_lastTick (fastTask m) /\ fs_lastTick (fastTask m) <= now)%Z;
  re_last : last ((0%Z, 0) :: reports) = Some r;
  re_since : (0 <= r.1 <= now)%Z /\ r.2 <= n;
  re_accumulator : fs_accumulator (fastTask m) = (readings n - readings r.2)%Z;
  re_reports : sr_reportCount (slowTask m) = u32 (Z.of_nat (length reports)) /\ sr_lastTick (slowTask m) = r.1;
  re_spaced : StronglySorted report_step ((0%Z, 0) :: reports);
  re_samples : Forall (fun r => Z.of_nat r.2 * kFastPeriodUs <= r.1)%Z reports;
}.

(** The background task after [n] dispatches, and the times it has logged at. *)
Record dispatched (t : IdleCounterTask) (n : nat) (times : list Z) : Prop := {
  di_builder : exists str, sb_rep (ic_builder t) str;
  di_count : ic_dispatchCount t = u32 (Z.of_nat n);
  di_last : ic_lastLogCount t = u32 (kLogInterval * Z.of_nat (length times));
  di_often : (kLogInterval * Z.of_nat (length times) <= Z.of_nat n < kLogInterval * Z.of_nat (S (length times)))%Z;
}.

Lemma fast_tick_ok T now m n reports r :
  in_word 64 now -> (T <= now)%Z -> reported T m n reports r ->
  exists n', reported now (MkMultirate (fast_tick now (fastTask m)) (slowTask m) (idleTask m)) n' reports r.
Proof.
  intros Hw HT [Hb Hc Hr Hl Hs Ha Hn Hsp Hsm]. unfold fast_tick. unfold kFastPeriodUs in Hr.
  rewrite elapsed_exact by (done || lia). case_decide as Hd; [exists n|exists (S n)]; (split; cbn; try done; try lia).
  - unfold kFastPeriodUs. lia.
  - rewrite Hc, u32_succ. f_equal. lia.
  - unfold kFastPeriodUs in *. lia.
  - rewrite Hc, Ha. cbn [readings]. set (x := (u32 (Z.of_nat n) mod 100)%Z).
    assert (0 <= x < 100)%Z by by apply Z.mod_pos_bound. rewrite Z.add_sub_swap. apply wrap_id.
    pose proof (readings_mono r.2 n ltac:(lia)). unfold in_word in *. unfold kFastPeriodUs in *. lia.
Qed.
Lemma slow_tick_ok T now m n reports r :
  in_word 64 now -> (T <= now)%Z -> reported T m n reports r ->
  exists slow fast calls new r', slow_tick now (slowTask m) (fastTask m) = Some (slow, fast, calls) /\
    reported now (MkMultirate fast slow (idleTask m)) n (reports ++ new) r' /\
    call_message <$> calls = report_messages (length reports) r.2 new.
Proof.
  intros Hw HT [[str Hb] Hc Hr Hl Hs Ha [Hn Ht] Hsp Hsm]. unfold slow_tick, drainAccumulator. cbn [fs_sampleCount]. rewrite Ht.
  rewrite elapsed_exact by (done || lia). case_decide as Hd.
  - exists (slowTask m), (fastTask m), [], [], r. split; [done|]. rewrite app_nil_r. split; [|done]. split; cbn; try done; try lia. by exists str.
  - rewrite Hn, u32_succ, Hc, Ha. change 4294967295%Z with (Z.ones 32). rewrite <- wrap_land, wrap_wrap by lia.
    composes [Str (text "Report #"); Num (Z.of_nat (length reports) + 1); Str (text " | samples="); Num (Z.of_nat n);
      Str (text " accum="); Num (readings n - readings r.2)] Hb b Hb'.
    eexists _, _, _, [(now, n)], (now, n). split; [done|]. split.
    + split; cbn; try done; try lia.
      * by eexists.
      * change ((0%Z, 0) :: reports ++ [(now, n)]) with (((0%Z, 0) :: reports) ++ [(now, n)]). by rewrite last_snoc.
      * rewrite length_app. split; [|done]. f_equal. cbn. lia.
      * change ((0%Z, 0) :: reports ++ [(now, n)]) with (((0%Z, 0) :: reports) ++ [(now, n)]). eapply StronglySorted_snoc; [apply _|done|exact Hl|].
        unfold report_step, apart, kSlowPeriodUs in *. cbn. lia.
      * apply Forall_app_2; [done|]. constructor; [cbn; lia|done].
    + cbn. unfold report_message, report_text. cbn. by replace (Z.of_nat (S (length reports))) with (Z.of_nat (length reports) + 1)%Z by lia.
Qed.

Lemma idle_tick_ok now t n times :
  dispatched t n times ->
  exists t' calls new, idle_tick now t = Some (t', calls) /\ dispatched t' (S n) (times ++ new) /\
    call_message <$> calls = imap (fun i => idle_message (length times + i)) new.
Proof.
  intros [[str Hb] Hc Hl Ho]. unfold idle_tick. rewrite Hc, u32_succ, Hl. unfold kLogInterval in *.
  assert (E : u32 (u32 (Z.of_nat n + 1) - u32 (500 * Z.of_nat (length times))) = (Z.of_nat n + 1 - 500 * Z.of_nat (length times))%Z).
  { unfold u32, wrap. rewrite <- Zminus_mod. apply Z.mod_small. lia. }
  rewrite E. case_decide as Hd.
  - assert (En : (Z.of_nat n + 1)%Z = (500 * Z.of_nat (S (length times)))%Z) by lia. rewrite En.
    composes [Str (text "Background dispatches: "); Num (500 * Z.of_nat (S (length times)))] Hb b Hb'.
    eexists _, _, [now]. split; [done|]. split.
    + split; cbn [ic_builder ic_dispatchCount ic_lastLogCount]; rewrite ?length_app; cbn [length].
      * by eexists.
      * f_equal. lia.
      * unfold kLogInterval. f_equal. lia.
      * unfold kLogInterval. lia.
    + cbn. unfold idle_message, idle_text, kLogInterval. by rewrite Nat.add_0_r.
  - eexists _, [], []. split; [done|]. rewrite app_nil_r. split; [|done]. split; cbn [ic_builder ic_dispatchCount ic_lastLogCount]; try done.
    + by exists str.
    + f_equal. lia.
    + unfold kLogInterval. lia.
Qed.
(** ** All tasks together *)

(** The messages of the report and of the background task, in whatever order. *)
Record multirated (now : Z) (m : Multirate) (ms : list message) (n d : nat) (reports : list (Z * nat)) (times : list Z) : Prop := {
  mr_reported : exists r, reported now m n reports r;
  mr_dispatched : dispatched (idleTask m) d times;
  mr_reports : at_level STATUS ms = report_messages 0 0 reports;
  mr_idle : at_level INFO ms = imap idle_message times;
  mr_levels : Forall (fun m => msg_level m = STATUS \/ msg_level m = INFO) ms;
}.

Lemma report_messages_level j earlier reports : Forall (fun m => msg_level m = STATUS) (report_messages j earlier reports).
Proof. revert j earlier. induction reports; intros j earlier; constructor; [done|auto]. Qed.

Lemma report_messages_app j earlier x r reports new :
  last ((x, earlier) :: reports) = Some (r : Z * nat) ->
  report_messages j earlier (reports ++ new) = report_messages j earlier reports ++ report_messages (j + length reports) r.2 new.
Proof.
  revert j earlier x. induction reports as [|[t c] reports IH]; intros j earlier x Hl; cbn [app report_messages length].
  - injection Hl as <-. by rewrite Nat.add_0_r.
  - rewrite Nat.add_succ_r. f_equal. apply (IH (S j) c t Hl).
Qed.

Lemma new_multirated : multirated 0 new_multirate [] 0 0 [] [].
Proof.
  assert (Hb : exists str, sb_rep Text.new_builder str) by (exists []; apply Text.new_builder_rep).
  split; [exists (0%Z, 0)| |done|done|constructor]; split; try done; by repeat constructor.
Qed.

Lemma idle_level i times : Forall (fun m => msg_level m = INFO) (imap (fun k => idle_message (i + k)) times).
Proof. apply Forall_forall. intros m Hm. apply elem_of_lookup_imap in Hm as (k & t & -> & _). done. Qed.

Lemma multirate_step t now k m k' m' calls T ms n d reports times :
  t ∈ multirate_tasks -> in_word 64 now -> (T <= now)%Z -> ut_tick t now k m = Some (k', m', calls) ->
  multirated T m ms n d reports times ->
  exists n' d' reports' times', multirated now m' (ms ++ (call_message <$> calls)) n' d' reports' times'.
Proof.
  intros Ht Hw HT E [[r Hr] Hd Hs Hi Hl]. unfold multirate_tasks in Ht. rewrite !elem_of_cons, elem_of_nil in Ht.
  destruct Ht as [->|[->|[->|[]]]]; cbn in E.
  - injection E as <- <- <-. rewrite app_nil_r. destruct (fast_tick_ok T now m n reports r Hw HT Hr) as [n' Hr'].
    exists n', d, reports, times. split; try done. by exists r.
  - destruct (slow_tick_ok T now m n reports r Hw HT Hr) as (slow & fast & cs & new & r' & E' & Hr' & Em). rewrite E' in E. injection E as <- <- <-.
    exists n, d, (reports ++ new), times. rewrite Em. pose proof (report_messages_level (length reports) r.2 new) as Hlv. split; try done.
    + by exists r'.
    + rewrite at_level_app, Hs, (at_level_all STATUS STATUS _ Hlv), decide_True by done. destruct Hr.
      by rewrite (report_messages_app 0 0 0%Z r).
    + by rewrite at_level_app, Hi, (at_level_all STATUS INFO _ Hlv), decide_False, app_nil_r.
    + apply Forall_app_2; [done|]. eapply Forall_impl; [exact Hlv|]. auto.
  - destruct (idle_tick_ok now (idleTask m) d times Hd) as (t' & cs & new & E' & Hd' & Em). rewrite E' in E. injection E as <- <- <-.
    exists n, (S d), reports, (times ++ new). rewrite Em. pose proof (idle_level (length times) new) as Hlv. split; try done.
    + exists r. by destruct Hr as [? ? [] ? ? ? ? ? ?]; split; cbn; try done; lia.
    + by rewrite at_level_app, Hs, (at_level_all INFO STATUS _ Hlv), decide_False, app_nil_r.
    + by rewrite at_level_app, Hi, (at_level_all INFO INFO _ Hlv), decide_True, imap_app by done.
    + apply Forall_app_2; [done|]. eapply Forall_impl; [exact Hlv|]. auto.
Qed.

Section program.
Context (base : Env (World (Bench Multirate))) (long_bits : Z) (snap : PerformanceSnapshot).

Definition multirate_env : Env (World (Bench Multirate)) :=
  example_env MultirateConfig base multirate_tasks long_bits example_deps snap ct cm dg.

Definition multirate_start (forever : bool) : option (BuildResult * System (World (Bench Multirate))) :=
  example_start MultirateConfig base multirate_tasks long_bits snap ct cm dg new_multirate multirate_diags (multirate_calls forever).

Lemma multirate_ready forever r s :
  multirate_start forever = Some (r, s) -> ready MultirateConfig base new_multirate multirate_diags false r s.
Proof. destruct forever; vm_compute; intros [= <- <-]; split_and!; reflexivity. Qed.

Lemma multirate_sound : user_sound multirate_tasks.
Proof.
  intros t Ht now n s n' s' calls E. unfold multirate_tasks in Ht. rewrite !elem_of_cons, elem_of_nil in Ht.
  destruct Ht as [->|[->|[->|[]]]]; cbn in E.
  - by injection E as <- _ <-.
  - unfold slow_tick in E. case_decide; cbn [mbind option_bind] in E; [by injection E as <- _ <-|]. unfold drainAccumulator in E.
    destruct (compose _ _) as [[b str]|] eqn:Ec; cbn [mbind option_bind] in E; [|done]. injection E as <- _ <-. split; [done|].
    constructor; [|done]. by eapply compose_no_nul.
  - unfold idle_tick in E. case_decide; cbn [mbind option_bind] in E; [|by injection E as <- _ <-].
    destruct (compose _ _) as [[b str]|] eqn:Ec; cbn [mbind option_bind] in E; [|done]. injection E as <- _ <-. split; [done|].
    constructor; [|done]. by eapply compose_no_nul.
Qed.

(** The builders can be written to, and the count is a number of 32 bits. *)
Record multirate_inv (m : Multirate) : Prop := {
  mi_slow : exists str, sb_rep (sr_builder (slowTask m)) str;
  mi_idle : exists str, sb_rep (ic_builder (idleTask m)) str;
  mi_count : in_word 32 (fs_sampleCount (fastTask m));
}.

Lemma multirate_total : user_total multirate_tasks multirate_inv.
Proof.
  intros t Ht. unfold multirate_tasks in Ht. rewrite !elem_of_cons, elem_of_nil in Ht.
  destruct Ht as [->|[->|[->|[]]]]; cbn; intros now n s [[str1 H1] [str2 H2] Hc].
  - eexists _, _, _. split; [done|]. split; [by exists str1|by exists str2|]. cbn. unfold fast_tick. case_decide; [done|]. by apply wrap_in_word.
  - unfold slow_tick, drainAccumulator. case_decide; cbn [mbind option_bind fs_sampleCount].
    { eexists _, _, _. split; [done|]. split; [by exists str1|by exists str2|done]. }
    destruct (compose_pieces [Str (text "Report #"); Num (sr_reportCount (slowTask s) + 1); Str (text " | samples="); Num (fs_sampleCount (fastTask s));
      Str (text " accum="); Num (Z.land (fs_accumulator (fastTask s)) 4294967295)] _ _ H1 eq_refl) as (b & Eb & Hb').
    cbn [piece_op fmap list_fmap] in Eb. rewrite (wrap_id 32 (fs_sampleCount _) Hc) in Eb. rewrite Eb. cbn [mbind option_bind].
    eexists _, _, _. split; [done|]. split; [by eexists|by exists str2|done].
  - unfold idle_tick. case_decide; cbn [mbind option_bind]; [|eexists _, _, _; split; [done|]; by split; [exists str1|exists str2|]].
    composes [Str (text "Background dispatches: "); Num (ic_dispatchCount (idleTask s) + 1)] H2 b Hb'.
    eexists _, _, _. split; [done|]. split; [by exists str1|by eexists|done].
Qed.

End program.


(** A run of 2.7 seconds: five reports, and the background task has been dispatched. *)
Example multirate_five :
  let base := quiet_base Multirate MultirateConfig 500 2700000 in
  ('(_, s) ← multirate_start base 32 session_snap false;
   '(fin, s) ← sys_run (multirate_env base 32 session_snap) 400 0 s;
   Some (fin, stdout_of (sy_shared s), fs_sampleCount (fastTask (state_of (sy_shared s))),
     ic_dispatchCount (idleTask (state_of (sy_shared s))))) =
  Some (true, (fun line => line ++ [chr_newline]) <$>
    [text "[504][System] Report #1 | samples=36 accum=630"; text "[1008][System] Report #2 | samples=72 accum=1926";
     text "[1512][System] Report #3 | samples=108 accum=2422"; text "[2016][System] Report #4 | samples=144 accum=918";
     text "[2520][System] Report #5 | samples=180 accum=2214"], 192%Z, 386%Z).
Proof. vm_compute. reflexivity. Qed.
