(* ===== verification/SensorPoll.v ===== *)
(** * The sensor example ([exampleProjects/sensorpoll/])

    A task that starts conversions of a simulated converter and polls for their end, without
    blocking, and a background task that sums the readings up, on a single core. *)

From stdpp Require Import sorting.
From Stdlib Require String.
From S2P Require Import Prelude Float32 Protocol Queue Metrics ErrorLog Decimal Text Telemetry Kernel Sched Crunch Run Builder Diagnostics Tasks Cli Comms Pipeline Config Device KernelTasks Session Effects ExampleApp.
Import String.StringSyntax.

(** ** The program *)

Definition SensorPollConfig : UserConfig :=
  UserCfg true true 8 1 16 (Some 4%Z) (Some 0%Z) None None None None None None None None None None None None None None None None.

(** [SensorPollHAL.h] *)
Record SimulatedADC := ADC {
  m_conversionDelayUs : Z;
  m_conversionStartTime : Z;
  m_conversionInFlight : bool;
  m_nextValue : Z;
}.

(** [clock] is what [m_getTime] answers. *)
Definition startConversion (clock : Z) (a : SimulatedADC) : SimulatedADC :=
  ADC (m_conversionDelayUs a) clock true (m_nextValue a).

Definition isConversionReady (clock : Z) (a : SimulatedADC) : bool :=
  if m_conversionInFlight a then bool_decide (m_conversionDelayUs a <= u64 (clock - m_conversionStartTime a))%Z else false.

Definition readResult (a : SimulatedADC) : float * SimulatedADC :=
  (f_of_Z (m_nextValue a), ADC (m_conversionDelayUs a) (m_conversionStartTime a) false (u32 (m_nextValue a + 37) mod 1000)).

(** [AdcPollTask.h] *)
Definition kPeriodUs : Z := 50000.
Definition kMaxIoRetries : Z := 10.

Record AdcPollTask := AdcPoll {
  ap_builder : LightweightStringBuilder;
  m_waitingForAdc : bool;
  m_ioWaitCount : Z;
  m_readingCount : Z;
  m_lastReading : float;
  m_lastTick : Z;
}.

Definition adc_init (t : AdcPollTask) : AdcPollTask := AdcPoll (ap_builder t) false 0 0 f_zero 0.

Definition isIoPending (t : AdcPollTask) : bool := m_waitingForAdc t.

(** [SensorLogTask.h] *)
Definition kLogThreshold : Z := 5.

Record SensorLogTask := SensorLog {
  sl_builder : LightweightStringBuilder;
  m_lastReported : Z;
}.

Definition log_init (t : SensorLogTask) : SensorLogTask := SensorLog (sl_builder t) 0.

Section tasks.
Context (clock : nat -> Z).

(** [n] counts the readings of the clock. *)
Definition adc_tick (now : Z) (n : nat) (t : AdcPollTask) (adc : SimulatedADC) :
    option (nat * AdcPollTask * SimulatedADC * list log_call) :=
  if m_waitingForAdc t then
    if isConversionReady (clock n) adc then
      let '(reading, adc) := readResult adc in
      let readingCount := u32 (m_readingCount t + 1) in
      '(b, str) ← compose [TStr (text "ADC #"); TU32 readingCount; TStr (text " = "); TFloat reading 3; TStr (text " mV")] (ap_builder t);
      Some (S (S n), AdcPoll b true 0 readingCount reading (m_lastTick t), startConversion (clock (S n)) adc, [(CONTROL, str, STATUS, now)])
    else
      let ioWaitCount := u32 (m_ioWaitCount t + 1) in
      let n := if m_conversionInFlight adc then S n else n in
      if decide (kMaxIoRetries < ioWaitCount)%Z then
        '(b, str) ← compose [TStr (text "ADC TIMEOUT after "); TU32 ioWaitCount; TStr (text " polls")] (ap_builder t);
        Some (n, AdcPoll b false 0 (m_readingCount t) (m_lastReading t) (m_lastTick t), adc, [(CONTROL, str, CRITICAL, now)])
      else Some (n, AdcPoll (ap_builder t) true ioWaitCount (m_readingCount t) (m_lastReading t) (m_lastTick t), adc, [])
  else if decide (u64 (now - m_lastTick t) < kPeriodUs)%Z then Some (n, t, adc, [])
  else
    Some (S n, AdcPoll (ap_builder t) true (m_ioWaitCount t) (m_readingCount t) (m_lastReading t) now, startConversion (clock n) adc, []).

Definition log_tick (now : Z) (t : SensorLogTask) (poller : AdcPollTask) : option (SensorLogTask * list log_call) :=
  let current := m_readingCount poller in
  if decide (m_lastReported t < current /\ kLogThreshold <= u32 (current - m_lastReported t))%Z then
    '(b, str) ← compose [TStr (text "Sensor log: "); TU32 current; TStr (text " readings, last="); TFloat (m_lastReading poller) 3;
      TStr (text " mV")] (sl_builder t);
    Some (SensorLog b current, [(SYSTEM, str, STATUS, now)])
  else Some (t, []).

Record SensorPoll := MkSensorPoll {
  adcTask : AdcPollTask;
  logTask : SensorLogTask;
  the_adc : SimulatedADC;
}.

Definition new_sensorpoll : SensorPoll :=
  MkSensorPoll (AdcPoll Text.new_builder false 0 0 f_zero 0) (SensorLog Text.new_builder 0) (ADC 15000 0 false 0).

Definition adc_user : UserTask SensorPoll :=
  MkUser 0 (scheduled_desc kPeriodUs) (fun m => MkSensorPoll (adc_init (adcTask m)) (logTask m) (the_adc m))
    (fun now n m =>
      '(n, t, adc, calls) ← adc_tick now n (adcTask m) (the_adc m);
      Some (n, MkSensorPoll t (logTask m) adc, calls)).

Definition log_user : UserTask SensorPoll :=
  MkUser 1 (Desc false false 0 0 0 500 0 0 true) (fun m => MkSensorPoll (adcTask m) (log_init (logTask m)) (the_adc m))
    (fun now n m => '(t, calls) ← log_tick now (logTask m) (adcTask m); Some (n, MkSensorPoll (adcTask m) t (the_adc m), calls)).

Definition sensor_tasks : list (UserTask SensorPoll) := [adc_user; log_user].
End tasks.

Definition sensor_calls (forever : bool) : list registration :=
  example_calls false forever [0] [AddScheduled 0 (Some 0); AddBackground (Some 1)].

Definition sensor_main (startAccept : Z -> bool) : list (list Z) -> option (Z + list registration) := example_main startAccept sensor_calls.

Abbreviation ct := 10 (only parsing).
Abbreviation cm := 11 (only parsing).
Abbreviation dg := 12 (only parsing).

Definition sensor_diags : BackgroundDiagnosticsTask :=
  setMonitoredTasks [ct; cm; 0] (setTelemetryDrain true (make_diags SensorPollConfig example_deps)).

Lemma SensorPollConfig_typed : config_typed SensorPollConfig.
Proof. split; vm_compute; intuition (lia || discriminate). Qed.

(** ** What the tasks log *)

Inductive sensor_event :=
  | Reading (t : Z)
  | Timeout (t : Z)
  | Summary (t : Z).

(** The converter's [k]-th value. *)
Definition sawtooth (k : nat) : Z := (37 * Z.of_nat k) mod 1000.

Definition reading_text (k : nat) : list Z :=
  text "ADC #" ++ digits (u32 (Z.of_nat (S k))) ++ text " = " ++ (digits (sawtooth k) ++ text ".000") ++ text " mV".

Definition timeout_text : list Z := text "ADC TIMEOUT after 11 polls".

Definition summary_text (k : nat) : list Z :=
  text "Sensor log: " ++ digits (u32 (Z.of_nat k)) ++ text " readings, last=" ++ (digits (sawtooth (pred k)) ++ text ".000") ++ text " mV".

(** An event after [k] readings. *)
Definition event_message (k : nat) (e : sensor_event) : message :=
  match e with
  | Reading t => message_of CONTROL (reading_text k) STATUS t
  | Timeout t => message_of CONTROL timeout_text CRITICAL t
  | Summary t => message_of SYSTEM (summary_text k) STATUS t
  end.

Definition after (k : nat) (e : sensor_event) : nat := match e with Reading _ => S k | _ => k end.

Fixpoint sensor_messages (k : nat) (es : list sensor_event) : list message :=
  match es with
  | [] => []
  | e :: es => event_message k e :: sensor_messages (after k e) es
  end.

(** The number of readings at each summary. *)
Fixpoint summaries (k : nat) (es : list sensor_event) : list nat :=
  match es with
  | [] => []
  | Summary t :: es => k :: summaries k es
  | e :: es => summaries (after k e) es
  end.

Definition five_more (a b : nat) : Prop := a + 5 <= b.

#[export] Instance five_more_trans : Transitive five_more.
Proof. intros a b c. unfold five_more. lia. Qed.

Lemma sensor_messages_snoc k es e : sensor_messages k (es ++ [e]) = sensor_messages k es ++ [event_message (foldl after k es) e].
Proof. revert k. induction es as [|e' es IH]; intros k; [done|]. cbn. by rewrite IH. Qed.

Lemma summaries_snoc k es e :
  summaries k (es ++ [e]) = summaries k es ++ match e with Summary _ => [foldl after k es] | _ => [] end.
Proof. revert k. induction es as [|[] es IH]; intros k; cbn; rewrite ?IH; by destruct e. Qed.

(** The tasks after the events [es]; [k] readings have been taken, [r] when they were summed up
    last. *)
Record polled (m : SensorPoll) (ms : list message) (es : list sensor_event) (k r : nat) : Prop := {
  po_adc_builder : exists str, sb_rep (ap_builder (adcTask m)) str;
  po_log_builder : exists str, sb_rep (sl_builder (logTask m)) str;
  po_wait : (0 <= m_ioWaitCount (adcTask m) <= kMaxIoRetries)%Z /\ (m_waitingForAdc (adcTask m) = false -> m_ioWaitCount (adcTask m) = 0%Z);
  po_flight : m_waitingForAdc (adcTask m) = true -> m_conversionInFlight (the_adc m) = true;
  po_count : m_readingCount (adcTask m) = u32 (Z.of_nat k);
  po_last : m_lastReading (adcTask m) = f_of_Z (sawtooth (pred k));
  po_next : m_nextValue (the_adc m) = sawtooth k;
  po_reported : m_lastReported (logTask m) = u32 (Z.of_nat r) /\ r <= k;
  po_events : k = foldl after 0 es;
  po_messages : ms = sensor_messages 0 es;
  po_summaries : StronglySorted five_more (0 :: summaries 0 es) /\ last (0 :: summaries 0 es) = Some r;
}.

Lemma new_sensorpoll_polled : polled new_sensorpoll [] [] 0 0.
Proof. split; try done; try (by exists []; apply Text.new_builder_rep); by repeat constructor. Qed.

Lemma sawtooth_next k : (u32 (sawtooth k + 37) mod 1000)%Z = sawtooth (S k).
Proof.
  unfold sawtooth. pose proof (Z.mod_pos_bound (37 * Z.of_nat k) 1000 eq_refl).
  rewrite wrap_id by (unfold in_word; lia). rewrite Zplus_mod_idemp_l. f_equal. lia.
Qed.

Lemma sawtooth_milli k : (sawtooth k mod 1000)%Z = sawtooth k.
Proof. unfold sawtooth. by rewrite Zmod_mod. Qed.

(** The unsigned comparison of two counts is the one of the true numbers. *)
Lemma u32_since r k : r <= k -> (5 <= u32 (u32 (Z.of_nat k) - u32 (Z.of_nat r)))%Z -> r + 5 <= k.
Proof.
  intros Hr. unfold u32, wrap. rewrite <- Zminus_mod. rewrite <- Nat2Z.inj_sub by done. intros H.
  pose proof (Z.mod_le (Z.of_nat (k - r)) (2 ^ 32) ltac:(lia) ltac:(lia)). lia.
Qed.

Lemma adc_tick_ok clock now n m ms es k r :
  polled m ms es k r -> exists n' t adc calls es' k',
    adc_tick clock now n (adcTask m) (the_adc m) = Some (n', t, adc, calls) /\ n <= n' /\
    polled (MkSensorPoll t (logTask m) adc) (ms ++ (call_message <$> calls)) es' k' r.
Proof.
  intros [[str Hb] Hb2 [Hw Hw0] Hf Hc Hl Hn [Hr Hrk] He Hm Hs]. unfold adc_tick. destruct (m_waitingForAdc (adcTask m)) eqn:Ew.
  - specialize (Hf eq_refl). destruct (isConversionReady _ _) eqn:Er; unfold readResult.
    + rewrite Hc, u32_succ, Hn. destruct (compose_pieces [Str (text "ADC #"); Num (Z.of_nat k + 1); Str (text " = "); Milli (sawtooth k); Str (text " mV")]
        _ _ Hb eq_refl) as (b & Eb & Hb'). cbn [piece_op fmap list_fmap] in Eb. rewrite sawtooth_milli in Eb. rewrite Eb.
      unfold pieces_text in *. cbn [fmap list_fmap piece_text concat] in *. rewrite app_nil_r, sawtooth_milli in *. cbn [mbind option_bind].
      eexists _, _, _, _, (es ++ [Reading now]), (S k). split; [done|]. split; [lia|]. split; cbn.
      * by eexists.
      * done.
      * split; [unfold kMaxIoRetries; lia|done].
      * done.
      * f_equal. lia.
      * done.
      * apply sawtooth_next.
      * split; [done|lia].
      * by rewrite foldl_snoc, <- He.
      * rewrite sensor_messages_snoc, <- He, <- Hm. cbn. unfold reading_text. by replace (Z.of_nat (S k)) with (Z.of_nat k + 1)%Z by lia.
      * by rewrite summaries_snoc, app_nil_r.
    + rewrite Hf. assert (E : u32 (m_ioWaitCount (adcTask m) + 1) = (m_ioWaitCount (adcTask m) + 1)%Z).
      { apply wrap_id. unfold in_word, kMaxIoRetries in *. lia. }
      rewrite E. case_decide as Hd.
      * assert (Ei : (m_ioWaitCount (adcTask m) + 1)%Z = 11%Z) by (unfold kMaxIoRetries in *; lia). rewrite Ei.
        destruct (compose_pieces [Str (text "ADC TIMEOUT after "); Num 11; Str (text " polls")] _ _ Hb eq_refl) as (b & Eb & Hb').
        cbn [piece_op fmap list_fmap] in Eb. change (u32 11) with 11%Z in Eb. rewrite Eb. cbn [mbind option_bind].
        eexists _, _, _, _, (es ++ [Timeout now]), k. split; [done|]. split; [lia|]. split; cbn; try done.
        -- by eexists.
        -- by rewrite foldl_snoc, <- He.
        -- by rewrite sensor_messages_snoc, <- Hm.
        -- by rewrite summaries_snoc, app_nil_r.
      * eexists _, _, _, [], es, k. split; [done|]. split; [lia|]. rewrite app_nil_r. split; cbn; try done; [by exists str|].
        unfold kMaxIoRetries in *. split; [lia|done].
  - case_decide as Hd.
    + eexists _, _, _, [], es, k. split; [done|]. split; [lia|]. rewrite app_nil_r. split; cbn; try done; try (by exists str); by rewrite Ew.
    + eexists _, _, _, [], es, k. split; [done|]. split; [lia|]. rewrite app_nil_r. split; cbn; try done; by exists str.
Qed.

Lemma log_tick_ok now m ms es k r :
  polled m ms es k r -> exists t calls es' r', log_tick now (logTask m) (adcTask m) = Some (t, calls) /\
    polled (MkSensorPoll (adcTask m) t (the_adc m)) (ms ++ (call_message <$> calls)) es' k r'.
Proof.
  intros [Hb [str Hb2] Hw Hf Hc Hl Hn [Hr Hrk] He Hm [Hs Hsl]]. unfold log_tick. rewrite Hc, Hr, Hl. case_decide as Hd.
  - destruct Hd as [_ Hd%u32_since]; [|done].
    destruct (compose_pieces [Str (text "Sensor log: "); Num (Z.of_nat k); Str (text " readings, last="); Milli (sawtooth (pred k)); Str (text " mV")]
      _ _ Hb2 eq_refl) as (b & Eb & Hb'). cbn [piece_op fmap list_fmap] in Eb. rewrite sawtooth_milli in Eb. rewrite Eb.
    unfold pieces_text in *. cbn [fmap list_fmap piece_text concat] in *. rewrite app_nil_r, sawtooth_milli in *. cbn [mbind option_bind].
    eexists _, _, (es ++ [Summary now]), k. split; [done|]. split; cbn; try done.
    + by eexists.
    + by rewrite foldl_snoc, <- He.
    + by rewrite sensor_messages_snoc, <- He, <- Hm.
    + rewrite summaries_snoc, <- He. change (0 :: summaries 0 es ++ [k]) with ((0 :: summaries 0 es) ++ [k]). rewrite last_snoc.
      split; [|done]. by apply (StronglySorted_snoc five_more _ r).
  - eexists _, [], es, r. split; [done|]. rewrite app_nil_r. split; cbn; try done. by exists str.
Qed.
(** ** A loop that is too fast *)

(** Polls in a row: the time of each, and which reading of the clock it is. *)
Fixpoint adc_polls (clock : nat -> Z) (polls : list (Z * nat)) (t : AdcPollTask) (adc : SimulatedADC) :
    option (AdcPollTask * SimulatedADC * list log_call) :=
  match polls with
  | [] => Some (t, adc, [])
  | (now, n) :: polls =>
      '(_, t, adc, calls) ← adc_tick clock now n t adc;
      '(t, adc, calls') ← adc_polls clock polls t adc;
      Some (t, adc, calls ++ calls')
  end.

(** Eleven polls within the time of a conversion end it without a reading. *)
Lemma adc_polls_timeout clock polls now n t adc str :
  sb_rep (ap_builder t) str -> m_waitingForAdc t = true -> m_conversionInFlight adc = true -> (0 <= m_ioWaitCount t)%Z ->
  (m_ioWaitCount t + Z.of_nat (length polls) = kMaxIoRetries)%Z ->
  Forall (fun p => u64 (clock p.2 - m_conversionStartTime adc) < m_conversionDelayUs adc)%Z (polls ++ [(now, n)]) ->
  exists b, adc_polls clock (polls ++ [(now, n)]) t adc =
    Some (AdcPoll b false 0 (m_readingCount t) (m_lastReading t) (m_lastTick t), adc, [(CONTROL, timeout_text, CRITICAL, now)]).
Proof.
  intros Hb Hw Hf H0 Hk Hc. revert t Hb Hw H0 Hk. induction polls as [|[now' n'] polls IH]; intros t Hb Hw H0 Hk; cbn [app] in *;
    inversion Hc as [|? ? Hp Hc']; subst; cbn [adc_polls]; unfold adc_tick; rewrite Hw; unfold isConversionReady; rewrite Hf;
    (rewrite bool_decide_eq_false_2 by (cbn in Hp |- *; lia)); cbn [length] in Hk; unfold kMaxIoRetries in *;
    (rewrite (wrap_id 32 (m_ioWaitCount t + 1)) by (unfold in_word; lia)).
  - rewrite decide_True by lia. replace (m_ioWaitCount t + 1)%Z with 11%Z by lia.
    destruct (compose_pieces [Str (text "ADC TIMEOUT after "); Num 11; Str (text " polls")] _ _ Hb eq_refl) as (b & Eb & _).
    cbn [piece_op fmap list_fmap] in Eb. change (u32 11) with 11%Z in Eb. rewrite Eb. cbn [mbind option_bind]. by exists b.
  - rewrite decide_False by lia. cbn [mbind option_bind].
    destruct (IH Hc' (AdcPoll (ap_builder t) true (m_ioWaitCount t + 1) (m_readingCount t) (m_lastReading t) (m_lastTick t)))
      as (b & Eb); cbn; [done|done|lia|lia|]. rewrite Eb. cbn [mbind option_bind]. by exists b.
Qed.

Section program.
Context (base : Env (World (Bench SensorPoll))) (long_bits : Z) (snap : PerformanceSnapshot).

Definition sensor_env : Env (World (Bench SensorPoll)) :=
  example_env SensorPollConfig base (sensor_tasks (env_clock base)) long_bits example_deps snap ct cm dg.

Definition sensor_start (forever : bool) : option (BuildResult * System (World (Bench SensorPoll))) :=
  example_start SensorPollConfig base (sensor_tasks (env_clock base)) long_bits snap ct cm dg new_sensorpoll sensor_diags (sensor_calls forever).

Lemma sensor_ready forever r s :
  sensor_start forever = Some (r, s) -> ready SensorPollConfig base new_sensorpoll sensor_diags false r s.
Proof. destruct forever; vm_compute; intros [= <- <-]; split_and!; reflexivity. Qed.

Lemma sensor_sound : user_sound (sensor_tasks (env_clock base)).
Proof.
  intros t Ht now n s n' s' calls E. unfold sensor_tasks in Ht. rewrite !elem_of_cons, elem_of_nil in Ht.
  destruct Ht as [->|[->|[]]]; cbn in E.
  - unfold adc_tick in E. destruct (m_waitingForAdc _); [destruct (isConversionReady _ _)|]; cbn [readResult] in E; repeat case_decide;
      try (destruct (compose _ _) as [[b str]|] eqn:Ec; cbn [mbind option_bind] in E; [|done]); simplify_eq/=;
      (split; [by repeat case_match; lia|]); repeat constructor; by eapply compose_no_nul.
  - unfold log_tick in E. case_decide; cbn [mbind option_bind] in E; [|by injection E as <- _ <-].
    destruct (compose _ _) as [[b str]|] eqn:Ec; cbn [mbind option_bind] in E; [|done]. injection E as <- _ <-. split; [done|].
    constructor; [|done]. by eapply compose_no_nul.
Qed.

Definition polling (m : SensorPoll) (ms : list message) : Prop := exists es k r, polled m ms es k r.

Lemma sensor_step t now n m ms :
  t ∈ sensor_tasks (env_clock base) -> polling m ms ->
  exists n' m' calls, ut_tick t now n m = Some (n', m', calls) /\ polling m' (ms ++ (call_message <$> calls)).
Proof.
  intros Ht (es & k & r & Hp). unfold sensor_tasks in Ht. rewrite !elem_of_cons, elem_of_nil in Ht. destruct Ht as [->|[->|[]]]; cbn.
  - destruct (adc_tick_ok (env_clock base) now n m ms es k r Hp) as (n' & t & adc & calls & es' & k' & -> & _ & Hp').
    eexists _, _, _. split; [done|]. by exists es', k', r.
  - destruct (log_tick_ok now m ms es k r Hp) as (t & calls & es' & r' & -> & Hp'). eexists _, _, _. split; [done|]. by exists es', k, r'.
Qed.

Lemma sensor_total : user_total (sensor_tasks (env_clock base)) (fun m => exists ms, polling m ms).
Proof.
  intros t Ht now n m [ms Hm]. destruct (sensor_step t now n m ms Ht Hm) as (n' & m' & calls & E & Hm'). exists n', m', calls. by eauto.
Qed.

End program.


(** What a run of 130 milliseconds prints when a reading of the clock, of which there are some
    nine in an iteration, takes 200 microseconds, and when it takes 50. *)
Definition sensor_printed (step : Z) : option (list (list Z)) :=
  let base := quiet_base SensorPoll SensorPollConfig step 130000 in
  '(_, s) ← sensor_start base 32 session_snap false;
  '(_, s) ← sys_run (sensor_env base 32 session_snap) 600 0 s;
  Some (stdout_of (sy_shared s)).

Example sensor_slow_loop : sensor_printed 200 = Some ((fun line => line ++ [chr_newline]) <$>
  [text "[66][ControlTask] ADC #1 = 0.000 mV"; text "[82][ControlTask] ADC #2 = 37.000 mV"; text "[97][ControlTask] ADC #3 = 74.000 mV";
   text "[113][ControlTask] ADC #4 = 111.000 mV"; text "[129][ControlTask] ADC #5 = 148.000 mV";
   text "[129][System] Sensor log: 5 readings, last=148.000 mV"]).
Proof. vm_compute. reflexivity. Qed.

Example sensor_fast_loop : sensor_printed 50 = Some ((fun line => line ++ [chr_newline]) <$>
  [text "[57][ControlTask] ADC TIMEOUT after 11 polls"; text "[108][ControlTask] ADC TIMEOUT after 11 polls"]).
Proof. vm_compute. reflexivity. Qed.
