(* ===== verification/PingPong.v ===== *)
(** * The ping-pong example ([exampleProjects/pingpong/])

    Two tasks on two cores take turns: a token says whose turn it is, a counter is advanced
    once per turn. First the tasks by themselves; a step there is one access to the shared
    variables, or one message: the machine interleaves the two cores in every way. The token is
    stored with release and loaded with acquire order, and the counter is only touched by the
    holder, so that this order is all a relaxed access can show. Then the program on both cores,
    where the test of the kernel state, the stop conditions and a tick are a step each: its runs are
    plays of the game. *)

From Stdlib Require String.
From S2P Require Import Prelude Protocol Queue Metrics ErrorLog Decimal Text Telemetry Kernel Sched Crunch Run Builder Diagnostics Tasks Cli Comms Pipeline Config Device KernelTasks Session Effects Multicore ExampleApp ExampleCores.
Import String.StringSyntax.

(** ** The program *)

Definition PingPongConfig : UserConfig :=
  UserCfg true true 8 2 16 (Some 4%Z) (Some 0%Z) None None None None None None None None None None None None None None None None.

(** [SharedCounter.h] *)
Definition kMaxRounds : Z := 5.

(** [PingTask.h], [PongTask.h] *)
Definition kPingIntervalUs : Z := 300000.

Record PingTask := Ping {
  pi_builder : LightweightStringBuilder;
  m_lastPing : Z;
  m_pingCount : Z;
}.

Record PongTask := Pong {
  po_builder : LightweightStringBuilder;
  m_pongCount : Z;
}.

(** Where a core stands in its loop and in the [tick] of its task: before the stop conditions,
    before the load of the token, before the addition, before the message, before the store. *)
Inductive turn := Looping | Loading | Adding (now : Z) | Logging (now count : Z) | Releasing.

(** The variables of [SharedCounter.h], the tasks, and what they have logged. *)
Record game := Game {
  g_counter : Z;
  g_pingTurn : bool;
  g_running : bool;
  g_ping : PingTask;
  g_ping_at : turn;
  g_pong : PongTask;
  g_pong_at : turn;
  g_posted : list log_call;
}.

Definition new_game : game := Game 0 true true (Ping Text.new_builder 0 0) Looping (Pong Text.new_builder 0) Looping [].

Definition ping_init (t : PingTask) : PingTask := Ping (pi_builder t) 0 0.
Definition pong_init (t : PongTask) : PongTask := Pong (po_builder t) 0.

Definition set_ping (t : PingTask) (at_ : turn) (g : game) : game :=
  Game (g_counter g) (g_pingTurn g) (g_running g) t at_ (g_pong g) (g_pong_at g) (g_posted g).
Definition set_pong (t : PongTask) (at_ : turn) (g : game) : game :=
  Game (g_counter g) (g_pingTurn g) (g_running g) (g_ping g) (g_ping_at g) t at_ (g_posted g).
Definition set_counter (n : Z) (g : game) : game :=
  Game n (g_pingTurn g) (g_running g) (g_ping g) (g_ping_at g) (g_pong g) (g_pong_at g) (g_posted g).
Definition set_pingTurn (b : bool) (g : game) : game :=
  Game (g_counter g) b (g_running g) (g_ping g) (g_ping_at g) (g_pong g) (g_pong_at g) (g_posted g).
Definition set_running (b : bool) (g : game) : game :=
  Game (g_counter g) (g_pingTurn g) b (g_ping g) (g_ping_at g) (g_pong g) (g_pong_at g) (g_posted g).
Definition post (call : log_call) (g : game) : game :=
  Game (g_counter g) (g_pingTurn g) (g_running g) (g_ping g) (g_ping_at g) (g_pong g) (g_pong_at g) (g_posted g ++ [call]).

(** The stop condition of [main]. *)
Definition stopped (forever : bool) (g : game) : bool := negb forever && negb (g_running g).

Section game.
Context (forever : bool).

(** A step of core 0; [now] is the time the tick is told. *)
Definition ping_step (now : Z) (g : game) : option game :=
  let t := g_ping g in
  match g_ping_at g with
  | Looping => Some (if stopped forever g then g else set_ping t Loading g)
  | Loading =>
      if negb (g_pingTurn g) then Some (set_ping t Looping g)
      else if decide (u64 (now - m_lastPing t) < kPingIntervalUs)%Z then Some (set_ping t Looping g)
      else Some (set_ping (Ping (pi_builder t) now (m_pingCount t)) (Adding now) g)
  | Adding tick =>
      let count := u32 (g_counter g + 1) in
      Some (set_counter count (set_ping (Ping (pi_builder t) (m_lastPing t) (u32 (m_pingCount t + 1))) (Logging tick count) g))
  | Logging tick count =>
      '(b, str) ← compose [TStr (text "[Core 0] Ping #"); TU32 (m_pingCount t); TStr (text " -> counter = "); TU32 count] (pi_builder t);
      Some (post (CONTROL, str, STATUS, tick) (set_ping (Ping b (m_lastPing t) (m_pingCount t)) Releasing g))
  | Releasing =>
      let g := if decide (kMaxRounds <= m_pingCount t)%Z then set_running false g else set_pingTurn false g in
      Some (set_ping t Looping g)
  end.

(** A step of core 1. *)
Definition pong_step (now : Z) (g : game) : option game :=
  let t := g_pong g in
  match g_pong_at g with
  | Looping => Some (if stopped forever g then g else set_pong t Loading g)
  | Loading => Some (set_pong t (if g_pingTurn g then Looping else Adding now) g)
  | Adding tick =>
      let count := u32 (g_counter g + 1) in
      Some (set_counter count (set_pong (Pong (po_builder t) (u32 (m_pongCount t + 1))) (Logging tick count) g))
  | Logging tick count =>
      '(b, str) ← compose [TStr (text "[Core 1] Pong #"); TU32 (m_pongCount t); TStr (text " -> counter = "); TU32 count] (po_builder t);
      Some (post (COMMS, str, STATUS, tick) (set_pong (Pong b (m_pongCount t)) Releasing g))
  | Releasing => Some (set_pong t Looping (set_pingTurn true g))
  end.

Inductive core := Core0 | Core1.

Definition game_step (c : core) (now : Z) (g : game) : option game :=
  match c with Core0 => ping_step now g | Core1 => pong_step now g end.

(** A schedule: which core goes, and the time it is told if it reads the clock. *)
Fixpoint play (schedule : list (core * Z)) (g : game) : option game :=
  match schedule with
  | [] => Some g
  | (c, now) :: schedule => g ← game_step c now g; play schedule g
  end.
End game.

(** ** The transcript *)

(** Whose the [i]-th line is: they alternate for five rounds, and then the token stays. *)
Definition is_ping (i : nat) : bool := Nat.even i || (9 <=? i).

(** How many of the first [n] lines are pings, and how many are pongs. *)
Fixpoint pings (n : nat) : nat := match n with O => 0 | S n => (if is_ping n then 1 else 0) + pings n end.
Fixpoint pongs (n : nat) : nat := match n with O => 0 | S n => (if is_ping n then 0 else 1) + pongs n end.

(** The [i]-th line, at the time [t]. *)
Definition round (i : nat) (t : Z) : log_call :=
  if is_ping i then
    (CONTROL, text "[Core 0] Ping #" ++ digits (Z.of_nat (pings (S i))) ++ text " -> counter = " ++ digits (Z.of_nat (S i)), STATUS, t)
  else
    (COMMS, text "[Core 1] Pong #" ++ digits (Z.of_nat (pongs (S i))) ++ text " -> counter = " ++ digits (Z.of_nat (S i)), STATUS, t).

Lemma pings_le n : pings n <= n.
Proof. induction n as [|n IH]; [done|]. cbn [pings]. destruct (is_ping n); lia. Qed.

Lemma pongs_le n : pongs n <= n.
Proof. induction n as [|n IH]; [done|]. cbn [pongs]. destruct (is_ping n); lia. Qed.

Lemma is_ping_late n : 9 <= n -> is_ping n = true.
Proof. intros H. unfold is_ping. rewrite orb_true_iff, Nat.leb_le. by right. Qed.

(** The fifth ping is the ninth line. *)
Lemma pings_mono n m : n <= m -> pings n <= pings m.
Proof. induction 1 as [|m _ IH]; [done|]. cbn [pings]. destruct (is_ping m); lia. Qed.

Lemma pings_five n : is_ping (pred n) = true -> 0 < n -> (5 <= pings n <-> 9 <= n).
Proof.
  intros Hp Hn. destruct (decide (9 <= n)) as [H|H].
  - split; [done|]. intros _. by apply (pings_mono 9).
  - do 9 (destruct n as [|n]; [vm_compute in Hp; try done; vm_compute; lia|]). lia.
Qed.

Lemma turn_passes n : 0 < n -> n < 9 -> is_ping n = negb (is_ping (pred n)).
Proof. intros H0 H. do 9 (destruct n as [|n]; [done || lia|]). lia. Qed.

(** ** Mutual exclusion *)

(** A core outside of its turn. *)
Definition outside (t : turn) : bool := match t with Looping | Loading => true | _ => false end.

(** After [n] lines: whose the token is, by where the cores stand. *)
Definition holder (p q : turn) (token : bool) (n : nat) : Prop :=
  match p, q with
  | Adding _, _ | Logging _ _, _ => outside q = true /\ token = true /\ is_ping n = true
  | Releasing, _ => outside q = true /\ token = true /\ is_ping (pred n) = true /\ 0 < n
  | _, Adding _ | _, Logging _ _ => token = false /\ is_ping n = false
  | _, Releasing => token = false /\ is_ping (pred n) = false /\ 0 < n
  | _, _ => token = is_ping n
  end.

Lemma holder_ping p p' q token n : outside p = true -> outside p' = true -> holder p q token n -> holder p' q token n.
Proof. by destruct p, p', q. Qed.

Lemma holder_pong p q q' token n : outside q = true -> outside q' = true -> holder p q token n -> holder p q' token n.
Proof. by destruct p, q, q'. Qed.

(** The token with core 0, and with core 1. *)
Lemma holder_true p q n : outside p = true -> holder p q true n -> outside q = true /\ is_ping n = true.
Proof. destruct p, q; naive_solver. Qed.

Lemma holder_false p q n : outside q = true -> holder p q false n -> outside p = true /\ is_ping n = false.
Proof. destruct p, q; naive_solver. Qed.

(** An addition whose line is not out yet. *)
Definition added (t : turn) : nat := match t with Logging _ _ => 1 | _ => 0 end.

(** The game after the lines at [times]. *)
Record playing (forever : bool) (g : game) (times : list Z) : Prop := {
  pl_ping_builder : exists str, sb_rep (pi_builder (g_ping g)) str;
  pl_pong_builder : exists str, sb_rep (po_builder (g_pong g)) str;
  pl_holder : holder (g_ping_at g) (g_pong_at g) (g_pingTurn g) (length times);
  pl_counter : g_counter g = Z.of_nat (length times + added (g_ping_at g) + added (g_pong_at g));
  pl_pings : m_pingCount (g_ping g) = Z.of_nat (pings (length times) + added (g_ping_at g));
  pl_pongs : m_pongCount (g_pong g) = Z.of_nat (pongs (length times) + added (g_pong_at g));
  pl_count : (forall now c, g_ping_at g = Logging now c -> c = g_counter g) /\ (forall now c, g_pong_at g = Logging now c -> c = g_counter g);
  pl_running : g_running g = true <-> length times < 9 \/ (length times = 9 /\ g_ping_at g = Releasing);
  pl_posted : g_posted g = imap round times;
  pl_stop : forever = false -> length times < 9 \/ (length times = 9 /\ (g_ping_at g = Releasing \/ g_ping_at g = Looping));
}.

Lemma new_game_playing forever : playing forever new_game [].
Proof. split; try done; try (by exists []; apply Text.new_builder_rep); cbn; [split; [intros _; left; lia|done]|intros _; left; lia]. Qed.

Definition game_room (times : list Z) : Prop := (Z.of_nat (length times) + 1 < 2 ^ 32)%Z.

(** Where the cores stand has changed, but nothing they share. *)
Ltac stays := split; cbn; rewrite ?app_nil_r; try done; try lia; eauto.

#[local] Arguments text : simpl never.

Lemma ping_step_ok forever now g times :
  playing forever g times -> game_room times -> exists g' new, ping_step forever now g = Some g' /\
    playing forever g' (times ++ new) /\ length new <= 1.
Proof.
  intros [[str1 H1] H2 Hh Hc Hpi Hpo [Hk1 Hk2] Hr Hm Hs] Hroom. unfold ping_step, game_room in *.
  pose proof (pings_le (length times)) as Hpl. destruct (g_ping_at g) as [| |tick|tick count|] eqn:Ea; cbn [added] in *.
  - unfold stopped. exists (if negb forever && negb (g_running g) then g else set_ping (g_ping g) Loading g), []. split; [done|].
    rewrite app_nil_r. split; [|cbn; lia]. destruct (negb forever && negb (g_running g)) eqn:Estop.
    { split; rewrite ?Ea; try done. by exists str1. }
    split; cbn; try done; [by exists str1|naive_solver|].
    intros ->. cbn in Estop. apply negb_false_iff in Estop. apply Hr in Estop. naive_solver.
  - exists (if negb (g_pingTurn g) then set_ping (g_ping g) Looping g
      else if decide (u64 (now - m_lastPing (g_ping g)) < kPingIntervalUs)%Z then set_ping (g_ping g) Looping g
      else set_ping (Ping (pi_builder (g_ping g)) now (m_pingCount (g_ping g))) (Adding now) g), [].
    split; [by destruct (negb _); [|case_decide]|]. rewrite app_nil_r. split; [|cbn; lia].
    assert (Hloop : playing forever (set_ping (g_ping g) Looping g) times).
    { split; cbn; try done; [by exists str1|naive_solver|naive_solver]. }
    destruct (g_pingTurn g) eqn:Et; [|exact Hloop]. cbn [negb]. case_decide; [exact Hloop|].
    destruct (holder_true Loading _ _ eq_refl Hh) as [Hq Hp].
    split; cbn; rewrite ?Et; try done; [by exists str1|naive_solver|naive_solver].
  - destruct Hh as (Hq & Ht & Hp). assert (Eq0 : added (g_pong_at g) = 0) by (by destruct (g_pong_at g)). rewrite Eq0 in *.
    rewrite (wrap_id 32 (g_counter g + 1)) by (unfold in_word; lia). rewrite (wrap_id 32 (m_pingCount (g_ping g) + 1)) by (unfold in_word; lia).
    eexists _, []. split; [done|]. rewrite app_nil_r. split; [|cbn; lia].
    split; cbn; rewrite ?Eq0; try done; try lia; [by exists str1| |naive_solver|naive_solver].
    split; [naive_solver|]. intros t c E. by rewrite E in Hq.
  - destruct Hh as (Hq & Ht & Hp). assert (Eq0 : added (g_pong_at g) = 0) by (by destruct (g_pong_at g)). rewrite Eq0 in *.
    rewrite (Hk1 tick count eq_refl), Hc, Hpi.
    destruct (compose_pieces [Str (text "[Core 0] Ping #"); Num (Z.of_nat (pings (length times) + 1)); Str (text " -> counter = ");
      Num (Z.of_nat (length times + 1 + 0))] _ _ H1 eq_refl) as (b & Eb & Hb').
    cbn [piece_op fmap list_fmap] in Eb. rewrite !wrap_id in Eb by (unfold in_word; lia). rewrite Eb.
    unfold pieces_text in *. cbn [fmap list_fmap piece_text concat] in *. rewrite app_nil_r in *.
    rewrite !wrap_id in * by (unfold in_word; lia). cbn [mbind option_bind].
    eexists _, [tick]. split; [done|]. split; [|cbn; lia].
    split; cbn; rewrite ?length_app; cbn [length]; rewrite ?Nat.add_1_r; cbn [pings pongs pred]; rewrite ?Hp, ?Eq0; try done; try lia.
    + by eexists.
    + split_and!; [done..|lia].
    + rewrite Hr. split; [intros [?|[_ ?]]; [|done]|intros [?|[? _]]; left; lia]. destruct (decide (S (length times) = 9)); [by right|left; lia].
    + rewrite imap_app, Hm. cbn. unfold round. rewrite Nat.add_0_r, Hp. cbn [pings]. rewrite Hp.
      by replace (pings (length times) + 1) with (1 + pings (length times)) by lia; replace (length times + 1 + 0) with (S (length times)) by lia.
    + intros Hf. destruct (Hs Hf) as [?|[_ [?|?]]]; [|done..]. destruct (decide (S (length times) = 9)); [by right; auto|left; lia].
  - destruct Hh as (Hq & Ht & Hp & H0). rewrite Hpi, Nat.add_0_r in *. pose proof (pings_five _ Hp H0) as H5.
    eexists _, []. split; [done|]. rewrite app_nil_r. split; [|cbn; lia]. unfold kMaxRounds. case_decide as Hd.
    + assert (H9 : 9 <= length times) by (apply H5; lia). pose proof (is_ping_late _ H9) as Hl.
      split; cbn; [by exists str1|done| |lia|lia|lia|split; [done|exact Hk2]| |done|].
      * rewrite Ht, Hl. by destruct (g_pong_at g).
      * split; [done|]. intros [?|[_ ?]]; [lia|done].
      * intros Hf. destruct (Hs Hf) as [?|[? _]]; [lia|]. right. auto.
    + assert (H9 : length times < 9) by lia. pose proof (turn_passes _ H0 H9) as Hl. rewrite Hp in Hl.
      split; cbn; [by exists str1|done| |lia|lia|lia|split; [done|exact Hk2]| |done|by left].
      * rewrite Hl. by destruct (g_pong_at g).
      * rewrite Hr. split; intros [?|[]]; auto.
Qed.

Lemma pong_step_ok forever now g times :
  playing forever g times -> game_room times -> exists g' new, pong_step forever now g = Some g' /\
    playing forever g' (times ++ new) /\ length new <= 1.
Proof.
  intros [H1 [str2 H2] Hh Hc Hpi Hpo [Hk1 Hk2] Hr Hm Hs] Hroom. unfold pong_step, game_room in *.
  pose proof (pongs_le (length times)) as Hpl. destruct (g_pong_at g) as [| |tick|tick count|] eqn:Ea; cbn [added] in *.
  - unfold stopped. exists (if negb forever && negb (g_running g) then g else set_pong (g_pong g) Loading g), []. split; [done|].
    rewrite app_nil_r. split; [|cbn; lia]. destruct (negb forever && negb (g_running g)) eqn:Estop.
    { split; rewrite ?Ea; try done. by exists str2. }
    split; cbn; [done|by exists str2|by apply (holder_pong _ Looping)|lia|done|lia|split; [exact Hk1|done]|done|done|done].
  - exists (set_pong (g_pong g) (if g_pingTurn g then Looping else Adding now) g), []. split; [done|]. rewrite app_nil_r. split; [|cbn; lia].
    destruct (g_pingTurn g) eqn:Et.
    + split; cbn; rewrite ?Et; [done|by exists str2|by apply (holder_pong _ Loading)|lia|done|lia|split; [exact Hk1|done]|done|done|done].
    + destruct (holder_false _ Loading _ eq_refl Hh) as [Hq Hp].
      split; cbn; rewrite ?Et; [done|by exists str2| |lia|done|lia|split; [exact Hk1|done]|done|done|done]. by destruct (g_ping_at g).
  - assert (Hp : outside (g_ping_at g) = true /\ g_pingTurn g = false /\ is_ping (length times) = false)
      by (destruct (g_ping_at g); naive_solver). destruct Hp as (Hq & Ht & Hp).
    assert (Eq0 : added (g_ping_at g) = 0) by (by destruct (g_ping_at g)). rewrite Eq0 in *.
    rewrite (wrap_id 32 (g_counter g + 1)) by (unfold in_word; lia). rewrite (wrap_id 32 (m_pongCount (g_pong g) + 1)) by (unfold in_word; lia).
    eexists _, []. split; [done|]. rewrite app_nil_r. split; [|cbn; lia].
    split; cbn; rewrite ?Eq0; [done|by exists str2|by destruct (g_ping_at g)|lia|lia|lia| |done|done|done].
    split; [intros t c E; by rewrite E in Hq|]. intros t c [= <- <-]. lia.
  - assert (Hp : outside (g_ping_at g) = true /\ g_pingTurn g = false /\ is_ping (length times) = false)
      by (destruct (g_ping_at g); naive_solver). destruct Hp as (Hq & Ht & Hp).
    assert (Eq0 : added (g_ping_at g) = 0) by (by destruct (g_ping_at g)). rewrite Eq0 in *.
    rewrite (Hk2 tick count eq_refl), Hc, Hpo.
    destruct (compose_pieces [Str (text "[Core 1] Pong #"); Num (Z.of_nat (pongs (length times) + 1)); Str (text " -> counter = ");
      Num (Z.of_nat (length times + 0 + 1))] _ _ H2 eq_refl) as (b & Eb & Hb').
    cbn [piece_op fmap list_fmap] in Eb. rewrite !wrap_id in Eb by (unfold in_word; lia). rewrite Eb.
    unfold pieces_text in *. cbn [fmap list_fmap piece_text concat] in *. rewrite app_nil_r in *.
    rewrite !wrap_id in * by (unfold in_word; lia). cbn [mbind option_bind].
    assert (H9 : length times < 9) by (destruct (decide (9 <= length times)); [by rewrite is_ping_late in Hp|lia]).
    assert (H8 : length times < 8) by (destruct (decide (length times = 8)) as [E|]; [by rewrite E in Hp|lia]).
    eexists _, [tick]. split; [done|]. split; [|cbn; lia].
    split; cbn; rewrite ?length_app; cbn [length]; rewrite ?Nat.add_1_r; cbn [pings pongs pred]; rewrite ?Hp, ?Eq0;
      [done|by eexists| |lia|lia|lia| | | |].
    + destruct (g_ping_at g); try done; (split; [done|split; [done|lia]]).
    + split; [|done]. intros t c E. by rewrite E in Hq.
    + rewrite Hr. split; intros _; left; lia.
    + rewrite imap_app, Hm. cbn. unfold round. rewrite Nat.add_0_r, Hp. cbn [pongs]. rewrite Hp.
      by replace (pongs (length times) + 1) with (1 + pongs (length times)) by lia; replace (length times + 0 + 1) with (S (length times)) by lia.
    + intros _. left. lia.
  - assert (Hp : outside (g_ping_at g) = true /\ g_pingTurn g = false /\ is_ping (pred (length times)) = false /\ 0 < length times)
      by (destruct (g_ping_at g); naive_solver). destruct Hp as (Hq & Ht & Hp & H0).
    assert (H9 : length times < 9).
    { destruct (decide (length times < 9)); [done|]. destruct (decide (length times = 9)) as [E|]; [by rewrite E in Hp|].
      rewrite is_ping_late in Hp by lia. done. }
    pose proof (turn_passes _ H0 H9) as Hl. rewrite Hp in Hl.
    eexists _, []. split; [done|]. rewrite app_nil_r. split; [|cbn; lia].
    split; cbn; rewrite ?Hl; [done|by exists str2|by destruct (g_ping_at g)|lia|done|lia|split; [exact Hk1|done]|done|done|done].
Qed.

Lemma play_ok forever schedule g times :
  playing forever g times -> (Z.of_nat (length times + length schedule) < 2 ^ 32)%Z ->
  exists g' new, play forever schedule g = Some g' /\ playing forever g' (times ++ new).
Proof.
  revert g times. induction schedule as [|[c now] schedule IH]; intros g times Hp Hn; cbn [play].
  { exists g, []. by rewrite app_nil_r. }
  cbn [length] in Hn. assert (Hroom : game_room times) by (unfold game_room; lia).
  assert (Hstep : exists g' new, game_step forever c now g = Some g' /\ playing forever g' (times ++ new) /\ length new <= 1).
  { destruct c; [by apply ping_step_ok|by apply pong_step_ok]. }
  destruct Hstep as (g1 & new1 & -> & H1 & Hl). cbn [mbind option_bind].
  destruct (IH g1 (times ++ new1) H1) as (g' & new & E & H'); [rewrite length_app; lia|].
  exists g', (new1 ++ new). by rewrite app_assoc.
Qed.

(** C15 Ping and pong take turns, however the two cores interleave and whatever the clocks show:
    at most one of them is in its turn; nothing in the ticks is undefined; what is logged are
    the lines of the transcript in its order, ping and pong in turn up to the fifth ping, each
    with its number and the number of turns so far; no line comes twice or too early. Without
    --forever there are never more than nine. With it, the fifth ping keeps the token, and all
    lines after it are pings. *)
Theorem ping_pong (forever : bool) (schedule : list (core * Z)) :
  (Z.of_nat (length schedule) < 2 ^ 32)%Z ->
  exists g times, play forever schedule new_game = Some g /\
    g_posted g = imap round times /\ g_counter g = Z.of_nat (length times + added (g_ping_at g) + added (g_pong_at g)) /\
    (outside (g_ping_at g) = true \/ outside (g_pong_at g) = true) /\
    (g_running g = true <-> length times < 9 \/ (length times = 9 /\ g_ping_at g = Releasing)) /\
    (forever = false -> length times <= 9).
Proof.
  intros Hn. destruct (play_ok forever schedule new_game [] (new_game_playing forever) Hn) as (g & times & E & [_ _ Hh Hc _ _ _ Hr Hm Hs]).
  cbn [app] in *. exists g, times. split; [exact E|]. split; [exact Hm|]. split; [exact Hc|]. split; [|split; [exact Hr|]].
  - destruct (g_ping_at g); [by left|by left|right; apply Hh..].
  - intros Hf. destruct (Hs Hf) as [?|[? _]]; lia.
Qed.

(** Five turns of one core, five of the other. *)
Definition fair_turns (n : nat) : list (core * Z) :=
  (fun i => (if Nat.even (i / 5) then Core0 else Core1, 300000 + 60000 * Z.of_nat i)%Z) <$> seq 0 n.

Lemma ping_pong_witness :
  exists g times, play false (fair_turns 100) new_game = Some g /\ g_posted g = imap round times /\ length times <= 9.
Proof.
  destruct (ping_pong false (fair_turns 100)) as (g & times & E & Hm & _ & _ & _ & H9); [vm_compute; reflexivity|].
  exists g, times. split; [exact E|]. split; [exact Hm|apply (H9 eq_refl)].
Defined.

Definition game_texts (forever : bool) (n : nat) : option (list (list Z) * bool) :=
  g ← play forever (fair_turns n) new_game; Some ((fun c => c.1.1.2) <$> g_posted g, g_running g).

Definition nine_lines : list (list Z) :=
  [text "[Core 0] Ping #1 -> counter = 1"; text "[Core 1] Pong #1 -> counter = 2"; text "[Core 0] Ping #2 -> counter = 3";
   text "[Core 1] Pong #2 -> counter = 4"; text "[Core 0] Ping #3 -> counter = 5"; text "[Core 1] Pong #3 -> counter = 6";
   text "[Core 0] Ping #4 -> counter = 7"; text "[Core 1] Pong #4 -> counter = 8"; text "[Core 0] Ping #5 -> counter = 9"].

(** In turns, nine lines come out; with --forever more pings, and no pong. *)
Example fair_game :
  game_texts false 100 = Some (nine_lines, false) /\
  game_texts true 60 = Some (nine_lines ++ [text "[Core 0] Ping #6 -> counter = 10"], false).
Proof. split; vm_compute; reflexivity. Qed.

(** ** Whole ticks *)

(** [PingTask::tick] without the other core between its accesses, and what it logs. *)
Definition ping_tick (now : Z) (g : game) : option (game * list log_call) :=
  let t := g_ping g in
  if negb (g_pingTurn g) then Some (g, [])
  else if decide (u64 (now - m_lastPing t) < kPingIntervalUs)%Z then Some (g, [])
  else
    let count := u32 (g_counter g + 1) in
    let pingCount := u32 (m_pingCount t + 1) in
    '(b, str) ← compose [TStr (text "[Core 0] Ping #"); TU32 pingCount; TStr (text " -> counter = "); TU32 count] (pi_builder t);
    let call := (CONTROL, str, STATUS, now) in
    let g := post call (set_ping (Ping b now pingCount) (g_ping_at g) (set_counter count g)) in
    Some (if decide (kMaxRounds <= pingCount)%Z then set_running false g else set_pingTurn false g, [call]).

Definition pong_tick (now : Z) (g : game) : option (game * list log_call) :=
  let t := g_pong g in
  if g_pingTurn g then Some (g, [])
  else
    let count := u32 (g_counter g + 1) in
    let pongCount := u32 (m_pongCount t + 1) in
    '(b, str) ← compose [TStr (text "[Core 1] Pong #"); TU32 pongCount; TStr (text " -> counter = "); TU32 count] (po_builder t);
    let call := (COMMS, str, STATUS, now) in
    Some (set_pingTurn true (post call (set_pong (Pong b pongCount) (g_pong_at g) (set_counter count g))), [call]).

(** Between the ticks. *)
Definition at_rest (g : game) : Prop := g_ping_at g = Looping /\ g_pong_at g = Looping.

(** A whole tick is its steps in a row. *)
Lemma ping_tick_plays now g g' calls :
  at_rest g -> ping_tick now g = Some (g', calls) ->
  exists k, play true (replicate k (Core0, now)) g = Some g' /\ at_rest g' /\ g_posted g' = g_posted g ++ calls /\ Forall (fun c => c.1.2 = STATUS) calls.
Proof.
  destruct g as [n turn run [b last k] p q q' ps]. intros [Hp Hq]. cbn in Hp, Hq. subst p q'. unfold ping_tick. cbn. destruct turn; cbn.
  - case_decide as Hd; cbn.
    { intros [= <- <-]. exists 2. cbn. rewrite decide_True by done. cbn. by rewrite app_nil_r. }
    destruct (compose _ b) as [[b' str]|] eqn:Ec; cbn; [|done]. intros [= <- <-]. exists 5. cbn. rewrite decide_False by done. cbn.
    rewrite Ec. cbn. case_decide; (split; [done|]); (split; [done|]); by repeat constructor.
  - intros [= <- <-]. exists 2. cbn. by rewrite app_nil_r.
Qed.

Lemma pong_tick_plays now g g' calls :
  at_rest g -> pong_tick now g = Some (g', calls) ->
  exists k, play true (replicate k (Core1, now)) g = Some g' /\ at_rest g' /\ g_posted g' = g_posted g ++ calls /\ Forall (fun c => c.1.2 = STATUS) calls.
Proof.
  destruct g as [n turn run q p [b k] q' ps]. intros [Hp Hq]. cbn in Hp, Hq. subst p q'. unfold pong_tick. cbn. destruct turn; cbn.
  - intros [= <- <-]. exists 2. cbn. by rewrite app_nil_r.
  - destruct (compose _ b) as [[b' str]|] eqn:Ec; cbn; [|done]. intros [= <- <-]. exists 5. cbn.
    rewrite Ec. cbn. by repeat constructor.
Qed.

Lemma play_app forever s1 s2 g : play forever (s1 ++ s2) g = g ← play forever s1 g; play forever s2 g.
Proof. revert g. induction s1 as [|[c now] s1 IH]; intros g; cbn; [done|]. destruct (game_step forever c now g) as [g1|]; cbn; [apply IH|done]. Qed.

(** ** The lines, by their number *)

Lemma game_step_posts forever c now g g' : game_step forever c now g = Some g' -> exists l, g_posted g' = g_posted g ++ l.
Proof.
  destruct c; cbn [game_step]; unfold ping_step, pong_step; [destruct (g_ping_at g)|destruct (g_pong_at g)];
    try (destruct (compose _ _) as [[b str]|]; cbn; [|done]; intros [= <-]; by eexists);
    intros H; repeat case_match; simplify_eq; exists []; cbn; by rewrite app_nil_r.
Qed.

Lemma play_posts forever schedule g g' : play forever schedule g = Some g' -> exists l, g_posted g' = g_posted g ++ l.
Proof.
  revert g. induction schedule as [|[c now] schedule IH]; intros g; cbn [play]; [intros [= <-]; exists []; by rewrite app_nil_r|].
  destruct (game_step forever c now g) as [g1|] eqn:E; cbn [mbind option_bind]; [|done]. intros [l2 ->]%IH.
  apply game_step_posts in E as [l1 ->]. exists (l1 ++ l2). by rewrite app_assoc.
Qed.

(** No counter wraps before 2^32 lines. *)
Lemma play_by_lines forever schedule g g' times :
  playing forever g times -> play forever schedule g = Some g' -> (Z.of_nat (length (g_posted g')) + 1 < 2 ^ 32)%Z ->
  exists times', playing forever g' times'.
Proof.
  revert g times. induction schedule as [|[c now] schedule IH]; intros g times Hp; cbn [play]; [intros [= <-] _; by exists times|].
  destruct (game_step forever c now g) as [g1|] eqn:E; cbn [mbind option_bind]; [|done]. intros Hplay Hlen.
  assert (Hroom : game_room times).
  { destruct (play_posts _ _ _ _ Hplay) as [l2 E2]. destruct (game_step_posts _ _ _ _ _ E) as [l1 E1].
    rewrite E2, E1, (pl_posted _ _ _ Hp), !length_app, length_imap in Hlen. unfold game_room. lia. }
  assert (Hstep : exists g' new, game_step forever c now g = Some g' /\ playing forever g' (times ++ new) /\ length new <= 1).
  { destruct c; [by apply ping_step_ok|by apply pong_step_ok]. }
  destruct Hstep as (g1' & new & E1 & H1 & _). rewrite E in E1. injection E1 as <-. by eapply IH.
Qed.

(** ** The lines, by the ticks *)

(** The reference: the diary of the program, by the calls of the trace that concern it, in numbers
    without bounds: [n] lines so far, the last ping at the time [last]. *)
Fixpoint game_log (n : nat) (last : Z) (evs : list (option (nat * Z))) : diary :=
  match evs with
  | [] => []
  | None :: evs => None :: game_log n last evs
  | Some (tid, now) :: evs =>
      if decide (tid = 0) then
        if is_ping n && bool_decide (kPingIntervalUs <= u64 (now - last))%Z
        then Some [call_message (round n now)] :: game_log (S n) now evs else Some [] :: game_log n last evs
      else if is_ping n then Some [] :: game_log n last evs else Some [call_message (round n now)] :: game_log (S n) last evs
  end.

Lemma rest_token g times : at_rest g -> playing true g times -> g_pingTurn g = is_ping (length times).
Proof. intros [Hp Hq] Hpl. pose proof (pl_holder _ _ _ Hpl) as H. by rewrite Hp, Hq in H. Qed.

Lemma ping_tick_log now g g' calls times :
  at_rest g -> playing true g times -> game_room times -> ping_tick now g = Some (g', calls) ->
  if is_ping (length times) && bool_decide (kPingIntervalUs <= u64 (now - m_lastPing (g_ping g)))%Z
  then calls = [round (length times) now] /\ m_lastPing (g_ping g') = now else g' = g /\ calls = [].
Proof.
  intros Hrest Hpl Hroom. pose proof (rest_token g times Hrest Hpl) as Ht. destruct Hpl as [[str1 H1] _ _ Hc Hpi _ _ _ _ _], Hrest as [Hp Hq].
  unfold ping_tick, game_room in *. pose proof (pings_le (length times)) as Hpl. rewrite Ht. destruct (is_ping (length times)) eqn:Ei; cbn [negb andb]; [|by intros [= <- <-]].
  case_decide as Hd; [rewrite bool_decide_eq_false_2 by lia; by intros [= <- <-]|]. rewrite bool_decide_eq_true_2 by lia.
  rewrite Hp, Hq in *. cbn [added] in *. rewrite Hc, Hpi, !Nat.add_0_r, !wrap_id by (unfold in_word; lia).
  destruct (compose_pieces [Str (text "[Core 0] Ping #"); Num (Z.of_nat (pings (length times)) + 1); Str (text " -> counter = ");
    Num (Z.of_nat (length times) + 1)] _ _ H1 eq_refl) as (b & Eb & Hb').
  cbn [piece_op fmap list_fmap] in Eb. rewrite !wrap_id in Eb by (unfold in_word; lia). rewrite Eb.
  unfold pieces_text. cbn [fmap list_fmap piece_text concat mbind option_bind]. rewrite app_nil_r, !wrap_id by (unfold in_word; lia).
  intros [= <- <-]. split; [|by case_decide]. unfold round. cbn [pings]. rewrite Ei. by rewrite !Nat2Z.inj_succ.
Qed.

Lemma pong_tick_log now g g' calls times :
  at_rest g -> playing true g times -> game_room times -> pong_tick now g = Some (g', calls) ->
  m_lastPing (g_ping g') = m_lastPing (g_ping g) /\ if is_ping (length times) then g' = g /\ calls = [] else calls = [round (length times) now].
Proof.
  intros Hrest Hpl Hroom. pose proof (rest_token g times Hrest Hpl) as Ht. destruct Hpl as [_ [str2 H2] _ Hc _ Hpo _ _ _ _], Hrest as [Hp Hq].
  unfold pong_tick, game_room in *. pose proof (pongs_le (length times)) as Hpl. rewrite Ht. destruct (is_ping (length times)) eqn:Ei; [by intros [= <- <-]|].
  rewrite Hp, Hq in *. cbn [added] in *. rewrite Hc, Hpo, !Nat.add_0_r, !wrap_id by (unfold in_word; lia).
  destruct (compose_pieces [Str (text "[Core 1] Pong #"); Num (Z.of_nat (pongs (length times)) + 1); Str (text " -> counter = ");
    Num (Z.of_nat (length times) + 1)] _ _ H2 eq_refl) as (b & Eb & Hb').
  cbn [piece_op fmap list_fmap] in Eb. rewrite !wrap_id in Eb by (unfold in_word; lia). rewrite Eb.
  unfold pieces_text. cbn [fmap list_fmap piece_text concat mbind option_bind]. rewrite app_nil_r, !wrap_id by (unfold in_word; lia).
  intros [= <- <-]. split; [done|]. unfold round. cbn [pongs]. rewrite Ei. by rewrite !Nat2Z.inj_succ.
Qed.

(** ** [main] *)

Definition pingpong_calls (forever : bool) : list registration :=
  example_calls true forever [0] [AddScheduled 0 (Some 0); AddScheduled 1 (Some 1)].

Definition pingpong_main (startAccept : Z -> bool) : list (list Z) -> option (Z + list registration) := example_main startAccept pingpong_calls.

Definition ct := 10.
Definition cm := 11.
Definition dg := 12.
Definition pingpong_diags : BackgroundDiagnosticsTask :=
  setMonitoredTasks [ct; 0; cm; 1] (setTelemetryDrain true (make_diags PingPongConfig example_deps)).

(** ** In the kernel *)

Definition ping_task : UserTask game := {|
  ut_id := 0; ut_desc := scheduled_desc kPingIntervalUs;
  ut_init g := set_ping (ping_init (g_ping g)) (g_ping_at g) g;
  ut_tick now n g := '(g, calls) ← ping_tick now g; Some (n, g, calls);
|}.

Definition pong_task : UserTask game := {|
  ut_id := 1; ut_desc := scheduled_desc 10000;
  ut_init g := set_pong (pong_init (g_pong g)) (g_pong_at g) g;
  ut_tick now n g := '(g, calls) ← pong_tick now g; Some (n, g, calls);
|}.

Definition pingpong_tasks : list (UserTask game) := [ping_task; pong_task].

(** The stop condition reads the flag that the fifth ping clears. *)
Definition with_stop (base : Env (World (Bench game))) : Env (World (Bench game)) := {|
  kCoreCount := kCoreCount base; kQueueCapacity := kQueueCapacity base;
  kControlBudgetUs := kControlBudgetUs base; kMaxBackgroundTasks := kMaxBackgroundTasks base;
  kCrunchMaxOverruns := kCrunchMaxOverruns base; kMinSchedulePeriodUs := kMinSchedulePeriodUs base;
  kMetricsWindowUs := kMetricsWindowUs base; env_desc := env_desc base; env_init := env_init base;
  env_tick := env_tick base; env_onOverrun := env_onOverrun base; env_crunch := env_crunch base;
  env_onCrunchAbort := env_onCrunchAbort base;
  env_stopCondition _ h := (negb (g_running (state_of h)), h);
  env_watchdogKick := env_watchdogKick base; env_peers := env_peers base; env_clock := env_clock base; env_inv := env_inv base;
|}.

Section program.
Context (base : Env (World (Bench game))) (long_bits : Z) (snap : PerformanceSnapshot).

Definition pingpong_env : Env (World (Bench game)) :=
  example_env PingPongConfig (with_stop base) pingpong_tasks long_bits example_deps snap ct cm dg.

Definition pingpong_start (forever : bool) : option (BuildResult * System (World (Bench game))) :=
  example_start PingPongConfig (with_stop base) pingpong_tasks long_bits snap ct cm dg new_game pingpong_diags (pingpong_calls forever).

Lemma pingpong_ready forever r s :
  pingpong_start forever = Some (r, s) -> ready PingPongConfig (with_stop base) new_game pingpong_diags true r s /\ inits_distinct 2 s.
Proof.
  destruct forever; vm_compute pingpong_start; intros [= <- <-]; (split; [split_and!; reflexivity|]); apply (bool_decide_unpack _); vm_compute; exact I.
Qed.

Lemma pingpong_cases t : t ∈ pingpong_tasks -> t = ping_task \/ t = pong_task.
Proof. intros [->| ->%list_elem_of_singleton]%elem_of_cons; auto. Qed.

Lemma pingpong_sound : user_sound pingpong_tasks.
Proof.
  intros t [->| ->]%pingpong_cases now n g n' g' calls; cbn; unfold ping_tick, pong_tick; repeat case_match; try (by intros [= <- <- <-]);
    destruct (compose _ _) as [[b str]|] eqn:Ec; cbn [mbind option_bind]; try done; intros [= <- <- <-]; (split; [lia|]);
    (constructor; [|done]); by eapply compose_no_nul.
Qed.

Definition writable (g : game) : Prop :=
  (exists str, sb_rep (pi_builder (g_ping g)) str) /\ (exists str, sb_rep (po_builder (g_pong g)) str).

Lemma pingpong_total : user_total pingpong_tasks writable.
Proof.
  intros t [->| ->]%pingpong_cases now n g [[str1 H1] [str2 H2]]; cbn; unfold ping_tick, pong_tick.
  - destruct (negb (g_pingTurn g)); [by eexists _, _, _; split; [|split; eexists]|]. case_decide; [by eexists _, _, _; split; [|split; eexists]|].
    destruct (compose_pieces [Str (text "[Core 0] Ping #"); Num (m_pingCount (g_ping g) + 1); Str (text " -> counter = "); Num (g_counter g + 1)] _ _ H1 eq_refl)
      as (b & Eb & Hb'). cbn [piece_op fmap list_fmap] in Eb. rewrite Eb. cbn. eexists _, _, _. split; [done|]. case_decide; (split; [by eexists|by exists str2]).
  - destruct (g_pingTurn g); [by eexists _, _, _; split; [|split; eexists]|].
    destruct (compose_pieces [Str (text "[Core 1] Pong #"); Num (m_pongCount (g_pong g) + 1); Str (text " -> counter = "); Num (g_counter g + 1)] _ _ H2 eq_refl)
      as (b & Eb & Hb'). cbn [piece_op fmap list_fmap] in Eb. rewrite Eb. cbn. eexists _, _, _. split; [done|]. split; [by exists str1|by eexists].
Qed.

Lemma pingpong_separate : separate pingpong_tasks.
Proof.
  intros t t' now n g n' g' calls [->| ->]%pingpong_cases [->| ->]%pingpong_cases; cbn; try done; intros _; destruct g as [c turn run [b last k] p [b' k'] q ps];
    unfold ping_tick, pong_tick; cbn; destruct turn; cbn; try (by intros [= <- <- <-]); try (case_decide; [by intros [= <- <- <-]|]);
    destruct (compose _ _) as [[b1 str]|]; cbn; try done; [case_decide| ]; intros [= <- <- <-]; cbn; intros E; injection E; intros; subst; try done.
Qed.

(** The program's runs are plays of the game: after a whole number of ticks the tasks are where
    [schedule] leads. *)
Definition replayed (g : game) (ms : list message) : Prop :=
  at_rest g /\ ms = call_message <$> g_posted g /\ Forall (fun m => msg_level m = STATUS) ms /\
  exists schedule, play true schedule new_game = Some g.

Lemma tick_replayed t now n g n' g' calls ms :
  t ∈ pingpong_tasks -> ut_tick t now n g = Some (n', g', calls) -> replayed g ms -> replayed g' (ms ++ (call_message <$> calls)).
Proof.
  intros Ht E (Hr & -> & Hl & schedule & Hs).
  assert (H : exists core k, play true (replicate k (core, now)) g = Some g' /\ at_rest g' /\ g_posted g' = g_posted g ++ calls /\ Forall (fun c => c.1.2 = STATUS) calls).
  { destruct (pingpong_cases t Ht) as [->| ->]; cbn in E.
    - destruct (ping_tick now g) as [[g1 cs]|] eqn:Eg; cbn in E; [|done]. injection E as <- <- <-. exists Core0. by apply ping_tick_plays.
    - destruct (pong_tick now g) as [[g1 cs]|] eqn:Eg; cbn in E; [|done]. injection E as <- <- <-. exists Core1. by apply pong_tick_plays. }
  destruct H as (core & k & Hp & Hr' & Ep & Hcs). split; [done|]. split; [by rewrite Ep, fmap_app|].
  split; [apply Forall_app_2; [done|]; apply Forall_fmap; eapply Forall_impl; [exact Hcs|]; by intros [[[]]]|].
  exists (schedule ++ replicate k (core, now)). by rewrite play_app, Hs.
Qed.

(** The program writes the diary of the reference, before 2^32 lines. *)
Lemma pingpong_run_log evs n g n' g' d times :
  tick_run pingpong_tasks evs n g n' g' d -> at_rest g -> playing true g times -> (Z.of_nat (length times + length (posted_in d)) + 1 < 2 ^ 32)%Z ->
  d = game_log (length times) (m_lastPing (g_ping g)) evs.
Proof.
  intros Hr. revert times. induction Hr as [n n' g Hn|evs n n' g g' d Hr IH|tid t now evs n n1 n2 n' g g1 g' calls d Ht H1 H2 E Hr IH]; intros times Hrest Hpl Hlen;
    cbn [game_log]; [done|by rewrite (IH times)|].
  change (posted_in (Some (call_message <$> calls) :: d)) with ((call_message <$> calls) ++ posted_in d) in Hlen. rewrite length_app, length_fmap in Hlen.
  assert (Hnext : forall core k, play true (replicate k (core, now)) g = Some g1 -> at_rest g1 -> g_posted g1 = g_posted g ++ calls ->
    d = game_log (length times + length calls) (m_lastPing (g_ping g1)) evs).
  { intros core k Hplay Hrest1 Ep. destruct (play_by_lines true _ g g1 times Hpl Hplay) as [times1 Hpl1].
    { rewrite Ep, length_app, (pl_posted _ _ _ Hpl), length_imap. lia. }
    assert (El : length times1 = length times + length calls).
    { apply (f_equal length) in Ep. by rewrite length_app, (pl_posted _ _ _ Hpl), (pl_posted _ _ _ Hpl1), !length_imap in Ep. }
    rewrite <- El. apply IH; [done|done|lia]. }
  assert (Hroom : game_room times) by (unfold game_room; lia). apply task_at_in in Ht as [Hin <-]. destruct (pingpong_cases t Hin) as [->| ->]; cbn in E.
  - destruct (ping_tick now g) as [[g2 cs]|] eqn:Eg; cbn in E; [|done]. injection E as <- -> ->.
    destruct (ping_tick_plays now g g1 calls Hrest Eg) as (k & Hplay & Hrest1 & Ep & _). pose proof (ping_tick_log now g g1 calls times Hrest Hpl Hroom Eg) as Hlog.
    rewrite decide_True by done. specialize (Hnext Core0 k Hplay Hrest1 Ep). destruct (_ && _).
    + destruct Hlog as [-> El]. rewrite El in Hnext. cbn [length] in Hnext. rewrite Nat.add_1_r in Hnext. by rewrite Hnext.
    + destruct Hlog as [-> ->]. cbn [length] in Hnext. rewrite Nat.add_0_r in Hnext. by rewrite Hnext.
  - destruct (pong_tick now g) as [[g2 cs]|] eqn:Eg; cbn in E; [|done]. injection E as <- -> ->.
    destruct (pong_tick_plays now g g1 calls Hrest Eg) as (k & Hplay & Hrest1 & Ep & _).
    destruct (pong_tick_log now g g1 calls times Hrest Hpl Hroom Eg) as [El Hlog].
    rewrite decide_False by done. specialize (Hnext Core1 k Hplay Hrest1 Ep). rewrite El in Hnext. destruct (is_ping _).
    + destruct Hlog as [-> ->]. cbn [length] in Hnext. rewrite Nat.add_0_r in Hnext. by rewrite Hnext.
    + rewrite Hlog in *. cbn [length] in Hnext. rewrite Nat.add_1_r in Hnext. by rewrite Hnext.
Qed.

End program.

(** A clock that shows 3 milliseconds more with each reading. *)
Definition match_base : Env (World (Bench game)) := quiet_base game PingPongConfig 3000 0.


(** The texts of what was logged, and stdout. *)
Definition match_outcome (schedule : list nat) :=
  '(_, s) ← pingpong_start match_base 32 session_snap false;
  m ← multi_run (pingpong_env match_base 32 session_snap) schedule (multi_start (pingpong_env match_base 32 session_snap) s);
  let h := sy_shared (mu_system m) in
  Some (sy_kernelState (mu_system m), (fun c => c.1.1.2) <$> g_posted (state_of h), stdout_of h).

Definition eight_printed : list (list Z) :=
  [text "[339][ControlTask] [Core 0] Ping #1 -> counter = 1"; text "[357][CommsTask] [Core 1] Pong #1 -> counter = 2";
   text "[675][ControlTask] [Core 0] Ping #2 -> counter = 3"; text "[693][CommsTask] [Core 1] Pong #2 -> counter = 4";
   text "[1011][ControlTask] [Core 0] Ping #3 -> counter = 5"; text "[1029][CommsTask] [Core 1] Pong #3 -> counter = 6";
   text "[1347][ControlTask] [Core 0] Ping #4 -> counter = 7"; text "[1365][CommsTask] [Core 1] Pong #4 -> counter = 8"].

(** When each core in turn tests the state, asks the stop condition and ticks, the fifth ping
    stops both cores, and with them the diagnostics task: nothing drains the telemetry any
    more, and the last of the nine lines does not reach stdout. *)
Example last_line_lost :
  match_outcome (mjoin (replicate 800 [0; 0; 0; 1; 1; 1])) = Some (SHUTDOWN, nine_lines, (fun line => line ++ [chr_newline]) <$> eight_printed).
Proof. vm_compute. reflexivity. Qed.

(** When the other core has already asked the stop condition, its tick still comes, and prints it. *)
Example last_line_printed :
  match_outcome (in_turn 2400) = Some (SHUTDOWN, nine_lines,
    (fun line => line ++ [chr_newline]) <$> (eight_printed ++ [text "[1683][ControlTask] [Core 0] Ping #5 -> counter = 9"])).
Proof. vm_compute. reflexivity. Qed.
