(* ===== verification/Lifecycle.v ===== *)
(** * The lifecycle example ([exampleProjects/lifecycle/])

    A worker on one core, and on the other a monitor that reports the kernel's state. Each task
    limits its own rate. First the tasks by themselves, called in any order, and the worker also
    suspended and resumed; then the program, on both cores. *)

From stdpp Require Import sorting.
From Stdlib Require String.
From S2P Require Import Prelude Protocol Queue Metrics ErrorLog Decimal Text Telemetry Kernel Sched Crunch Run Builder Diagnostics Tasks Cli Comms Pipeline Config Device KernelTasks Session Effects Multicore ExampleApp ExampleCores.
Import String.StringSyntax.

(** ** The program *)

Definition LifecycleConfig : UserConfig :=
  UserCfg true true 8 2 16 (Some 4%Z) (Some 0%Z) None None None None None None None None None None None None None None None None.

(** [WorkerTask.h] *)
Definition kWorkerPeriodUs : Z := 200000.

Record WorkerTask := Worker {
  wk_builder : LightweightStringBuilder;
  m_iterCount : Z;
  wk_lastTick : Z;
}.

Definition worker_init (t : WorkerTask) : WorkerTask := Worker (wk_builder t) 0 0.

Definition worker_tick (now : Z) (t : WorkerTask) : option (WorkerTask * list log_call) :=
  if decide (u64 (now - wk_lastTick t) < kWorkerPeriodUs)%Z then Some (t, [])
  else
    let iterCount := u32 (m_iterCount t + 1) in
    '(b, str) ← compose [TStr (text "[Core 0] Worker tick #"); TU32 iterCount] (wk_builder t);
    Some (Worker b iterCount now, [(CONTROL, str, STATUS, now)]).

Definition worker_onSuspend (t : WorkerTask) : option (WorkerTask * list log_call) :=
  '(b, str) ← compose [TStr (text "[Core 0] Worker SUSPENDED at tick #"); TU32 (m_iterCount t)] (wk_builder t);
  Some (Worker b (m_iterCount t) (wk_lastTick t), [(CONTROL, str, STATUS, 0%Z)]).

Definition worker_onResume (t : WorkerTask) : option (WorkerTask * list log_call) :=
  '(b, str) ← compose [TStr (text "[Core 0] Worker RESUMED at tick #"); TU32 (m_iterCount t)] (wk_builder t);
  Some (Worker b (m_iterCount t) (wk_lastTick t), [(CONTROL, str, STATUS, 0%Z)]).

(** [MonitorTask.h] *)
Definition kMonitorPeriodUs : Z := 500000.

Record MonitorTask := Monitor {
  mo_builder : LightweightStringBuilder;
  mo_reportCount : Z;
  mo_lastTick : Z;
}.

Definition monitor_init (t : MonitorTask) : MonitorTask := Monitor (mo_builder t) 0 0.

Definition stateName (state : KernelState) : list Z :=
  match state with
  | UNCONFIGURED => text "UNCONFIGURED"
  | CONFIGURED => text "CONFIGURED"
  | INITIALIZING => text "INITIALIZING"
  | RUNNING => text "RUNNING"
  | SUSPENDING => text "SUSPENDING"
  | SUSPENDED => text "SUSPENDED"
  | ABORTING => text "ABORTING"
  | ABORTED => text "ABORTED"
  | SHUTTING_DOWN => text "SHUTTING_DOWN"
  | SHUTDOWN => text "SHUTDOWN"
  end.

(** [state] is what [System::kernelState()] answers. *)
Definition monitor_tick (state : KernelState) (now : Z) (t : MonitorTask) : option (MonitorTask * list log_call) :=
  if decide (u64 (now - mo_lastTick t) < kMonitorPeriodUs)%Z then Some (t, [])
  else
    let reportCount := u32 (mo_reportCount t + 1) in
    '(b, str) ← compose [TStr (text "[Core 1] State report #"); TU32 reportCount; TStr (text ": "); TStr (stateName state)] (mo_builder t);
    Some (Monitor b reportCount now, [(COMMS, str, STATUS, now)]).

(** Both cores; [l_posted] is what has been logged. *)
Record Lifecycle := MkLifecycle {
  workerTask : WorkerTask;
  monitorTask : MonitorTask;
  l_posted : list log_call;
}.

Definition new_lifecycle : Lifecycle := MkLifecycle (Worker Text.new_builder 0 0) (Monitor Text.new_builder 0 0) [].

Inductive task_call := WorkerTick (now : Z) | WorkerSuspend | WorkerResume | MonitorTick (now : Z) (state : KernelState).

Definition task_step (c : task_call) (x : Lifecycle) : option Lifecycle :=
  match c with
  | WorkerTick now => '(t, calls) ← worker_tick now (workerTask x); Some (MkLifecycle t (monitorTask x) (l_posted x ++ calls))
  | WorkerSuspend => '(t, calls) ← worker_onSuspend (workerTask x); Some (MkLifecycle t (monitorTask x) (l_posted x ++ calls))
  | WorkerResume => '(t, calls) ← worker_onResume (workerTask x); Some (MkLifecycle t (monitorTask x) (l_posted x ++ calls))
  | MonitorTick now state => '(t, calls) ← monitor_tick state now (monitorTask x); Some (MkLifecycle (workerTask x) t (l_posted x ++ calls))
  end.

Fixpoint task_run (cs : list task_call) (x : Lifecycle) : option Lifecycle :=
  match cs with
  | [] => Some x
  | c :: cs => x ← task_step c x; task_run cs x
  end.

(** ** The lines *)

(** The worker's line for its tick after [k] others, and the monitor's report after [r] others. *)
Definition worker_line (k : nat) (now : Z) : log_call :=
  (CONTROL, text "[Core 0] Worker tick #" ++ digits (u32 (Z.of_nat (S k))), STATUS, now).

Definition report_line (r : nat) (state : KernelState) (now : Z) : log_call :=
  (COMMS, text "[Core 1] State report #" ++ digits (u32 (Z.of_nat (S r))) ++ text ": " ++ stateName state, STATUS, now).

(** What is logged, in numbers without bounds: [k] ticks and [r] reports so far, the last ones
    at the times [w] and [m]. *)
Fixpoint lines (k : nat) (w : Z) (r : nat) (m : Z) (cs : list task_call) : list log_call :=
  match cs with
  | [] => []
  | WorkerTick now :: cs =>
      if decide (now < w + kWorkerPeriodUs)%Z then lines k w r m cs else worker_line k now :: lines (S k) now r m cs
  | WorkerSuspend :: cs =>
      (CONTROL, text "[Core 0] Worker SUSPENDED at tick #" ++ digits (u32 (Z.of_nat k)), STATUS, 0%Z) :: lines k w r m cs
  | WorkerResume :: cs =>
      (CONTROL, text "[Core 0] Worker RESUMED at tick #" ++ digits (u32 (Z.of_nat k)), STATUS, 0%Z) :: lines k w r m cs
  | MonitorTick now state :: cs =>
      if decide (now < m + kMonitorPeriodUs)%Z then lines k w r m cs else report_line r state now :: lines k w (S r) now cs
  end.

Definition task_time (c : task_call) : option Z :=
  match c with WorkerTick now | MonitorTick now _ => Some now | WorkerSuspend | WorkerResume => None end.

(** The tasks after [k] ticks and [r] reports. *)
Record lived (x : Lifecycle) (k : nat) (w : Z) (r : nat) (m : Z) : Prop := {
  lf_worker_builder : exists str, sb_rep (wk_builder (workerTask x)) str;
  lf_monitor_builder : exists str, sb_rep (mo_builder (monitorTask x)) str;
  lf_worker : m_iterCount (workerTask x) = u32 (Z.of_nat k) /\ wk_lastTick (workerTask x) = w;
  lf_monitor : mo_reportCount (monitorTask x) = u32 (Z.of_nat r) /\ mo_lastTick (monitorTask x) = m;
}.

Lemma new_lived : lived new_lifecycle 0 0 0 0.
Proof. split; try done; exists []; apply Text.new_builder_rep. Qed.

Lemma stateName_inj s1 s2 : stateName s1 = stateName s2 -> s1 = s2.
Proof. by destruct s1, s2. Qed.

#[local] Arguments text : simpl never.

(** One tick of a task. *)
Lemma worker_lives now x k w r m posted :
  lived x k w r m -> (0 <= w <= now)%Z -> in_word 64 now ->
  exists t calls, worker_tick now (workerTask x) = Some (t, calls) /\
    if decide (now < w + kWorkerPeriodUs)%Z then calls = [] /\ lived (MkLifecycle t (monitorTask x) posted) k w r m
    else calls = [worker_line k now] /\ lived (MkLifecycle t (monitorTask x) posted) (S k) now r m.
Proof.
  intros [[str1 H1] [str2 H2] [Hk Hw] [Hr Hm]] Ht Hnow. unfold worker_tick. subst w. rewrite elapsed_exact by done. unfold kWorkerPeriodUs in *. destruct (decide (now < wk_lastTick (workerTask x) + 200000)%Z) as [Hd|Hd].
  - rewrite decide_True by lia. eexists _, _. split; [done|]. split; [done|]. split; cbn; eauto.
  - rewrite decide_False by lia. rewrite Hk, u32_succ. replace (Z.of_nat k + 1)%Z with (Z.of_nat (S k)) by lia.
    composes [Str (text "[Core 0] Worker tick #"); Num (Z.of_nat (S k))] H1 b Hb'. eexists _, _. split; [done|]. split; [done|]. split; cbn; eauto.
Qed.

Lemma monitor_lives state now x k w r m posted :
  lived x k w r m -> (0 <= m <= now)%Z -> in_word 64 now ->
  exists t calls, monitor_tick state now (monitorTask x) = Some (t, calls) /\
    if decide (now < m + kMonitorPeriodUs)%Z then calls = [] /\ lived (MkLifecycle (workerTask x) t posted) k w r m
    else calls = [report_line r state now] /\ lived (MkLifecycle (workerTask x) t posted) k w (S r) now.
Proof.
  intros [[str1 H1] [str2 H2] [Hk Hw] [Hr Hm]] Ht Hnow. unfold monitor_tick. subst m. rewrite elapsed_exact by done. unfold kMonitorPeriodUs in *. destruct (decide (now < mo_lastTick (monitorTask x) + 500000)%Z) as [Hd|Hd].
  - rewrite decide_True by lia. eexists _, _. split; [done|]. split; [done|]. split; cbn; eauto.
  - rewrite decide_False by lia. rewrite Hr, u32_succ. replace (Z.of_nat r + 1)%Z with (Z.of_nat (S r)) by lia.
    destruct (compose_pieces [Str (text "[Core 1] State report #"); Num (Z.of_nat (S r)); Str (text ": "); Str (stateName state)] _ _ H2)
      as (b & Eb & Hb'); [by destruct state|]. cbn [piece_op fmap list_fmap] in Eb. rewrite Eb. unfold pieces_text in *.
    cbn [fmap list_fmap piece_text concat mbind option_bind] in *. rewrite app_nil_r in *. eexists _, _. split; [done|]. split; [done|]. split; cbn; eauto.
Qed.

Lemma task_run_lives cs x k w r m T :
  lived x k w r m -> (0 <= w <= T)%Z -> (0 <= m <= T)%Z -> StronglySorted Z.le (T :: omap task_time cs) -> Forall (in_word 64) (omap task_time cs) ->
  exists x', task_run cs x = Some x' /\ l_posted x' = l_posted x ++ lines k w r m cs.
Proof.
  revert x k w r m T. induction cs as [|c cs IH]; intros x k w r m T Hl HwT HmT Hs Ht; cbn [task_run lines].
  { exists x. by rewrite app_nil_r. }
  assert (Hcons : forall x1 line ls, l_posted x1 = l_posted x ++ [line] -> (exists x', task_run cs x1 = Some x' /\ l_posted x' = l_posted x1 ++ ls) ->
    exists x', task_run cs x1 = Some x' /\ l_posted x' = l_posted x ++ line :: ls).
  { intros x1 line ls E (x' & E1 & E2). exists x'. split; [done|]. by rewrite E2, E, <- app_assoc. }
  destruct c as [now| | |now state]; cbn [omap list_omap task_time] in Hs, Ht; cbn [task_step].
  - inversion Hs as [|? ? Hs' Hle]; subst. inversion Ht as [|? ? Hnow Ht']; subst. inversion Hle as [|? ? HT _]; subst.
    destruct (worker_lives now x k w r m (l_posted x ++ []) Hl) as (t & calls & E & H); [lia|done|]. rewrite E. cbn [mbind option_bind]. case_decide.
    + destruct H as [-> Hl']. rewrite app_nil_r in *. eapply (IH (MkLifecycle _ _ _) _ _ _ _ now); [exact Hl'|lia|lia|done|done].
    + destruct (worker_lives now x k w r m (l_posted x ++ calls) Hl) as (t' & calls' & E' & H'); [lia|done|]. rewrite E in E'. injection E' as <- <-.
      rewrite decide_False in H' by done. destruct H as [-> _], H' as [_ Hl']. eapply Hcons; [done|]. eapply (IH _ _ _ _ _ now); [exact Hl'|lia|lia|done|done].
  - destruct Hl as [[str1 H1] [str2 H2] [Hk Hw] [Hr Hm]]. unfold worker_onSuspend. rewrite Hk.
    composes [Str (text "[Core 0] Worker SUSPENDED at tick #"); Num (Z.of_nat k)] H1 b Hb'.
    eapply Hcons; [done|]. eapply IH; [|done|done|done|done]. split; cbn; eauto.
  - destruct Hl as [[str1 H1] [str2 H2] [Hk Hw] [Hr Hm]]. unfold worker_onResume. rewrite Hk.
    composes [Str (text "[Core 0] Worker RESUMED at tick #"); Num (Z.of_nat k)] H1 b Hb'.
    eapply Hcons; [done|]. eapply IH; [|done|done|done|done]. split; cbn; eauto.
  - inversion Hs as [|? ? Hs' Hle]; subst. inversion Ht as [|? ? Hnow Ht']; subst. inversion Hle as [|? ? HT _]; subst.
    destruct (monitor_lives state now x k w r m (l_posted x ++ []) Hl) as (t & calls & E & H); [lia|done|]. rewrite E. cbn [mbind option_bind]. case_decide.
    + destruct H as [-> Hl']. rewrite app_nil_r in *. eapply (IH (MkLifecycle _ _ _) _ _ _ _ now); [exact Hl'|lia|lia|done|done].
    + destruct (monitor_lives state now x k w r m (l_posted x ++ calls) Hl) as (t' & calls' & E' & H'); [lia|done|]. rewrite E in E'. injection E' as <- <-.
      rewrite decide_False in H' by done. destruct H as [-> _], H' as [_ Hl']. eapply Hcons; [done|]. eapply (IH _ _ _ _ _ now); [exact Hl'|lia|lia|done|done].
Qed.

(** The two tasks, called in any order at times that do not go back, and the worker suspended
    and resumed at any moment: what they log is what a reference without counters of 32 bits
    and wrapping time logs: a worker line at most every 200 milliseconds and a report of the
    kernel's state at most every 500, each as soon as its task is called after its period, both
    numbered from 1, and a line for each suspension and resumption with the number of ticks. *)
Theorem lifecycle_lines (cs : list task_call) :
  StronglySorted Z.le (0%Z :: omap task_time cs) -> Forall (in_word 64) (omap task_time cs) ->
  exists x, task_run cs new_lifecycle = Some x /\ l_posted x = lines 0 0 0 0 cs.
Proof. intros Hs Ht. apply (task_run_lives cs new_lifecycle 0 0 0 0 0 new_lived); [done|done|exact Hs|exact Ht]. Qed.

Definition sample_calls : list task_call :=
  [WorkerTick 150000; MonitorTick 400000 RUNNING; WorkerTick 410000; MonitorTick 520000 RUNNING; WorkerSuspend; WorkerResume;
   WorkerTick 530000; WorkerTick 610000].

Lemma lifecycle_lines_witness :
  exists x, task_run sample_calls new_lifecycle = Some x /\ l_posted x =
    [(CONTROL, text "[Core 0] Worker tick #1", STATUS, 410000%Z); (COMMS, text "[Core 1] State report #1: RUNNING", STATUS, 520000%Z);
     (CONTROL, text "[Core 0] Worker SUSPENDED at tick #1", STATUS, 0%Z); (CONTROL, text "[Core 0] Worker RESUMED at tick #1", STATUS, 0%Z);
     (CONTROL, text "[Core 0] Worker tick #2", STATUS, 610000%Z)].
Proof.
  destruct (lifecycle_lines sample_calls) as (x & E & Hx).
  - change (StronglySorted Z.le [0; 150000; 400000; 410000; 520000; 530000; 610000]%Z). repeat constructor; lia.
  - change (Forall (in_word 64) [150000; 400000; 410000; 520000; 530000; 610000]%Z). repeat constructor; unfold in_word; lia.
  - exists x. split; [exact E|]. rewrite Hx. vm_compute. reflexivity.
Defined.

(** ** [main] *)

(** The time limit, unless told to go on forever, and the flag that nothing clears. *)
Definition lifecycle_calls (forever : bool) : list registration :=
  example_calls true forever [0] [AddStop (Some 1); AddScheduled 0 (Some 0); AddScheduled 1 (Some 1)].

Definition lifecycle_main (startAccept : Z -> bool) : list (list Z) -> option (Z + list registration) := example_main startAccept lifecycle_calls.

Definition ct := 10.
Definition cm := 11.
Definition dg := 12.
Definition lifecycle_diags : BackgroundDiagnosticsTask :=
  setMonitoredTasks [ct; 0; cm; 1] (setTelemetryDrain true (make_diags LifecycleConfig example_deps)).

(** ** In the kernel *)

Definition worker_task : UserTask Lifecycle := {|
  ut_id := 0; ut_desc := scheduled_desc kWorkerPeriodUs;
  ut_init x := MkLifecycle (worker_init (workerTask x)) (monitorTask x) (l_posted x);
  ut_tick now n x := '(t, calls) ← worker_tick now (workerTask x); Some (n, MkLifecycle t (monitorTask x) (l_posted x ++ calls), calls);
|}.

(** [state] is that of the kernel. *)
Definition monitor_task (state : KernelState) : UserTask Lifecycle := {|
  ut_id := 1; ut_desc := scheduled_desc kMonitorPeriodUs;
  ut_init x := MkLifecycle (workerTask x) (monitor_init (monitorTask x)) (l_posted x);
  ut_tick now n x := '(t, calls) ← monitor_tick state now (monitorTask x); Some (n, MkLifecycle (workerTask x) t (l_posted x ++ calls), calls);
|}.

Definition lifecycle_tasks (state : KernelState) : list (UserTask Lifecycle) := [worker_task; monitor_task state].

Lemma lifecycle_cases state t : t ∈ lifecycle_tasks state -> t = worker_task \/ t = monitor_task state.
Proof. intros [->| ->%list_elem_of_singleton]%elem_of_cons; auto. Qed.

Lemma lifecycle_sound state : user_sound (lifecycle_tasks state).
Proof.
  intros t [->| ->]%lifecycle_cases now n x n' x' calls; cbn; unfold worker_tick, monitor_tick; (case_decide; [by intros [= <- <- <-]|]);
    destruct (compose _ _) as [[b str]|] eqn:Ec; cbn [mbind option_bind]; try done; intros [= <- <- <-]; (split; [lia|]);
    (constructor; [|done]); by eapply compose_no_nul.
Qed.

Definition writable (x : Lifecycle) : Prop :=
  (exists str, sb_rep (wk_builder (workerTask x)) str) /\ (exists str, sb_rep (mo_builder (monitorTask x)) str).

Lemma worker_tick_total now x : writable x -> exists t calls, worker_tick now (workerTask x) = Some (t, calls) /\ exists str, sb_rep (wk_builder t) str.
Proof.
  intros [[str Hb] _]. unfold worker_tick. case_decide; [by eexists _, _; split; [|exists str]|].
  composes [Str (text "[Core 0] Worker tick #"); Num (m_iterCount (workerTask x) + 1)] Hb b Hb'. by eexists _, _; split; [|eexists].
Qed.

Lemma monitor_tick_total state now x : writable x -> exists t calls, monitor_tick state now (monitorTask x) = Some (t, calls) /\ exists str, sb_rep (mo_builder t) str.
Proof.
  intros [_ [str Hb]]. unfold monitor_tick. case_decide; [by eexists _, _; split; [|exists str]|].
  destruct (compose_pieces [Str (text "[Core 1] State report #"); Num (mo_reportCount (monitorTask x) + 1); Str (text ": "); Str (stateName state)] _ _ Hb)
    as (b & Eb & Hb'); [by destruct state|]. cbn [piece_op fmap list_fmap] in Eb. rewrite Eb. by eexists _, _; split; [|eexists].
Qed.

Lemma lifecycle_total state : user_total (lifecycle_tasks state) writable.
Proof.
  intros t [->| ->]%lifecycle_cases now n x Hx; cbn.
  - destruct (worker_tick_total now x Hx) as (t & calls & -> & Ht). cbn. eexists _, _, _. split; [done|]. split; [done|apply Hx].
  - destruct (monitor_tick_total state now x Hx) as (t & calls & -> & Ht). cbn. eexists _, _, _. split; [done|]. split; [apply Hx|done].
Qed.

Lemma lifecycle_separate state : separate (lifecycle_tasks state).
Proof.
  intros t t' now n x n' x' calls [->| ->]%lifecycle_cases [->| ->]%lifecycle_cases; cbn; try done; intros _.
  - destruct (worker_tick now (workerTask x)) as [[t cs]|]; cbn [mbind option_bind]; [|done]. intros [= _ <- _] E. destruct x as [w m ps]. cbn in *. by injection E as ->.
  - destruct (monitor_tick _ now (monitorTask x)) as [[t cs]|]; cbn [mbind option_bind]; [|done]. intros [= _ <- _] E. destruct x as [w m ps]. cbn in *. by injection E as ->.
Qed.

(** The reference: the diary of the program, by the calls that concern it, each with the state of
    the kernel: [k] ticks and [r] reports so far, the last ones at the times [w] and [m]. *)
Fixpoint life_log (k : nat) (w : Z) (r : nat) (m : Z) (evs : list (KernelState * option (nat * Z))) : diary :=
  match evs with
  | [] => []
  | (_, None) :: evs => None :: life_log k w r m evs
  | (state, Some (tid, now)) :: evs =>
      if decide (tid = 0) then
        if decide (now < w + kWorkerPeriodUs)%Z then Some [] :: life_log k w r m evs
        else Some [call_message (worker_line k now)] :: life_log (S k) now r m evs
      else
        if decide (now < m + kMonitorPeriodUs)%Z then Some [] :: life_log k w r m evs
        else Some [call_message (report_line r state now)] :: life_log k w (S r) now evs
  end.

Lemma life_run_log evs n x n' x' d k w r m T :
  watched lifecycle_tasks evs n x n' x' d -> lived x k w r m -> (0 <= w <= T)%Z -> (0 <= m <= T)%Z ->
  StronglySorted Z.le (T :: tick_times evs.*2) -> Forall (in_word 64) (tick_times evs.*2) -> d = life_log k w r m evs.
Proof.
  intros Hr. revert k w r m T. induction Hr as [n n' x Hn|state evs n n' x x' d Hr IH|state u t now evs n n1 n2 n' x x1 x' calls d Hu H1 H2 E Hr IH];
    intros k w r m T Hl HwT HmT Hs Ht; cbn [life_log]; [done|f_equal; by eapply IH|].
  change (tick_times ((state, Some (u, now)) :: evs).*2) with (now :: tick_times evs.*2) in Hs, Ht. inversion Hs as [|? ? Hs' Hle]; subst. inversion Ht as [|? ? Hnow Ht']; subst. inversion Hle as [|? ? HT _]; subst.
  apply task_at_in in Hu as [[->| ->]%lifecycle_cases <-]; cbn [ut_id worker_task monitor_task ut_tick] in *.
  - rewrite decide_True by done. destruct (worker_lives now x k w r m (l_posted x ++ calls) Hl) as (t' & calls' & E' & H); [lia|done|].
    rewrite E' in E. cbn [mbind option_bind] in E. injection E as -> <- ->. case_decide; destruct H as [-> Hl']; f_equal; eapply (IH _ _ _ _ now); (exact Hl' || done || lia).
  - rewrite decide_False by done. destruct (monitor_lives state now x k w r m (l_posted x ++ calls) Hl) as (t' & calls' & E' & H); [lia|done|].
    rewrite E' in E. cbn [mbind option_bind] in E. injection E as -> <- ->. case_decide; destruct H as [-> Hl']; f_equal; eapply (IH _ _ _ _ now); (exact Hl' || done || lia).
Qed.

Section program.
Context (base : Env (World (Bench Lifecycle))) (long_bits : Z) (snap : PerformanceSnapshot).

(** The environment while the kernel is in that state. *)
Definition lifecycle_env (state : KernelState) : Env (World (Bench Lifecycle)) :=
  env_at LifecycleConfig base lifecycle_tasks long_bits snap ct cm dg state.

(** Nothing asks for the state before [System::run]. *)
Definition lifecycle_start (forever : bool) : option (BuildResult * System (World (Bench Lifecycle))) :=
  example_start LifecycleConfig base (lifecycle_tasks UNCONFIGURED) long_bits snap ct cm dg new_lifecycle lifecycle_diags (lifecycle_calls forever).

Definition lifecycle_run : list nat -> multi -> option multi := watch_run LifecycleConfig base lifecycle_tasks long_bits snap ct cm dg.

Definition lifecycle_moments : list nat -> multi -> list (KernelState * option (nat * Z)) :=
  moments LifecycleConfig base lifecycle_tasks long_bits snap ct cm dg.

Lemma lifecycle_ready forever r s :
  lifecycle_start forever = Some (r, s) -> ready LifecycleConfig base new_lifecycle lifecycle_diags true r s /\ inits_distinct 2 s.
Proof.
  destruct forever; vm_compute lifecycle_start; intros [= <- <-]; (split; [split_and!; reflexivity|]); apply (bool_decide_unpack _); vm_compute; exact I.
Qed.

End program.

(** The cores take turns, and the clock shows 3 milliseconds more with each reading, and at the end of
    the time limit the program stops. *)
Definition life_base : Env (World (Bench Lifecycle)) := quiet_base Lifecycle LifecycleConfig 3000 1200000.


(** After 1.2 seconds both cores have stopped. *)
Example lifecycle_stops :
  ('(_, s) ← lifecycle_start life_base 32 session_snap false;
   m ← lifecycle_run life_base 32 session_snap (in_turn 1200) (multi_start (lifecycle_env life_base 32 session_snap UNCONFIGURED) s);
   Some (stateName (sy_kernelState (mu_system m)), stdout_of (sy_shared (mu_system m)))) =
  Some (text "SHUTDOWN", (fun line => line ++ [chr_newline]) <$>
    [text "[213][ControlTask] [Core 0] Worker tick #1"; text "[423][ControlTask] [Core 0] Worker tick #2";
     text "[525][CommsTask] [Core 1] State report #1: RUNNING"; text "[633][ControlTask] [Core 0] Worker tick #3";
     text "[843][ControlTask] [Core 0] Worker tick #4"; text "[1029][CommsTask] [Core 1] State report #2: RUNNING";
     text "[1053][ControlTask] [Core 0] Worker tick #5"]).
Proof. vm_compute. reflexivity. Qed.

(** The second core's turn has begun when the first one shuts the kernel down: the monitor reports
    what it finds. *)
Example late_report :
  let base := quiet_base Lifecycle LifecycleConfig 3000 600000 in
  ('(_, s) ← lifecycle_start base 32 session_snap false;
   m ← lifecycle_run base 32 session_snap (in_turn 32 ++ replicate 800 0 ++ replicate 800 1)
     (multi_start (lifecycle_env base 32 session_snap UNCONFIGURED) s);
   Some (stateName (sy_kernelState (mu_system m)), stdout_of (sy_shared (mu_system m)))) =
  Some (text "SHUTDOWN", (fun line => line ++ [chr_newline]) <$>
    [text "[213][ControlTask] [Core 0] Worker tick #1"; text "[429][ControlTask] [Core 0] Worker tick #2";
     text "[609][CommsTask] [Core 1] State report #1: SHUTDOWN"]).
Proof. vm_compute. reflexivity. Qed.
