(* ===== verification/CrunchLoop.v ===== *)
(** * The crunch example ([exampleProjects/crunchloop/])

    An application on one core publishes a servo's target, a crunch task on the other takes the
    latest one in each iteration and publishes its progress, through two double buffers. A step
    is one call of the application or of the task; how the words of a buffer are copied is in
    DoubleBuffer. First the calls in any order, and then the program, on both cores. *)

From Stdlib Require String.
From S2P Require Import Prelude Float32 Protocol Queue Metrics ErrorLog Decimal Text Telemetry Kernel Sched Crunch Run Builder Safety Diagnostics Tasks Cli Comms Pipeline DoubleBuffer Config Device KernelTasks Session Effects Multicore AllCores CoreEffects ExampleApp ExampleCores.
Import String.StringSyntax.

(** ** The program *)

Definition CrunchLoopConfig : UserConfig :=
  UserCfg true true 8 2 16 (Some 4%Z) (Some 0%Z) None None None None None None None None None None None None None None None (Some 10%Z).

(** [CrunchLoopApp.h] *)
Record TargetState := Target {
  angle : float;
  seqNum : Z;
}.

Record CrunchLoopApp := App {
  m_angle : float;
  m_seq : Z;
}.

(** [SimulatedServoTask.h] *)
Record EncoderState := Encoder {
  iterationCount : Z;
  lastTimestamp : Z;
}.

Record SimulatedServoTask := Servo {
  m_iterationCount : Z;
  m_aborted : bool;
}.

(** What the program holds; [consumed] are the targets the task has read, its only use of them. *)
Record CrunchLoop := MkCrunchLoop {
  the_app : CrunchLoopApp;
  the_servo : SimulatedServoTask;
  targetBuf : AtomicDoubleBuffer TargetState;
  stateBuf : AtomicDoubleBuffer EncoderState;
  consumed : list TargetState;
}.

Definition new_crunchloop : CrunchLoop :=
  MkCrunchLoop (App f_zero 0) (Servo 0 false) (new_buffer (Target f_zero 0)) (new_buffer (Encoder 0 0)) [].

Definition advance (angle : float) : float :=
  let angle := f_add angle f_half in
  if f_gt angle (f_of_Z 180) then f_zero else angle.

Definition app_publish (x : CrunchLoop) : option CrunchLoop :=
  let seq := u32 (m_seq (the_app x) + 1) in
  let angle := advance (m_angle (the_app x)) in
  buf ← buffer_write (Target angle seq) (targetBuf x);
  Some (MkCrunchLoop (App angle seq) (the_servo x) buf (stateBuf x) (consumed x)).

Definition servo_crunch (now : Z) (x : CrunchLoop) : option CrunchLoop :=
  target ← buffer_read (targetBuf x);
  let count := u32 (m_iterationCount (the_servo x) + 1) in
  buf ← buffer_write (Encoder count now) (stateBuf x);
  Some (MkCrunchLoop (the_app x) (Servo count (m_aborted (the_servo x))) (targetBuf x) buf (consumed x ++ [target])).

Definition servo_onCrunchAbort (x : CrunchLoop) : CrunchLoop :=
  MkCrunchLoop (the_app x) (Servo (m_iterationCount (the_servo x)) true) (targetBuf x) (stateBuf x) (consumed x).

(** The calls of the two cores, in any order. *)
Inductive crunch_call := AppTick | ServoCrunch (now : Z) | ServoAbort.

Definition call_step (c : crunch_call) (x : CrunchLoop) : option CrunchLoop :=
  match c with
  | AppTick => app_publish x
  | ServoCrunch now => servo_crunch now x
  | ServoAbort => Some (servo_onCrunchAbort x)
  end.

Fixpoint call_run (cs : list crunch_call) (x : CrunchLoop) : option CrunchLoop :=
  match cs with
  | [] => Some x
  | c :: cs => x ← call_step c x; call_run cs x
  end.

(** ** The targets *)

(** Half a degree more with each, from 0 to 180 degrees, and back to 0. *)
Definition half_degrees (k : nat) : float := f_div (f_of_Z (Z.of_nat k)) (f_of_Z 2).
Definition nth_target (n : nat) : TargetState := Target (half_degrees (n mod 361)) (u32 (Z.of_nat n)).

Lemma half_degrees_table : Forall (fun k => advance (half_degrees k) = half_degrees (S k mod 361)) (seq 0 361).
Proof. repeat (constructor; [vm_compute; reflexivity|]). constructor. Qed.

Lemma next_target n : advance (angle (nth_target n)) = angle (nth_target (S n)).
Proof.
  pose proof (Nat.mod_upper_bound n 361 ltac:(lia)) as Hn. pose proof half_degrees_table as Ht. rewrite Forall_forall in Ht.
  specialize (Ht (n mod 361)). cbn [angle nth_target]. rewrite Ht by (apply elem_of_seq; lia). f_equal.
  rewrite <- (Nat.add_1_r (n mod 361)), Nat.Div0.add_mod_idemp_l. f_equal. lia.
Qed.

(** What each iteration finds: the target of the last tick before it. *)
Fixpoint found (n : nat) (cs : list crunch_call) : list TargetState :=
  match cs with
  | [] => []
  | AppTick :: cs => found (S n) cs
  | ServoCrunch _ :: cs => nth_target n :: found n cs
  | ServoAbort :: cs => found n cs
  end.

#[export] Instance crunch_call_eq_dec : EqDecision crunch_call.
Proof. solve_decision. Defined.

Definition ticks (cs : list crunch_call) : nat := length (filter (fun c => c = AppTick) cs).
Definition crunches (cs : list crunch_call) : list Z := omap (fun c => match c with ServoCrunch now => Some now | _ => None end) cs.

(** After [n] ticks, and iterations at the times [times]. *)
Record looping (x : CrunchLoop) (n : nat) (times : list Z) (targets : list TargetState) : Prop := {
  lo_app : the_app x = App (angle (nth_target n)) (u32 (Z.of_nat n));
  lo_target : latest (targetBuf x) (nth_target n);
  lo_count : m_iterationCount (the_servo x) = u32 (Z.of_nat (length times));
  lo_state : latest (stateBuf x) (default (Encoder 0 0) (Encoder (u32 (Z.of_nat (length times))) <$> last times));
  lo_consumed : consumed x = targets;
}.

Lemma new_looping : looping new_crunchloop 0 [] [].
Proof. split; try done; apply new_buffer_latest. Qed.

Lemma call_run_ok cs x n times targets :
  looping x n times targets -> exists x', call_run cs x = Some x' /\
    looping x' (n + ticks cs) (times ++ crunches cs) (targets ++ found n cs) /\
    m_aborted (the_servo x') = m_aborted (the_servo x) || bool_decide (ServoAbort ∈ cs).
Proof.
  revert x n times targets. induction cs as [|c cs IH]; intros x n times targets Hx; cbn [call_run].
  { exists x. unfold ticks, crunches. cbn. rewrite Nat.add_0_r, !app_nil_r, orb_false_r. done. }
  pose proof Hx as [Ha Ht Hc Hs Ho]. destruct c as [|now|]; cbn [call_step].
  - unfold app_publish. rewrite Ha. cbn [m_angle m_seq]. rewrite u32_succ, next_target.
    replace (Z.of_nat n + 1)%Z with (Z.of_nat (S n)) by lia.
    destruct (buffer_write_latest (targetBuf x) _ (nth_target (S n)) Ht) as (b & Eb & Hb). unfold nth_target in Eb at 1. cbn [angle nth_target].
    rewrite Eb. cbn [mbind option_bind]. destruct (IH (MkCrunchLoop (App (half_degrees (S n mod 361)) (u32 (Z.of_nat (S n)))) (the_servo x) b
      (stateBuf x) (consumed x)) (S n) times targets) as (x' & E & H' & Hab); [by split|]. exists x'. split; [exact E|].
    assert (Et : ticks (AppTick :: cs) = S (ticks cs)) by done. rewrite Et, Nat.add_succ_r. split; [exact H'|]. rewrite Hab. cbn [the_servo].
    f_equal. apply bool_decide_ext. set_solver.
  - unfold servo_crunch. rewrite (la_read _ _ Ht). cbn [mbind option_bind]. rewrite Hc, u32_succ.
    replace (Z.of_nat (length times) + 1)%Z with (Z.of_nat (length (times ++ [now]))) by (rewrite length_app; simpl; lia).
    destruct (buffer_write_latest (stateBuf x) _ (Encoder (u32 (Z.of_nat (length (times ++ [now])))) now) Hs) as (b & -> & Hb).
    cbn [mbind option_bind]. destruct (IH (MkCrunchLoop (the_app x) (Servo (u32 (Z.of_nat (length (times ++ [now])))) (m_aborted (the_servo x)))
      (targetBuf x) b (consumed x ++ [nth_target n])) n (times ++ [now]) (targets ++ [nth_target n])) as (x' & E & H' & Hab).
    { split; cbn; try done; [by rewrite last_snoc|by rewrite Ho]. }
    exists x'. split; [exact E|]. rewrite <- !app_assoc in H'. split; [exact H'|]. rewrite Hab. cbn [the_servo m_aborted].
    f_equal. apply bool_decide_ext. set_solver.
  - destruct (IH (servo_onCrunchAbort x) n times targets) as (x' & E & H' & Hab); [by split|]. exists x'. split; [exact E|]. split; [exact H'|].
    rewrite Hab. cbn [the_servo m_aborted servo_onCrunchAbort]. rewrite orb_true_l. symmetry. apply orb_true_iff. right. apply bool_decide_eq_true. set_solver.
Qed.

(** The crunch loop, for every order of the two cores' calls: nothing is undefined; the [n]-th
    tick publishes the [n]-th target, half a degree more than the one before and exactly so,
    from 0 to 180 and back to 0; each iteration consumes the target of the last tick before
    it, and publishes its number and its time; at the end the buffers hold the last target and
    the last encoder state, and the task is aborted iff it was told so. *)
Theorem crunch_loop_targets (cs : list crunch_call) :
  exists x, call_run cs new_crunchloop = Some x /\ consumed x = found 0 cs /\
    buffer_read (targetBuf x) = Some (nth_target (ticks cs)) /\
    buffer_read (stateBuf x) = Some (default (Encoder 0 0) (Encoder (u32 (Z.of_nat (length (crunches cs)))) <$> last (crunches cs))) /\
    seqNum (nth_target (ticks cs)) = m_seq (the_app x) /\ m_aborted (the_servo x) = bool_decide (ServoAbort ∈ cs).
Proof.
  destruct (call_run_ok cs new_crunchloop 0 [] [] new_looping) as (x & E & [Ha Ht Hc Hs Ho] & Hab). exists x. split; [exact E|].
  split; [exact Ho|]. split; [apply (la_read _ _ Ht)|]. split; [apply (la_read _ _ Hs)|]. by rewrite Ha, Hab.
Qed.

(** ** [main] *)

Definition crunchloop_calls (forever : bool) : list registration := example_calls true forever [0] [SetCrunch 1 (Some 0)].

(** The only flag is --forever; there is no socket. *)
Fixpoint parse_forever (args : list (list Z)) (forever : bool) : bool :=
  match args with
  | [] => forever
  | arg :: rest => if decide (arg = text "--forever") then parse_forever rest true else parse_forever rest forever
  end.

Lemma parse_forever_ok args : parse_forever args false = true <-> text "--forever" ∈ args.
Proof.
  assert (H : forall args forever, parse_forever args forever = true <-> forever = true \/ text "--forever" ∈ args); [|by rewrite H; split; [intros [?|?]|auto]].
  clear args. induction args as [|arg args IH]; intros forever; cbn [parse_forever]; [split; [auto|by intros [?|?%not_elem_of_nil]]|].
  case_decide as Ha; rewrite IH, elem_of_cons; [subst; intuition|]. split; [intuition|]. intros [?|[?|?]]; [auto|by subst|auto].
Qed.

Definition crunchloop_main (args : list (list Z)) : list registration := crunchloop_calls (parse_forever args false).

(** [crunchPeriodUs] and [maxIterationUs]: an iteration may take longer than its period. *)
Definition servo_desc : TaskDesc := crunch_desc 163 200.

Definition ct := 10.
Definition cm := 11.
Definition dg := 12.
Definition crunchloop_diags : BackgroundDiagnosticsTask :=
  setMonitoredTasks [ct; cm] (setTelemetryDrain true (make_diags CrunchLoopConfig example_deps)).

(** ** In the kernel *)

(** [None] is the program after a step that is undefined. *)
Abbreviation World := (World (Bench (option CrunchLoop))).
Abbreviation Shared := (Shared World).

Definition on_program (f : CrunchLoop -> option CrunchLoop) (h : Shared) : Shared :=
  set_world (on_bench (set_state (state_of h ≫= f)) (sh_world h)) h.

(** The application; the commands are only noted. *)
#[local] Instance crunch_application : UserApplication World := {|
  app_init h := h;
  app_tick _ := on_program app_publish;
  app_handleCommand := @app_handleCommand _ Session.noting;
  app_forceSafeAbort h := h;
|}.

(** Task 0 is the crunch task. *)
Definition with_servo (env : Env World) : Env World := {|
  kCoreCount := kCoreCount env; kQueueCapacity := kQueueCapacity env;
  kControlBudgetUs := kControlBudgetUs env; kMaxBackgroundTasks := kMaxBackgroundTasks env;
  kCrunchMaxOverruns := kCrunchMaxOverruns env; kMinSchedulePeriodUs := kMinSchedulePeriodUs env;
  kMetricsWindowUs := kMetricsWindowUs env;
  env_desc tid := if decide (tid = 0) then servo_desc else env_desc env tid;
  env_init tid := if decide (tid = 0) then fun h => h else env_init env tid;
  env_tick tid := if decide (tid = 0) then fun _ h => h else env_tick env tid;
  env_onOverrun tid := if decide (tid = 0) then fun _ _ h => h else env_onOverrun env tid;
  env_crunch tid := if decide (tid = 0) then fun now => on_program (servo_crunch now) else env_crunch env tid;
  env_onCrunchAbort tid := if decide (tid = 0) then on_program (fun x => Some (servo_onCrunchAbort x)) else env_onCrunchAbort env tid;
  env_stopCondition := env_stopCondition env; env_watchdogKick := env_watchdogKick env;
  env_peers := env_peers env; env_clock := env_clock env; env_inv := env_inv env;
|}.

Lemma on_program_notes f : notes [] (on_program f).
Proof. split; intros h; cbn; rewrite ?app_nil_r; done. Qed.

Lemma crunch_application_ok : @session_application _ crunch_application.
Proof. split; intros; try apply on_program_notes; [|apply (@sa_command _ _ Session.noting_ok)|]; split; intros h; cbn; rewrite ?app_nil_r; done. Qed.

Section program.
Context (base : Env World) (long_bits : Z) (snap : PerformanceSnapshot).

Definition crunchloop_app : Env World := with_diags (with_servo base) dg.

Definition crunchloop_env : Env World :=
  configured_env CrunchLoopConfig (session_app CrunchLoopConfig crunchloop_app long_bits (fun _ _ => true) example_deps snap ct cm).

Definition crunchloop_start (forever : bool) : option (BuildResult * System World) :=
  let env := crunchloop_env in
  s ← register_all env (crunchloop_calls forever)
        (boot env (boot_shared env (example_boot CrunchLoopConfig example_deps snap (Some new_crunchloop) crunchloop_diags)));
  build env ct cm dg (the_builder example_deps) s.

Lemma crunchloop_ready forever r s :
  crunchloop_start forever = Some (r, s) -> ready CrunchLoopConfig base (Some new_crunchloop) crunchloop_diags true r s.
Proof. destruct forever; vm_compute crunchloop_start; intros [= <- <-]; split_and!; reflexivity. Qed.

Hypothesis Hsur : surroundings CrunchLoopConfig base.
Hypothesis Hsnap : snapshot_ok snap.

Lemma with_servo_ok : env_ok (with_servo (configured_env CrunchLoopConfig base)).
Proof.
  destruct Hsur as [[E1 E2 Et E3 E4 E5 E6 E7 E8] Hinv _ _].
  assert (Hp : forall f, callback_ok (configured_env CrunchLoopConfig base) (on_program f)).
  { intros f. apply (notes_callback_ok (configured_env CrunchLoopConfig base) (CfgMaxLineLen CrunchLoopConfig) kCliMaxPayload Hinv), on_program_notes. }
  assert (Hid : callback_ok (configured_env CrunchLoopConfig base) (fun h => h)) by (by split).
  assert (Hsame : forall f, callback_ok (configured_env CrunchLoopConfig base) f -> callback_ok (with_servo (configured_env CrunchLoopConfig base)) f).
  { intros f. by apply callback_ok_same. }
  split; intros; try apply Hsame;
    cbn [with_servo env_init env_tick env_onOverrun env_crunch env_onCrunchAbort env_stopCondition env_peers]; try case_decide; done || auto.
Qed.

Lemma crunchloop_env_ok : env_ok crunchloop_env.
Proof.
  pose proof Hsur as [Hbase Hinv Hkick _]. apply session_env_ok; try done; [vm_compute; lia| |apply crunch_application_ok].
  apply (with_diags_ok (with_servo (configured_env CrunchLoopConfig base)) dg).
  - apply with_servo_ok.
  - split; try (intros l w; intros; cbn in *; rewrite Hinv in *); try by apply (on_bench_inv CrunchLoopConfig).
    + cbn. destruct (be_held (w_app w)); [done|by apply (on_bench_inv CrunchLoopConfig)].
    + apply (callback_ok_same (configured_env CrunchLoopConfig base)); try reflexivity. apply (eo_kick _ Hbase).
    + intros h. apply Hkick.
Qed.

(** ** The calls of the program *)

(** The program's steps behind the calls of the trace: the control task ticks the application. *)
Definition loop_call (c : call) : option crunch_call :=
  match c with
  | CallTick _ _ tid _ | CallBackground tid _ => if decide (tid = ct) then Some AppTick else None
  | CallCrunch _ 0 now _ => Some (ServoCrunch now)
  | CallCrunchAbort 0 => Some ServoAbort
  | CallCrunch _ _ _ _ | CallCrunchAbort _ | CallInit _ | CallOverrun _ => None
  end.

Definition loop_calls (calls : list call) : list crunch_call := omap loop_call calls.

(** The program after the steps [cs]. *)
Record played (cs : list crunch_call) (h : Shared) : Prop := {
  py_shared : shared_ok crunchloop_env h;
  py_drains : drains h;
  py_waits : exists ms, waits h ms;
  py_state : state_of h = call_run cs new_crunchloop;
}.

Lemma call_run_snoc cs c x : call_run (cs ++ [c]) x = x ← call_run cs x; call_step c x.
Proof. revert x. induction cs as [|c' cs IH]; intros x; cbn; [by destruct (call_step c x)|]. destruct (call_step c' x) as [x1|]; cbn; [apply IH|done]. Qed.

(** What does not touch the telemetry; what a callback keeps is known of every callback. *)
Definition plays (cs cs' : list crunch_call) (h h' : Shared) : Prop :=
  played cs h -> drains h' /\ (exists ms, waits h' ms) /\ state_of h' = call_run (cs ++ cs') new_crunchloop.

Lemma on_program_plays c cs h : plays cs [c] h (on_program (call_step c) h).
Proof. intros [_ Hd Hw Hs]. split; [exact Hd|]. split; [exact Hw|]. rewrite call_run_snoc, <- Hs. done. Qed.

Lemma bystander_plays cs h h' : bystander h h' -> plays cs [] h h'.
Proof.
  intros [Hw Htl] [_ Hd Hwt Hs]. unfold drains, waits, state_of in *. rewrite app_nil_r, Hw, Htl. done.
Qed.

Lemma control_plays cs now h :
  plays cs [AppTick] h (control_callback (configured_env CrunchLoopConfig crunchloop_app) (fun _ _ => true) (commands_per_tick CrunchLoopConfig) (make_control example_deps) now h).
Proof.
  intros Hp. unfold control_callback, control_tick.
  rewrite (evaluateSafety_ok (fun _ _ => true)) by (apply Nat.leb_le; reflexivity). change (all_monitors_safe _ _ _) with true. cbn [mbind option_bind negb].
  unfold processCommands. change (sc_commandQueue _ && sc_app _) with true. cbn iota.
  assert (Hok : shared_ok (configured_env CrunchLoopConfig crunchloop_app) h) by (destruct (py_shared _ _ Hp); by split).
  destruct (drain_commands_keeps (configured_env CrunchLoopConfig crunchloop_app)) with (n := commands_per_tick CrunchLoopConfig) (h := h)
    as (calls & h1 & E & _); [|exact Hok|].
  { pose proof Hsur as [_ Hinv _ _]. apply (session_application_ok _ (CfgMaxLineLen CrunchLoopConfig) kCliMaxPayload); [done|]. apply crunch_application_ok. }
  rewrite E. cbn [mbind option_bind]. change (sc_app (make_control example_deps)) with true. cbn iota beta.
  assert (Hb : bystander h h1) by (eapply drain_commands_within; [apply _|done|done|exact E]).
  destruct (bystander_plays cs h h1 Hb Hp) as (Hd & Hw & Hs). split; [exact Hd|]. split; [exact Hw|].
  rewrite app_nil_r in Hs. rewrite call_run_snoc, <- Hs. done.
Qed.

Lemma diag_plays cs now h : plays cs [] h (diag_callback (with_servo base) now h).
Proof.
  intros [Hok Hd [ms Hw] Hs]. pose proof Hsur as [Hbase Hinv Hkick Hothers]. rewrite app_nil_r, <- Hs.
  destruct (diag_prints CrunchLoopConfig base [] long_bits example_deps snap ct cm dg) with (now := now) (h := h) (ms := ms) as (Hd' & Es & _ & Hw' & _);
    try done; [vm_compute; lia|by intros t ?%not_elem_of_nil|by destruct Hok; split|].
  split; [exact Hd'|]. split; [by eexists|exact Es].
Qed.

(** One event. *)
Lemma performs_plays e cs h h1 : performs crunchloop_env e h h1 -> plays cs (loop_calls (calls_of [e])) h h1.
Proof.
  pose proof Hsur as [_ _ _ Hothers].
  assert (Htick : forall tid now h, plays cs (if decide (tid = ct) then [AppTick] else []) h (env_tick crunchloop_env tid now h)).
  { intros tid now h'. simpl. case_decide as E1; [apply control_plays|].
    case_decide as E2; [apply bystander_plays; unfold comms_callback; by destruct (comms_tick _ _ _ _ _ _)|].
    case_decide as E3; [apply diag_plays|]. case_decide as E4; [by apply bystander_plays|]. apply bystander_plays, (ew_tick _ _ Hothers). }
  intros Hp. destruct Hp as [tid h|core slot tid now h|tid now h|tid actual wcet h|core tid now elapsed h|tid h|f h|h|ms h];
    unfold loop_calls; cbn [calls_of omap list_omap loop_call].
  - apply bystander_plays. simpl. case_decide; [done|]. case_decide; [unfold comms_init_callback; by destruct (comms_init _ _ _ _ _)|].
    case_decide; [apply diag_init_bystander|]. case_decide; [done|]. apply (ew_init _ _ Hothers).
  - pose proof (Htick tid now h). by case_decide.
  - pose proof (Htick tid now h). by case_decide.
  - apply bystander_plays. simpl. repeat (case_decide; [done|]). apply (ew_overrun _ _ Hothers).
  - simpl. destruct tid as [|tid]; [apply (on_program_plays (ServoCrunch now))|apply bystander_plays, (ew_crunch _ _ Hothers)].
  - simpl. destruct tid as [|tid]; [apply (on_program_plays ServoAbort)|apply bystander_plays, (ew_abort _ _ Hothers)].
  - apply bystander_plays, (ew_stop _ _ Hothers).
  - apply bystander_plays, (ew_kick _ _ Hothers).
  - apply bystander_plays, (ew_peers _ _ Hothers).
Qed.

Lemma effect_played es cs h h' : effect crunchloop_env es h h' -> played cs h -> played (cs ++ loop_calls (calls_of es)) h'.
Proof.
  pose proof crunchloop_env_ok as Henv. intros He. revert cs. induction He as [h|h h1 h2 es Hb He IH|e h h1 h2 es Hp He IH]; intros cs Hpl.
  - by rewrite app_nil_r.
  - apply IH. assert (Hby : bystander h h1) by (destruct Hb as [[_ Hw _ Htl _ _] _ _]; split; congruence).
    destruct (bystander_plays cs h h1 Hby Hpl) as (Hd & Hw & Hs). rewrite app_nil_r in Hs. split; [|done..]. apply (be_ok _ _ _ Hb), Hpl.
  - change (e :: es) with ([e] ++ es). unfold loop_calls. rewrite calls_of_app, omap_app, app_assoc. apply IH.
    destruct (performs_plays e cs h h1 Hp Hpl) as (Hd & Hw & Hs). split; [|exact Hd|exact Hw|exact Hs].
    eapply (effect_ok crunchloop_env Henv [e]); [by apply effect_event|apply Hpl].
Qed.

End program.

(** A clock that shows 40 microseconds more with each reading; the time limit is 20 milliseconds. *)
Definition loop_base : Env World := quiet_base (option CrunchLoop) CrunchLoopConfig 40 20000.


Definition loop_outcome (step endAt : Z) (turns : nat) :=
  let base := quiet_base (option CrunchLoop) CrunchLoopConfig step endAt in
  '(_, s) ← crunchloop_start base 32 session_snap false;
  m ← multi_run (crunchloop_env base 32 session_snap) (in_turn turns) (multi_start (crunchloop_env base 32 session_snap) s);
  x ← state_of (sy_shared (mu_system m));
  Some (sy_kernelState (mu_system m), seqNum <$> consumed x, m_iterationCount (the_servo x), m_aborted (the_servo x), m_seq (the_app x)).

(** In turns each iteration finds the target of the tick before it, until the time is up; with a
    clock so fast that every iteration overruns, the tenth is the last, and ends the program. *)
Example crunchloop_outcomes :
  loop_outcome 40 20000 300 = Some (SHUTDOWN, Z.of_nat <$> seq 1 56, 56%Z, false, 56%Z) /\
  loop_outcome 300 200000 300 = Some (SHUTDOWN, Z.of_nat <$> seq 1 10, 10%Z, true, 11%Z).
Proof. split; vm_compute; reflexivity. Qed.
