(* ===== verification/TcpStream.v ===== *)
(** * The TCP stream ([exampleProjects/common/hal/TcpStreamServer.h])

    A stream over a socket: a thread receives into a ring of 4096 bytes, the kernel's tasks
    read from it. The ring is only touched under a mutex, so that a step here is one locked
    section, or one atomic access; steps of the two threads come in any order. What the
    operating system answers ([socket], [bind], [accept], [recv], [send]) is an argument. *)

From S2P Require Import Prelude Cli.

Definition kRxBufSize : nat := 4096.

(** Where the receive thread stands: at the head of its loop, in [recv], or gone. *)
Inductive rx_thread := RxCheck | RxRecv | RxDone.

(** [m_clientFd] and [m_serverFd] are valid or not; [sent] is what the socket has taken. *)
Record TcpStreamServer := Tcp {
  m_serverFd : bool;
  m_clientFd : bool;
  m_connected : bool;
  m_rxBuf : list Z;
  m_rxHead : nat;
  m_rxTail : nat;
  m_rxLen : nat;
  m_rxThread : rx_thread;
  sent : list Z;
}.

Definition new_tcp : TcpStreamServer := Tcp false false false (replicate kRxBufSize 0%Z) 0 0 0 RxDone [].

Definition set_sockets (server client connected : bool) (thread : rx_thread) (t : TcpStreamServer) : TcpStreamServer :=
  Tcp server client connected (m_rxBuf t) (m_rxHead t) (m_rxTail t) (m_rxLen t) thread (sent t).
Definition set_thread (thread : rx_thread) (t : TcpStreamServer) : TcpStreamServer :=
  set_sockets (m_serverFd t) (m_clientFd t) (m_connected t) thread t.

(** The arguments: did [socket], [bind] and [accept] succeed? *)
Definition startAccept (socket bind accept : bool) (t : TcpStreamServer) : bool * TcpStreamServer :=
  if negb socket then (false, set_sockets false (m_clientFd t) (m_connected t) (m_rxThread t) t)
  else if negb bind then (false, set_sockets false (m_clientFd t) (m_connected t) (m_rxThread t) t)
  else if negb accept then (false, set_sockets false false (m_connected t) (m_rxThread t) t)
  else (true, set_sockets true true true RxCheck t).

(** Up to the [join]. *)
Definition stop (t : TcpStreamServer) : TcpStreamServer := set_sockets false false false (m_rxThread t) t.

Definition available (t : TcpStreamServer) : nat := m_rxLen t.

Definition isConnected (t : TcpStreamServer) : bool := m_connected t.

(** The loop of [read]. *)
Fixpoint read_loop (n : nat) (t : TcpStreamServer) (out : list Z) : option (list Z * TcpStreamServer) :=
  match n with
  | O => Some (out, t)
  | S n =>
      b ← load (m_rxBuf t) (m_rxHead t);
      read_loop n (Tcp (m_serverFd t) (m_clientFd t) (m_connected t) (m_rxBuf t) ((m_rxHead t + 1) mod kRxBufSize) (m_rxTail t) (m_rxLen t)
        (m_rxThread t) (sent t)) (out ++ [b])
  end.

Definition tcp_read (max_len : nat) (t : TcpStreamServer) : option (list Z * TcpStreamServer) :=
  let n := if decide (max_len < m_rxLen t) then max_len else m_rxLen t in
  '(out, t) ← read_loop n t [];
  Some (out, Tcp (m_serverFd t) (m_clientFd t) (m_connected t) (m_rxBuf t) (m_rxHead t) (m_rxTail t) (m_rxLen t - n) (m_rxThread t) (sent t)).

(** [taken] is what [send] answers. *)
Definition tcp_write (taken : Z) (data : list Z) (t : TcpStreamServer) : nat * TcpStreamServer :=
  if negb (m_clientFd t) || negb (m_connected t) then (0, t)
  else
    let n := Z.to_nat taken in
    (n, Tcp (m_serverFd t) (m_clientFd t) (m_connected t) (m_rxBuf t) (m_rxHead t) (m_rxTail t) (m_rxLen t) (m_rxThread t)
      (sent t ++ take n data)).

(** One byte into the ring; the newest is dropped when it is full. *)
Definition rx_byte (b : Z) (t : TcpStreamServer) : option TcpStreamServer :=
  if decide (m_rxLen t < kRxBufSize) then
    buf ← store (m_rxBuf t) (m_rxTail t) b;
    Some (Tcp (m_serverFd t) (m_clientFd t) (m_connected t) buf (m_rxHead t) ((m_rxTail t + 1) mod kRxBufSize) (S (m_rxLen t))
      (m_rxThread t) (sent t))
  else Some t.

Fixpoint rx_bytes (bs : list Z) (t : TcpStreamServer) : option TcpStreamServer :=
  match bs with
  | [] => Some t
  | b :: bs => t ← rx_byte b t; rx_bytes bs t
  end.

(** A step of [rxLoop]; [received] is what [recv] answers, [None] when there is no more. *)
Definition rx_step (received : option (list Z)) (t : TcpStreamServer) : option TcpStreamServer :=
  match m_rxThread t with
  | RxCheck => Some (set_thread (if m_connected t then RxRecv else RxDone) t)
  | RxRecv =>
      match received with
      | None | Some [] => Some (set_sockets (m_serverFd t) (m_clientFd t) false RxDone t)
      | Some bs => t ← rx_bytes bs t; Some (set_thread RxCheck t)
      end
  | RxDone => Some t
  end.

(** ** The ring is a queue *)

(** The bytes that wait, oldest first. *)
Record ring_rep (t : TcpStreamServer) (q : list Z) : Prop := {
  tr_length : length (m_rxBuf t) = kRxBufSize;
  tr_head : m_rxHead t < kRxBufSize;
  tr_tail : m_rxTail t = (m_rxHead t + length q) mod kRxBufSize;
  tr_room : length q <= kRxBufSize;
  tr_bytes i b : q !! i = Some b -> m_rxBuf t !! ((m_rxHead t + i) mod kRxBufSize) = Some b;
}.

Definition tcp_rep (t : TcpStreamServer) (q : list Z) : Prop := ring_rep t q /\ m_rxLen t = length q.

Lemma new_tcp_rep : tcp_rep new_tcp [].
Proof. split; [|done]. split; cbn; unfold kRxBufSize; [done|lia|done|lia|done]. Qed.

#[local] Arguments kRxBufSize : simpl never.

(** Two places of the ring. *)
Lemma ring_index_inj head i j : i < kRxBufSize -> j < kRxBufSize -> (head + i) mod kRxBufSize = (head + j) mod kRxBufSize -> i = j.
Proof.
  assert (H : forall i j, i <= j -> j < kRxBufSize -> (head + i) mod kRxBufSize = (head + j) mod kRxBufSize -> i = j).
  { clear i j. intros i j Hij Hj E. unfold kRxBufSize in *.
    pose proof (Nat.div_mod (head + i) 4096 ltac:(lia)). pose proof (Nat.div_mod (head + j) 4096 ltac:(lia)).
    rewrite E in *. nia. }
  intros Hi Hj E. destruct (decide (i <= j)); [by apply H|symmetry; apply H; [lia|done|done]].
Qed.

Lemma rx_byte_ok b t q : tcp_rep t q -> exists t', rx_byte b t = Some t' /\ tcp_rep t' (take kRxBufSize (q ++ [b])) /\
  m_connected t' = m_connected t /\ m_clientFd t' = m_clientFd t /\ sent t' = sent t.
Proof.
  intros [[Hb Hh Ht Hr Hq] Hl]. unfold rx_byte. rewrite Hl. case_decide as Hroom.
  - assert (Htl : m_rxTail t < kRxBufSize) by (rewrite Ht; apply Nat.mod_upper_bound; unfold kRxBufSize; lia).
    rewrite store_ok by lia. cbn [mbind option_bind]. eexists. split; [done|]. split; [|done].
    rewrite firstn_all2 by (rewrite length_app; simpl; lia). split; [split|]; cbn; rewrite ?length_insert, ?length_app; cbn [length]; try done; try lia.
    + rewrite Ht, Nat.Div0.add_mod_idemp_l. f_equal. lia.
    + intros i c Hi. destruct (decide (i = length q)) as [->|Hne].
      * rewrite list_lookup_middle in Hi by done. injection Hi as <-. rewrite <- Ht. by apply list_lookup_insert_eq; lia.
      * assert (Hiq : i < length q).
        { apply lookup_lt_Some in Hi. rewrite length_app in Hi. cbn in Hi. lia. }
        rewrite lookup_app_l in Hi by done. rewrite list_lookup_insert_ne; [by apply Hq|]. rewrite Ht. intros E.
        apply ring_index_inj in E; lia.
  - exists t. split; [done|]. split; [|done]. rewrite take_app_le, firstn_all2 by lia. by split; [split|].
Qed.

Lemma rx_bytes_ok bs t q : tcp_rep t q -> exists t', rx_bytes bs t = Some t' /\ tcp_rep t' (take kRxBufSize (q ++ bs)) /\
  m_connected t' = m_connected t /\ m_clientFd t' = m_clientFd t /\ sent t' = sent t.
Proof.
  revert t q. induction bs as [|b bs IH]; intros t q Hq; cbn [rx_bytes].
  - exists t. rewrite app_nil_r, firstn_all2 by apply Hq. by split.
  - destruct (rx_byte_ok b t q Hq) as (t1 & -> & H1 & C1 & F1 & S1). cbn [mbind option_bind].
    destruct (IH t1 _ H1) as (t' & -> & H' & C' & F' & S'). exists t'. split; [done|]. split; [|split_and!; congruence].
    assert (E : take kRxBufSize (take kRxBufSize (q ++ [b]) ++ bs) = take kRxBufSize (q ++ b :: bs)); [|by rewrite <- E].
    destruct (decide (length q < kRxBufSize)).
    + rewrite (firstn_all2 (q ++ [b])) by (rewrite length_app; simpl; lia). by rewrite <- app_assoc.
    + pose proof (tr_room _ _ (proj1 Hq)). assert (Ef : forall r, take kRxBufSize (q ++ r) = q) by (intros r; rewrite take_app_le, firstn_all2 by lia; done).
      by rewrite !Ef.
Qed.

Lemma read_loop_ok n t q out : ring_rep t q -> n <= length q -> exists t', read_loop n t out = Some (out ++ take n q, t') /\
  ring_rep t' (drop n q) /\ m_rxLen t' = m_rxLen t /\ m_connected t' = m_connected t /\ m_clientFd t' = m_clientFd t /\
  m_rxThread t' = m_rxThread t /\ sent t' = sent t.
Proof.
  revert t q out. induction n as [|n IH]; intros t q out Hq Hn; cbn [read_loop].
  - exists t. rewrite take_0, app_nil_r. split; [done|]. split; [exact Hq|done].
  - destruct q as [|b q]; [cbn in Hn; lia|]. destruct Hq as [Hb Hh Ht Hr Hx]. cbn [length] in *.
    pose proof (Hx 0 b eq_refl) as H0. rewrite Nat.add_0_r, Nat.mod_small in H0 by done. unfold load. rewrite H0. cbn [mbind option_bind].
    set (t1 := Tcp _ _ _ _ _ _ _ _ _). assert (H1 : ring_rep t1 q).
    { split; cbn; try done; try lia.
      - apply Nat.mod_upper_bound. unfold kRxBufSize. lia.
      - rewrite Ht, Nat.Div0.add_mod_idemp_l. f_equal. lia.
      - intros i c Hi. rewrite Nat.Div0.add_mod_idemp_l. replace (m_rxHead t + 1 + i) with (m_rxHead t + S i) by lia. by apply Hx. }
    destruct (IH t1 q (out ++ [b]) H1) as (t' & E & H'); [lia|]. exists t'. by rewrite E, <- app_assoc.
Qed.

(** Reading takes from the front of the queue, as many bytes as there are. *)
Lemma tcp_read_ok n t q : tcp_rep t q -> exists t', tcp_read n t = Some (take n q, t') /\ tcp_rep t' (drop n q) /\
  m_connected t' = m_connected t /\ m_clientFd t' = m_clientFd t /\ m_rxThread t' = m_rxThread t /\ sent t' = sent t.
Proof.
  intros [Hq Hl]. unfold tcp_read. rewrite Hl. set (k := if decide _ then _ else _).
  assert (Ek : k <= length q /\ take k q = take n q /\ drop k q = drop n q).
  { unfold k. case_decide; [split_and!; [lia|done|done]|]. rewrite !firstn_all2, !drop_ge by lia. done. }
  destruct Ek as (Hk & Et & Ed). destruct (read_loop_ok k t q [] Hq Hk) as (t' & -> & H' & Hl' & Hf). cbn [mbind option_bind app].
  eexists. rewrite Et. split; [done|]. split; [|exact Hf]. rewrite <- Ed. split; [by destruct H'; split|]. cbn. rewrite Hl', Hl, length_drop. done.
Qed.

(** ** The stream of the kernel *)

(** [send] takes [taken data] bytes; what it answers is not looked at. *)
Definition tcp_stream (taken : list Z -> Z) : IStream TcpStreamServer := {|
  stream_available := available;
  stream_read n t := default ([], t) (tcp_read n t);
  stream_write data t := (tcp_write (taken data) data t).2;
|}.

(** ** Both threads *)

(** The kernel's calls, and the steps of the receive thread. *)
Inductive tcp_op :=
  | OpAvailable
  | OpRead (max_len : nat)
  | OpWrite (taken : Z) (data : list Z)
  | OpStop
  | OpReceive (received : option (list Z)).

(** What has been received from the socket, what has been read, and whether all that came
    found room. *)
Record traffic := Traffic {
  tf_received : list Z;
  tf_read : list Z;
  tf_room : bool;
}.

Definition tcp_step (op : tcp_op) (x : traffic * TcpStreamServer) : option (traffic * TcpStreamServer) :=
  let '(tf, t) := x in
  match op with
  | OpAvailable => Some (tf, t)
  | OpRead n => '(bs, t) ← tcp_read n t; Some (Traffic (tf_received tf) (tf_read tf ++ bs) (tf_room tf), t)
  | OpWrite taken data => Some (tf, (tcp_write taken data t).2)
  | OpStop => Some (tf, stop t)
  | OpReceive received =>
      let bs := match m_rxThread t, received with RxRecv, Some bs => bs | _, _ => [] end in
      let room := tf_room tf && bool_decide (available t + length bs <= kRxBufSize) in
      t ← rx_step received t;
      Some (Traffic (tf_received tf ++ bs) (tf_read tf) room, t)
  end.

Fixpoint tcp_run (ops : list tcp_op) (x : traffic * TcpStreamServer) : option (traffic * TcpStreamServer) :=
  match ops with
  | [] => Some x
  | op :: ops => x ← tcp_step op x; tcp_run ops x
  end.

(** Nothing out of order, nothing twice; lost only for want of room. *)
Definition delivered (x : traffic * TcpStreamServer) : Prop :=
  exists q, tcp_rep x.2 q /\ (tf_read x.1 ++ q) `sublist_of` tf_received x.1 /\
    (tf_room x.1 = true -> tf_read x.1 ++ q = tf_received x.1).

Lemma tcp_rep_same t t' q : m_rxBuf t' = m_rxBuf t -> m_rxHead t' = m_rxHead t -> m_rxTail t' = m_rxTail t -> m_rxLen t' = m_rxLen t ->
  tcp_rep t q -> tcp_rep t' q.
Proof. intros E1 E2 E3 E4 [[? ? ? ? ?] ?]. split; [split|]; rewrite ?E1, ?E2, ?E3, ?E4; done. Qed.

Lemma tcp_step_ok op x : delivered x -> exists x', tcp_step op x = Some x' /\ delivered x'.
Proof.
  destruct x as [tf t]. intros (q & Hq & Hs & Hr). cbn [fst snd] in *. destruct op as [|n|taken data| |received]; cbn [tcp_step].
  - eexists. split; [done|]. by exists q.
  - destruct (tcp_read_ok n t q Hq) as (t' & -> & H' & _). cbn [mbind option_bind]. eexists. split; [done|]. exists (drop n q). cbn.
    rewrite <- app_assoc, take_drop. done.
  - eexists. split; [done|]. exists q. cbn. split; [|done]. unfold tcp_write. case_match; [done|]. by eapply tcp_rep_same; [..|exact Hq].
  - eexists. split; [done|]. exists q. cbn. split; [|done]. by eapply tcp_rep_same; [..|exact Hq].
  - set (bs := match m_rxThread t with RxRecv => _ | _ => _ end).
    assert (Hstep : exists t', rx_step received t = Some t' /\ tcp_rep t' (take kRxBufSize (q ++ bs))).
    { pose proof (tr_room _ _ (proj1 Hq)) as Hroom.
      assert (Hsame : forall t', m_rxBuf t' = m_rxBuf t -> m_rxHead t' = m_rxHead t -> m_rxTail t' = m_rxTail t -> m_rxLen t' = m_rxLen t ->
        tcp_rep t' (take kRxBufSize (q ++ []))).
      { intros t' E1 E2 E3 E4. rewrite app_nil_r, firstn_all2 by lia. by eapply tcp_rep_same. }
      unfold rx_step, bs. destruct (m_rxThread t); [eexists; split; [done|]; by apply Hsame| |eexists; split; [done|]; by apply Hsame].
      destruct received as [[|b bs']|]; [eexists; split; [done|]; by apply Hsame| |eexists; split; [done|]; by apply Hsame].
      destruct (rx_bytes_ok (b :: bs') t q Hq) as (t' & -> & H' & _). cbn [mbind option_bind]. eexists. split; [done|].
      by eapply tcp_rep_same; [..|exact H']. }
    destruct Hstep as (t' & -> & H'). cbn [mbind option_bind]. eexists. split; [done|]. exists (take kRxBufSize (q ++ bs)). split; [exact H'|].
    cbn [fst snd tf_read tf_received tf_room]. split.
    + etransitivity; [|apply sublist_app; [exact Hs|reflexivity]]. rewrite <- app_assoc. apply sublist_app; [done|]. apply sublist_take.
    + intros [Htf Hroom%bool_decide_eq_true]%andb_true_iff. unfold available in Hroom. rewrite (proj2 Hq) in Hroom.
      rewrite firstn_all2 by (rewrite length_app; lia). rewrite app_assoc, Hr by done. done.
Qed.

(** C18 The stream delivers: whatever the order in which the kernel's reads and writes and the
    receive thread's steps come, and whatever the socket answers, no access leaves the ring;
    what has been read, followed by what waits, are bytes received, in their order, none
    twice; and it is all that was received, as long as no chunk found too little room. The
    ring never holds more than its size, and [available] is what a read of any length that
    large would give. *)
Theorem tcp_delivers (ops : list tcp_op) :
  exists tf t q, tcp_run ops (Traffic [] [] true, (startAccept true true true new_tcp).2) = Some (tf, t) /\
    (forall n, exists t', tcp_read n t = Some (take n q, t')) /\ available t = length q /\ length q <= kRxBufSize /\
    (tf_read tf ++ q) `sublist_of` tf_received tf /\ (tf_room tf = true -> tf_read tf ++ q = tf_received tf).
Proof.
  assert (H : forall ops x, delivered x -> exists x', tcp_run ops x = Some x' /\ delivered x').
  { clear ops. induction ops as [|op ops IH]; intros x Hx; cbn [tcp_run]; [by exists x|].
    destruct (tcp_step_ok op x Hx) as (x1 & -> & H1). cbn [mbind option_bind]. by apply IH. }
  destruct (H ops (Traffic [] [] true, (startAccept true true true new_tcp).2)) as ([tf t] & E & q & Hq & Hs & Hr).
  { exists []. split; [|done]. eapply tcp_rep_same; [..|exact new_tcp_rep]; done. }
  exists tf, t, q. split; [exact E|]. split; [intros n; destruct (tcp_read_ok n t q Hq) as (t' & E' & _); by exists t'|].
  destruct Hq as [Hq Hl]. split; [exact Hl|]. split; [apply (tr_room _ _ Hq)|]. by split.
Qed.

(** A chunk is received, and read in two parts while the peer hangs up. *)
Example tcp_session :
  (fun x => (tf_read x.1, available x.2, isConnected x.2, m_rxThread x.2)) <$>
    tcp_run [OpReceive None; OpReceive (Some [1; 2; 3]%Z); OpRead 2; OpReceive None; OpReceive None; OpRead 9; OpReceive (Some [4]%Z)]
      (Traffic [] [] true, (startAccept true true true new_tcp).2) = Some ([1; 2; 3]%Z, 0, false, RxDone).
Proof. vm_compute. reflexivity. Qed.
