(* ===== verification/Templates.v ===== *)
(** * The project templates ([templates/])

    What a new project starts from: a configuration of the required members only, an
    application without behaviour, a clock that stands still and a stream that drops what it
    gets. *)

From S2P Require Import Prelude Protocol Queue Metrics Telemetry Kernel Sched Crunch Run Builder Diagnostics Cli Comms Pipeline Config Device KernelTasks Session Effects ExampleApp.

(** Every optional member is commented out. *)
Definition MyProjectConfig : UserConfig := required_config 1 16.

Definition template_calls : list registration := [SetDrain true].

(** [MyStream]: nothing to read, and writes are lost. *)
#[local] Instance MyStream : IStream unit := {|
  stream_available _ := 0;
  stream_read _ st := ([], st);
  stream_write _ st := st;
|}.

#[local] Instance MyStream_laws : StreamLaws unit.
Proof. split. intros n st. cbn. lia. Qed.

(** [platformGetTimeMicros]: zero, until the project replaces it. *)
Definition template_base : Env (World (Bench unit)) := quiet_base unit MyProjectConfig 0 1.

(** The values in the comments are the defaults, but for the highest command. *)
Example template_defaults :
  let c := MyProjectConfig in
  (commands_per_tick c, CfgControlBudgetUs c, CfgCommsBudgetUs c, CfgDiagsBudgetUs c, CfgMinGapSliceUs c, CfgMinSchedulePeriodUs c,
   CfgMetricsWindowUs c, CfgStrictWCET c, CfgMaxSlotsPerCore c, CfgMaxBackgroundTasks c, CfgCrunchMaxOverruns c) =
    (8, 10000%Z, 1000%Z, 10000%Z, 10%Z, 10%Z, 60000000%Z, false, 32, 16, 10%Z) /\
  (CfgErrorLogCapacity c, CfgTelemetryLogCapacity c, CfgMaxInterlockConditions c, CfgMaxLineLen c, CfgMaxFramePayload c, CfgIsrContextBudgetUs c) =
    (32, 32, 8, 64, 256, [0; 0]%Z).
Proof. by vm_compute. Qed.

(** It is built and runs; without a stop condition the loop does not end. *)
Example template_runs :
  ('(r, s) ← example_start MyProjectConfig template_base [] 32 session_snap 10 11 12 tt
     (setMonitoredTasks [10; 11] (setTelemetryDrain true (make_diags MyProjectConfig example_deps))) template_calls;
   '(fin, s) ← sys_run (example_env MyProjectConfig template_base [] 32 example_deps session_snap 10 11 12) 50 0 s;
   Some (r, fin, sy_kernelState s)) = Some (BuildOk, false, RUNNING).
Proof. vm_compute. reflexivity. Qed.
